(* ===== verification/_CoqProject ===== *)
-Q . S2P
Prelude.v
Gran.v
GranInfo.v
Bitmap.v
BitmapOps.v
KList.v
ListOps.v
Libc.v
Board.v
Task.v
Sched.v
Timer.v
SchedFrame.v
PageTable.v
AddrSpace.v
Boot.v
Entry.v
Bytes.v
Space.v
Mmap.v
Elf.v
ElfLoad.v
Elf32.v
UserMem.v
Gic.v
Traps.v
Init.v
Start.v
System.v
Session.v
Stubs.v
Crt.v
Cache.v
Uart.v
Dtoa.v
Rand.v
Printf.v
PrintfSpec.v
Ulltoa.v
Ftoa.v
Output.v
Report.v
