(* ===== verification/Prelude.v ===== *)
(** * ChinOS: a verification of the kernel

    ChinOS is a small kernel for 64-bit ARM (QEMU's virt board, GICv3) that runs
    a user program from an ELF image.  This development models its code under
    src/os and the start-up code of its programs as executable Rocq functions, one
    definition per function, and proves what makes the components correct.

    ** The program and its parts

    At power-on arch/arm64/entry.S comes down to EL1, calls setup.c, which builds
    two page tables, turns the MMU on and jumps to the kernel's own addresses;
    core/init/init.c then clears the variables, lays out a heap behind the image
    (core/mm/mm_gran.c), brings up the interrupt controller (dev/interrupt,
    core/irq) and the kernel's own tables (core/mm/addrspace.c on top of
    arch/arm64/pagetable.c), creates the idle task and the first user task
    (core/sched/task.c), loads the user's image (lib/libelf), starts the timer
    and idles.  From then on the kernel is entered by exceptions only
    (arch/arm64/vector.S, traps.c, context.c): the timer's interrupt and the
    system calls (lib/libsyscalls), which end in the scheduler
    (core/sched/scheduler.c) and the return to a task.  mmap and brk
    (core/mm/mmap.c) take memory from the same heap, and every queue is an
    intrusive list (include/uapi/list.h).

    ** How the code is modelled

    Integers are [Z] with the conversions of C written out ([u32], [u64], [s32],
    [s64]).  A function that can fail returns an [outcome]: [Halt] for a failed
    assertion or PANIC, [Fault] for an access outside an object, [Diverge] for
    a loop whose fuel ran out.  Pointers are addresses: list nodes live in a
    [store], control blocks in a map from address to record, page tables and
    program memory in a map of 64-bit words that the byte routines share.
    State is passed explicitly; what the linker, the hardware registers and the
    counter decide is an argument.  The kernel's messages are modelled on their own
    (the text of each call, and its way to the line), not threaded through every
    caller.

    ** Files

    - [Prelude]: integers, outcomes, checked arrays, bit lemmas, tactics, hints.
    - [Gran] (mm_gran.c): the granule allocator.  [GranInfo] (mm_graninfo.c):
      its statistics by divide and conquer over bit patterns.
    - [Bitmap] (lib/libutils): bitmaps, searches, population count.
      [BitmapOps] (bitmap.h): the inline wrappers with and without a constant size.
    - [KList] (list.h): intrusive lists over a store of nodes.  [ListOps]: cutting,
      splicing and the hash lists.
    - [Libc] (lib/libc): memset, memcpy, string routines.
    - [Board] (board.h): the memory map, address conversion and configuration.
    - [Task] (task.c, context.c): control blocks, task identifiers, address
      space identifiers with generations, register frames.
    - [Sched] (scheduler.c): ready queues by priority with a two-level bitmap,
      pending queue, the choice of the next task.  [Timer] (timer.c,
      dev/timer): timer interrupts and sleeping as sequences of events.
      [SchedFrame]: the scheduler touches no list node but its tasks and queues.
    - [PageTable] (pagetable.c): the mapping loops, over two interfaces (how
      table addresses become descriptors; where pages come from), and the walk
      of the hardware.  [AddrSpace] (addrspace.c) and [Boot] (setup.c) are the
      two instances of the interfaces.
    - [Entry] (entry.S, fpu.c): the boot assembly, run by a small machine with
      exception levels, system registers and fetches through the tables.
    - [Bytes]: the byte view of the word memory.  [Space]: what a program's tables
      show, and which steps keep it the program's own.  [Mmap] (mmap.c): break
      and mappings.  [UserMem]: a program's stores and calls refine an abstract
      memory.
    - [Elf] (lib/libelf): the loader.  [ElfLoad]: its proofs.  [Elf32] (elf32.c):
      the check of 32-bit headers.
    - [Gic] (gicv3.c, core/irq): the interrupt controller as the sequence of
      its register writes, and the interrupt table.
    - [Traps] (traps.c, fault.c, vector.S, libsyscalls): exceptions, system
      calls and interrupts on the composed state of all components.
    - [Init] (init.c, cpu.c): the start of the kernel in its order.  [Start]:
      its proofs, from the linker's layout to the first user instruction.
    - [System]: one step relation over all exceptions, from the booted kernel.
      [Session]: the program of the image in that system, with its memory calls.
    - [Stubs] (syscall.h): the user side of a system call.  [Crt] (app/crt): the
      start-up code of a program.
    - [Cache] (cache.c): maintenance by way and set, as a trace of instructions.
    - [Uart] (uart.c): the serial port, its polls and writes as a trace.
    - [Dtoa] (k_dtoa_engine.c, k_dtoa_data.c): decimal digits of a double, on the
      binary64 of the Standard Library.  [Rand] (k_srand.c): the generators.
    - [Printf] (k_printf.c): the format parser and all conversions.  [PrintfSpec]:
      formats as lists of items and the text they stand for.  [Ulltoa], [Ftoa]: the
      two digit routines of the file that nothing calls.  [Output]: the theorems on
      messages.  [Report] (pagetable.c, init.c): the routines that print state.

    ** What is proved

    - Allocator: [gran_alloc] is exact first fit and frees restore the state;
      in every reachable state live blocks are disjoint; the statistics are
      exact and predict which requests succeed.
    - Bitmaps, lists, strings: each routine equals its specification on lists,
      sets of bits or byte strings, whatever the layout in memory.
    - Tasks: live tasks have distinct identifiers; two user tasks never run
      under the same address space identifier across generation rollovers, until
      the 32-bit generation itself wraps.
    - Scheduler: the choice is the most urgent ready task; no sequence of
      interrupts and sleeps loses a task, fails an assertion or loops.
    - Address spaces: after a mapping the hardware walk gives exactly the asked
      translation on the range and the old one elsewhere; only tables are
      written and new tables come from free pages; permissions are as computed.
    - Programs: mmap and the loader show zeroed or file contents at the asked
      addresses in memory nobody else uses, and the loader gives the pages of its
      list back; bad images are refused.  brk zeroes the bytes asked for; the rest
      of its last page shows what the heap held.  The program's own stores, mmap and
      brk together implement an abstract memory, with exactly that exception.
    - Interrupts: the controller is configured as intended and its
      initialisation ends whatever the hardware answers; enabling and disabling
      act as on a set.
    - Exceptions: a timer interrupt and a system call return to a task with the
      register frame of every task preserved (the 34 words [x0] to [x30], program
      counter, stack pointer and processor state, which are the registers that the
      kernel saves), but for the result of the call; the kernel finds number and
      arguments where the stubs put them.
    - Boot code: entered at EL1, at EL2, or at EL3 with RW and NS of SCR_EL3 set, it
      reaches [init_kernel] at its link address with the boot tables on, and no fetch
      fails at the switch.  Interrupts are masked if it was entered above EL1.
    - Start: from the linker's layout, zeroed heap memory and a valid image the
      whole of [init_kernel] returns in a state with all those invariants, in
      which user code finds its program, device page and stack, and the first
      timer interrupt enters the program at its entry point.  From there on no
      sequence of interrupts (of the table, or spurious), stateless calls, sleeps
      whose request the kernel can read and has in range ([sleep_request]), and
      calls of brk that do not grow the heap stops the kernel.
    - The whole: from the start on, in whatever order stores, interrupts, sleeps and
      memory calls of the kinds that [Session] lists arrive (mmap as in
      [mmap_request] or refused; brk as in [brk_kept] or [brk_growth]), the kernel
      finishes every step, and the memory the program sees is its image changed by
      its own operations only.
    - Messages: [kprintf] prints exactly the text its format means, and the port
      sends it in order without overrunning the transmitter; numerals read back;
      floating-point conversions stay in bounds and end; the float digits are correctly rounded; the division by ten with shifts
      is exact up to a limit that is the true one.
    - Caches: cleaning to the point of coherency names every line exactly once, for
      caches of at least two ways whose operand fields do not overlap.

    Theorems that state how the code fails (the examples at the ends of the
    [*Spec] modules) stand next to the theorems that state what holds.

    ** Fuel

    List walks get fuel from their callers; the theorems ask for more than the
    number of tasks, or use the number of nodes in the store, which bounds any
    walk over a well-formed list.  Table loops have fuel for the 512 entries of
    a table, heap scans for the words of the allocation table, controller loops
    for the 1024 interrupts of the architecture and the 10000 polls of the
    source.  Printing takes the fuel that the length of the text asks for; the
    theorems show that some amount is enough and all larger ones too, and where no
    amount is.  The boot code takes at most 51 instructions.  The 65000 steps of
    [System] and [Session] bound the rollovers of the address
    space identifiers, whose generations are 32 bits wide.  Each theorem proves that the call returns, so the fuel suffices.

    ** Not modelled

    Idle and halt (endless loops); the fourth table level, which is not compiled;
    k_sleep.c and buddy.c, which hold no code; the numbered arguments of k_printf.c
    (CONFIG_LIBC_NUMBERED_ARGS is not set); the TLB and the literal pool behind the
    boot code; stores of a program to the device page, which is no memory; the vector
    registers and the floating-point control of a task, which the kernel opens to
    user mode but does not save; the stores of the vector to the boot stack before the
    first task is entered.  That the stack pointer of EL1 is at the control block of the
    running task when it traps is part of the model ([store_context]): it holds while
    the idle loop has no stack frame.  The messages inside [gic_initialize] and other
    routines are dropped there, with the unbounded wait for the serial port in
    each.  Not steps of [Session] and [System], because the code stops or faults on
    them or leaves the range of its integers: an
    mmap of more than 128 KiB or one that the heap cannot serve, a break that grows from
    inside a page or by more than 128 KiB, a nanosleep whose pointer the kernel cannot
    read or whose time is out of range, a break of 2 GiB or more, and interrupts beyond the table; examples
    at the ends of the files show what happens.  An mmap at an address that the
    program chooses is no step either (see [Mmap]).  Not modelled also: the programs' C
    library (app/musl-1.2.3), which is third-party code, and a test program on it.

    ** Plan

    What is left: the messages of the start as one text; the value of the digits
    of [Dtoa]; memory calls of more than one program. *)

From Stdlib Require Import ZArith Lia Bool Btauto.
From stdpp Require Import base numbers list list_numbers gmap.

#[global] Open Scope Z_scope.

(** ** Fixed-width integers

    A C integer of width [w] is a [Z]; the conversions below are the ones the
    compiler inserts on assignment to a narrower or unsigned type. *)

Definition u8 (x : Z) : Z := x mod 2 ^ 8.
Definition u16 (x : Z) : Z := x mod 2 ^ 16.
Definition u32 (x : Z) : Z := x mod 2 ^ 32.
Definition u64 (x : Z) : Z := x mod 2 ^ 64.

Definition s32 (x : Z) : Z :=
  let y := x mod 2 ^ 32 in if y <? 2 ^ 31 then y else y - 2 ^ 32.
Definition s64 (x : Z) : Z :=
  let y := x mod 2 ^ 64 in if y <? 2 ^ 63 then y else y - 2 ^ 64.

(** Bitwise complement at 32 and 64 bits. *)
Definition not32 (x : Z) : Z := Z.ldiff (Z.ones 32) x.
Definition not64 (x : Z) : Z := Z.ldiff (Z.ones 64) x.

(** ** Outcomes

    Every fallible routine returns an [outcome].  [Halt] is what a failed
    [assert] or [PANIC()] does (both end in [halt()], which never returns),
    [Fault] an access outside the object it indexes, and [Diverge] a loop that
    used up the fuel it was given. *)

Inductive outcome (A : Type) : Type :=
| Ok (a : A)
| Halt
| Fault
| Diverge.
Arguments Ok {A} a.
Arguments Halt {A}.
Arguments Fault {A}.
Arguments Diverge {A}.

Definition obind {A B : Type} (m : outcome A) (k : A -> outcome B) : outcome B :=
  match m with
  | Ok a => k a
  | Halt => Halt
  | Fault => Fault
  | Diverge => Diverge
  end.

Declare Scope outcome_scope.
Delimit Scope outcome_scope with outcome.
Notation "'let!' x := m 'in' k" := (obind m (fun x => k))
  (at level 10, x pattern, m at level 100, k at level 200,
   format "'[v' 'let!'  x  :=  m  'in' '/' k ']'") : outcome_scope.
Notation "'assert!' b 'in' k" := (if b then k else Halt)
  (at level 10, b at level 100, k at level 200,
   format "'[v' 'assert!'  b  'in' '/' k ']'") : outcome_scope.
#[global] Open Scope outcome_scope.

#[export] Instance outcome_eq_dec {A} `{EqDecision A} : EqDecision (outcome A).
Proof. solve_decision. Defined.

(** ** Arrays indexed by machine integers *)

Definition aget {A} (l : list A) (i : Z) : outcome A :=
  if 0 <=? i then
    match l !! Z.to_nat i with Some x => Ok x | None => Fault end
  else Fault.

Definition aset {A} (l : list A) (i : Z) (x : A) : outcome (list A) :=
  if (0 <=? i) && (i <? Z.of_nat (length l)) then Ok (<[Z.to_nat i := x]> l) else Fault.

(** ** Proof automation *)

Create HintDb kern discriminated.
Create HintDb kern_arith discriminated.

(** Case analysis on the boolean tests and matches of the code. *)
Ltac destr_if :=
  match goal with
  | |- context [if ?b then _ else _] => let E := fresh "E" in destruct b eqn:E
  | H : context [if ?b then _ else _] |- _ => let E := fresh "E" in destruct b eqn:E
  end.

(** Turn boolean comparisons on [Z] in the context into propositions. *)
Ltac breflect :=
  repeat match goal with
  | H : (_ && _) = true |- _ => apply andb_true_iff in H; destruct H
  | H : (_ || _) = false |- _ => apply orb_false_iff in H; destruct H
  | H : negb _ = true |- _ => apply negb_true_iff in H
  | H : negb _ = false |- _ => apply negb_false_iff in H
  | H : (_ <? _) = true |- _ => apply Z.ltb_lt in H
  | H : (_ <? _) = false |- _ => apply Z.ltb_ge in H
  | H : (_ <=? _) = true |- _ => apply Z.leb_le in H
  | H : (_ <=? _) = false |- _ => apply Z.leb_gt in H
  | H : (_ =? _) = true |- _ => apply Z.eqb_eq in H
  | H : (_ =? _) = false |- _ => apply Z.eqb_neq in H
  end.

Ltac invc H := inversion H; clear H; subst.

(** Rewriting of [Z.testbit] through the bit operators, with side conditions
    on the position left to [lia]. *)
Create Rewrite HintDb bits.
#[export] Hint Rewrite Z.land_spec Z.lor_spec Z.lxor_spec Z.ldiff_spec : bits.
#[export] Hint Rewrite Z.shiftr_spec using lia : bits.
#[export] Hint Rewrite Z.shiftl_spec using lia : bits.
#[export] Hint Rewrite Z.testbit_mod_pow2 using lia : bits.
#[export] Hint Rewrite Z.testbit_ones using lia : bits.
#[export] Hint Rewrite Z.bits_0 : bits.

(** Decide the integer comparisons of the goal, inner ones first. *)
Ltac no_if t := lazymatch t with context [if _ then _ else _] => fail | _ => idtac end.

Ltac decide_cmp :=
  repeat match goal with
  | |- context [?a <? ?b] =>
      no_if a; no_if b;
      first [ rewrite (proj2 (Z.ltb_lt a b)) by lia
            | rewrite (proj2 (Z.ltb_ge a b)) by lia
            | destruct (Z.ltb_spec a b) ]
  | |- context [?a <=? ?b] =>
      no_if a; no_if b;
      first [ rewrite (proj2 (Z.leb_le a b)) by lia
            | rewrite (proj2 (Z.leb_gt a b)) by lia
            | destruct (Z.leb_spec a b) ]
  | |- context [?a =? ?b] =>
      no_if a; no_if b;
      first [ rewrite (proj2 (Z.eqb_eq a b)) by lia
            | rewrite (proj2 (Z.eqb_neq a b)) by lia
            | destruct (Z.eqb_spec a b) ]
  end.

Ltac neg_bits :=
  repeat match goal with
  | |- context [Z.testbit ?x ?i] =>
      rewrite (Z.testbit_neg_r x i) by lia
  end.

(** Prove an equality of integers bit by bit. *)
Ltac bitwise :=
  apply Z.bits_inj'; intros ?i ?Hi;
  autorewrite with bits; decide_cmp; neg_bits; simpl; try btauto; try lia.

(** ** Lemmas on outcomes and arrays *)

Lemma obind_assoc {A B C} (x : outcome A) (f : A -> outcome B) (g : B -> outcome C) :
  obind (obind x f) g = obind x (fun a => obind (f a) g).
Proof. by destruct x. Qed.

Lemma aget_lookup {A} (l : list A) (i : Z) (x : A) :
  0 <= i -> l !! Z.to_nat i = Some x -> aget l i = Ok x.
Proof. intros Hi Hl. unfold aget. rewrite (proj2 (Z.leb_le 0 i)) by lia. by rewrite Hl. Qed.

Lemma aget_inv {A} (l : list A) (i : Z) (x : A) :
  aget l i = Ok x -> 0 <= i < Z.of_nat (length l) /\ l !! Z.to_nat i = Some x.
Proof.
  unfold aget. destruct (Z.leb_spec 0 i); [|done].
  destruct (l !! Z.to_nat i) eqn:E; intros H1; simplify_eq.
  apply lookup_lt_Some in E as Hlt. split; [lia|done].
Qed.

Lemma aget_is_ok {A} (l : list A) (i : Z) :
  0 <= i < Z.of_nat (length l) -> exists x, aget l i = Ok x /\ l !! Z.to_nat i = Some x.
Proof.
  intros Hi. destruct (lookup_lt_is_Some_2 l (Z.to_nat i)) as [x Hx]; [lia|].
  exists x. split; [by apply aget_lookup; [lia|]|done].
Qed.

Lemma aset_ok {A} (l : list A) (i : Z) (x : A) :
  0 <= i < Z.of_nat (length l) -> aset l i x = Ok (<[Z.to_nat i := x]> l).
Proof.
  intros Hi. unfold aset.
  rewrite (proj2 (Z.leb_le 0 i)), (proj2 (Z.ltb_lt i _)) by lia. done.
Qed.

Lemma aset_inv {A} (l l' : list A) (i : Z) (x : A) :
  aset l i x = Ok l' -> 0 <= i < Z.of_nat (length l) /\ l' = <[Z.to_nat i := x]> l.
Proof. unfold aset. destr_if; [|done]. intros H; breflect. simplify_eq. split; [lia|done]. Qed.

(** ** Lemmas on widths and masks *)

Lemma u32_id x : 0 <= x < 2 ^ 32 -> u32 x = x.
Proof. apply Z.mod_small. Qed.

Lemma u64_id x : 0 <= x < 2 ^ 64 -> u64 x = x.
Proof. apply Z.mod_small. Qed.

Lemma u32_bound x : 0 <= u32 x < 2 ^ 32.
Proof. apply Z.mod_pos_bound. lia. Qed.

Lemma u64_bound x : 0 <= u64 x < 2 ^ 64.
Proof. apply Z.mod_pos_bound. lia. Qed.

Lemma s32_id x : - 2 ^ 31 <= x < 2 ^ 31 -> s32 x = x.
Proof.
  intros H. unfold s32. destruct (Z.ltb_spec (x mod 2 ^ 32) (2 ^ 31)) as [Hlt|Hge].
  - destruct (Z.lt_ge_cases x 0).
    + rewrite <- (Z_mod_plus_full x 1) in Hlt. rewrite Z.mod_small in Hlt; lia.
    + apply Z.mod_small; lia.
  - destruct (Z.lt_ge_cases x 0).
    + rewrite <- (Z_mod_plus_full x 1). rewrite Z.mod_small; lia.
    + rewrite Z.mod_small in Hge; lia.
Qed.

Lemma s64_id x : - 2 ^ 63 <= x < 2 ^ 63 -> s64 x = x.
Proof.
  intros H. unfold s64. destruct (Z.ltb_spec (x mod 2 ^ 64) (2 ^ 63)) as [Hlt|Hge].
  - destruct (Z.lt_ge_cases x 0).
    + rewrite <- (Z_mod_plus_full x 1) in Hlt. rewrite Z.mod_small in Hlt; lia.
    + apply Z.mod_small; lia.
  - destruct (Z.lt_ge_cases x 0).
    + rewrite <- (Z_mod_plus_full x 1). rewrite Z.mod_small; lia.
    + rewrite Z.mod_small in Hge; lia.
Qed.

Lemma pow2_pos n : 0 <= n -> 0 < 2 ^ n.
Proof. intros. apply Z.pow_pos_nonneg; lia. Qed.

Lemma pow2_le a b : 0 <= a <= b -> 2 ^ a <= 2 ^ b.
Proof. intros. apply Z.pow_le_mono_r; lia. Qed.

Lemma shiftl1 n : 0 <= n -> Z.shiftl 1 n = 2 ^ n.
Proof. intros. rewrite Z.shiftl_mul_pow2 by lia. lia. Qed.

(** [0xffffffff >> (32 - n)] has exactly its low [n] bits set. *)
Lemma ones_shiftr w n : 0 <= n <= w -> Z.shiftr (Z.ones w) (w - n) = Z.ones n.
Proof. intros. bitwise. Qed.

Lemma bits_bound w x :
  0 <= w -> 0 <= x -> (forall i, w <= i -> Z.testbit x i = false) -> x < 2 ^ w.
Proof.
  intros Hw Hx H. destruct (Z.lt_ge_cases x (2 ^ w)); [done|].
  assert (x <> 0) by (pose proof (pow2_pos w); lia).
  assert (Hb : Z.testbit x (Z.log2 x) = true) by (apply Z.bit_log2; lia).
  rewrite H in Hb; [done|]. apply Z.log2_le_pow2; lia.
Qed.

Lemma testbit_high w x i : 0 <= w -> 0 <= x < 2 ^ w -> w <= i -> Z.testbit x i = false.
Proof.
  intros Hw Hx Hi. rewrite <- (Z.mod_small x (2 ^ w)) by lia.
  apply Z.mod_pow2_bits_high. lia.
Qed.

Lemma lor_bound w x y :
  0 <= w -> 0 <= x < 2 ^ w -> 0 <= y < 2 ^ w -> 0 <= Z.lor x y < 2 ^ w.
Proof.
  intros Hw Hx Hy. assert (0 <= Z.lor x y) by (apply Z.lor_nonneg; lia). split; [done|].
  apply bits_bound; [lia..|]. intros i Hi. rewrite Z.lor_spec.
  rewrite !(testbit_high w) by lia. done.
Qed.

Lemma land_bound_l w x y : 0 <= w -> 0 <= x < 2 ^ w -> 0 <= Z.land x y < 2 ^ w.
Proof.
  intros Hw Hx. assert (0 <= Z.land x y) by (apply Z.land_nonneg; lia). split; [done|].
  apply bits_bound; [lia..|]. intros i Hi. rewrite Z.land_spec.
  rewrite (testbit_high w x) by lia. done.
Qed.

Lemma ldiff_bound w x y : 0 <= w -> 0 <= x < 2 ^ w -> 0 <= Z.ldiff x y < 2 ^ w.
Proof.
  intros Hw Hx. assert (0 <= Z.ldiff x y) by (apply Z.ldiff_nonneg; lia). split; [done|].
  apply bits_bound; [lia..|]. intros i Hi. rewrite Z.ldiff_spec.
  rewrite (testbit_high w x) by lia. done.
Qed.

Lemma ones_bound n w : 0 <= n <= w -> 0 <= Z.ones n < 2 ^ w.
Proof.
  intros. rewrite Z.ones_equiv. pose proof (pow2_pos n). pose proof (pow2_le n w). lia.
Qed.

(** A mask test that succeeds says something about every bit of the mask. *)
Lemma land_eq_0 x m : Z.land x m = 0 <-> forall i, 0 <= i -> Z.testbit m i = true -> Z.testbit x i = false.
Proof.
  split.
  - intros H i Hi Hm. apply (f_equal (fun z => Z.testbit z i)) in H.
    rewrite Z.land_spec, Hm, Z.bits_0, andb_true_r in H. done.
  - intros H. apply Z.bits_inj'; intros i Hi. rewrite Z.land_spec, Z.bits_0.
    destruct (Z.testbit m i) eqn:E; [by rewrite H|apply andb_false_r].
Qed.

Lemma land_eq_mask x m : Z.land x m = m <-> forall i, 0 <= i -> Z.testbit m i = true -> Z.testbit x i = true.
Proof.
  split.
  - intros H i Hi Hm. apply (f_equal (fun z => Z.testbit z i)) in H.
    rewrite Z.land_spec, Hm, andb_true_r in H. done.
  - intros H. apply Z.bits_inj'; intros i Hi. rewrite Z.land_spec.
    destruct (Z.testbit m i) eqn:E; [by rewrite H|apply andb_false_r].
Qed.

(** [x & ~((1 << n) - 1)] rounds [x] down to a multiple of [2 ^ n]. *)
Lemma land_not64_ones x n :
  0 <= x < 2 ^ 64 -> 0 <= n <= 64 -> Z.land x (not64 (2 ^ n - 1)) = x / 2 ^ n * 2 ^ n.
Proof.
  intros Hx Hn. replace (2 ^ n - 1) with (Z.ones n) by (rewrite Z.ones_equiv; lia).
  rewrite <- Z.shiftr_div_pow2, <- Z.shiftl_mul_pow2, <- Z.ldiff_ones_r by lia.
  apply Z.bits_inj'; intros i Hi. unfold not64. autorewrite with bits.
  destruct (Z.lt_ge_cases i 64); [decide_cmp; simpl; btauto|].
  by rewrite (testbit_high 64 x) by lia.
Qed.

Lemma div_mul_bounds x m : 0 < m -> x - m < x / m * m <= x.
Proof. intros. pose proof (Z.div_mod x m). pose proof (Z.mod_pos_bound x m). lia. Qed.

(** The mask of the [n] bits from bit [r] up. *)
Definition range_mask (r n : Z) : Z := Z.shiftl (Z.ones n) r.

Lemma testbit_range_mask r n k :
  0 <= r -> 0 <= n -> 0 <= k -> Z.testbit (range_mask r n) k = (r <=? k) && (k <? r + n).
Proof.
  intros. unfold range_mask. rewrite Z.shiftl_spec, Z.testbit_ones by lia.
  decide_cmp; done || lia.
Qed.

Lemma range_mask_width w r n : 0 <= r -> 0 <= n -> r + n <= w -> 0 <= range_mask r n < 2 ^ w.
Proof.
  intros. assert (0 <= range_mask r n).
  { unfold range_mask. apply Z.shiftl_nonneg. pose proof (ones_bound n n). lia. }
  split; [done|]. apply bits_bound; [lia..|]. intros i Hi.
  rewrite testbit_range_mask by lia. decide_cmp; done || lia.
Qed.

(** Removing one element from a list of [n + 1] leaves [n] others. *)
Lemma nodup_drop {A} `{EqDecision A} (l : list A) i n : NoDup l -> length l = S n ->
  exists l', NoDup l' /\ length l' = n /\ (i ∉ l') /\ forall j, j ∈ l' -> j ∈ l.
Proof.
  intros Hnd Hl. destruct (decide (i ∈ l)) as [Hi|Hi].
  - apply list_elem_of_split in Hi as (l1 & l2 & ->). rewrite length_app in Hl. simpl in Hl.
    rewrite <- Permutation_middle in Hnd. apply NoDup_cons in Hnd as [Hn Hnd].
    exists (l1 ++ l2). split; [done|]. split; [rewrite length_app; lia|]. split; [done|].
    intros j. rewrite !elem_of_app, elem_of_cons. tauto.
  - destruct l as [|x l]; [done|]. apply NoDup_cons in Hnd as [_ Hnd]. exists l.
    split; [done|]. split; [simpl in Hl; lia|]. split; [|by right]. intros Hj. apply Hi. by right.
Qed.
