(* ===== verification/Gran.v ===== *)
(** * The granule allocator (os/core/mm/mm_gran.c, os/core/include/gran.h)

    The kernel heap is a run of granules of [2 ^ log2gran] bytes; the granule
    allocation table (GAT) holds one bit per granule, 32 to a word.  This file
    models the state and every operation of the allocator and proves that the
    word-parallel search of [gran_alloc] is first fit on the table, that
    [gran_free] undoes it, and that live blocks never overlap. *)

From Stdlib Require Import ZArith Lia Bool.
From stdpp Require Import base numbers list list_numbers.
From S2P Require Import Prelude.

(** ** State *)

Record mm_gran : Type := MkGran {
  log2gran : Z;    (* log base 2 of the size of one granule *)
  ngranules : Z;   (* number of aligned granules in the heap *)
  heapstart : Z;   (* aligned start of the granule heap *)
  gat : list Z     (* the 32-bit words from [gat[0]] to the end of the header *)
}.

Definition set_gat (g : mm_gran) (t : list Z) : mm_gran :=
  MkGran (log2gran g) (ngranules g) (heapstart g) t.

Definition ALL1 : Z := 0xffffffff.

(** ** Operations *)

Definition SIZEOF_GAT (n : Z) : Z := Z.shiftr (u32 (n + 31)) 5.

(** [sizeof(struct mm_gran)] is 24: the table starts at offset 16 and the
    struct is padded to 8 bytes.  The result is stored in an [unsigned int]. *)
Definition SIZEOF_MM_GRAN (n : Z) : Z := u32 (24 + 4 * u32 (SIZEOF_GAT n - 1)).

Definition GAT_OFFSET : Z := 16.

(** The first and the second computation of the number of granules: the
    aligned start of the heap and the granules that fit up to its end. *)
Definition gran_extent (hstart hsize l2gran l2align : Z) : Z * Z :=
  let amask := u64 (s32 (s32 (Z.shiftl 1 l2align) - 1)) in
  let alignedstart := Z.land (u64 (hstart + amask)) (not64 amask) in
  let gmask := u64 (s32 (s32 (Z.shiftl 1 l2gran) - 1)) in
  let heapend := u64 (hstart + hsize) in
  let alignedsize := Z.land (u64 (heapend - alignedstart)) (not64 gmask) in
  (alignedstart, u32 (Z.shiftr alignedsize l2gran)).

(** [mem32 a] is the word the memory holds at [a] before the call: the table is
    laid over the start of the heap and is not cleared. *)
Definition gran_initialize (mem32 : Z -> Z) (hstart hsize l2gran l2align : Z) : outcome mm_gran :=
  assert! (negb (hstart =? 0) && (0 <? hsize) && (0 <? l2gran) && (l2gran <? 32)
           && (l2align <=? l2gran)) in
  let '(_, ngran0) := gran_extent hstart hsize l2gran l2align in
  let gran_head := SIZEOF_MM_GRAN ngran0 in
  let '(alignedstart, ngran) :=
    gran_extent (u64 (hstart + gran_head)) (u64 (hsize - gran_head)) l2gran l2align in
  Ok (MkGran l2gran ngran alignedstart
        (map (fun i => mem32 (hstart + GAT_OFFSET + 4 * i))
             (seqZ 0 ((gran_head - GAT_OFFSET) / 4)))).

Definition gran_release (g : mm_gran) : outcome unit := Ok tt.

(** A 32-bit right shift; the language leaves a count outside 0..31 undefined. *)
Definition lsr32 (x k : Z) : outcome Z :=
  if (0 <=? k) && (k <? 32) then Ok (Z.shiftr x k) else Fault.

(** The granule number of an address, and its word and bit in the table. *)
Definition granno_of (g : mm_gran) (a : Z) : Z :=
  u32 (Z.shiftr (u64 (a - heapstart g)) (log2gran g)).

Definition gran_mark_allocated (g : mm_gran) (alloc n : Z) : outcome mm_gran :=
  let granno := granno_of g alloc in
  let gatidx := Z.shiftr granno 5 in
  let gatbit := Z.land granno 31 in
  let avail := u32 (32 - gatbit) in
  if avail <? n then
    let gatmask := u32 (Z.shiftl ALL1 gatbit) in
    let! w := aget (gat g) gatidx in
    assert! (Z.land w gatmask =? 0) in
    let! t1 := aset (gat g) gatidx (Z.lor w gatmask) in
    let! gatmask2 := lsr32 ALL1 (u32 (32 - (n - avail))) in
    let! w2 := aget t1 (gatidx + 1) in
    assert! (Z.land w2 gatmask2 =? 0) in
    let! t2 := aset t1 (gatidx + 1) (Z.lor w2 gatmask2) in
    Ok (set_gat g t2)
  else
    let! m := lsr32 ALL1 (u32 (32 - n)) in
    let gatmask := u32 (Z.shiftl m gatbit) in
    let! w := aget (gat g) gatidx in
    assert! (Z.land w gatmask =? 0) in
    let! t1 := aset (gat g) gatidx (Z.lor w gatmask) in
    Ok (set_gat g t1).

(** One probe of the search: what the chain of tests on [curr] decides. *)
Inductive probe : Type := NoFree | Fits | Shift (s : Z).

Definition gran_probe (curr mask : Z) : probe :=
  if curr =? ALL1 then NoFree
  else if Z.land curr 0x0000ffff =? 0x0000ffff then Shift 16
  else if Z.land curr 0x0000ff =? 0x000000ff then Shift 8
  else if Z.land curr 0x00000f =? 0x0000000f then Shift 4
  else if Z.land curr 0x000003 =? 0x00000003 then Shift 2
  else if Z.land curr mask =? 0 then Fits
  else Shift 1.

(** The inner loop over the bits of one table entry: [Some alloc] when the
    allocation fits at [alloc], [None] when the entry is exhausted. *)
Fixpoint gran_alloc_bits (fuel : nat) (g : mm_gran) (n mask granidx : Z)
    (alloc curr next bitidx : Z) : outcome (option Z) :=
  match fuel with
  | O => Diverge
  | S fuel =>
      if (bitidx <? 32) && (u32 (granidx + bitidx + n) <=? ngranules g) then
        match gran_probe curr mask with
        | NoFree => Ok None
        | Fits => Ok (Some alloc)
        | Shift s =>
            gran_alloc_bits fuel g n mask granidx
              (u64 (alloc + s32 (Z.shiftl s (log2gran g))))
              (Z.lor (Z.shiftr curr s) (u32 (Z.shiftl next (32 - s))))
              (Z.shiftr next s) (bitidx + s)
        end
      else Ok None
  end.

(** The outer loop over the table entries. *)
Fixpoint gran_alloc_words (fuel : nat) (g : mm_gran) (n mask granidx : Z) : outcome (option Z) :=
  match fuel with
  | O => Diverge
  | S fuel =>
      if u32 granidx <? ngranules g then
        let gatidx := Z.shiftr granidx 5 in
        let! curr := aget (gat g) gatidx in
        if curr =? ALL1 then gran_alloc_words fuel g n mask (s32 (granidx + 32))
        else
          let! next := (if u32 granidx <? ngranules g then aget (gat g) (gatidx + 1) else Ok ALL1) in
          let alloc := u64 (heapstart g + s32 (Z.shiftl granidx (log2gran g))) in
          let! r := gran_alloc_bits 33 g n mask granidx alloc curr next 0 in
          match r with
          | Some a => Ok (Some a)
          | None => gran_alloc_words fuel g n mask (s32 (granidx + 32))
          end
      else Ok None
  end.

(** [gran_alloc]: the new allocator state and the address, 0 for [NULL]. *)
Definition gran_alloc (g : mm_gran) (size : Z) : outcome (mm_gran * Z) :=
  assert! (size <=? u64 (s32 (32 * s32 (Z.shiftl 1 (log2gran g))))) in
  if 0 <? size then
    let tmpmask := u64 (s32 (s32 (Z.shiftl 1 (log2gran g)) - 1)) in
    let n := u32 (Z.shiftr (u64 (size + tmpmask)) (log2gran g)) in
    assert! (n <=? 32) in
    let! mask := lsr32 ALL1 (u32 (32 - n)) in
    let! r := gran_alloc_words (Z.to_nat (ngranules g / 32) + 2) g n mask 0 in
    match r with
    | Some a => let! g' := gran_mark_allocated g a n in Ok (g', a)
    | None => Ok (g, 0)
    end
  else Ok (g, 0).

Definition gran_free (g : mm_gran) (memory size : Z) : outcome mm_gran :=
  assert! (negb (memory =? 0) && (size <=? u64 (s32 (32 * s32 (Z.shiftl 1 (log2gran g)))))) in
  let granno := granno_of g memory in
  let gatidx := Z.shiftr granno 5 in
  let gatbit := Z.land granno 31 in
  let granmask := u32 (s32 (s32 (Z.shiftl 1 (log2gran g)) - 1)) in
  let n := u32 (Z.shiftr (u64 (size + granmask)) (log2gran g)) in
  let avail := u32 (32 - gatbit) in
  if avail <? n then
    let gatmask := u32 (Z.shiftl ALL1 gatbit) in
    let! w := aget (gat g) gatidx in
    assert! (Z.land w gatmask =? gatmask) in
    let! t1 := aset (gat g) gatidx (Z.land w (not32 gatmask)) in
    let! gatmask2 := lsr32 ALL1 (u32 (32 - (n - avail))) in
    let! w2 := aget t1 (gatidx + 1) in
    assert! (Z.land w2 gatmask2 =? gatmask2) in
    let! t2 := aset t1 (gatidx + 1) (Z.land w2 (not32 gatmask2)) in
    Ok (set_gat g t2)
  else
    let! m := lsr32 ALL1 (u32 (32 - n)) in
    let gatmask := u32 (Z.shiftl m gatbit) in
    let! w := aget (gat g) gatidx in
    assert! (Z.land w gatmask =? gatmask) in
    let! t1 := aset (gat g) gatidx (Z.land w (not32 gatmask)) in
    Ok (set_gat g t1).

(** ** The table as a set of granules *)

(** Bit [i] of a table: is granule [i] allocated? *)
Definition tbit (t : list Z) (i : Z) : bool :=
  match t !! Z.to_nat (i / 32) with
  | Some w => Z.testbit w (i mod 32)
  | None => true
  end.

Definition granule (g : mm_gran) (i : Z) : bool := tbit (gat g) i.

(** [n] granules can be allocated at [i]. *)
Definition fits (g : mm_gran) (n i : Z) : Prop :=
  0 <= i /\ i + n <= ngranules g /\ forall j, i <= j < i + n -> granule g j = false.

(** Table [t'] is [t] with the granules [i .. i+n-1] set to [b]. *)
Definition upd_range (t t' : list Z) (i n : Z) (b : bool) : Prop :=
  length t' = length t /\
  Forall (fun w => 0 <= w < 2 ^ 32) t' /\
  forall j, 0 <= j -> tbit t' j = if (i <=? j) && (j <? i + n) then b else tbit t j.

(** The number of granules of a request. *)
Definition granules_of (g : mm_gran) (size : Z) : Z :=
  (size + 2 ^ log2gran g - 1) / 2 ^ log2gran g.

(** Address of granule [i]. *)
Definition granaddr (g : mm_gran) (i : Z) : Z := heapstart g + i * 2 ^ log2gran g.

(** The allocator invariant.  The bounds are the ones under which the [int]
    arithmetic of [gran_alloc] does not overflow; the table has one word more
    than the granules need, because the search always reads the next entry. *)
Record gran_wf (g : mm_gran) : Prop := {
  wf_log2 : 1 <= log2gran g <= 25;
  wf_ngran : 0 <= ngranules g;
  wf_size : ngranules g * 2 ^ log2gran g <= 2 ^ 31;
  wf_start : 0 < heapstart g;
  wf_end : heapstart g + ngranules g * 2 ^ log2gran g < 2 ^ 64;
  wf_gat : (ngranules g + 31) / 32 + 1 <= Z.of_nat (length (gat g));
  wf_words : Forall (fun w => 0 <= w < 2 ^ 32) (gat g)
}.

(** ** Masks *)

Lemma range_mask_bound r n : 0 <= r -> 0 <= n -> r + n <= 32 -> 0 <= range_mask r n < 2 ^ 32.
Proof. apply (range_mask_width 32). Qed.

Lemma first_mask r : 0 <= r < 32 -> u32 (Z.shiftl ALL1 r) = range_mask r (32 - r).
Proof. intros. unfold u32, range_mask. change ALL1 with (Z.ones 32). bitwise. Qed.

Lemma single_mask r n : 0 <= r -> 0 <= n -> r + n <= 32 ->
  u32 (Z.shiftl (Z.ones n) r) = range_mask r n.
Proof. intros. apply u32_id, range_mask_bound; lia. Qed.

Lemma low_mask n : 1 <= n <= 32 -> lsr32 ALL1 (u32 (32 - n)) = Ok (Z.ones n).
Proof.
  intros. unfold lsr32. rewrite u32_id by lia. decide_cmp. simpl.
  change ALL1 with (Z.ones 32). by rewrite ones_shiftr by lia.
Qed.

(** ** Reading and updating the table *)

Lemma tbit_lookup t q r w :
  0 <= q -> 0 <= r < 32 -> t !! Z.to_nat q = Some w -> tbit t (32 * q + r) = Z.testbit w r.
Proof.
  intros Hq Hr Hw. unfold tbit.
  replace ((32 * q + r) / 32) with q by (apply (Z.div_unique _ 32 q r); lia).
  rewrite Hw. f_equal. symmetry. apply (Z.mod_unique _ 32 q r); lia.
Qed.

Lemma split32 j : 0 <= j -> j = 32 * (j / 32) + j mod 32 /\ 0 <= j mod 32 < 32 /\ 0 <= j / 32.
Proof.
  intros. pose proof (Z.div_mod j 32). pose proof (Z.mod_pos_bound j 32).
  assert (0 <= j / 32) by (apply Z.div_pos; lia). lia.
Qed.

Lemma tbit_insert t q w r b :
  0 <= q -> 0 <= r < 32 -> t !! Z.to_nat q = Some b ->
  forall j, 0 <= j -> tbit (<[Z.to_nat q := w]> t) j =
    if j / 32 =? q then Z.testbit w (j mod 32) else tbit t j.
Proof.
  intros Hq Hr Ht j Hj. destruct (split32 j Hj) as (Hs & Hm & Hd). unfold tbit.
  destruct (Z.eqb_spec (j / 32) q) as [->|Hne].
  - rewrite list_lookup_insert_eq; [done|]. by apply lookup_lt_Some in Ht.
  - rewrite list_lookup_insert_ne by lia. done.
Qed.

Lemma word_bound (t : list Z) (q : nat) (w : Z) :
  Forall (fun w => 0 <= w < 2 ^ 32) t -> t !! q = Some w -> 0 <= w < 2 ^ 32.
Proof. intros H1 H2. eapply Forall_lookup_1 in H1; [|done]. done. Qed.

(** A bounded search: a range that is not wholly in use has a free granule. *)
Lemma not_used_exists (f : Z -> bool) (i n : Z) :
  0 <= n -> ~ (forall j, i <= j < i + n -> f j = true) ->
  exists j, i <= j < i + n /\ f j = false.
Proof.
  intros Hn. revert n Hn. apply (natlike_ind (fun n => _ -> _)).
  - intros H. destruct H. lia.
  - intros n Hn IH H. destruct (f (i + n)) eqn:E.
    + destruct IH as (j & Hj & Hf); [|exists j; split; [lia|done]].
      intros Hall. apply H. intros j Hj. destruct (decide (j = i + n)) as [->|]; [done|].
      apply Hall. lia.
    + exists (i + n). split; [lia|done].
Qed.

Section WordUpdate.
Context (t : list Z) (q r n w : Z).
Context (Hwf : Forall (fun w => 0 <= w < 2 ^ 32) t).
Context (Hq : 0 <= q) (Hr : 0 <= r < 32) (Hn : 1 <= n) (Hrn : r + n <= 32).
Context (Hw : t !! Z.to_nat q = Some w).

Lemma word_update w' b :
  0 <= w' < 2 ^ 32 ->
  (forall k, 0 <= k < 32 ->
     Z.testbit w' k = if (r <=? k) && (k <? r + n) then b else Z.testbit w k) ->
  upd_range t (<[Z.to_nat q := w']> t) (32 * q + r) n b.
Proof.
  intros Hb Hbits. split; [by rewrite length_insert|]. split; [by apply Forall_insert|].
  intros j Hj. rewrite (tbit_insert _ _ _ r w) by done.
  destruct (split32 j Hj) as (Hs & Hm & Hd).
  destruct (Z.eqb_spec (j / 32) q) as [He|Hne].
  - assert (Ht : tbit t j = Z.testbit w (j mod 32)) by (unfold tbit; by rewrite He, Hw).
    rewrite Hbits, Ht by lia. decide_cmp; done || lia.
  - decide_cmp; try done; nia.
Qed.

Lemma word_set : upd_range t (<[Z.to_nat q := Z.lor w (range_mask r n)]> t) (32 * q + r) n true.
Proof.
  pose proof (word_bound _ _ _ Hwf Hw). pose proof (range_mask_bound r n).
  apply word_update.
  - apply lor_bound; lia.
  - intros k Hk. rewrite Z.lor_spec, testbit_range_mask by lia.
    destruct ((r <=? k) && (k <? r + n)); [apply orb_true_r|apply orb_false_r].
Qed.

Lemma word_clear :
  upd_range t (<[Z.to_nat q := Z.land w (not32 (range_mask r n))]> t) (32 * q + r) n false.
Proof.
  pose proof (word_bound _ _ _ Hwf Hw). apply word_update.
  - apply land_bound_l; lia.
  - intros k Hk. unfold not32.
    rewrite Z.land_spec, Z.ldiff_spec, Z.testbit_ones, testbit_range_mask by lia.
    destruct ((r <=? k) && (k <? r + n)); decide_cmp; simpl;
      [apply andb_false_r|apply andb_true_r].
Qed.

Lemma word_test_free :
  Z.land w (range_mask r n) = 0 <->
  forall j, 32 * q + r <= j < 32 * q + r + n -> tbit t j = false.
Proof.
  rewrite land_eq_0. split.
  - intros H j Hj. replace j with (32 * q + (j - 32 * q)) by lia.
    rewrite (tbit_lookup t q _ w) by lia || done. apply H; [lia|].
    rewrite testbit_range_mask by lia. decide_cmp; done || lia.
  - intros H k Hk Hm. rewrite testbit_range_mask in Hm by lia. breflect.
    rewrite <- (tbit_lookup t q k w) by lia || done. apply H. lia.
Qed.

Lemma word_test_used :
  Z.land w (range_mask r n) = range_mask r n <->
  forall j, 32 * q + r <= j < 32 * q + r + n -> tbit t j = true.
Proof.
  rewrite land_eq_mask. split.
  - intros H j Hj. replace j with (32 * q + (j - 32 * q)) by lia.
    rewrite (tbit_lookup t q _ w) by lia || done. apply H; [lia|].
    rewrite testbit_range_mask by lia. decide_cmp; done || lia.
  - intros H k Hk Hm. rewrite testbit_range_mask in Hm by lia. breflect.
    rewrite <- (tbit_lookup t q k w) by lia || done. apply H. lia.
Qed.

(** The step of [gran_free] on one entry: its assertion decides whether every
    granule of the range is in use, and the update then frees exactly those. *)
Lemma word_clear_cases :
  ((Z.land w (range_mask r n) =? range_mask r n) = true /\
   (forall j, 32 * q + r <= j < 32 * q + r + n -> tbit t j = true) /\
   upd_range t (<[Z.to_nat q := Z.land w (not32 (range_mask r n))]> t) (32 * q + r) n false) \/
  ((Z.land w (range_mask r n) =? range_mask r n) = false /\
   exists j, 32 * q + r <= j < 32 * q + r + n /\ tbit t j = false).
Proof.
  destruct (Z.eqb_spec (Z.land w (range_mask r n)) (range_mask r n)) as [E|E].
  - left. split; [done|]. rewrite word_test_used in E. split; [exact E|apply word_clear].
  - right. split; [done|]. apply not_used_exists; [lia|]. by rewrite <- word_test_used.
Qed.
End WordUpdate.

Lemma upd_range_app t t1 t2 i a c b :
  0 <= a -> 0 <= c -> upd_range t t1 i a b -> upd_range t1 t2 (i + a) c b ->
  upd_range t t2 i (a + c) b.
Proof.
  intros Ha Hc (L1 & F1 & B1) (L2 & F2 & B2). split; [congruence|]. split; [done|].
  intros j Hj. rewrite B2, B1 by done. decide_cmp; done || lia.
Qed.

(** ** Arithmetic of the allocator under the invariant *)

Section Arith.
Context (g : mm_gran) (W : gran_wf g).

Lemma pow_log2 : 2 <= 2 ^ log2gran g <= 2 ^ 25.
Proof.
  pose proof (wf_log2 g W). split.
  - change 2 with (2 ^ 1) at 1. apply pow2_le. lia.
  - apply pow2_le. lia.
Qed.

Lemma ngran_small : ngranules g <= 2 ^ 30.
Proof.
  pose proof pow_log2. pose proof (wf_size g W). pose proof (wf_ngran g W).
  change (2 ^ 31) with (2 * 2 ^ 30) in *. nia.
Qed.

Lemma granno_granaddr i : 0 <= i <= ngranules g -> granno_of g (granaddr g i) = i.
Proof.
  intros Hi. pose proof pow_log2. pose proof ngran_small. pose proof (wf_size g W).
  pose proof (wf_log2 g W).
  unfold granno_of, granaddr. replace (_ + _ - _) with (i * 2 ^ log2gran g) by lia.
  assert (0 <= i * 2 ^ log2gran g <= 2 ^ 31) by nia.
  rewrite u64_id by lia. rewrite Z.shiftr_div_pow2, Z.div_mul by lia.
  apply u32_id. lia.
Qed.

Lemma max_request : u64 (s32 (32 * s32 (Z.shiftl 1 (log2gran g)))) = 32 * 2 ^ log2gran g.
Proof.
  pose proof pow_log2. pose proof (wf_log2 g W). rewrite shiftl1 by lia.
  rewrite (s32_id (2 ^ log2gran g)) by lia. rewrite s32_id by lia. apply u64_id. lia.
Qed.

Lemma granule_mask : s32 (s32 (Z.shiftl 1 (log2gran g)) - 1) = 2 ^ log2gran g - 1.
Proof.
  pose proof pow_log2. pose proof (wf_log2 g W). rewrite shiftl1 by lia.
  rewrite (s32_id (2 ^ log2gran g)) by lia. apply s32_id. lia.
Qed.

Lemma granules_of_bound size :
  0 < size <= 32 * 2 ^ log2gran g -> 1 <= granules_of g size <= 32.
Proof.
  intros Hs. pose proof pow_log2. unfold granules_of. split.
  - apply Z.div_le_lower_bound; lia.
  - apply Z.lt_succ_r, Z.div_lt_upper_bound; lia.
Qed.

Lemma request_granules size :
  0 < size <= 32 * 2 ^ log2gran g ->
  u32 (Z.shiftr (u64 (size + (2 ^ log2gran g - 1))) (log2gran g)) = granules_of g size.
Proof.
  intros Hs. pose proof pow_log2. pose proof (granules_of_bound size Hs).
  pose proof (wf_log2 g W). rewrite u64_id by lia. rewrite Z.shiftr_div_pow2 by lia.
  unfold granules_of in *. replace (size + (2 ^ log2gran g - 1)) with (size + 2 ^ log2gran g - 1) by lia.
  apply u32_id. lia.
Qed.

Lemma gat_covers i : 0 <= i < ngranules g -> i / 32 + 1 < Z.of_nat (length (gat g)).
Proof.
  intros Hi. pose proof (wf_gat g W).
  assert ((i + 32) / 32 <= (ngranules g + 31) / 32) by (apply Z.div_le_mono; lia).
  replace (i + 32) with (i + 1 * 32) in * by lia. rewrite Z.div_add in * by lia. lia.
Qed.
End Arith.

Lemma word_index i : 0 <= i -> Z.shiftr i 5 = i / 32 /\ Z.land i 31 = i mod 32.
Proof.
  intros. split; [apply Z.shiftr_div_pow2; lia|].
  change 31 with (Z.ones 5). apply Z.land_ones. lia.
Qed.

(** [i .. i+n-1] lies in one table entry, or in the top of one and the bottom of the next. *)
Section MarkFree.
Context (g : mm_gran) (W : gran_wf g) (i n : Z).
Context (Hi : 0 <= i) (Hn : 1 <= n <= 32) (Hin : i + n <= ngranules g).

Lemma gran_mark_allocated_ok :
  (forall j, i <= j < i + n -> granule g j = false) ->
  exists t', gran_mark_allocated g (granaddr g i) n = Ok (set_gat g t') /\
             upd_range (gat g) t' i n true.
Proof.
  intros Hfree. unfold gran_mark_allocated.
  rewrite granno_granaddr by (done || lia).
  destruct (word_index i Hi) as [-> ->]. destruct (split32 i Hi) as (Hs & Hm & Hd).
  rewrite (u32_id (32 - i mod 32)) by lia.
  pose proof (gat_covers g W i ltac:(lia)) as Hlen.
  destruct (aget_is_ok (gat g) (i / 32)) as (w & Hg & Hw); [lia|].
  pose proof (wf_words g W) as Hwf.
  destruct (Z.ltb_spec (32 - i mod 32) n) as [Hsplit|Hone].
  - rewrite first_mask, Hg by lia. simpl.
    rewrite (proj2 (Z.eqb_eq _ _)).
    2: { apply (word_test_free (gat g) (i / 32)); try lia || done.
         intros j Hj. apply Hfree. lia. }
    rewrite aset_ok by lia. simpl. rewrite low_mask by lia. simpl.
    destruct (word_set (gat g) (i / 32) (i mod 32) (32 - i mod 32) w) as (L1 & F1 & B1);
      try lia || done.
    set (t1 := <[_ := _]> (gat g)) in *.
    destruct (aget_is_ok t1 (i / 32 + 1)) as (w2 & Hg2 & Hw2); [lia|].
    rewrite Hg2. simpl. set (n2 := n - (32 - i mod 32)).
    replace (Z.ones n2) with (range_mask 0 n2) by apply Z.shiftl_0_r.
    rewrite (proj2 (Z.eqb_eq _ _)).
    2: { apply (word_test_free t1 (i / 32 + 1)); try lia || done.
         intros j Hj. rewrite B1 by lia. decide_cmp; try lia. simpl. apply Hfree. lia. }
    rewrite aset_ok by lia. simpl. eexists; split; [done|].
    replace n with ((32 - i mod 32) + n2) at 1 by lia.
    apply (upd_range_app _ t1); [lia..| |].
    + split; [done|]. split; [done|]. intros j Hj. rewrite B1 by lia. by rewrite <- Hs.
    + replace (i + (32 - i mod 32)) with (32 * (i / 32 + 1) + 0) by lia.
      apply word_set; lia || done.
  - rewrite low_mask by lia. simpl. rewrite single_mask, Hg by lia. simpl.
    rewrite (proj2 (Z.eqb_eq _ _)).
    2: { apply (word_test_free (gat g) (i / 32)); try lia || done.
         intros j Hj. apply Hfree. lia. }
    rewrite aset_ok by lia. simpl. eexists; split; [done|].
    rewrite Hs at 3. apply word_set; lia || done.
Qed.

(** The two assertions of [gran_free] together test the whole range. *)
Lemma gran_free_cases size :
  0 < size <= 32 * 2 ^ log2gran g -> n = granules_of g size ->
  ((forall j, i <= j < i + n -> granule g j = true) /\
   exists t', gran_free g (granaddr g i) size = Ok (set_gat g t') /\
              upd_range (gat g) t' i n false) \/
  ((exists j, i <= j < i + n /\ granule g j = false) /\
   gran_free g (granaddr g i) size = Halt).
Proof.
  intros Hsize Heq. unfold gran_free. pose proof (wf_start g W). pose proof (pow_log2 g W).
  rewrite max_request, granule_mask by done.
  rewrite (proj2 (Z.eqb_neq _ _)) by (unfold granaddr; nia).
  rewrite (proj2 (Z.leb_le _ _)) by lia. simpl.
  rewrite (u32_id (2 ^ log2gran g - 1)) by lia.
  rewrite request_granules, <- Heq, granno_granaddr by (done || lia).
  destruct (word_index i Hi) as [-> ->]. destruct (split32 i Hi) as (Hs & Hm & Hd).
  rewrite (u32_id (32 - i mod 32)) by lia.
  pose proof (gat_covers g W i ltac:(lia)) as Hlen.
  destruct (aget_is_ok (gat g) (i / 32)) as (w & Hg & Hw); [lia|].
  pose proof (wf_words g W) as Hwf.
  destruct (Z.ltb_spec (32 - i mod 32) n) as [Hsplit|Hone].
  - rewrite first_mask, Hg by lia. simpl.
    destruct (word_clear_cases (gat g) (i / 32) (i mod 32) (32 - i mod 32) w)
      as [(-> & E & (L1 & F1 & B1))|(-> & j & Hj & Hf)]; try lia || done.
    2: { right. split; [|done]. exists j. split; [lia|done]. }
    rewrite <- Hs in *. rewrite aset_ok by lia. simpl. rewrite low_mask by lia. simpl.
    set (t1 := <[_ := _]> (gat g)) in *.
    destruct (aget_is_ok t1 (i / 32 + 1)) as (w2 & Hg2 & Hw2); [lia|].
    rewrite Hg2. simpl. set (n2 := n - (32 - i mod 32)).
    replace (Z.ones n2) with (range_mask 0 n2) by apply Z.shiftl_0_r.
    destruct (word_clear_cases t1 (i / 32 + 1) 0 n2 w2) as [(-> & E2 & U2)|(-> & j & Hj & Hf)];
      try lia || done.
    + left. split.
      { intros j Hj. destruct (Z.lt_ge_cases j (i + (32 - i mod 32))); [apply E; lia|].
        specialize (E2 j ltac:(lia)). rewrite B1 in E2 by lia. revert E2. decide_cmp; done || lia. }
      rewrite aset_ok by lia. simpl. eexists; split; [done|].
      replace n with ((32 - i mod 32) + n2) at 1 by lia.
      apply (upd_range_app _ t1); [lia..|done|].
      by replace (i + (32 - i mod 32)) with (32 * (i / 32 + 1) + 0) by lia.
    + right. split; [|done]. exists j. split; [lia|].
      rewrite B1 in Hf by lia. revert Hf. decide_cmp; done || lia.
  - rewrite low_mask by lia. simpl. rewrite single_mask, Hg by lia. simpl.
    destruct (word_clear_cases (gat g) (i / 32) (i mod 32) n w) as [(-> & E & U)|(-> & j & Hj & Hf)];
      try lia || done; rewrite <- Hs in *.
    + left. split; [exact E|]. rewrite aset_ok by lia. simpl. eexists; split; [done|exact U].
    + right. split; [|done]. exists j. split; [lia|done].
Qed.
End MarkFree.

(** ** The search *)

Lemma mask_ones_used x w j :
  0 <= w -> Z.land x (Z.ones w) = Z.ones w -> 0 <= j < w -> Z.testbit x j = true.
Proof.
  intros Hw H Hj. rewrite land_eq_mask in H. apply H; [lia|].
  rewrite Z.testbit_ones by lia. decide_cmp; done || lia.
Qed.

(** What a probe tells about the 32 granules of the window [curr]: a shift of
    [s] skips [s] positions at none of which [n] granules are free. *)
Lemma gran_probe_spec curr n :
  0 <= curr < 2 ^ 32 -> 1 <= n <= 32 ->
  match gran_probe curr (Z.ones n) with
  | NoFree => forall j, 0 <= j < 32 -> Z.testbit curr j = true
  | Fits => forall j, 0 <= j < n -> Z.testbit curr j = false
  | Shift s => 1 <= s <= 16 /\
      forall p, 0 <= p < s -> exists j, 0 <= j < n /\ p + j < 32 /\ Z.testbit curr (p + j) = true
  end.
Proof.
  intros Hc Hn. unfold gran_probe.
  assert (Hskip : forall s, 1 <= s <= 16 -> Z.land curr (Z.ones s) = Z.ones s ->
    1 <= s <= 16 /\ forall p, 0 <= p < s ->
      exists j, 0 <= j < n /\ p + j < 32 /\ Z.testbit curr (p + j) = true).
  { intros s Hs Hm. split; [done|]. intros p Hp. exists 0. rewrite Z.add_0_r.
    split; [lia|]. split; [lia|]. by apply (mask_ones_used _ s); [lia| |]. }
  destruct (Z.eqb_spec curr ALL1) as [->|_].
  { intros j Hj. change ALL1 with (Z.ones 32). rewrite Z.testbit_ones by lia. by decide_cmp. }
  destruct (Z.eqb_spec (Z.land curr 0x0000ffff) 0x0000ffff); [by apply (Hskip 16)|].
  destruct (Z.eqb_spec (Z.land curr 0x0000ff) 0x000000ff); [by apply (Hskip 8)|].
  destruct (Z.eqb_spec (Z.land curr 0x00000f) 0x0000000f); [by apply (Hskip 4)|].
  destruct (Z.eqb_spec (Z.land curr 0x000003) 0x00000003); [by apply (Hskip 2)|].
  destruct (Z.eqb_spec (Z.land curr (Z.ones n)) 0) as [E|E]; rewrite land_eq_0 in E.
  - intros j Hj. apply E; [lia|]. rewrite Z.testbit_ones by lia. by decide_cmp.
  - split; [lia|]. intros p Hp. replace p with 0 by lia.
    destruct (not_used_exists (fun j => negb (Z.testbit curr j)) 0 n) as (j & Hj & Hf); [lia| |].
    + intros Hall. apply E. intros j Hj Hm. rewrite Z.testbit_ones in Hm by lia. breflect.
      apply negb_true_iff, Hall. lia.
    + exists j. split; [lia|]. split; [lia|]. by apply negb_false_iff in Hf.
Qed.

(** [curr] and [next] are the 64 table bits from granule [p] on; bits from [e]
    on have been shifted out. *)
Definition window (t : list Z) (p e curr next : Z) : Prop :=
  e <= p + 64 /\ 0 <= curr < 2 ^ 32 /\ 0 <= next < 2 ^ 32 /\
  (forall j, 0 <= j < 32 -> p + j < e -> Z.testbit curr j = tbit t (p + j)) /\
  (forall j, 0 <= j < 32 -> p + 32 + j < e -> Z.testbit next j = tbit t (p + 32 + j)).

Lemma window_shift t p e curr next s :
  1 <= s <= 16 -> window t p e curr next ->
  window t (p + s) e (Z.lor (Z.shiftr curr s) (u32 (Z.shiftl next (32 - s)))) (Z.shiftr next s).
Proof.
  intros Hs (He64 & Hc & Hn & Bc & Bn).
  assert (Hsr : forall x, 0 <= x < 2 ^ 32 -> 0 <= Z.shiftr x s < 2 ^ 32).
  { intros x Hx. rewrite Z.shiftr_div_pow2 by lia. pose proof (pow2_pos s).
    split; [apply Z.div_pos; lia|apply Z.div_lt_upper_bound; nia]. }
  split; [lia|]. split; [|split; [|split]].
  - apply lor_bound; [lia|by apply Hsr|apply u32_bound].
  - by apply Hsr.
  - intros j Hj He. unfold u32. rewrite Z.lor_spec, Z.testbit_mod_pow2 by lia.
    rewrite Z.shiftr_spec, Z.shiftl_spec by lia. decide_cmp. rewrite andb_true_l.
    destruct (Z.lt_ge_cases (j + s) 32).
    + rewrite (Z.testbit_neg_r next) by lia. rewrite orb_false_r, Bc by lia. f_equal. lia.
    + rewrite (testbit_high 32 curr) by lia. rewrite orb_false_l, Bn by lia. f_equal. lia.
  - intros j Hj He. rewrite Z.shiftr_spec by lia.
    destruct (Z.lt_ge_cases (j + s) 32).
    + rewrite Bn by lia. f_equal. lia.
    + lia.
Qed.

Section Search.
Context (g : mm_gran) (W : gran_wf g) (n : Z) (Hn : 1 <= n <= 32).

Lemma granaddr_small i : 0 <= i <= ngranules g -> 0 < granaddr g i < 2 ^ 64.
Proof.
  intros Hi. pose proof (wf_start g W). pose proof (wf_end g W). pose proof (pow_log2 g W).
  unfold granaddr. nia.
Qed.

Lemma alloc_advance i s : 1 <= s <= 16 ->
  u64 (u64 (granaddr g i) + s32 (Z.shiftl s (log2gran g))) = u64 (granaddr g (i + s)).
Proof.
  intros Hs. pose proof (pow_log2 g W). pose proof (wf_log2 g W).
  rewrite Z.shiftl_mul_pow2, s32_id by nia. unfold u64, granaddr.
  rewrite Zplus_mod_idemp_l. f_equal. lia.
Qed.

(** A used granule within [n] of [i] rules [i] out. *)
Lemma used_no_fit i j : i <= j < i + n -> granule g j = true -> ~ fits g n i.
Proof. intros Hj Hu (_ & _ & Hf). rewrite Hf in Hu; done. Qed.

Lemma gran_alloc_bits_spec fuel p k curr next :
  0 <= p < ngranules g -> 0 <= k -> Z.max 0 (32 - k) < Z.of_nat fuel ->
  window (gat g) (p + k) (p + 64) curr next ->
  exists r, gran_alloc_bits fuel g n (Z.ones n) p (u64 (granaddr g (p + k))) curr next k = Ok r /\
    match r with
    | Some a => exists i, p + k <= i /\ a = granaddr g i /\ fits g n i /\
                          forall j, p + k <= j < i -> ~ fits g n j
    | None => forall j, p + k <= j < p + 32 -> ~ fits g n j
    end.
Proof.
  pose proof (ngran_small g W) as Hsmall. intros Hp.
  revert k curr next. induction fuel as [|fuel IH]; intros k curr next Hk Hfuel Hwin;
    [lia|].
  simpl. destruct (Z.ltb_spec k 32); [|exists None; split; [done|lia]].
  rewrite u32_id by lia. destruct (Z.leb_spec (p + k + n) (ngranules g)).
  2: { exists None. split; [done|]. intros j Hj (_ & Hj2 & _). lia. }
  simpl. pose proof Hwin as (He & Hc & _ & Bc & _). pose proof (gran_probe_spec curr n Hc Hn) as Hpr.
  destruct (gran_probe curr (Z.ones n)) as [| |s].
  - exists None. split; [done|]. intros j Hj. apply (used_no_fit _ j); [lia|].
    unfold granule. replace j with (p + k + (j - p - k)) by lia. rewrite <- Bc by lia. apply Hpr. lia.
  - eexists. split; [done|]. exists (p + k). split; [lia|].
    split; [apply u64_id; pose proof (granaddr_small (p + k)); lia|].
    split; [|lia]. split; [lia|]. split; [lia|]. intros j Hj. unfold granule.
    replace j with (p + k + (j - p - k)) by lia. rewrite <- Bc by lia. apply Hpr. lia.
  - destruct Hpr as (Hs & Hskip). rewrite alloc_advance by done. rewrite <- Z.add_assoc.
    destruct (IH (k + s) (Z.lor (Z.shiftr curr s) (u32 (Z.shiftl next (32 - s))))
                 (Z.shiftr next s)) as (r & -> & Hr); [lia..| |].
    { rewrite Z.add_assoc. by apply window_shift. }
    assert (Hno : forall j, p + k <= j < p + k + s -> ~ fits g n j).
    { intros j Hj. destruct (Hskip (j - p - k)) as (d & Hd & Hd2 & Hb); [lia|].
      apply (used_no_fit _ (j + d)); [lia|]. unfold granule.
      rewrite Bc in Hb by lia. rewrite <- Hb. f_equal. lia. }
    exists r. split; [done|]. destruct r as [a|].
    + destruct Hr as (i & Hi & Ha & Hf & Hmin). exists i. split; [lia|]. split; [done|].
      split; [done|]. intros j Hj. destruct (Z.lt_ge_cases j (p + k + s)); [apply Hno|apply Hmin]; lia.
    + intros j Hj. destruct (Z.lt_ge_cases j (p + k + s)); [apply Hno|apply Hr]; lia.
Qed.

(** The table entries at granule [p], a multiple of 32, open a window. *)
Lemma window_open p q w w2 :
  p = 32 * q -> 0 <= q -> gat g !! Z.to_nat q = Some w -> gat g !! Z.to_nat (q + 1) = Some w2 ->
  window (gat g) (p + 0) (p + 64) w w2.
Proof.
  intros -> Hq H1 H2. pose proof (wf_words g W) as Hwf.
  split; [lia|]. split; [by eapply word_bound|]. split; [by eapply word_bound|]. split.
  - intros j Hj _. rewrite Z.add_0_r. by rewrite (tbit_lookup _ q j w).
  - intros j Hj _. replace (32 * q + 0 + 32 + j) with (32 * (q + 1) + j) by lia.
    by rewrite (tbit_lookup _ (q + 1) j w2) by lia || done.
Qed.

Lemma gran_alloc_words_spec fuel q :
  0 <= q -> 32 * q < ngranules g + 32 -> Z.max 0 (ngranules g / 32 + 1 - q) < Z.of_nat fuel ->
  exists r, gran_alloc_words fuel g n (Z.ones n) (32 * q) = Ok r /\
    match r with
    | Some a => exists i, 32 * q <= i /\ a = granaddr g i /\ fits g n i /\
                          forall j, 32 * q <= j < i -> ~ fits g n j
    | None => forall j, 32 * q <= j -> ~ fits g n j
    end.
Proof.
  pose proof (ngran_small g W) as Hsmall. pose proof (wf_ngran g W) as Hpos.
  revert q. induction fuel as [|fuel IH]; intros q Hq Hend Hfuel; [lia|].
  cbn [gran_alloc_words]. rewrite !(u32_id (32 * q)) by lia.
  destruct (Z.ltb_spec (32 * q) (ngranules g)) as [Hlt|Hge].
  2: { exists None. split; [done|]. intros j Hj (_ & Hj2 & _). lia. }
  assert (Hq' : q < ngranules g / 32 + 1).
  { apply Z.lt_succ_r, Z.div_le_lower_bound; lia. }
  destruct (word_index (32 * q)) as [-> _]; [lia|].
  replace (32 * q / 32) with q by (rewrite Z.mul_comm, Z.div_mul; lia).
  replace (s32 (32 * q + 32)) with (32 * (q + 1)) by (rewrite s32_id; lia).
  pose proof (gat_covers g W (32 * q) ltac:(lia)) as Hlen.
  replace (32 * q / 32) with q in Hlen by (rewrite Z.mul_comm, Z.div_mul; lia).
  destruct (aget_is_ok (gat g) q) as (w & -> & Hw); [lia|]. cbn [obind].
  destruct (IH (q + 1)) as (r & Hrec & Hr); [lia..|].
  (* the result of the recursive call, once entry [q] has been ruled out *)
  assert (Hnext : (forall j, 32 * q <= j < 32 * q + 32 -> ~ fits g n j) ->
    match r with
    | Some a => exists i, 32 * q <= i /\ a = granaddr g i /\ fits g n i /\
                          forall j, 32 * q <= j < i -> ~ fits g n j
    | None => forall j, 32 * q <= j -> ~ fits g n j
    end).
  { intros Hno. destruct r as [a|].
    - destruct Hr as (i & Hi & Ha & Hf & Hmin). exists i. split; [lia|]. split; [done|].
      split; [done|]. intros j Hj. destruct (Z.lt_ge_cases j (32 * (q + 1))); [apply Hno|apply Hmin]; lia.
    - intros j Hj. destruct (Z.lt_ge_cases j (32 * (q + 1))); [apply Hno|apply Hr]; lia. }
  destruct (Z.eqb_spec w ALL1) as [->|_].
  { exists r. split; [done|]. apply Hnext. intros j Hj. apply (used_no_fit _ j); [lia|].
    unfold granule. replace j with (32 * q + (j - 32 * q)) by lia.
    rewrite (tbit_lookup _ q _ ALL1) by lia || done. change ALL1 with (Z.ones 32).
    rewrite Z.testbit_ones by lia. by decide_cmp. }
  destruct (aget_is_ok (gat g) (q + 1)) as (w2 & -> & Hw2); [lia|]. cbn [obind].
  pose proof (pow_log2 g W). pose proof (wf_log2 g W). pose proof (wf_size g W).
  rewrite Z.shiftl_mul_pow2, s32_id by nia.
  destruct (gran_alloc_bits_spec 33 (32 * q) 0 w w2) as (r0 & Hb & Hr0); [lia..| |].
  { by apply (window_open _ q). }
  rewrite Z.add_0_r in Hb, Hr0. unfold granaddr in Hb at 1. rewrite Hb. cbn [obind].
  destruct r0 as [a|]; [by exists (Some a)|]. exists r. split; [done|]. by apply Hnext.
Qed.
End Search.

(** ** Functional behaviour of [gran_alloc] *)

Definition same_params (g g' : mm_gran) : Prop :=
  log2gran g' = log2gran g /\ ngranules g' = ngranules g /\ heapstart g' = heapstart g.

Lemma gran_alloc_cases g size :
  gran_wf g -> 0 < size <= 32 * 2 ^ log2gran g ->
  (exists i t', gran_alloc g size = Ok (set_gat g t', granaddr g i) /\
     fits g (granules_of g size) i /\ (forall j, fits g (granules_of g size) j -> i <= j) /\
     upd_range (gat g) t' i (granules_of g size) true) \/
  (gran_alloc g size = Ok (g, 0) /\ forall j, ~ fits g (granules_of g size) j).
Proof.
  intros W Hs. pose proof (granules_of_bound g W size Hs) as Hn. pose proof (pow_log2 g W).
  unfold gran_alloc. rewrite max_request, granule_mask by done.
  rewrite (u64_id (2 ^ log2gran g - 1)) by lia.
  rewrite (proj2 (Z.leb_le _ _)), (proj2 (Z.ltb_lt _ _)) by lia.
  rewrite request_granules by done. rewrite (proj2 (Z.leb_le _ _)) by lia.
  rewrite low_mask by lia. cbn [obind].
  pose proof (wf_ngran g W). assert (0 <= ngranules g / 32) by (apply Z.div_pos; lia).
  destruct (gran_alloc_words_spec g W (granules_of g size) Hn
              (Z.to_nat (ngranules g / 32) + 2) 0) as (r & Hw & Hr); [lia..|].
  change (32 * 0) with 0 in *. rewrite Hw. cbn [obind]. destruct r as [a|].
  - destruct Hr as (i & Hi & -> & Hf & Hmin). left. pose proof Hf as (Hi0 & Hend & Hfree).
    destruct (gran_mark_allocated_ok g W i (granules_of g size)) as (t' & -> & Hu); [lia..|done|].
    exists i, t'. split; [done|]. split; [done|]. split; [|done].
    intros j Hj. destruct (Z.lt_ge_cases j i); [|done]. exfalso.
    apply (Hmin j); [|done]. destruct Hj. lia.
  - right. split; [done|]. intros j Hj. apply (Hr j); [|done]. destruct Hj. lia.
Qed.

Lemma wf_set_gat g t' i n b :
  gran_wf g -> upd_range (gat g) t' i n b -> gran_wf (set_gat g t').
Proof. intros [] (HL & HF & _). constructor; simpl; try done. by rewrite HL. Qed.

Lemma gran_alloc_wf g size g' a :
  gran_wf g -> gran_alloc g size = Ok (g', a) -> gran_wf g' /\ same_params g g'.
Proof.
  intros W. unfold same_params. destruct (Z.lt_ge_cases 0 size).
  - destruct (Z.le_gt_cases size (32 * 2 ^ log2gran g)).
    + destruct (gran_alloc_cases g size W) as [(i & t' & -> & _ & _ & Hu)|[-> _]]; [lia| |];
        intros; simplify_eq; [|done]. split; [by eapply wf_set_gat|done].
    + unfold gran_alloc. rewrite max_request by done. rewrite (proj2 (Z.leb_gt _ _)) by lia. done.
  - unfold gran_alloc. rewrite (proj2 (Z.ltb_ge 0 size)) by lia. destr_if; intros; by simplify_eq.
Qed.

(** Two tables with the same bits are the same table. *)
Lemma table_ext (t t' : list Z) :
  length t' = length t -> Forall (fun w => 0 <= w < 2 ^ 32) t -> Forall (fun w => 0 <= w < 2 ^ 32) t' ->
  (forall j, 0 <= j -> tbit t' j = tbit t j) -> t' = t.
Proof.
  intros HL HF HF' HB. apply (list_eq_same_length _ _ (length t)); [exact eq_refl|exact HL|].
  intros q x y Hq Hx Hy. apply Z.bits_inj'. intros k Hk.
  destruct (Z.lt_ge_cases k 32).
  - specialize (HB (32 * Z.of_nat q + k) ltac:(lia)).
    by rewrite (tbit_lookup t' (Z.of_nat q) k x), (tbit_lookup t (Z.of_nat q) k y) in HB
      by (rewrite ?Nat2Z.id; lia || done).
  - pose proof (word_bound _ _ _ HF' Hx). pose proof (word_bound _ _ _ HF Hy).
    by rewrite !(testbit_high 32) by lia.
Qed.

(** Freeing what [gran_alloc] returned restores the table word for word. *)
Lemma alloc_free_restores g size i t' :
  gran_wf g -> 0 < size <= 32 * 2 ^ log2gran g -> fits g (granules_of g size) i ->
  upd_range (gat g) t' i (granules_of g size) true ->
  gran_free (set_gat g t') (granaddr g i) size = Ok g.
Proof.
  intros W Hs (Hi & Hend & Hfree) Hu. pose proof (wf_set_gat _ _ _ _ _ W Hu) as W'.
  pose proof (granules_of_bound g W size Hs) as Hn. pose proof Hu as (HL & HF & HB).
  destruct (gran_free_cases (set_gat g t') W' i (granules_of g size) Hi Hn Hend size Hs eq_refl)
    as [(_ & t2 & Hok & HL2 & HF2 & HB2)|((j & Hj & Hf) & _)].
  - change (granaddr (set_gat g t') i) with (granaddr g i) in Hok. rewrite Hok. f_equal.
    destruct g as [l n h t]. unfold set_gat; simpl in *. f_equal.
    apply table_ext; [congruence|apply W|done|]. intros j Hj. rewrite HB2, HB by done.
    destruct (Z.leb_spec i j), (Z.ltb_spec j (i + granules_of (MkGran l n h t) size)); try done.
    symmetry. apply (Hfree j). lia.
  - exfalso. unfold granule in Hf; simpl in Hf. rewrite HB in Hf by lia.
    revert Hf. decide_cmp; done || lia.
Qed.

(** ** A heap in use

    The clients of the heap allocate and free; [live] remembers the blocks they
    hold (ghost state).  A client only frees a block it holds, with its size. *)

Record heap : Type := MkHeap { hgran : mm_gran; live : list (Z * Z) }.

Inductive heap_step : heap -> heap -> Prop :=
| step_alloc g ls size g' a :
    0 < size <= 32 * 2 ^ log2gran g ->
    gran_alloc g size = Ok (g', a) -> a <> 0 ->
    heap_step (MkHeap g ls) (MkHeap g' ((a, size) :: ls))
| step_alloc_null g ls size g' :
    0 < size <= 32 * 2 ^ log2gran g ->
    gran_alloc g size = Ok (g', 0) -> heap_step (MkHeap g ls) (MkHeap g' ls)
| step_free g l1 l2 a size g' :
    gran_free g a size = Ok g' ->
    heap_step (MkHeap g (l1 ++ (a, size) :: l2)) (MkHeap g' (l1 ++ l2)).

Inductive heap_steps : heap -> heap -> Prop :=
| steps_refl h : heap_steps h h
| steps_snoc h1 h2 h3 : heap_steps h1 h2 -> heap_step h2 h3 -> heap_steps h1 h3.

(** Granule [j] belongs to block [b]. *)
Definition in_block (g : mm_gran) (b : Z * Z) (j : Z) : bool :=
  (granno_of g b.1 <=? j) && (j <? granno_of g b.1 + granules_of g b.2).

Fixpoint cover (g : mm_gran) (ls : list (Z * Z)) (j : Z) : nat :=
  match ls with
  | [] => O
  | b :: ls => (Nat.b2n (in_block g b j) + cover g ls j)%nat
  end.

Definition block_ok (g : mm_gran) (b : Z * Z) : Prop :=
  0 < b.2 <= 32 * 2 ^ log2gran g /\
  exists i, 0 <= i /\ i + granules_of g b.2 <= ngranules g /\ b.1 = granaddr g i.

(** Every used granule belongs to exactly one live block, every other to none. *)
Record heap_inv (h : heap) : Prop := {
  inv_wf : gran_wf (hgran h);
  inv_blocks : Forall (block_ok (hgran h)) (live h);
  inv_cover : forall j, 0 <= j < ngranules (hgran h) ->
    cover (hgran h) (live h) j = Nat.b2n (granule (hgran h) j)
}.

Lemma cover_app g l1 l2 j : cover g (l1 ++ l2) j = (cover g l1 j + cover g l2 j)%nat.
Proof. induction l1 as [|b l1 IH]; simpl; [done|]. rewrite IH. lia. Qed.

Lemma cover_set_gat g t ls j : cover (set_gat g t) ls j = cover g ls j.
Proof. induction ls as [|b ls IH]; simpl; [done|]. by rewrite IH. Qed.

Lemma in_block_at g i size j :
  gran_wf g -> 0 <= i <= ngranules g ->
  in_block g (granaddr g i, size) j = (i <=? j) && (j <? i + granules_of g size).
Proof. intros W Hi. unfold in_block; simpl. by rewrite granno_granaddr. Qed.

(** The granules of a held block are in use, and belong to no other block. *)
Lemma held_block g ls1 ls2 i size :
  gran_wf g -> 0 < size <= 32 * 2 ^ log2gran g -> 0 <= i ->
  i + granules_of g size <= ngranules g ->
  (forall j, 0 <= j < ngranules g ->
     cover g (ls1 ++ (granaddr g i, size) :: ls2) j = Nat.b2n (granule g j)) ->
  forall j, i <= j < i + granules_of g size ->
  granule g j = true /\ cover g (ls1 ++ ls2) j = O.
Proof.
  intros W Hs Hi Hend Hc j Hj. specialize (Hc j ltac:(lia)).
  pose proof (granules_of_bound g W size Hs).
  rewrite cover_app in Hc. cbn [cover] in Hc. rewrite in_block_at in Hc by lia || done.
  rewrite (proj2 (Z.leb_le _ _)), (proj2 (Z.ltb_lt _ _)) in Hc by lia. simpl in Hc.
  rewrite cover_app. destruct (granule g j); simpl in Hc; [split; [done|lia]|lia].
Qed.

(** A held block can always be freed, and exactly its granules become free. *)
Lemma heap_free_ok g l1 l2 a size :
  heap_inv (MkHeap g (l1 ++ (a, size) :: l2)) ->
  exists i t', 0 <= i /\ i + granules_of g size <= ngranules g /\
    gran_free g a size = Ok (set_gat g t') /\ a = granaddr g i /\
    upd_range (gat g) t' i (granules_of g size) false /\
    forall j, i <= j < i + granules_of g size -> cover g (l1 ++ l2) j = O.
Proof.
  intros [W HB HC]; simpl in *. rewrite Forall_app, Forall_cons in HB.
  destruct HB as (_ & (Hs & i & Hi & Hend & Ha) & _); simpl in *; subst a.
  pose proof (granules_of_bound g W size Hs) as Hn.
  pose proof (held_block g l1 l2 i size W Hs Hi Hend HC) as Hheld.
  destruct (gran_free_cases g W i (granules_of g size) Hi Hn Hend size Hs eq_refl)
    as [(_ & t' & Hok & Hu)|((j & Hj & Hf) & _)].
  - exists i, t'. split_and!; try done. intros j Hj. by apply Hheld.
  - destruct (Hheld j Hj) as [Ht _]. congruence.
Qed.

Lemma heap_step_inv h h' : heap_inv h -> heap_step h h' -> heap_inv h'.
Proof.
  intros Hinv Hstep. destruct Hstep as [g ls size g' a Hs Ha Hnz|g ls size g' Hs Ha|g l1 l2 a size g' Hf].
  - destruct Hinv as [W HB HC]; simpl in *.
    destruct (gran_alloc_cases g size W Hs) as [(i & t' & He & (Hi & Hend & Hfr) & _ & Hu)|[He _]];
      rewrite He in Ha; simplify_eq.
    pose proof (granules_of_bound g W size Hs).
    constructor; simpl; [by eapply wf_set_gat| |].
    + constructor; [split; [done|by exists i]|done].
    + intros j Hj. rewrite cover_set_gat, HC by done.
      change (in_block (set_gat g t')) with (in_block g). rewrite in_block_at by lia || done.
      unfold granule; simpl. destruct Hu as (_ & _ & ->); [|lia].
      destruct (Z.leb_spec i j), (Z.ltb_spec j (i + granules_of g size)); simpl; try done.
      unfold granule in Hfr. by rewrite (Hfr j) by lia.
  - destruct Hinv as [W HB HC]; simpl in *.
    destruct (gran_alloc_cases g size W Hs) as [(i & t' & He & (Hi & Hend & _) & _)|[He _]];
      rewrite He in Ha; simplify_eq; [|done].
    pose proof (granules_of_bound g W size Hs).
    pose proof (granaddr_small g W i ltac:(lia)). lia.
  - destruct (heap_free_ok g l1 l2 a size Hinv) as (i & t' & Hi & Hend & He & -> & Hu & Hz).
    rewrite He in Hf. simplify_eq. destruct Hinv as [W HB HC]; simpl in *.
    rewrite Forall_app, Forall_cons in HB. destruct HB as (HB1 & (Hs & _) & HB2). simpl in Hs.
    pose proof (granules_of_bound g W size Hs).
    constructor; simpl; [by eapply wf_set_gat|by apply Forall_app|].
    intros j Hj. rewrite cover_set_gat. unfold granule; simpl.
    destruct Hu as (_ & _ & ->); [|lia].
    specialize (HC j Hj). rewrite cover_app in HC. cbn [cover] in HC.
    rewrite in_block_at in HC by lia || done. rewrite cover_app. revert HC.
    specialize (Hz j). rewrite cover_app in Hz. unfold granule.
    destruct (Z.leb_spec i j), (Z.ltb_spec j (i + granules_of g size)); simpl; lia.
Qed.

Lemma heap_steps_inv h h' : heap_steps h h' -> heap_inv h -> heap_inv h'.
Proof.
  induction 1 as [|h1 h2 h3 _ IH Hstep]; [done|]. intros Hi.
  by apply (heap_step_inv h2); [apply IH|].
Qed.

(** ** Initialisation *)

(** Rounding up to a power of two stays in range when the result does. *)
Lemma aligned_below x a :
  0 <= a <= 64 -> x / 2 ^ a * 2 ^ a < 2 ^ 64 -> x < 2 ^ 64.
Proof.
  intros Ha Hx. pose proof (pow2_pos a ltac:(lia)). pose proof (div_mul_bounds x (2 ^ a)).
  assert (Hp : 2 ^ 64 = 2 ^ (64 - a) * 2 ^ a) by (rewrite <- Z.pow_add_r by lia; f_equal; lia).
  assert (x / 2 ^ a < 2 ^ (64 - a)) by nia. nia.
Qed.

Lemma gran_extent_spec hs sz l a :
  1 <= l <= 25 -> 0 <= a <= l -> 0 < hs -> 0 <= sz <= 2 ^ 31 -> hs + sz < 2 ^ 64 ->
  let start := (hs + 2 ^ a - 1) / 2 ^ a * 2 ^ a in
  start <= hs + sz ->
  gran_extent hs sz l a = (start, (hs + sz - start) / 2 ^ l) /\
  hs <= start < hs + 2 ^ a /\ 0 <= (hs + sz - start) / 2 ^ l <= 2 ^ 30.
Proof.
  intros Hl Ha Hhs Hsz Hend start Hst.
  pose proof (pow2_le a 25 ltac:(lia)). pose proof (pow2_le l 25 ltac:(lia)).
  pose proof (pow2_pos a ltac:(lia)). pose proof (pow2_le 1 l ltac:(lia)) as H2.
  assert (Hb : hs <= start < hs + 2 ^ a).
  { subst start. pose proof (Z.div_mod (hs + 2 ^ a - 1) (2 ^ a) ltac:(lia)).
    pose proof (Z.mod_pos_bound (hs + 2 ^ a - 1) (2 ^ a) ltac:(lia)). lia. }
  assert (Hq : 0 <= (hs + sz - start) / 2 ^ l <= 2 ^ 30).
  { split; [apply Z.div_pos; lia|]. apply Z.div_le_upper_bound; [lia|]. nia. }
  split; [|done]. unfold gran_extent. rewrite !shiftl1 by lia.
  rewrite !(s32_id (2 ^ _)) by lia. rewrite !s32_id by lia.
  rewrite (u64_id (2 ^ a - 1)), (u64_id (2 ^ l - 1)), (u64_id (hs + sz)) by lia.
  replace (hs + (2 ^ a - 1)) with (hs + 2 ^ a - 1) by lia.
  assert (hs + 2 ^ a - 1 < 2 ^ 64) by (apply (aligned_below _ a); lia).
  rewrite (u64_id (hs + 2 ^ a - 1)), land_not64_ones by lia. fold start.
  rewrite (u64_id (hs + sz - start)), land_not64_ones by lia.
  rewrite Z.shiftr_div_pow2, Z.div_mul by lia. by rewrite u32_id by lia.
Qed.

(** The size of the header for [n] granules, away from 32-bit wrap-around. *)
Lemma header_size n :
  0 < n <= 2 ^ 31 -> SIZEOF_MM_GRAN n = 20 + 4 * ((n + 31) / 32).
Proof.
  intros Hn. unfold SIZEOF_MM_GRAN, SIZEOF_GAT. rewrite (u32_id (n + 31)) by lia.
  rewrite Z.shiftr_div_pow2 by lia. change (2 ^ 5) with 32.
  assert (1 <= (n + 31) / 32) by (apply Z.div_le_lower_bound; lia).
  assert ((n + 31) / 32 <= 2 ^ 27) by (apply Z.div_le_upper_bound; lia).
  rewrite (u32_id ((n + 31) / 32 - 1)), u32_id by lia. lia.
Qed.

(** What [gran_initialize] builds from a heap region that has room for the
    header and one aligned granule. *)
Lemma gran_initialize_ok mem32 hs hsize l a :
  1 <= l <= 25 -> 0 <= a <= l -> 0 < hs -> hsize <= 2 ^ 31 -> hs + hsize < 2 ^ 64 ->
  let n0 := (hs + hsize - (hs + 2 ^ a - 1) / 2 ^ a * 2 ^ a) / 2 ^ l in
  let head := SIZEOF_MM_GRAN n0 in
  let start := (hs + head + 2 ^ a - 1) / 2 ^ a * 2 ^ a in
  2 ^ a + 2 ^ l <= hsize -> head + 2 ^ a <= hsize ->
  gran_initialize mem32 hs hsize l a =
    Ok (MkGran l ((hs + hsize - start) / 2 ^ l) start
         (map (fun i => mem32 (hs + GAT_OFFSET + 4 * i)) (seqZ 0 ((n0 + 31) / 32 + 1)))) /\
  hs + head <= start < hs + head + 2 ^ a /\
  head = 20 + 4 * ((n0 + 31) / 32) /\
  0 <= (hs + hsize - start) / 2 ^ l <= n0.
Proof.
  intros Hl Ha Hhs Hsz Hend n0 head start Hroom Hhead.
  pose proof (pow2_pos a ltac:(lia)). pose proof (pow2_le 1 l ltac:(lia)).
  destruct (gran_extent_spec hs hsize l a) as (He0 & Hst0 & Hn0); [lia..| |].
  { pose proof (div_mul_bounds (hs + 2 ^ a - 1) (2 ^ a)). lia. }
  fold n0 in He0, Hn0.
  assert (1 <= n0) by (apply Z.div_le_lower_bound; lia).
  assert (Hh : head = 20 + 4 * ((n0 + 31) / 32)) by (apply header_size; lia).
  assert (1 <= (n0 + 31) / 32) by (apply Z.div_le_lower_bound; lia).
  destruct (gran_extent_spec (hs + head) (hsize - head) l a) as (He1 & Hst1 & Hn1); [lia..| |].
  { pose proof (div_mul_bounds (hs + head + 2 ^ a - 1) (2 ^ a)). lia. }
  replace (hs + head + (hsize - head)) with (hs + hsize) in He1, Hn1 by lia.
  fold start in He1, Hst1, Hn1.
  split; [|split; [done|split; [done|]]].
  - unfold gran_initialize.
    rewrite (proj2 (Z.eqb_neq _ _)), !(proj2 (Z.ltb_lt _ _)), (proj2 (Z.leb_le _ _)) by lia.
    cbn [negb andb]. rewrite He0. fold head. rewrite !u64_id by lia. rewrite He1.
    do 4 f_equal. rewrite Hh. unfold GAT_OFFSET.
    replace (20 + 4 * ((n0 + 31) / 32) - 16) with (((n0 + 31) / 32 + 1) * 4) by lia.
    by rewrite Z.div_mul.
  - split; [lia|]. apply Z.div_le_mono; [lia|].
    assert ((hs + 2 ^ a - 1) / 2 ^ a <= (hs + head + 2 ^ a - 1) / 2 ^ a)
      by (apply Z.div_le_mono; lia). nia.
Qed.

(** ** Properties *)

(** The heap that [gran_initialize] lays out. *)
Lemma gran_initialize_heap mem32 hs hsize l a :
  1 <= l <= 25 -> 0 <= a <= l -> 0 < hs -> hsize <= 2 ^ 31 -> hs + hsize < 2 ^ 64 ->
  (forall p, 0 <= mem32 p < 2 ^ 32) ->
  2 ^ a + 2 ^ l <= hsize -> SIZEOF_MM_GRAN (gran_extent hs hsize l a).2 + 2 ^ a <= hsize ->
  exists g, gran_initialize mem32 hs hsize l a = Ok g /\ gran_wf g /\
    heapstart g mod 2 ^ a = 0 /\
    hs + GAT_OFFSET + 4 * Z.of_nat (length (gat g)) <= heapstart g /\
    granaddr g (ngranules g) <= hs + hsize < granaddr g (ngranules g) + 2 ^ l /\
    ((forall p, mem32 p = 0) -> forall j, 0 <= j < ngranules g -> granule g j = false).
Proof.
  intros Hl Ha Hhs Hsz Hend Hmem Hroom Hhead.
  pose proof (pow2_pos a ltac:(lia)). pose proof (pow2_le 1 l ltac:(lia)).
  destruct (gran_extent_spec hs hsize l a) as (He0 & _); [lia..| |].
  { pose proof (div_mul_bounds (hs + 2 ^ a - 1) (2 ^ a)). lia. }
  rewrite He0 in Hhead. cbn [snd] in Hhead.
  destruct (gran_initialize_ok mem32 hs hsize l a) as (Hg & Hst & Hh & Hn); [done..|].
  revert Hhead Hg Hst Hh Hn.
  set (n0 := (hs + hsize - (hs + 2 ^ a - 1) / 2 ^ a * 2 ^ a) / 2 ^ l).
  set (head := SIZEOF_MM_GRAN n0). set (start := (hs + head + 2 ^ a - 1) / 2 ^ a * 2 ^ a).
  intros Hhead Hg Hst Hh Hn.
  assert (0 <= (n0 + 31) / 32) by (apply Z.div_pos; lia).
  assert (Hc : ((hs + hsize - start) / 2 ^ l + 31) / 32 <= (n0 + 31) / 32) by (apply Z.div_le_mono; lia).
  pose proof (div_mul_bounds (hs + hsize - start) (2 ^ l)).
  assert (Hw : forall q w, map (fun i => mem32 (hs + GAT_OFFSET + 4 * i)) (seqZ 0 ((n0 + 31) / 32 + 1)) !! q
            = Some w -> exists p, w = mem32 p).
  { intros q w Hq. apply list_lookup_fmap_Some in Hq as (x & -> & _). by eexists. }
  eexists. split; [exact Hg|]. split.
  { constructor; simpl; try lia.
    - rewrite length_map, length_seqZ. lia.
    - apply Forall_lookup_2. intros q w Hq. destruct (Hw q w Hq) as [p ->]. apply Hmem. }
  unfold granaddr; simpl. split; [unfold start; apply Z.mod_mul; lia|].
  rewrite length_map, length_seqZ. unfold GAT_OFFSET. split; [lia|]. split; [lia|].
  intros Hz j Hj. unfold granule, tbit; simpl.
  destruct (_ !! Z.to_nat (j / 32)) as [w|] eqn:E.
  - destruct (Hw _ _ E) as [p ->]. rewrite Hz. apply Z.bits_0.
  - exfalso. apply lookup_ge_None_1 in E. rewrite length_map, length_seqZ in E.
    assert (j / 32 <= (n0 + 31) / 32) by (apply Z.div_le_mono; lia).
    assert (0 <= j / 32) by (apply Z.div_pos; lia). lia.
Qed.

Module GranSpec.

(** A heap of forty 4 KiB granules with granules 0..29 in use, for witnesses. *)
Definition sample : mm_gran := MkGran 12 40 0x40001000 [0x3fffffff; 0; 0].

Lemma sample_wf : gran_wf sample.
Proof. constructor; [by vm_compute..|]. by repeat (apply Forall_cons; split). Qed.

Definition fresh : mm_gran := MkGran 12 40 0x40001000 [0; 0; 0].

Lemma fresh_wf : gran_wf fresh.
Proof. constructor; [by vm_compute..|]. by repeat (apply Forall_cons; split). Qed.

Lemma fresh_free j : 0 <= j < ngranules fresh -> granule fresh j = false.
Proof.
  intros Hj. unfold granule, tbit. simpl in *.
  assert (j / 32 < 2) by (apply Z.div_lt_upper_bound; lia).
  assert (0 <= j / 32) by (apply Z.div_pos; lia).
  assert (j / 32 = 0 \/ j / 32 = 1) as [-> | ->] by lia; apply Z.bits_0.
Qed.

(** C13: [gran_alloc] is first fit.  On a well-formed heap a request of 1 byte to
    32 granules terminates without a failed assertion; it returns the lowest
    run of enough free granules that ends inside the heap, and marks exactly
    those granules; it returns [NULL] and leaves the table alone only when no
    such run exists anywhere, runs that straddle two table words included. *)
Theorem gran_alloc_first_fit g size :
  gran_wf g -> 0 < size <= 32 * 2 ^ log2gran g ->
  let n := granules_of g size in
  (exists i t', gran_alloc g size = Ok (set_gat g t', granaddr g i) /\
     fits g n i /\ (forall j, fits g n j -> i <= j) /\
     (forall j, 0 <= j -> tbit t' j = if (i <=? j) && (j <? i + n) then true else granule g j) /\
     gran_wf (set_gat g t')) \/
  (gran_alloc g size = Ok (g, 0) /\ forall j, ~ fits g n j).
Proof.
  intros W Hs n. destruct (gran_alloc_cases g size W Hs) as [(i & t' & He & Hf & Hm & Hu)|?]; [left|by right].
  exists i, t'. split_and!; try done; [apply Hu|by eapply wf_set_gat].
Qed.

Lemma gran_alloc_first_fit_witness :
  exists i t', gran_alloc sample 0x5001 = Ok (set_gat sample t', granaddr sample i) /\
    fits sample (granules_of sample 0x5001) i /\ gran_wf (set_gat sample t').
Proof.
  destruct (gran_alloc_first_fit sample 0x5001 sample_wf ltac:(by vm_compute))
    as [(i & t' & He & Hf & _ & _ & Hw)|[He _]].
  - exists i, t'. exact (conj He (conj Hf Hw)).
  - exfalso. revert He. vm_compute. discriminate.
Defined.

(** The six granules of that request straddle the first two table words. *)
Example gran_alloc_straddles :
  gran_alloc sample 0x5001 = Ok (set_gat sample [0xffffffff; 0xf; 0], granaddr sample 30).
Proof. by vm_compute. Qed.

(** C15: [gran_free] checks and clears exactly the block.  When every granule of
    the block is in use the call succeeds and frees those granules and no
    other; when one of them is already free (a double free, or a wrong
    address or size) the assertion stops the kernel. *)
Theorem gran_free_exact g i size :
  gran_wf g -> 0 < size <= 32 * 2 ^ log2gran g -> 0 <= i ->
  let n := granules_of g size in
  i + n <= ngranules g ->
  if forallb (granule g) (seqZ i n) then
    exists t', gran_free g (granaddr g i) size = Ok (set_gat g t') /\ gran_wf (set_gat g t') /\
      forall j, 0 <= j -> tbit t' j = if (i <=? j) && (j <? i + n) then false else granule g j
  else gran_free g (granaddr g i) size = Halt.
Proof.
  intros W Hs Hi n Hend. pose proof (granules_of_bound g W size Hs) as Hn.
  destruct (gran_free_cases g W i n Hi Hn Hend size Hs eq_refl)
    as [(Hall & t' & Hok & Hu)|((j & Hj & Hf) & Hh)]; destruct (forallb _ _) eqn:E; try done.
  - exists t'. split_and!; [done|by eapply wf_set_gat|apply Hu].
  - exfalso. apply not_true_iff_false in E. apply E, forallb_forall. intros j Hj.
    apply list_elem_of_In, elem_of_seqZ in Hj. apply Hall. lia.
  - exfalso. rewrite forallb_forall in E.
    rewrite E in Hf; [done|]. apply list_elem_of_In, elem_of_seqZ. lia.
Qed.

Lemma gran_free_exact_witness :
  (exists t', gran_free sample (granaddr sample 3) 0x1800 = Ok (set_gat sample t') /\
     gran_wf (set_gat sample t') /\ forall j, 0 <= j ->
       tbit t' j = if (3 <=? j) && (j <? 3 + 2) then false else granule sample j) /\
  gran_free sample (granaddr sample 29) 0x2000 = Halt.
Proof.
  split; [apply (gran_free_exact sample 3 0x1800 sample_wf)|
          apply (gran_free_exact sample 29 0x2000 sample_wf)]; by vm_compute.
Defined.

(** C22: a round trip.  Freeing an allocation with the size it was made with gives back
    the allocator state from before, table word for word. *)
Theorem gran_alloc_free_roundtrip g size g' a :
  gran_wf g -> 0 < size <= 32 * 2 ^ log2gran g ->
  gran_alloc g size = Ok (g', a) -> a <> 0 ->
  gran_free g' a size = Ok g.
Proof.
  intros W Hs Ha Hnz.
  destruct (gran_alloc_cases g size W Hs) as [(i & t' & He & Hf & _ & Hu)|[He _]];
    rewrite He in Ha; simplify_eq. by apply alloc_free_restores.
Qed.

Lemma gran_alloc_free_roundtrip_witness :
  gran_free (set_gat sample [0xffffffff; 0xf; 0]) (granaddr sample 30) 0x5001 = Ok sample.
Proof.
  apply (gran_alloc_free_roundtrip sample 0x5001); [apply sample_wf|by vm_compute..].
Defined.



(** No sequence of allocations and frees can make a later free halt the
    kernel: a block that is held is released by [gran_free] with success, and
    its granules are free afterwards. *)
Theorem heap_held_block_frees g h l1 l2 a size :
  gran_wf g -> (forall j, 0 <= j < ngranules g -> granule g j = false) ->
  heap_steps (MkHeap g []) h -> live h = l1 ++ (a, size) :: l2 ->
  exists g', gran_free (hgran h) a size = Ok g' /\ heap_inv (MkHeap g' (l1 ++ l2)) /\
    fits g' (granules_of g' size) (granno_of g' a).
Proof.
  intros W Hfree Hsteps Hlive.
  assert (Hi : heap_inv h).
  { apply (heap_steps_inv _ _ Hsteps). constructor; simpl; [done|done|]. intros j Hj. by rewrite Hfree. }
  destruct h as [g' ls]; simpl in *; subst ls.
  destruct (heap_free_ok g' l1 l2 a size Hi) as (i & t' & Hi0 & Hend & He & -> & Hu & _).
  assert (W' : gran_wf (set_gat g' t')) by (eapply wf_set_gat; [apply Hi|done]).
  exists (set_gat g' t'). split; [done|]. split.
  - eapply heap_step_inv; [exact Hi|]. by apply step_free.
  - destruct Hi as [Wg HB _]; simpl in *. rewrite Forall_app, Forall_cons in HB.
    destruct HB as (_ & (Hs & _) & _). pose proof (granules_of_bound g' Wg size Hs).
    change (granno_of (set_gat g' t')) with (granno_of g').
    rewrite granno_granaddr by lia || done.
    split; [done|]. split; [done|]. intros j Hj. unfold granule; simpl.
    destruct Hu as (_ & _ & ->); [|lia]. change (granules_of (set_gat g' t')) with (granules_of g') in Hj.
    decide_cmp; done || lia.
Qed.

Lemma heap_held_block_frees_witness :
  exists g', gran_free (MkGran 12 40 0x40001000 [3; 0; 0]) 0x40001000 0x1801 = Ok g' /\
    fits g' (granules_of g' 0x1801) (granno_of g' 0x40001000).
Proof.
  destruct (heap_held_block_frees fresh (MkHeap (MkGran 12 40 0x40001000 [3; 0; 0]) [(0x40001000, 0x1801)])
              [] [] 0x40001000 0x1801) as (g' & H1 & _ & H2).
  - apply fresh_wf.
  - apply fresh_free.
  - apply (steps_snoc _ (MkHeap fresh [])); [apply steps_refl|].
    apply step_alloc; [by vm_compute..|lia].
  - reflexivity.
  - exists g'. split; [exact H1|exact H2].
Defined.

(** [gran_initialize] lays out a well-formed heap.  For a region below 2 GiB
    that has room for the header and an aligned granule, the granules start
    after the header and its table, aligned as asked, end inside the region,
    and waste less than one granule at the end; over zeroed memory every
    granule is free, and the table has a word for every granule and one more. *)
Theorem gran_initialize_wf mem32 hs hsize l a :
  1 <= l <= 25 -> 0 <= a <= l -> 0 < hs -> hsize <= 2 ^ 31 -> hs + hsize < 2 ^ 64 ->
  (forall p, 0 <= mem32 p < 2 ^ 32) ->
  2 ^ a + 2 ^ l <= hsize -> SIZEOF_MM_GRAN (gran_extent hs hsize l a).2 + 2 ^ a <= hsize ->
  exists g, gran_initialize mem32 hs hsize l a = Ok g /\ gran_wf g /\
    heapstart g mod 2 ^ a = 0 /\
    hs + GAT_OFFSET + 4 * Z.of_nat (length (gat g)) <= heapstart g /\
    granaddr g (ngranules g) <= hs + hsize < granaddr g (ngranules g) + 2 ^ l /\
    ((forall p, mem32 p = 0) -> forall j, 0 <= j < ngranules g -> granule g j = false).
Proof. apply gran_initialize_heap. Qed.

Lemma gran_initialize_wf_witness :
  exists g, gran_initialize (fun _ => 0) 0xffffff8000123456 0x100000 12 12 = Ok g /\ gran_wf g /\
    granule g 7 = false.
Proof.
  destruct (gran_initialize_wf (fun _ => 0) 0xffffff8000123456 0x100000 12 12)
    as (g & H1 & H2 & _ & _ & _ & H3); try lia.
  - by vm_compute.
  - exists g. split; [exact H1|]. split; [exact H2|]. apply H3; [reflexivity|].
    vm_compute in H1. injection H1 as <-. simpl. lia.
Defined.

End GranSpec.
