(* ===== verification/GranInfo.v ===== *)
(** * Statistics of the granule heap (os/core/mm/mm_graninfo.c)

    [gran_dump] walks the allocation table and reports how many granules are
    free and how long the longest run of free granules is.  It reads 32-bit
    words and splits the mixed ones into half words, bytes and nibbles, whose
    summaries come from five constant tables and are glued together by
    [gran_info_combine].  The file proves that this divide and conquer computes
    the number of free granules and the longest free run of the table. *)

From Stdlib Require Import ZArith Lia Bool.
From stdpp Require Import base numbers list list_numbers.
From S2P Require Import Prelude Gran.

(** ** Data *)

Record nibble_info_s : Type := Nib {
  nib_nfree : Z; nib_nlsfree : Z; nib_nmsfree : Z; nib_mxfree : Z
}.

Record valinfo_s : Type := MkVal {
  nfree : Z;    (* total bits free *)
  nlsfree : Z;  (* contiguous LS bits free *)
  nmsfree : Z;  (* contiguous MS bits free *)
  mxfree : Z    (* largest internal run of free bits *)
}.

#[export] Instance valinfo_s_eq_dec : EqDecision valinfo_s.
Proof. solve_decision. Defined.

Record graninfo : Type := MkInfo {
  info_log2gran : Z; info_ngranules : Z; info_nfree : Z; info_mxfree : Z
}.

Definition g_0bit_info : list nibble_info_s := [Nib 0 0 0 0].

Definition g_1bit_info : list nibble_info_s := [Nib 1 1 0 0; Nib 0 0 0 0].

Definition g_2bit_info : list nibble_info_s :=
  [Nib 2 2 0 0; Nib 1 0 1 0; Nib 1 1 0 0; Nib 0 0 0 0].

Definition g_3bit_info : list nibble_info_s :=
  [Nib 3 3 0 0; Nib 2 0 2 0; Nib 2 1 1 0; Nib 1 0 1 0;
   Nib 2 2 0 0; Nib 1 0 0 1; Nib 1 1 0 0; Nib 0 0 0 0].

Definition g_4bit_info : list nibble_info_s :=
  [Nib 4 4 0 0; Nib 3 0 3 0; Nib 3 1 2 0; Nib 2 0 2 0;
   Nib 3 2 1 0; Nib 2 0 1 1; Nib 2 1 1 0; Nib 1 0 1 0;
   Nib 3 3 0 0; Nib 2 0 0 2; Nib 2 1 0 1; Nib 1 0 0 1;
   Nib 2 2 0 0; Nib 1 0 0 1; Nib 1 1 0 0; Nib 0 0 0 0].

Definition g_info_table : list (list nibble_info_s) :=
  [g_0bit_info; g_1bit_info; g_2bit_info; g_3bit_info; g_4bit_info].

(** ** Operations *)

Definition gran_nibble_info (value nbits : Z) : outcome valinfo_s :=
  let! table := aget g_info_table nbits in
  let mask := u8 (s32 (Z.shiftl 1 nbits) - 1) in
  let! nibinfo := aget table (Z.land value mask) in
  Ok (MkVal (nib_nfree nibinfo) (nib_nlsfree nibinfo) (nib_nmsfree nibinfo) (nib_mxfree nibinfo)).

Definition gran_info_combine (msinfo : valinfo_s) (msbits : Z) (lsinfo : valinfo_s) (lsbits : Z)
    : valinfo_s :=
  let midfree :=
    if (nlsfree lsinfo <? lsbits) && (nlsfree msinfo <? msbits)
    then nmsfree lsinfo + nlsfree msinfo else 0 in
  let nfree' := u8 (nfree lsinfo + nfree msinfo) in
  let nmsfree' :=
    if nlsfree msinfo =? msbits then
      if nlsfree lsinfo =? lsbits then 0 else u8 (nmsfree lsinfo + msbits)
    else nmsfree msinfo in
  let nlsfree' :=
    if nlsfree lsinfo =? lsbits then u8 (nlsfree lsinfo + nlsfree msinfo) else nlsfree lsinfo in
  let mxfree1 := if mxfree lsinfo <? midfree then u8 midfree else mxfree lsinfo in
  let mxfree2 := if mxfree1 <? mxfree msinfo then mxfree msinfo else mxfree1 in
  MkVal nfree' nlsfree' nmsfree' mxfree2.

Definition gran_byte_info (value0 nbits : Z) : outcome valinfo_s :=
  let '(mask, value) :=
    if nbits <? 8 then
      let mask := u8 (s32 (Z.shiftl 1 nbits) - 1) in (mask, Z.land value0 mask)
    else (0xff, value0) in
  if value =? 0 then Ok (MkVal (u8 nbits) (u8 nbits) 0 0)
  else if value =? mask then Ok (MkVal 0 0 0 0)
  else
    let! info := gran_nibble_info (Z.land value 0x0f) (if 4 <? nbits then 4 else nbits) in
    if 4 <? nbits then
      let msbits := nbits - 4 in
      let! msinfo := gran_nibble_info (Z.shiftr value 4) msbits in
      Ok (gran_info_combine msinfo msbits info 4)
    else Ok info.

Definition gran_hword_info (value0 nbits : Z) : outcome valinfo_s :=
  let '(mask, value) :=
    if nbits <? 16 then
      let mask := u16 (s32 (Z.shiftl 1 nbits) - 1) in (mask, Z.land value0 mask)
    else (0xffff, value0) in
  if value =? 0 then Ok (MkVal (u8 nbits) (u8 nbits) 0 0)
  else if value =? mask then Ok (MkVal 0 0 0 0)
  else
    let! info := gran_byte_info (u8 (Z.land value 0xff)) (if 8 <? nbits then 8 else nbits) in
    if 8 <? nbits then
      let msbits := nbits - 8 in
      let! msinfo := gran_byte_info (u8 (Z.shiftr value 8)) msbits in
      Ok (gran_info_combine msinfo msbits info 8)
    else Ok info.

(** One turn of the loop of [gran_dump] over a table word with [nbits] valid
    bits: [tot] and [mx] are the fields of [info], [run] the local [mxfree]. *)
Definition gran_dump_word (value mask nbits tot mx run : Z) : outcome (Z * Z * Z) :=
  if value =? mask then Ok (tot, (if mx <? run then run else mx), 0)
  else if value =? 0 then Ok (u32 (tot + nbits), mx, u32 (run + nbits))
  else
    let! hwinfo0 := gran_hword_info (u16 (Z.land value 0xffff)) (if 16 <? nbits then 16 else nbits) in
    let! hwinfo :=
      (if 16 <? nbits then
         let msbits := nbits - 16 in
         let! msinfo := gran_hword_info (u16 (Z.shiftr value 16)) msbits in
         Ok (gran_info_combine msinfo msbits hwinfo0 16)
       else Ok hwinfo0) in
    let run1 := if 0 <? nlsfree hwinfo then u32 (run + nlsfree hwinfo) else run in
    let '(mx', run') :=
      if nlsfree hwinfo <? nbits then
        let run2 := if run1 <? mxfree hwinfo then mxfree hwinfo else run1 in
        ((if mx <? run2 then run2 else mx), nmsfree hwinfo)
      else (mx, run1) in
    Ok (u32 (tot + nfree hwinfo), mx', run').

Fixpoint gran_dump_loop (fuel : nat) (g : mm_gran) (granidx tot mx run : Z) : outcome (Z * Z * Z) :=
  match fuel with
  | O => Diverge
  | S fuel =>
      if granidx <? ngranules g then
        let gatidx := Z.shiftr granidx 5 in
        let! value0 := aget (gat g) gatidx in
        let '(nbits, mask, value) :=
          if ngranules g <? u32 (granidx + 32) then
            let nbits := u32 (ngranules g - granidx) in
            let mask := u32 (u64 (Z.shiftl 1 nbits) - 1) in
            (nbits, mask, Z.land value0 mask)
          else (32, ALL1, value0) in
        let! (tot', mx', run') := gran_dump_word value mask nbits tot mx run in
        gran_dump_loop fuel g (u32 (granidx + 32)) tot' mx' run'
      else Ok (tot, mx, run)
  end.

Definition gran_dump (g : mm_gran) : outcome graninfo :=
  let! (tot, mx, run) := gran_dump_loop (Z.to_nat (ngranules g / 32) + 2) g 0 0 0 0 in
  Ok (MkInfo (log2gran g) (ngranules g) tot (if mx <? run then run else mx)).

(** ** Runs of free bits

    A bit list is least significant first, [true] for used.  Its summary is
    either one run of free bits, or the first run, the longest inner run and
    the last run. *)

Inductive summary : Type :=
| One (n : Z)
| Many (first inner last : Z).

Fixpoint summ (l : list bool) : summary :=
  match l with
  | [] => One 0
  | false :: l =>
      match summ l with One n => One (n + 1) | Many f m t => Many (f + 1) m t end
  | true :: l =>
      match summ l with One n => Many 0 0 n | Many f m t => Many 0 (Z.max f m) t end
  end.

Definition sappend (a b : summary) : summary :=
  match a, b with
  | One n, One k => One (n + k)
  | One n, Many f m t => Many (n + f) m t
  | Many f m t, One k => Many f m (t + k)
  | Many f m t, Many f' m' t' => Many f (Z.max (Z.max m (t + f')) m') t'
  end.

Fixpoint nfree_of (l : list bool) : Z :=
  match l with [] => 0 | b :: l => (if b then 0 else 1) + nfree_of l end.

Definition lead (s : summary) : Z := match s with One n => n | Many f _ _ => f end.

Definition longest (s : summary) : Z :=
  match s with One n => n | Many f m t => Z.max f (Z.max m t) end.

(** The C record that describes a bit list. *)
Definition vinfo (l : list bool) : valinfo_s :=
  match summ l with
  | One n => MkVal (nfree_of l) n 0 0
  | Many f m t => MkVal (nfree_of l) f t m
  end.

Definition bits (v n : Z) : list bool := map (Z.testbit v) (seqZ 0 n).

Definition snonneg (s : summary) (n : Z) : Prop :=
  match s with
  | One k => k = n
  | Many f m t => 0 <= f < n /\ 0 <= m <= n /\ 0 <= t <= n /\ t + f < n
  end.

Lemma summ_nonneg l : snonneg (summ l) (Z.of_nat (length l)).
Proof.
  induction l as [|[] l IH]; [done| |]; simpl; destruct (summ l); simpl in *; lia.
Qed.

Lemma nfree_of_bound l : 0 <= nfree_of l <= Z.of_nat (length l).
Proof. induction l as [|[] l IH]; simpl; lia. Qed.

Lemma nfree_of_app l1 l2 : nfree_of (l1 ++ l2) = nfree_of l1 + nfree_of l2.
Proof. induction l1 as [|b l1 IH]; simpl; [done|]. rewrite IH. lia. Qed.

Lemma summ_app l1 l2 : summ (l1 ++ l2) = sappend (summ l1) (summ l2).
Proof.
  induction l1 as [|b l1 IH]; simpl; [by destruct (summ l2)|].
  rewrite IH. pose proof (summ_nonneg l1). pose proof (summ_nonneg l2).
  destruct b; destruct (summ l1), (summ l2); simpl in *; f_equal; lia.
Qed.

(** [n] free bits at position [i] of [l]. *)
Definition run_at (l : list bool) (i n : nat) : Prop :=
  (i + n <= length l)%nat /\ forall k, (i <= k < i + n)%nat -> l !! k = Some false.

Lemma lead_run l : run_at l 0 (Z.to_nat (lead (summ l))).
Proof.
  induction l as [|b l (IH1 & IH2)]; [split; [done|simpl; lia]|].
  pose proof (summ_nonneg l) as Hn. destruct b; simpl; destruct (summ l); simpl in *;
    try (split; [simpl; lia|simpl; lia]); (split; [simpl; lia|]);
    intros [|k] Hk; simpl; [done|apply IH2; lia|done|apply IH2; lia].
Qed.

Lemma lead_max l n : run_at l 0 n -> Z.of_nat n <= lead (summ l).
Proof.
  revert n. induction l as [|b l IH]; intros n (H1 & H2); simpl in *; [lia|].
  destruct n as [|n]; [pose proof (summ_nonneg (b :: l)) as Hn; simpl in Hn;
    destruct b; destruct (summ l); simpl in *; lia|].
  assert (Hb := H2 0%nat ltac:(lia)). simpl in Hb. simplify_eq.
  assert (Hr : run_at l 0 n).
  { split; [lia|]. intros k Hk. apply (H2 (S k)). lia. }
  specialize (IH n Hr). destruct (summ l); simpl in *; lia.
Qed.

Lemma run_at_cons b l i n : run_at (b :: l) (S i) n <-> run_at l i n.
Proof.
  unfold run_at. simpl. split; intros (H1 & H2); (split; [lia|]).
  - intros k Hk. apply (H2 (S k)). lia.
  - intros [|k] Hk; [lia|]. apply H2. lia.
Qed.

(** [longest] is the length of the longest run. *)
Lemma longest_max l i n : run_at l i n -> Z.of_nat n <= longest (summ l).
Proof.
  revert i n. induction l as [|b l IH]; intros i n Hr.
  - destruct Hr as [H _]. simpl in *. lia.
  - destruct i as [|i].
    + apply lead_max in Hr. destruct (summ (b :: l)); simpl in *; lia.
    + apply run_at_cons, IH in Hr. pose proof (summ_nonneg l) as Hn.
      destruct b; simpl; destruct (summ l); simpl in *; lia.
Qed.

Lemma longest_run l : exists i, run_at l i (Z.to_nat (longest (summ l))).
Proof.
  induction l as [|b l (i & IH)]; [exists O; split; [done|simpl; lia]|].
  pose proof (summ_nonneg l) as Hn.
  destruct (Z.eq_dec (longest (summ (b :: l))) (longest (summ l))) as [->|Hne].
  - exists (S i). by apply run_at_cons.
  - exists O. replace (longest (summ (b :: l))) with (lead (summ (b :: l))); [apply lead_run|].
    destruct b; simpl in *; destruct (summ l); simpl in *; lia.
Qed.

(** ** The summaries the code computes *)

Lemma length_bits v n : length (bits v n) = Z.to_nat n.
Proof. unfold bits. by rewrite length_map, length_seqZ. Qed.

Lemma bits_lookup v n k : 0 <= n -> (Z.of_nat k < n) -> bits v n !! k = Some (Z.testbit v (Z.of_nat k)).
Proof.
  intros Hn Hk. unfold bits. rewrite list_lookup_fmap, lookup_seqZ_lt by lia. simpl. by f_equal.
Qed.

Lemma bits_ext v v' n :
  (forall k, 0 <= k < n -> Z.testbit v k = Z.testbit v' k) -> bits v n = bits v' n.
Proof.
  intros H. unfold bits. apply list_fmap_ext. intros i x Hx.
  apply lookup_seqZ in Hx as [-> Hx]. apply H. lia.
Qed.

Lemma bits_split v k n : 0 <= k <= n -> bits v n = bits v k ++ bits (Z.shiftr v k) (n - k).
Proof.
  intros Hk. unfold bits. rewrite <- (Z.sub_add k n) at 1. rewrite Z.add_comm, seqZ_app by lia.
  rewrite map_app. f_equal. rewrite Z.add_0_l.
  apply list_eq. intros i. rewrite !list_lookup_fmap.
  destruct (decide (Z.of_nat i < n - k)).
  - rewrite !lookup_seqZ_lt by lia. simpl. f_equal. rewrite Z.shiftr_spec by lia. f_equal. lia.
  - by rewrite !lookup_seqZ_ge by lia.
Qed.

Lemma vinfo_app l1 l2 :
  Z.of_nat (length l1 + length l2) < 256 ->
  gran_info_combine (vinfo l2) (Z.of_nat (length l2)) (vinfo l1) (Z.of_nat (length l1))
  = vinfo (l1 ++ l2).
Proof.
  intros Hlen. unfold vinfo. rewrite summ_app, nfree_of_app.
  pose proof (summ_nonneg l1). pose proof (summ_nonneg l2).
  pose proof (nfree_of_bound l1). pose proof (nfree_of_bound l2).
  unfold gran_info_combine.
  destruct (summ l1), (summ l2); simpl in *; unfold u8;
    match goal with
    | |- context [(?a <? ?b) && (?c <? ?d)] => destruct (Z.ltb_spec a b), (Z.ltb_spec c d)
    end; simpl; rewrite ?Z.mod_small by lia; decide_cmp; f_equal; lia.
Qed.

Lemma summ_repeat_free n : summ (replicate n false) = One (Z.of_nat n).
Proof. induction n as [|n IH]; [done|]. simpl. rewrite IH. f_equal. lia. Qed.

Lemma summ_repeat_used n : (0 < n)%nat -> summ (replicate n true) = Many 0 0 0.
Proof.
  induction n as [|[|n] IH]; intros; [lia|done|].
  change (replicate (S (S n)) true) with (true :: replicate (S n) true).
  cbn [summ]. by rewrite IH by lia.
Qed.

Lemma nfree_of_repeat b n : nfree_of (replicate n b) = if b then 0 else Z.of_nat n.
Proof. induction n as [|n IH]; simpl; destruct b; lia. Qed.

Lemma bits_const v n b :
  0 <= n -> (forall k, 0 <= k < n -> Z.testbit v k = b) -> bits v n = replicate (Z.to_nat n) b.
Proof.
  intros Hn H. apply list_eq. intros i. destruct (decide (Z.of_nat i < n)).
  - rewrite bits_lookup, lookup_replicate_2 by lia. by rewrite H by lia.
  - rewrite (proj2 (lookup_ge_None _ _)), (proj2 (lookup_ge_None _ _)); [done|..];
      rewrite ?length_bits, ?length_replicate; lia.
Qed.

Lemma bits_zero n : 0 <= n -> bits 0 n = replicate (Z.to_nat n) false.
Proof. intros. apply bits_const; [done|]. intros. apply Z.bits_0. Qed.

Lemma bits_ones n : 0 <= n -> bits (Z.ones n) n = replicate (Z.to_nat n) true.
Proof.
  intros. apply bits_const; [done|]. intros. rewrite Z.testbit_ones by lia. by decide_cmp.
Qed.

Lemma vinfo_free n : 0 <= n -> vinfo (bits 0 n) = MkVal n n 0 0.
Proof.
  intros. unfold vinfo. rewrite bits_zero, summ_repeat_free, nfree_of_repeat by done. f_equal; lia.
Qed.

Lemma vinfo_used n : 0 < n -> vinfo (bits (Z.ones n) n) = MkVal 0 0 0 0.
Proof.
  intros. unfold vinfo. by rewrite bits_ones, summ_repeat_used, nfree_of_repeat by lia.
Qed.

Lemma bits_land_ones v n : 0 <= n -> bits (Z.land v (Z.ones n)) n = bits v n.
Proof.
  intros. apply bits_ext. intros k Hk. rewrite Z.land_spec, Z.testbit_ones by lia.
  decide_cmp. apply andb_true_r.
Qed.

Lemma ones_width n w : 0 <= n <= w -> w <= 30 ->
  (s32 (Z.shiftl 1 n) - 1) mod 2 ^ w = Z.ones n.
Proof.
  intros Hn Hw. pose proof (pow2_le n 30). pose proof (pow2_pos n). pose proof (pow2_le n w).
  rewrite shiftl1, s32_id, Z.ones_equiv by lia. apply Z.mod_small. lia.
Qed.

(** The five tables hold the summary of every value of up to four bits. *)
Lemma nibble_tables :
  forallb (fun n => forallb (fun v => bool_decide
    (gran_nibble_info v n = Ok (vinfo (bits v n)))) (seqZ 0 16)) (seqZ 0 5) = true.
Proof. vm_compute. reflexivity. Qed.

Lemma gran_nibble_info_ok v n :
  0 <= v < 16 -> 0 <= n <= 4 -> gran_nibble_info v n = Ok (vinfo (bits v n)).
Proof.
  intros Hv Hn. pose proof nibble_tables as H. rewrite forallb_forall in H.
  specialize (H n ltac:(apply list_elem_of_In, elem_of_seqZ; lia)).
  rewrite forallb_forall in H.
  specialize (H v ltac:(apply list_elem_of_In, elem_of_seqZ; lia)).
  by apply bool_decide_eq_true_1 in H.
Qed.

(** Gluing the two halves of a value of [n] valid bits at bit [k]. *)
Lemma combine_halves v k n :
  0 <= k <= n -> n < 256 ->
  gran_info_combine (vinfo (bits (Z.shiftr v k) (n - k))) (n - k) (vinfo (bits v k)) k
  = vinfo (bits v n).
Proof.
  intros Hk Hn. rewrite (bits_split v k n) by lia.
  rewrite <- vinfo_app by (rewrite !length_bits; lia).
  rewrite !length_bits. f_equal; lia.
Qed.

(** The masked value and the mask both routines start from. *)
Lemma masked v n w :
  0 < n <= w -> w <= 30 -> 0 <= v < 2 ^ w ->
  (if n <? w then ((s32 (Z.shiftl 1 n) - 1) mod 2 ^ w, Z.land v ((s32 (Z.shiftl 1 n) - 1) mod 2 ^ w))
   else (Z.ones w, v)) = (Z.ones n, Z.land v (Z.ones n)).
Proof.
  intros Hn Hw Hv. destruct (Z.ltb_spec n w); [by rewrite ones_width by lia|].
  replace n with w by lia. f_equal. rewrite Z.land_ones by lia. by rewrite Z.mod_small by lia.
Qed.

Lemma land_ones_bits v k n : 0 <= k <= n -> bits (Z.land (Z.land v (Z.ones n)) (Z.ones k)) k = bits v k.
Proof.
  intros. rewrite bits_land_ones by lia. apply bits_ext. intros j Hj.
  rewrite Z.land_spec, Z.testbit_ones by lia. decide_cmp. apply andb_true_r.
Qed.

Lemma shiftr_land_bits v k n :
  0 <= k <= n -> bits (Z.shiftr (Z.land v (Z.ones n)) k) (n - k) = bits (Z.shiftr v k) (n - k).
Proof.
  intros. apply bits_ext. intros j Hj. autorewrite with bits. decide_cmp. apply andb_true_r.
Qed.

Lemma land_ones_bound v k : 0 <= k -> 0 <= Z.land v (Z.ones k) < 2 ^ k.
Proof. intros. rewrite Z.land_ones by lia. apply Z.mod_pos_bound, pow2_pos. lia. Qed.

Lemma shiftr_bound v k n : 0 <= k <= n -> 0 <= v < 2 ^ n -> 0 <= Z.shiftr v k < 2 ^ (n - k).
Proof.
  intros Hk Hv. rewrite Z.shiftr_div_pow2 by lia. split; [apply Z.div_pos; [lia|apply pow2_pos; lia]|].
  apply Z.div_lt_upper_bound; [apply pow2_pos; lia|]. rewrite <- Z.pow_add_r by lia.
  replace (k + (n - k)) with n by lia. lia.
Qed.

Lemma gran_byte_info_ok v n :
  0 <= v < 2 ^ 8 -> 0 < n <= 8 -> gran_byte_info v n = Ok (vinfo (bits v n)).
Proof.
  intros Hv Hn. unfold gran_byte_info, u8. change 0xff with (Z.ones 8).
  cbv zeta. rewrite masked by lia. pose proof (land_ones_bound v n ltac:(lia)) as Hb.
  set (x := Z.land v (Z.ones n)) in *.
  rewrite <- (bits_land_ones v n) by lia. fold x. pose proof (pow2_le n 8 ltac:(lia)).
  destruct (Z.eqb_spec x 0) as [->|_].
  { rewrite vinfo_free by lia. by rewrite Z.mod_small by lia. }
  destruct (Z.eqb_spec x (Z.ones n)) as [->|_]; [by rewrite vinfo_used by lia|].
  change 0x0f with (Z.ones 4). pose proof (land_ones_bound x 4 ltac:(lia)).
  rewrite gran_nibble_info_ok by (destruct (4 <? n) eqn:E; breflect; lia). cbn [obind].
  destruct (Z.ltb_spec 4 n) as [Hgt|Hle].
  - pose proof (shiftr_bound x 4 8 ltac:(lia) ltac:(lia)).
    rewrite gran_nibble_info_ok by lia. cbn [obind]. rewrite bits_land_ones by lia.
    by rewrite combine_halves by lia.
  - do 2 f_equal. apply bits_ext. intros j Hj. rewrite Z.land_spec, Z.testbit_ones by lia.
    decide_cmp. apply andb_true_r.
Qed.

Lemma gran_hword_info_ok v n :
  0 <= v < 2 ^ 16 -> 0 < n <= 16 -> gran_hword_info v n = Ok (vinfo (bits v n)).
Proof.
  intros Hv Hn. unfold gran_hword_info, u16. change 0xffff with (Z.ones 16).
  cbv zeta. rewrite masked by lia. pose proof (land_ones_bound v n ltac:(lia)) as Hb.
  set (x := Z.land v (Z.ones n)) in *.
  rewrite <- (bits_land_ones v n) by lia. fold x. pose proof (pow2_le n 16 ltac:(lia)).
  destruct (Z.eqb_spec x 0) as [->|_].
  { rewrite vinfo_free by lia. unfold u8. by rewrite Z.mod_small by lia. }
  destruct (Z.eqb_spec x (Z.ones n)) as [->|_]; [by rewrite vinfo_used by lia|].
  change 0xff with (Z.ones 8). pose proof (land_ones_bound x 8 ltac:(lia)).
  unfold u8. rewrite (Z.mod_small (Z.land x (Z.ones 8))) by lia.
  rewrite gran_byte_info_ok by (destruct (8 <? n) eqn:E; breflect; lia). cbn [obind].
  destruct (Z.ltb_spec 8 n) as [Hgt|Hle].
  - pose proof (shiftr_bound x 8 16 ltac:(lia) ltac:(lia)).
    rewrite (Z.mod_small (Z.shiftr x 8)) by lia.
    rewrite gran_byte_info_ok by lia. cbn [obind]. rewrite bits_land_ones by lia.
    by rewrite combine_halves by lia.
  - do 2 f_equal. apply bits_ext. intros j Hj. rewrite Z.land_spec, Z.testbit_ones by lia.
    decide_cmp. apply andb_true_r.
Qed.

(** ** The walk over the table *)

(** What the running values say about the bits [l] seen so far. *)
Definition tracks (l : list bool) (tot mx run : Z) : Prop :=
  tot = nfree_of l /\
  match summ l with
  | One n => mx = 0 /\ run = n
  | Many f m t => mx = Z.max f m /\ run = t
  end.

Lemma gran_dump_word_ok l v n tot mx run :
  0 <= v < 2 ^ n -> 0 < n <= 32 -> Z.of_nat (length l) + n < 2 ^ 32 ->
  tracks l tot mx run ->
  exists tot' mx' run', gran_dump_word v (Z.ones n) n tot mx run = Ok (tot', mx', run') /\
    tracks (l ++ bits v n) tot' mx' run'.
Proof.
  intros Hv Hn Hlen [-> Hs]. pose proof (summ_nonneg l) as Hl. pose proof (nfree_of_bound l) as Hf.
  unfold gran_dump_word, tracks. rewrite summ_app, nfree_of_app.
  destruct (Z.eqb_spec v (Z.ones n)) as [->|_].
  { rewrite bits_ones, summ_repeat_used, nfree_of_repeat by lia. eexists _, _, _. split; [done|].
    split; [lia|]. destruct (summ l); simpl in *; decide_cmp; lia. }
  destruct (Z.eqb_spec v 0) as [->|_].
  { rewrite bits_zero, summ_repeat_free, nfree_of_repeat by lia. eexists _, _, _. split; [done|].
    rewrite Z2Nat.id by lia.
    destruct (summ l); simpl in *; destruct Hs as [-> ->]; rewrite !u32_id by lia; lia. }
  change 0xffff with (Z.ones 16). pose proof (land_ones_bound v 16 ltac:(lia)) as Hb.
  unfold u16. rewrite (Z.mod_small (Z.land v (Z.ones 16))) by lia.
  pose proof (pow2_le n 32 ltac:(lia)).
  rewrite gran_hword_info_ok by (destruct (16 <? n) eqn:E; breflect; lia). cbn [obind].
  assert (Hw : (if 16 <? n then
       let! msinfo := gran_hword_info (Z.shiftr v 16 `mod` 2 ^ 16) (n - 16) in
       Ok (gran_info_combine msinfo (n - 16)
             (vinfo (bits (Z.land v (Z.ones 16)) (if 16 <? n then 16 else n))) 16)
       else Ok (vinfo (bits (Z.land v (Z.ones 16)) (if 16 <? n then 16 else n)))) = Ok (vinfo (bits v n))).
  { destruct (Z.ltb_spec 16 n) as [Hgt|Hle].
    - pose proof (shiftr_bound v 16 32 ltac:(lia) ltac:(lia)).
      rewrite Z.mod_small by lia. rewrite gran_hword_info_ok by lia. cbn [obind].
      rewrite bits_land_ones by lia. by rewrite combine_halves by lia.
    - do 2 f_equal. apply bits_ext. intros j Hj. rewrite Z.land_spec, Z.testbit_ones by lia.
      decide_cmp. apply andb_true_r. }
  rewrite Hw. cbn [obind]. clear Hw.
  pose proof (summ_nonneg (bits v n)) as Hsv. pose proof (nfree_of_bound (bits v n)) as Hfv.
  rewrite length_bits, Z2Nat.id in Hsv, Hfv by lia.
  unfold vinfo. destruct (summ (bits v n)) as [k|f m t]; cbn [nlsfree nmsfree mxfree nfree snonneg] in *;
    destruct (summ l); simpl in Hl |- *; destruct Hs as [-> ->];
    (rewrite !u32_id by lia); decide_cmp; eexists _, _, _; (split; [reflexivity|]); lia.
Qed.

(** The first [n] granules of the heap as a bit list. *)
Definition granule_bits (g : mm_gran) (n : Z) : list bool := map (granule g) (seqZ 0 n).

Lemma length_granule_bits g n : length (granule_bits g n) = Z.to_nat n.
Proof. unfold granule_bits. by rewrite length_map, length_seqZ. Qed.

Lemma granule_bits_lookup g n k :
  Z.of_nat k < n -> granule_bits g n !! k = Some (granule g (Z.of_nat k)).
Proof.
  intros Hk. unfold granule_bits. rewrite list_lookup_fmap, lookup_seqZ_lt by lia. simpl. by f_equal.
Qed.

Lemma granule_bits_word g q n w :
  0 <= q -> 0 <= n <= 32 -> gat g !! Z.to_nat q = Some w ->
  granule_bits g (32 * q + n) = granule_bits g (32 * q) ++ bits w n.
Proof.
  intros Hq Hn Hw. unfold granule_bits. rewrite seqZ_app, map_app by lia. f_equal.
  apply list_eq. intros i. unfold bits. rewrite !list_lookup_fmap.
  destruct (decide (Z.of_nat i < n)); [|by rewrite !lookup_seqZ_ge by lia].
  rewrite !lookup_seqZ_lt by lia. simpl. f_equal. unfold granule.
  rewrite Z.add_0_l, <- (tbit_lookup (gat g) q (0 + Z.of_nat i) w) by lia || done. done.
Qed.

Lemma gran_dump_loop_ok g :
  gran_wf g -> forall fuel q tot mx run,
  0 <= q -> 32 * q < ngranules g + 32 -> Z.max 0 (ngranules g / 32 + 1 - q) < Z.of_nat fuel ->
  tracks (granule_bits g (Z.min (32 * q) (ngranules g))) tot mx run ->
  exists tot' mx' run', gran_dump_loop fuel g (32 * q) tot mx run = Ok (tot', mx', run') /\
    tracks (granule_bits g (ngranules g)) tot' mx' run'.
Proof.
  intros W. pose proof (ngran_small g W) as Hsmall. pose proof (wf_ngran g W) as Hpos.
  induction fuel as [|fuel IH]; intros q tot mx run Hq Hend Hfuel Ht; [lia|].
  cbn [gran_dump_loop]. destruct (Z.ltb_spec (32 * q) (ngranules g)) as [Hlt|Hge].
  2: { exists tot, mx, run. split; [done|]. by rewrite Z.min_r in Ht by lia. }
  rewrite Z.min_l in Ht by lia.
  assert (Hq' : q < ngranules g / 32 + 1) by (apply Z.lt_succ_r, Z.div_le_lower_bound; lia).
  destruct (word_index (32 * q)) as [-> _]; [lia|].
  replace (32 * q / 32) with q by (rewrite Z.mul_comm, Z.div_mul; lia).
  pose proof (gat_covers g W (32 * q) ltac:(lia)) as Hlen.
  replace (32 * q / 32) with q in Hlen by (rewrite Z.mul_comm, Z.div_mul; lia).
  destruct (aget_is_ok (gat g) q) as (w & -> & Hw); [lia|]. cbn [obind].
  pose proof (word_bound _ _ _ (wf_words g W) Hw) as Hwb.
  rewrite (u32_id (32 * q + 32)) by lia. set (n := Z.min 32 (ngranules g - 32 * q)).
  assert (Hcase : (if ngranules g <? 32 * q + 32
      then (u32 (ngranules g - 32 * q), u32 (u64 (Z.shiftl 1 (u32 (ngranules g - 32 * q))) - 1),
            Z.land w (u32 (u64 (Z.shiftl 1 (u32 (ngranules g - 32 * q))) - 1)))
      else (32, ALL1, w)) = (n, Z.ones n, Z.land w (Z.ones n))).
  { destruct (Z.ltb_spec (ngranules g) (32 * q + 32)).
    - replace (ngranules g - 32 * q) with n by lia. rewrite (u32_id n) by lia.
      pose proof (pow2_le n 32 ltac:(lia)). pose proof (pow2_pos n ltac:(lia)).
      rewrite shiftl1, u64_id, u32_id by lia. by rewrite Z.ones_equiv.
    - replace n with 32 by lia. change ALL1 with (Z.ones 32). rewrite Z.land_ones, Z.mod_small by lia. done. }
  cbv zeta. rewrite Hcase. clear Hcase.
  destruct (gran_dump_word_ok (granule_bits g (32 * q)) (Z.land w (Z.ones n)) n tot mx run)
    as (tot' & mx' & run' & -> & Ht'); [apply land_ones_bound; lia|lia| |done|].
  { rewrite length_granule_bits. lia. }
  cbn [obind]. replace (32 * q + 32) with (32 * (q + 1)) by lia. apply IH; [lia..|].
  rewrite bits_land_ones in Ht' by lia. rewrite <- (granule_bits_word g q n w) in Ht' by lia || done.
  by replace (Z.min (32 * (q + 1)) (ngranules g)) with (32 * q + n) by lia.
Qed.

(** A run of free bits of the table is a place where an allocation fits. *)
Lemma run_fits g i n :
  gran_wf g -> fits g (Z.of_nat n) (Z.of_nat i) <-> run_at (granule_bits g (ngranules g)) i n.
Proof.
  intros W. pose proof (wf_ngran g W). unfold fits, run_at. rewrite length_granule_bits. split.
  - intros (_ & H1 & H2). split; [lia|]. intros k Hk.
    rewrite granule_bits_lookup by lia. by rewrite H2 by lia.
  - intros (H1 & H2). split; [lia|]. split; [lia|]. intros j Hj.
    specialize (H2 (Z.to_nat j) ltac:(lia)). rewrite granule_bits_lookup in H2 by lia.
    rewrite Z2Nat.id in H2 by lia. by simplify_eq.
Qed.

(** The number of free granules, counted one by one. *)
Definition free_count (g : mm_gran) : Z :=
  Z.of_nat (length (filter (fun j => granule g j = false) (seqZ 0 (ngranules g)))).

Lemma nfree_of_count (f : Z -> bool) (l : list Z) :
  nfree_of (map f l) = Z.of_nat (length (filter (fun j => f j = false) l)).
Proof.
  induction l as [|x l IH]; [done|]. cbn [map nfree_of]. rewrite IH, filter_cons.
  destruct (f x) eqn:E; case_decide; simpl; try congruence; lia.
Qed.

Lemma gran_dump_ok g :
  gran_wf g -> exists mx, gran_dump g = Ok (MkInfo (log2gran g) (ngranules g) (free_count g) mx) /\
    0 <= mx /\ (exists i, fits g mx i) /\ forall n i, 0 <= n -> fits g n i -> n <= mx.
Proof.
  intros W. pose proof (wf_ngran g W) as Hpos. set (l := granule_bits g (ngranules g)).
  assert (0 <= ngranules g / 32) by (apply Z.div_pos; lia).
  destruct (gran_dump_loop_ok g W (Z.to_nat (ngranules g / 32) + 2) 0 0 0 0)
    as (tot & mx & run & Hd & -> & Hs); [lia..| |].
  { rewrite Z.min_l by lia. done. }
  change (32 * 0) with 0 in Hd. fold l in Hs. pose proof (summ_nonneg l) as Hnn.
  assert (Hmx : (if mx <? run then run else mx) = longest (summ l)).
  { destruct (summ l); simpl in *; decide_cmp; lia. }
  exists (longest (summ l)). unfold gran_dump. rewrite Hd. cbn [obind]. rewrite Hmx. split.
  { do 2 f_equal. apply nfree_of_count. }
  assert (Hlong : 0 <= longest (summ l)) by (destruct (summ l); simpl in *; lia).
  split; [done|]. split.
  - destruct (longest_run l) as [i Hi]. exists (Z.of_nat i).
    rewrite <- (Z2Nat.id (longest (summ l))) by done. by apply run_fits.
  - intros n i Hn Hf. rewrite <- (Z2Nat.id n) by done. apply (longest_max l (Z.to_nat i)).
    apply run_fits; [done|]. destruct Hf as (H1 & H2 & H3). by rewrite !Z2Nat.id.
Qed.

(** ** Properties *)

Module GranInfoSpec.

(** C23: [gran_dump] reports the truth about the table: [nfree] is the number of
    free granules, and [mxfree] is the length of the longest run of free
    granules, wherever the run starts and however many words it spans. *)
Theorem gran_dump_exact g :
  gran_wf g -> exists info, gran_dump g = Ok info /\
    info_log2gran info = log2gran g /\ info_ngranules info = ngranules g /\
    info_nfree info = free_count g /\
    (exists i, fits g (info_mxfree info) i) /\
    forall n i, 0 <= n -> fits g n i -> n <= info_mxfree info.
Proof.
  intros W. destruct (gran_dump_ok g W) as (mx & -> & Hm & Hf & Hmax).
  eexists. split; [done|]. by split_and!.
Qed.

(** Words 0 and 1 end and start with free granules: the run crosses them. *)
Definition fragmented : mm_gran := MkGran 12 70 0x40001000 [0x0fff00ff; 0xfff00000; 0x21; 0].

Lemma fragmented_wf : gran_wf fragmented.
Proof. constructor; [by vm_compute..|]. by repeat (apply Forall_cons; split). Qed.

Lemma gran_dump_exact_witness :
  exists info, gran_dump fragmented = Ok info /\ info_nfree info = free_count fragmented /\
    exists i, fits fragmented (info_mxfree info) i.
Proof.
  destruct (gran_dump_exact fragmented fragmented_wf) as (info & H1 & _ & _ & H2 & H3 & _).
  exists info. exact (conj H1 (conj H2 H3)).
Defined.

Example gran_dump_fragmented : gran_dump fragmented = Ok (MkInfo 12 70 36 24).
Proof. by vm_compute. Qed.

(** C24: the report predicts the allocator.  A request is granted by [gran_alloc] exactly
    when the granules it needs are no more than the [mxfree] of a
    [gran_dump] taken before the call. *)
Theorem gran_dump_predicts_alloc g size info :
  gran_wf g -> 0 < size <= 32 * 2 ^ log2gran g -> gran_dump g = Ok info ->
  (granules_of g size <= info_mxfree info <->
   exists g' a, gran_alloc g size = Ok (g', a) /\ a <> 0).
Proof.
  intros W Hs Hd. destruct (gran_dump_ok g W) as (mx & Hd' & Hm & (i & Hi) & Hmax).
  rewrite Hd in Hd'. simplify_eq. simpl. pose proof (granules_of_bound g W size Hs).
  destruct (gran_alloc_cases g size W Hs) as [(k & t' & -> & Hf & _)|[-> Hno]]; split.
  - intros _. eexists _, _. split; [done|]. destruct Hf as (? & ? & _).
    pose proof (granaddr_small g W k ltac:(lia)). pose proof (wf_start g W).
    pose proof (pow_log2 g W). unfold granaddr. nia.
  - intros _. by apply (Hmax _ k); [lia|].
  - intros Hle. exfalso. apply (Hno i). destruct Hi as (Hi1 & Hi2 & Hi3).
    split; [done|]. split; [lia|]. intros j Hj. apply Hi3. lia.
  - intros (g' & a & He & Hne). by simplify_eq.
Qed.

Lemma gran_dump_predicts_alloc_witness :
  (granules_of fragmented 0x18000 <= info_mxfree (MkInfo 12 70 36 24) <->
   exists g' a, gran_alloc fragmented 0x18000 = Ok (g', a) /\ a <> 0).
Proof.
  apply (gran_dump_predicts_alloc fragmented 0x18000); [apply fragmented_wf|by vm_compute..].
Defined.

End GranInfoSpec.
