(* ===== verification/Bitmap.v ===== *)
(** * Bitmaps (os/lib/libutils: find_bit.c, bitmap.c, bitmap.h, bitops.h)

    A bitmap is an array of 64-bit words.  The file models the search, range
    update and bulk operations of the library and proves each of them against
    the bit-by-bit reading [wbit] of the array. *)

From Stdlib Require Import ZArith Lia Bool Btauto.
From stdpp Require Import base numbers list list_numbers.
From S2P Require Import Prelude.

Definition BITS_PER_LONG : Z := 64.

Definition ONES64 : Z := 0xffffffffffffffff.

(** ** bitops.h *)

(** [__builtin_ctzl]: the position of the lowest set bit of a word. *)
Fixpoint ctz_from (n : nat) (w i : Z) : Z :=
  match n with
  | O => i
  | S n => if Z.testbit w i then i else ctz_from n w (i + 1)
  end.

Definition ctz64 (w : Z) : Z := ctz_from 64 w 0.

(** The builtin is undefined at 0. *)
Definition __ffs (word : Z) : outcome Z := if word =? 0 then Fault else Ok (ctz64 word).

Definition ffz (x : Z) : outcome Z := __ffs (not64 x).

(** One step of the binary search of [__fls]: [k] is the width probed. *)
Definition fls_step (k : Z) (s : Z * Z) : Z * Z :=
  let '(num, word) := s in
  if Z.land word (u64 (Z.shiftl ONES64 (BITS_PER_LONG - k))) =? 0
  then (num - k, u64 (Z.shiftl word k)) else (num, word).

Definition __fls (word : Z) : Z :=
  let '(num, w) := fls_step 2 (fls_step 4 (fls_step 8 (fls_step 16 (fls_step 32
                     (BITS_PER_LONG - 1, word))))) in
  if Z.land w (u64 (Z.shiftl ONES64 (BITS_PER_LONG - 1))) =? 0 then num - 1 else num.

Definition fls64 (x : Z) : Z := if x =? 0 then 0 else __fls x + 1.

Definition __sw_hweight64 (w : Z) : Z :=
  let res := u64 (w - Z.land (Z.shiftr w 1) 0x5555555555555555) in
  let res := u64 (Z.land res 0x3333333333333333 + Z.land (Z.shiftr res 2) 0x3333333333333333) in
  let res := Z.land (u64 (res + Z.shiftr res 4)) 0x0F0F0F0F0F0F0F0F in
  let res := u64 (res + Z.shiftr res 8) in
  let res := u64 (res + Z.shiftr res 16) in
  Z.land (u64 (res + Z.shiftr res 32)) 0xFF.

Definition rol32 (word shift : Z) : Z :=
  Z.lor (u32 (Z.shiftl word shift)) (Z.shiftr word (Z.land (u32 (- shift)) 31)).

(** ** bitmap.h *)

Definition BIT_MASK (nr : Z) : Z := Z.shiftl 1 (nr mod BITS_PER_LONG).
Definition BIT_WORD (nr : Z) : Z := nr / BITS_PER_LONG.
Definition BITS_TO_LONGS (nr : Z) : Z := (nr + 64 - 1) / 64.

Definition BITMAP_FIRST_WORD_MASK (start : Z) : Z :=
  u64 (Z.shiftl ONES64 (Z.land start (BITS_PER_LONG - 1))).

Definition BITMAP_LAST_WORD_MASK (nbits : Z) : Z :=
  if negb (nbits mod BITS_PER_LONG =? 0) then u64 (Z.shiftl 1 (nbits mod BITS_PER_LONG) - 1)
  else ONES64.

Definition round_down (x y : Z) : Z := Z.land x (not64 (u64 (y - 1))).

(** ** find_bit.c *)

(** The fetch of word [k]: masked with [addr2] when there is one, then
    inverted or not. *)
Definition fetch (addr1 : list Z) (addr2 : option (list Z)) (invert k : Z) : outcome Z :=
  let! w := aget addr1 k in
  let! w := match addr2 with
            | Some a2 => let! w2 := aget a2 k in Ok (Z.land w w2)
            | None => Ok w
            end in
  Ok (Z.lxor w invert).

Fixpoint find_next_loop (fuel : nat) (addr1 : list Z) (addr2 : option (list Z))
    (nbits invert start tmp : Z) : outcome Z :=
  match fuel with
  | O => Diverge
  | S fuel =>
      if tmp =? 0 then
        let start := u64 (start + BITS_PER_LONG) in
        if nbits <=? start then Ok nbits
        else
          let! tmp := fetch addr1 addr2 invert (start / BITS_PER_LONG) in
          find_next_loop fuel addr1 addr2 nbits invert start tmp
      else
        let! f := __ffs tmp in
        Ok (Z.min (u64 (start + f)) nbits)
  end.

Definition _find_next_bit (addr1 : list Z) (addr2 : option (list Z)) (nbits start invert : Z)
    : outcome Z :=
  if nbits <=? start then Ok nbits
  else
    let! tmp := fetch addr1 addr2 invert (start / BITS_PER_LONG) in
    let tmp := Z.land tmp (BITMAP_FIRST_WORD_MASK start) in
    let start := round_down start BITS_PER_LONG in
    find_next_loop (Z.to_nat (nbits / 64) + 2) addr1 addr2 nbits invert start tmp.

Definition find_next_bit (addr : list Z) (size offset : Z) : outcome Z :=
  _find_next_bit addr None size offset 0.

Definition find_next_zero_bit (addr : list Z) (size offset : Z) : outcome Z :=
  _find_next_bit addr None size offset ONES64.

Definition find_next_and_bit (addr1 addr2 : list Z) (size offset : Z) : outcome Z :=
  _find_next_bit addr1 (Some addr2) size offset 0.

Fixpoint find_first_bit_loop (fuel : nat) (addr : list Z) (size idx : Z) : outcome Z :=
  match fuel with
  | O => Diverge
  | S fuel =>
      if u64 (idx * BITS_PER_LONG) <? size then
        let! w := aget addr idx in
        if negb (w =? 0) then
          let! f := __ffs w in Ok (Z.min (u64 (idx * BITS_PER_LONG + f)) size)
        else find_first_bit_loop fuel addr size (u64 (idx + 1))
      else Ok size
  end.

Definition find_first_bit (addr : list Z) (size : Z) : outcome Z :=
  find_first_bit_loop (Z.to_nat (size / 64) + 2) addr size 0.

Fixpoint find_first_zero_bit_loop (fuel : nat) (addr : list Z) (size idx : Z) : outcome Z :=
  match fuel with
  | O => Diverge
  | S fuel =>
      if u64 (idx * BITS_PER_LONG) <? size then
        let! w := aget addr idx in
        if negb (w =? ONES64) then
          let! f := ffz w in Ok (Z.min (u64 (idx * BITS_PER_LONG + f)) size)
        else find_first_zero_bit_loop fuel addr size (u64 (idx + 1))
      else Ok size
  end.

Definition find_first_zero_bit (addr : list Z) (size : Z) : outcome Z :=
  find_first_zero_bit_loop (Z.to_nat (size / 64) + 2) addr size 0.

(** ** bitmap.c *)

(** The two range updates share their loop; [b] selects [|= mask] or
    [&= ~mask].  [p] is the word index, [len] the bits still to do. *)
Definition mask_word (b : bool) (w mask : Z) : Z :=
  if b then Z.lor w mask else Z.land w (not64 mask).

Fixpoint bitmap_range_loop (fuel : nat) (b : bool) (map : list Z) (p size len bits mask : Z)
    : outcome (list Z) :=
  match fuel with
  | O => Diverge
  | S fuel =>
      if 0 <=? len - bits then
        let! w := aget map p in
        let! map := aset map p (mask_word b w mask) in
        bitmap_range_loop fuel b map (p + 1) size (len - bits) BITS_PER_LONG ONES64
      else if negb (len =? 0) then
        let mask := Z.land mask (BITMAP_LAST_WORD_MASK size) in
        let! w := aget map p in
        aset map p (mask_word b w mask)
      else Ok map
  end.

Definition bitmap_set (map : list Z) (start len : Z) : outcome (list Z) :=
  bitmap_range_loop (Z.to_nat (len / 64) + 3) true map (BIT_WORD start) (u32 (start + len)) len
    (BITS_PER_LONG - start mod BITS_PER_LONG) (BITMAP_FIRST_WORD_MASK start).

Definition bitmap_clear (map : list Z) (start len : Z) : outcome (list Z) :=
  bitmap_range_loop (Z.to_nat (len / 64) + 3) false map (BIT_WORD start) (u32 (start + len)) len
    (BITS_PER_LONG - start mod BITS_PER_LONG) (BITMAP_FIRST_WORD_MASK start).

(** [k_memset(dst, 0, len)] over the words of the map. *)
Definition bitmap_zero (map : list Z) (nbits : Z) : outcome (list Z) :=
  let n := Z.to_nat (BITS_TO_LONGS nbits) in
  if (n <=? length map)%nat then Ok (replicate n 0 ++ drop n map) else Fault.

Definition test_and_set_bit (nr : Z) (addr : list Z) : outcome (list Z * bool) :=
  let! old := aget addr (BIT_WORD nr) in
  let! addr := aset addr (BIT_WORD nr) (Z.lor old (BIT_MASK nr)) in
  Ok (addr, negb (Z.land old (BIT_MASK nr) =? 0)).

Definition test_and_clear_bit (nr : Z) (addr : list Z) : outcome (list Z * bool) :=
  let! old := aget addr (BIT_WORD nr) in
  let! addr := aset addr (BIT_WORD nr) (Z.land old (not64 (BIT_MASK nr))) in
  Ok (addr, negb (Z.land old (BIT_MASK nr) =? 0)).

(** The loop over the full words of a bulk operation, [k] the word index. *)
Fixpoint weight_words (n : nat) (bitmap : list Z) (k w : Z) : outcome Z :=
  match n with
  | O => Ok w
  | S n => let! x := aget bitmap k in weight_words n bitmap (k + 1) (w + __sw_hweight64 x)
  end.

Definition __bitmap_weight (bitmap : list Z) (bits : Z) : outcome Z :=
  let lim := bits / BITS_PER_LONG in
  let! w := weight_words (Z.to_nat lim) bitmap 0 0 in
  if negb (bits mod BITS_PER_LONG =? 0) then
    let! x := aget bitmap lim in
    Ok (w + __sw_hweight64 (Z.land x (BITMAP_LAST_WORD_MASK bits)))
  else Ok w.

Fixpoint or_words (n : nat) (dst bitmap1 bitmap2 : list Z) (k : Z) : outcome (list Z) :=
  match n with
  | O => Ok dst
  | S n =>
      let! x := aget bitmap1 k in
      let! y := aget bitmap2 k in
      let! dst := aset dst k (Z.lor x y) in
      or_words n dst bitmap1 bitmap2 (k + 1)
  end.

Definition __bitmap_or (dst bitmap1 bitmap2 : list Z) (bits : Z) : outcome (list Z) :=
  or_words (Z.to_nat (BITS_TO_LONGS bits)) dst bitmap1 bitmap2 0.

Fixpoint and_words (n : nat) (dst bitmap1 bitmap2 : list Z) (k result : Z) : outcome (list Z * Z) :=
  match n with
  | O => Ok (dst, result)
  | S n =>
      let! x := aget bitmap1 k in
      let! y := aget bitmap2 k in
      let! dst := aset dst k (Z.land x y) in
      and_words n dst bitmap1 bitmap2 (k + 1) (Z.lor result (Z.land x y))
  end.

Definition __bitmap_and (dst bitmap1 bitmap2 : list Z) (bits : Z) : outcome (list Z * bool) :=
  let lim := bits / BITS_PER_LONG in
  let! (dst, result) := and_words (Z.to_nat lim) dst bitmap1 bitmap2 0 0 in
  if negb (bits mod BITS_PER_LONG =? 0) then
    let! x := aget bitmap1 lim in
    let! y := aget bitmap2 lim in
    let v := Z.land (Z.land x y) (BITMAP_LAST_WORD_MASK bits) in
    let! dst := aset dst lim v in
    Ok (dst, negb (Z.lor result v =? 0))
  else Ok (dst, negb (result =? 0)).

Fixpoint equal_words (n : nat) (bitmap1 bitmap2 : list Z) (k : Z) : outcome bool :=
  match n with
  | O => Ok true
  | S n =>
      let! x := aget bitmap1 k in
      let! y := aget bitmap2 k in
      if negb (x =? y) then Ok false else equal_words n bitmap1 bitmap2 (k + 1)
  end.

Definition __bitmap_equal (bitmap1 bitmap2 : list Z) (bits : Z) : outcome bool :=
  let lim := bits / BITS_PER_LONG in
  let! e := equal_words (Z.to_nat lim) bitmap1 bitmap2 0 in
  if e then
    if negb (bits mod BITS_PER_LONG =? 0) then
      let! x := aget bitmap1 lim in
      let! y := aget bitmap2 lim in
      Ok (Z.land (Z.lxor x y) (BITMAP_LAST_WORD_MASK bits) =? 0)
    else Ok true
  else Ok false.

(** ** The array read bit by bit *)

Definition wbit (m : list Z) (i : Z) : bool :=
  match m !! Z.to_nat (i / 64) with
  | Some w => Z.testbit w (i mod 64)
  | None => false
  end.

Definition words_ok (m : list Z) : Prop := Forall (fun w => 0 <= w < 2 ^ 64) m.

(** [m'] is [m] with the bits [i .. i+n-1] set to [b]. *)
Definition upd_bits (m m' : list Z) (i n : Z) (b : bool) : Prop :=
  length m' = length m /\ words_ok m' /\
  forall j, 0 <= j -> wbit m' j = if (i <=? j) && (j <? i + n) then b else wbit m j.

(** [r] is the first position from [start] on where [f] holds, [nbits] when
    there is none below [nbits]. *)
Definition first_from (f : Z -> bool) (start nbits r : Z) : Prop :=
  (forall j, start <= j < r -> f j = false) /\
  ((r = nbits /\ forall j, start <= j < nbits -> f j = false) \/
   (start <= r < nbits /\ f r = true)).

Lemma split64 j : 0 <= j -> j = 64 * (j / 64) + j mod 64 /\ 0 <= j mod 64 < 64 /\ 0 <= j / 64.
Proof.
  intros. pose proof (Z.div_mod j 64). pose proof (Z.mod_pos_bound j 64).
  assert (0 <= j / 64) by (apply Z.div_pos; lia). lia.
Qed.

Lemma div64 q r : 0 <= r < 64 -> (64 * q + r) / 64 = q /\ (64 * q + r) mod 64 = r.
Proof.
  intros. split; [symmetry; apply (Z.div_unique _ 64 q r); lia|].
  symmetry. apply (Z.mod_unique _ 64 q r); lia.
Qed.

Lemma wbit_lookup m q r w :
  0 <= q -> 0 <= r < 64 -> m !! Z.to_nat q = Some w -> wbit m (64 * q + r) = Z.testbit w r.
Proof. intros Hq Hr Hw. unfold wbit. destruct (div64 q r Hr) as [-> ->]. by rewrite Hw. Qed.

Lemma word64_bound m q w : words_ok m -> m !! q = Some w -> 0 <= w < 2 ^ 64.
Proof. intros H1 H2. eapply Forall_lookup_1 in H1; [|done]. done. Qed.

Lemma ctz_from_spec n w i :
  0 <= i -> (exists j, i <= j < i + Z.of_nat n /\ Z.testbit w j = true) ->
  let c := ctz_from n w i in
  i <= c < i + Z.of_nat n /\ Z.testbit w c = true /\ forall j, i <= j < c -> Z.testbit w j = false.
Proof.
  revert i. induction n as [|n IH]; intros i Hi (j & Hj & Hb); [lia|]. cbn [ctz_from].
  destruct (Z.testbit w i) eqn:E; [split; [lia|]; split; [done|lia]|].
  destruct (IH (i + 1)) as (H1 & H2 & H3); [lia| |].
  - exists j. split; [|done]. destruct (decide (j = i)); [congruence|lia].
  - split; [lia|]. split; [done|]. intros k Hk. destruct (decide (k = i)) as [->|]; [done|].
    apply H3. lia.
Qed.

(** A 64-bit word that is not zero has a lowest set bit. *)
Lemma ffs_spec w :
  0 < w < 2 ^ 64 -> exists c, __ffs w = Ok c /\ 0 <= c < 64 /\ Z.testbit w c = true /\
    forall j, 0 <= j < c -> Z.testbit w j = false.
Proof.
  intros Hw. unfold __ffs. rewrite (proj2 (Z.eqb_neq w 0)) by lia. exists (ctz64 w).
  destruct (ctz_from_spec 64 w 0) as (H1 & H2 & H3); [lia| |].
  - exists (Z.log2 w). split; [|apply Z.bit_log2; lia].
    split; [apply Z.log2_nonneg|]. apply Z.log2_lt_pow2; simpl; lia.
  - split; [done|]. unfold ctz64. split; [lia|]. by split.
Qed.

Lemma not_zero_word w : 0 <= w -> (forall j, 0 <= j -> Z.testbit w j = false) -> w = 0.
Proof. intros Hw H. apply Z.bits_inj'. intros i Hi. by rewrite H, Z.bits_0. Qed.

Lemma first_word_mask start :
  0 <= start -> BITMAP_FIRST_WORD_MASK start = range_mask (start mod 64) (64 - start mod 64).
Proof.
  intros Hs. unfold BITMAP_FIRST_WORD_MASK, BITS_PER_LONG. change (64 - 1) with (Z.ones 6).
  rewrite Z.land_ones by lia. change (2 ^ 6) with 64.
  destruct (split64 start Hs) as (_ & Hm & _). unfold u64, range_mask.
  change ONES64 with (Z.ones 64). bitwise.
Qed.

Lemma last_word_mask n :
  0 <= n -> BITMAP_LAST_WORD_MASK n = Z.ones (if n mod 64 =? 0 then 64 else n mod 64).
Proof.
  intros Hn. unfold BITMAP_LAST_WORD_MASK, BITS_PER_LONG.
  destruct (split64 n Hn) as (_ & Hm & _).
  destruct (Z.eqb_spec (n mod 64) 0); simpl; [done|].
  pose proof (pow2_le (n mod 64) 64 ltac:(lia)). pose proof (pow2_pos (n mod 64) ltac:(lia)).
  rewrite shiftl1, Z.ones_equiv by lia. by rewrite u64_id by lia.
Qed.

Lemma round_down64 x : 0 <= x < 2 ^ 64 -> round_down x BITS_PER_LONG = 64 * (x / 64).
Proof.
  intros Hx. unfold round_down, BITS_PER_LONG. change (u64 (64 - 1)) with (2 ^ 6 - 1).
  rewrite land_not64_ones by lia. change (2 ^ 6) with 64. lia.
Qed.

(** ** Searching *)

Section Find.
Context (addr1 : list Z) (addr2 : option (list Z)) (nbits : Z) (inv : bool).
Context (H1ok : words_ok addr1) (H1len : nbits <= 64 * Z.of_nat (length addr1)).
Context (H2ok : match addr2 with
                | Some a2 => words_ok a2 /\ nbits <= 64 * Z.of_nat (length a2)
                | None => True
                end).
Context (Hnb : nbits < 2 ^ 64 - 64).

Let invert : Z := if inv then ONES64 else 0.

(** The predicate that the search looks for. *)
Definition sought (j : Z) : bool :=
  xorb (wbit addr1 j && match addr2 with Some a2 => wbit a2 j | None => true end) inv.

Lemma fetch_spec q :
  0 <= q -> 64 * q < nbits ->
  exists w, fetch addr1 addr2 invert q = Ok w /\ 0 <= w < 2 ^ 64 /\
    forall r, 0 <= r < 64 -> Z.testbit w r = sought (64 * q + r).
Proof.
  intros Hq Hlt. unfold fetch, sought.
  destruct (aget_is_ok addr1 q) as (w1 & -> & Hw1); [lia|]. cbn [obind].
  pose proof (word64_bound _ _ _ H1ok Hw1) as Hb1.
  assert (Hi : 0 <= invert < 2 ^ 64 /\ forall r, 0 <= r < 64 -> Z.testbit invert r = inv).
  { unfold invert. destruct inv; (split; [done|]); intros r Hr; [|apply Z.bits_0].
    change ONES64 with (Z.ones 64). rewrite Z.testbit_ones by lia. by decide_cmp. }
  destruct Hi as [Hib Hi].
  assert (Hx : forall x, 0 <= x < 2 ^ 64 -> 0 <= Z.lxor x invert < 2 ^ 64).
  { intros x Hx. assert (0 <= Z.lxor x invert) by (apply Z.lxor_nonneg; lia). split; [done|].
    apply bits_bound; [lia..|]. intros i Hi'. rewrite Z.lxor_spec.
    by rewrite !(testbit_high 64) by lia. }
  destruct addr2 as [a2|].
  - destruct H2ok as [Hok2 Hlen2].
    destruct (aget_is_ok a2 q) as (w2 & -> & Hw2); [lia|]. cbn [obind].
    eexists. split; [done|]. split; [apply Hx, land_bound_l; lia|].
    intros r Hr. rewrite Z.lxor_spec, Z.land_spec, Hi by done.
    by rewrite (wbit_lookup addr1 q r w1), (wbit_lookup a2 q r w2).
  - eexists. split; [done|]. split; [by apply Hx|].
    intros r Hr. rewrite Z.lxor_spec, Hi by done.
    by rewrite (wbit_lookup addr1 q r w1), andb_true_r.
Qed.

(** [tmp] is what is left of word [q] when positions below [start] are dropped. *)
Lemma find_next_loop_spec start fuel q tmp :
  0 <= start -> 0 <= q -> start < 64 * q + 64 -> 64 * q < nbits ->
  0 <= tmp < 2 ^ 64 -> nbits / 64 + 1 - q < Z.of_nat fuel ->
  (forall r, 0 <= r < 64 -> Z.testbit tmp r = (start <=? 64 * q + r) && sought (64 * q + r)) ->
  (forall j, start <= j < 64 * q -> sought j = false) ->
  exists r, find_next_loop fuel addr1 addr2 nbits invert (64 * q) tmp = Ok r /\
    first_from sought start nbits r.
Proof.
  intros Hs. revert q tmp. induction fuel as [|fuel IH]; intros q tmp Hq Hsq Hlt Htb Hf Htmp Hbelow.
  { assert (q <= nbits / 64) by (apply Z.div_le_lower_bound; lia). lia. }
  cbn [find_next_loop]. unfold BITS_PER_LONG.
  destruct (Z.eqb_spec tmp 0) as [->|Hnz].
  - assert (Hnone : forall j, start <= j < 64 * q + 64 -> sought j = false).
    { intros j Hj. destruct (Z.lt_ge_cases j (64 * q)); [apply Hbelow; lia|].
      specialize (Htmp (j - 64 * q) ltac:(lia)).
      rewrite Z.bits_0, (proj2 (Z.leb_le _ _)) in Htmp by lia. simpl in Htmp.
      by replace (64 * q + (j - 64 * q)) with j in Htmp by lia. }
    rewrite u64_id by lia. destruct (Z.leb_spec nbits (64 * q + 64)).
    + exists nbits. split; [done|]. split; [|left; split; [done|]]; intros j Hj; apply Hnone; lia.
    + replace (64 * q + 64) with (64 * (q + 1)) in * by lia.
      rewrite (Z.mul_comm 64 (q + 1)), Z.div_mul, (Z.mul_comm (q + 1) 64) by lia.
      destruct (fetch_spec (q + 1)) as (w & -> & Hwb & Hw); [lia..|]. cbn [obind].
      apply IH; try lia; [|done]. intros r Hr. rewrite Hw by done. by decide_cmp.
  - destruct (ffs_spec tmp) as (c & -> & Hc & Hbit & Hlow); [lia|]. cbn [obind].
    rewrite u64_id by lia. rewrite Htmp in Hbit by lia. breflect.
    assert (Hno : forall j, start <= j < 64 * q + c -> sought j = false).
    { intros j Hj. destruct (Z.lt_ge_cases j (64 * q)); [apply Hbelow; lia|].
      specialize (Hlow (j - 64 * q) ltac:(lia)). rewrite Htmp in Hlow by lia.
      replace (64 * q + (j - 64 * q)) with j in Hlow by lia.
      rewrite (proj2 (Z.leb_le _ _)) in Hlow by lia. done. }
    exists (Z.min (64 * q + c) nbits). split; [done|]. split; [intros j Hj; apply Hno; lia|].
    destruct (Z.lt_ge_cases (64 * q + c) nbits).
    + right. rewrite Z.min_l by lia. split; [lia|done].
    + left. split; [lia|]. intros j Hj. apply Hno. lia.
Qed.

Lemma find_next_spec start :
  0 <= start -> exists r, _find_next_bit addr1 addr2 nbits start invert = Ok r /\
    first_from sought start nbits r.
Proof.
  intros Hs. unfold _find_next_bit. destruct (Z.leb_spec nbits start).
  { exists nbits. split; [done|]. split; [lia|]. left. split; [done|lia]. }
  destruct (split64 start Hs) as (Hd & Hm & Hq).
  change (start / BITS_PER_LONG) with (start / 64).
  destruct (fetch_spec (start / 64)) as (w & -> & Hwb & Hw); [lia..|]. cbn [obind].
  rewrite round_down64, first_word_mask by lia. apply find_next_loop_spec; try lia.
  - apply land_bound_l; lia.
  - intros r Hr. rewrite Z.land_spec, testbit_range_mask, Hw by lia.
    rewrite andb_comm. f_equal. decide_cmp; lia || done.
Qed.
End Find.

(** ** Range updates *)

Lemma upd_bits_refl m i b : words_ok m -> upd_bits m m i 0 b.
Proof. intros. split; [done|]. split; [done|]. intros j Hj. decide_cmp; done || lia. Qed.

Lemma upd_bits_app m1 m2 m3 i n k b :
  0 <= n -> 0 <= k -> upd_bits m1 m2 i n b -> upd_bits m2 m3 (i + n) k b ->
  upd_bits m1 m3 i (n + k) b.
Proof.
  intros Hn Hk (L1 & W1 & B1) (L2 & W2 & B2). split; [congruence|]. split; [done|].
  intros j Hj. rewrite B2, B1 by done. decide_cmp; done || lia.
Qed.

Lemma mask_word_upd m q r n w b :
  words_ok m -> 0 <= q -> 0 <= r -> 0 <= n -> r + n <= 64 -> m !! Z.to_nat q = Some w ->
  upd_bits m (<[Z.to_nat q := mask_word b w (range_mask r n)]> m) (64 * q + r) n b.
Proof.
  intros Hm Hq Hr Hn Hrn Hw. pose proof (word64_bound _ _ _ Hm Hw) as Hb.
  pose proof (range_mask_width 64 r n ltac:(lia) ltac:(lia) ltac:(lia)) as Hrb.
  assert (Hbits : forall k, 0 <= k < 64 -> Z.testbit (mask_word b w (range_mask r n)) k =
            if (r <=? k) && (k <? r + n) then b else Z.testbit w k).
  { intros k Hk. unfold mask_word, not64. destruct b; autorewrite with bits;
      rewrite testbit_range_mask by lia; decide_cmp; simpl; btauto. }
  split; [by rewrite length_insert|]. split.
  { apply Forall_insert; [done|]. unfold mask_word. destruct b; [by apply lor_bound|].
    by apply land_bound_l. }
  intros j Hj. destruct (split64 j Hj) as (Hs & Hjm & Hd). unfold wbit.
  destruct (Z.eq_dec (j / 64) q) as [<-|Hne].
  - rewrite list_lookup_insert_eq by (by apply lookup_lt_Some in Hw).
    rewrite Hw, Hbits by done. decide_cmp; done || lia.
  - rewrite list_lookup_insert_ne by lia. decide_cmp; try done; lia.
Qed.

Lemma bitmap_range_loop_ok fuel b cur len m :
  words_ok m -> 0 <= cur -> 0 <= len -> cur + len <= 64 * Z.of_nat (length m) ->
  (cur mod 64 + len) / 64 < Z.of_nat fuel ->
  exists m', bitmap_range_loop fuel b m (cur / 64) (cur + len) len (64 - cur mod 64)
               (range_mask (cur mod 64) (64 - cur mod 64)) = Ok m' /\
    upd_bits m m' cur len b.
Proof.
  revert cur len m. induction fuel as [|fuel IH]; intros cur len m Hm Hc Hl Hend Hf.
  { destruct (split64 cur Hc) as (_ & ? & _).
    assert (0 <= (cur mod 64 + len) / 64) by (apply Z.div_pos; lia). lia. }
  destruct (split64 cur Hc) as (Hd & Hr & Hq). cbn [bitmap_range_loop].
  destruct (Z.leb_spec 0 (len - (64 - cur mod 64))).
  - destruct (aget_is_ok m (cur / 64)) as (w & -> & Hw); [lia|]. cbn [obind].
    rewrite aset_ok by lia. cbn [obind].
    pose proof (mask_word_upd m (cur / 64) (cur mod 64) (64 - cur mod 64) w b Hm
                  ltac:(lia) ltac:(lia) ltac:(lia) ltac:(lia) Hw) as Hu.
    rewrite <- Hd in Hu. pose proof Hu as (HL & HW & _).
    destruct (div64 (cur / 64 + 1) 0 ltac:(lia)) as [Hq1 Hm1].
    destruct (IH (64 * (cur / 64 + 1) + 0) (len - (64 - cur mod 64)) _ HW) as (m' & Hok & Hu2);
      [lia|lia|rewrite HL; lia| |].
    { rewrite Hm1. replace (cur mod 64 + len) with (0 + (len - (64 - cur mod 64)) + 1 * 64) in Hf by lia.
      rewrite Z.div_add in Hf by lia. lia. }
    rewrite Hm1, Hq1 in Hok. exists m'. split.
    + rewrite <- Hok. f_equal; lia.
    + replace len with ((64 - cur mod 64) + (len - (64 - cur mod 64))) by lia.
      eapply upd_bits_app; [lia|lia|exact Hu|].
      by replace (cur + (64 - cur mod 64)) with (64 * (cur / 64 + 1) + 0) by lia.
  - destruct (Z.eqb_spec len 0) as [->|Hnz]; simpl.
    { exists m. split; [done|]. by apply upd_bits_refl. }
    destruct (aget_is_ok m (cur / 64)) as (w & -> & Hw); [lia|]. cbn [obind].
    rewrite aset_ok by lia. eexists. split; [done|].
    assert (Hmask : Z.land (range_mask (cur mod 64) (64 - cur mod 64)) (BITMAP_LAST_WORD_MASK (cur + len))
              = range_mask (cur mod 64) len).
    { rewrite last_word_mask by lia. replace (cur + len) with (64 * (cur / 64) + (cur mod 64 + len)) by lia.
      destruct (div64 (cur / 64) (cur mod 64 + len)) as [_ ->]; [lia|].
      rewrite (proj2 (Z.eqb_neq _ _)) by lia. apply Z.bits_inj'. intros i Hi.
      rewrite Z.land_spec, !testbit_range_mask, Z.testbit_ones by lia. decide_cmp; done || lia. }
    rewrite Hmask.
    pose proof (mask_word_upd m (cur / 64) (cur mod 64) len w b Hm
                  ltac:(lia) ltac:(lia) ltac:(lia) ltac:(lia) Hw) as Hu.
    by rewrite <- Hd in Hu.
Qed.

Section RangeUpdate.
Context (map : list Z) (start len : Z) (b : bool).
Context (Hm : words_ok map) (Hs : 0 <= start) (Hl : 0 <= len).
Context (Hend : start + len <= 64 * Z.of_nat (length map)) (Hint : start + len < 2 ^ 31).

Lemma bitmap_range_ok :
  exists map', bitmap_range_loop (Z.to_nat (len / 64) + 3) b map (BIT_WORD start) (u32 (start + len)) len
    (BITS_PER_LONG - start mod BITS_PER_LONG) (BITMAP_FIRST_WORD_MASK start) = Ok map' /\
    upd_bits map map' start len b.
Proof.
  rewrite u32_id, first_word_mask by lia. unfold BIT_WORD, BITS_PER_LONG.
  apply bitmap_range_loop_ok; try done. destruct (split64 start Hs) as (_ & Hr & _).
  assert (0 <= len / 64) by (apply Z.div_pos; lia).
  assert ((start mod 64 + len) / 64 <= len / 64 + 1).
  { replace (len / 64 + 1) with ((len + 1 * 64) / 64) by (rewrite Z.div_add by lia; lia).
    apply Z.div_le_mono; lia. }
  lia.
Qed.
End RangeUpdate.

(** ** First set and first clear bit *)

Lemma ones_or_clear w : 0 <= w < 2 ^ 64 -> w <> ONES64 -> 0 < not64 w < 2 ^ 64.
Proof.
  intros Hw Hne. unfold not64. pose proof (ldiff_bound 64 (Z.ones 64) w ltac:(lia) ltac:(done)) as Hb.
  destruct (Z.eq_dec (Z.ldiff (Z.ones 64) w) 0) as [E|]; [|lia]. exfalso. apply Hne.
  apply Z.bits_inj'. intros i Hi. apply (f_equal (fun z => Z.testbit z i)) in E.
  rewrite Z.ldiff_spec, Z.bits_0 in E. change ONES64 with (Z.ones 64).
  rewrite Z.testbit_ones in * by lia. revert E. decide_cmp; simpl.
  - intros E. by apply negb_false_iff in E.
  - intros _. by rewrite (testbit_high 64 w) by lia.
Qed.

Lemma testbit_not64 w j : 0 <= j < 64 -> Z.testbit (not64 w) j = negb (Z.testbit w j).
Proof. intros. unfold not64. rewrite Z.ldiff_spec, Z.testbit_ones by lia. by decide_cmp. Qed.

(** One word of either search: [c] is its first position of interest. *)
Lemma word_hit f size idx c :
  (forall j, 0 <= j < 64 * idx -> f j = false) ->
  (forall r, 0 <= r < c -> f (64 * idx + r) = false) -> 0 <= c -> f (64 * idx + c) = true ->
  0 <= idx -> 64 * idx < size ->
  first_from f 0 size (Z.min (idx * 64 + c) size).
Proof.
  intros Hlow Hw Hc Hf Hi Hlt.
  assert (Hno : forall j, 0 <= j < 64 * idx + c -> f j = false).
  { intros j Hj. destruct (Z.lt_ge_cases j (64 * idx)); [apply Hlow; lia|].
    replace j with (64 * idx + (j - 64 * idx)) by lia. apply Hw. lia. }
  split; [intros j Hj; apply Hno; lia|]. destruct (Z.lt_ge_cases (64 * idx + c) size).
  - right. rewrite Z.min_l by lia. split; [lia|]. by replace (idx * 64 + c) with (64 * idx + c) by lia.
  - left. split; [lia|]. intros j Hj. apply Hno. lia.
Qed.

Section First.
Context (addr : list Z) (size : Z).
Context (Hok : words_ok addr) (Hlen : size <= 64 * Z.of_nat (length addr)) (Hsz : 0 <= size < 2 ^ 63).

Lemma find_first_bit_loop_ok fuel idx :
  0 <= idx -> idx <= size / 64 + 1 -> size / 64 + 1 - idx < Z.of_nat fuel ->
  (forall j, 0 <= j < 64 * idx -> wbit addr j = false) ->
  exists r, find_first_bit_loop fuel addr size idx = Ok r /\ first_from (wbit addr) 0 size r.
Proof.
  revert idx. induction fuel as [|fuel IH]; intros idx Hi Hi2 Hf Hlow; [lia|].
  cbn [find_first_bit_loop]. unfold BITS_PER_LONG.
  assert (size / 64 <= size) by (apply Z.div_le_upper_bound; lia).
  assert (size / 64 * 64 <= size) by (pose proof (div_mul_bounds size 64); lia).
  rewrite u64_id by lia. destruct (Z.ltb_spec (idx * 64) size).
  - destruct (aget_is_ok addr idx) as (w & -> & Hw); [lia|]. cbn [obind].
    pose proof (word64_bound _ _ _ Hok Hw) as Hb.
    destruct (Z.eqb_spec w 0) as [->|Hnz]; cbn [negb].
    + rewrite u64_id by lia. apply IH; try lia.
      * apply Z.add_le_mono_r, Z.div_le_lower_bound; lia.
      * intros j Hj. destruct (Z.lt_ge_cases j (64 * idx)); [apply Hlow; lia|].
        replace j with (64 * idx + (j - 64 * idx)) by lia.
        rewrite (wbit_lookup _ idx _ 0) by lia || done. apply Z.bits_0.
    + destruct (ffs_spec w) as (c & -> & Hc & Hbit & Hl); [lia|]. cbn [obind].
      rewrite u64_id by lia. eexists. split; [done|]. apply word_hit; try lia; try done.
      * intros r Hr. rewrite (wbit_lookup _ idx _ w) by lia || done. by apply Hl.
      * by rewrite (wbit_lookup _ idx _ w) by lia || done.
  - exists size. split; [done|]. split; [|left; split; [done|]]; intros j Hj; apply Hlow; lia.
Qed.

Lemma find_first_zero_bit_loop_ok fuel idx :
  0 <= idx -> idx <= size / 64 + 1 -> size / 64 + 1 - idx < Z.of_nat fuel ->
  (forall j, 0 <= j < 64 * idx -> negb (wbit addr j) = false) ->
  exists r, find_first_zero_bit_loop fuel addr size idx = Ok r /\
    first_from (fun j => negb (wbit addr j)) 0 size r.
Proof.
  revert idx. induction fuel as [|fuel IH]; intros idx Hi Hi2 Hf Hlow; [lia|].
  cbn [find_first_zero_bit_loop]. unfold BITS_PER_LONG.
  assert (size / 64 <= size) by (apply Z.div_le_upper_bound; lia).
  assert (size / 64 * 64 <= size) by (pose proof (div_mul_bounds size 64); lia).
  rewrite u64_id by lia. destruct (Z.ltb_spec (idx * 64) size).
  - destruct (aget_is_ok addr idx) as (w & -> & Hw); [lia|]. cbn [obind].
    pose proof (word64_bound _ _ _ Hok Hw) as Hb.
    destruct (Z.eqb_spec w ONES64) as [->|Hnz]; cbn [negb].
    + rewrite u64_id by lia. apply IH; try lia.
      * apply Z.add_le_mono_r, Z.div_le_lower_bound; lia.
      * intros j Hj. destruct (Z.lt_ge_cases j (64 * idx)); [apply Hlow; lia|].
        replace j with (64 * idx + (j - 64 * idx)) by lia.
        rewrite (wbit_lookup _ idx _ ONES64) by lia || done. change ONES64 with (Z.ones 64).
        rewrite Z.testbit_ones by lia. by decide_cmp.
    + unfold ffz. destruct (ffs_spec (not64 w)) as (c & -> & Hc & Hbit & Hl); [by apply ones_or_clear|].
      cbn [obind]. rewrite u64_id by lia. eexists. split; [done|]. apply word_hit; try lia; try done.
      * intros r Hr. rewrite (wbit_lookup _ idx _ w) by lia || done. rewrite <- testbit_not64 by lia.
        by apply Hl.
      * rewrite (wbit_lookup _ idx _ w) by lia || done. by rewrite <- testbit_not64 by lia.
  - exists size. split; [done|]. split; [|left; split; [done|]]; intros j Hj; apply Hlow; lia.
Qed.
End First.

(** ** Most significant bit *)

(** What a step of [__fls] keeps: [word] has been shifted left [63 - num] times. *)
Definition fls_inv (x k : Z) (s : Z * Z) : Prop :=
  let '(num, word) := s in
  0 < word < 2 ^ 64 /\ Z.log2 x = num - 63 + Z.log2 word /\ 64 - k <= Z.log2 word.

Lemma high_mask_zero w k :
  0 < k < 64 -> 0 < w < 2 ^ 64 ->
  (Z.land w (u64 (Z.shiftl ONES64 (BITS_PER_LONG - k))) = 0 <-> Z.log2 w < 64 - k).
Proof.
  intros Hk Hw. unfold BITS_PER_LONG.
  assert (Hm : u64 (Z.shiftl ONES64 (64 - k)) = range_mask (64 - k) k).
  { unfold u64, range_mask. change ONES64 with (Z.ones 64). bitwise. }
  rewrite Hm, land_eq_0. split.
  - intros H. destruct (Z.lt_ge_cases (Z.log2 w) (64 - k)); [done|]. exfalso.
    assert (Hl : Z.log2 w < 64) by (apply Z.log2_lt_pow2; lia).
    specialize (H (Z.log2 w) ltac:(lia)).
    rewrite testbit_range_mask, Z.bit_log2 in H by lia.
    assert (true = false); [apply H|done]. decide_cmp; done || lia.
  - intros Hl i Hi Hr. rewrite testbit_range_mask in Hr by lia. breflect.
    apply Z.bits_above_log2; lia.
Qed.

Lemma fls_step_inv x k k' s :
  0 < k < 64 -> k' = 2 * k -> fls_inv x k' s -> fls_inv x k (fls_step k s).
Proof.
  intros Hk -> Hs. destruct s as [num w]. destruct Hs as (Hw & Hl & Hb). unfold fls_step.
  destruct (Z.eqb_spec (Z.land w (u64 (Z.shiftl ONES64 (BITS_PER_LONG - k)))) 0) as [E|E].
  - apply high_mask_zero in E; [|done..].
    assert (Hlog : Z.log2 (Z.shiftl w k) = Z.log2 w + k) by (apply Z.log2_shiftl; lia).
    assert (Hpos : 0 < Z.shiftl w k).
    { rewrite Z.shiftl_mul_pow2 by lia. pose proof (pow2_pos k ltac:(lia)). nia. }
    assert (Hlt : Z.shiftl w k < 2 ^ 64) by (apply Z.log2_lt_pow2; lia).
    rewrite u64_id by lia. unfold fls_inv. lia.
  - unfold fls_inv. split; [done|]. split; [done|].
    destruct (Z.lt_ge_cases (Z.log2 w) (64 - k)) as [H|H]; [|done].
    apply high_mask_zero in H; done.
Qed.

Lemma __fls_log2 x : 0 < x < 2 ^ 64 -> __fls x = Z.log2 x.
Proof.
  intros Hx. unfold __fls.
  assert (H0 : fls_inv x 64 (BITS_PER_LONG - 1, x)).
  { unfold fls_inv, BITS_PER_LONG. pose proof (Z.log2_nonneg x). lia. }
  eapply (fls_step_inv x 32) in H0; [|lia..]. eapply (fls_step_inv x 16) in H0; [|lia..].
  eapply (fls_step_inv x 8) in H0; [|lia..]. eapply (fls_step_inv x 4) in H0; [|lia..].
  eapply (fls_step_inv x 2) in H0; [|lia..].
  destruct (fls_step 2 _) as [num w]. destruct H0 as (Hw & Hl & Hb).
  assert (Z.log2 w < 64) by (apply Z.log2_lt_pow2; lia).
  destruct (Z.eqb_spec (Z.land w (u64 (Z.shiftl ONES64 (BITS_PER_LONG - 1)))) 0) as [E|E].
  - apply high_mask_zero in E; lia.
  - destruct (Z.lt_ge_cases (Z.log2 w) (64 - 1)) as [H1|H1]; [|lia].
    apply high_mask_zero in H1; done || lia.
Qed.

(** ** Population count

    [__sw_hweight64] adds up neighbouring lanes in parallel.  A word is read as
    a list of lanes of [k] bits; each stage halves the number of lanes. *)

Fixpoint join (k : Z) (ds : list Z) : Z :=
  match ds with [] => 0 | d :: ds => d + 2 ^ k * join k ds end.

Fixpoint pairs (ds : list Z) : list Z :=
  match ds with
  | a :: b :: ds => a + b :: pairs ds
  | _ => ds
  end.

Definition lanes (lo hi : Z) (ds : list Z) : Prop := Forall (fun d => lo <= d <= hi) ds.

(** Induction two elements at a time. *)
Lemma pair_ind (P : list Z -> Prop) :
  P [] -> (forall a b ds, P ds -> P (a :: b :: ds)) ->
  forall n ds, length ds = (2 * n)%nat -> P ds.
Proof.
  intros H0 H2 n. induction n as [|n IH]; intros ds Hl.
  - by destruct ds; [|simpl in Hl].
  - destruct ds as [|a [|b ds]]; simpl in Hl; [lia|lia|]. apply H2, IH. lia.
Qed.

Lemma join_nonneg k hi ds : 0 <= k -> lanes 0 hi ds -> 0 <= join k ds.
Proof.
  intros Hk. induction 1 as [|d ds Hd _ IH]; simpl; [done|]. pose proof (pow2_pos k Hk). nia.
Qed.

Lemma join_bound k hi ds :
  0 <= k -> hi < 2 ^ k -> lanes 0 hi ds -> join k ds < 2 ^ (k * Z.of_nat (length ds)).
Proof.
  intros Hk Hhi. induction 1 as [|d ds Hd _ IH]; simpl; [rewrite Z.mul_0_r; lia|].
  replace (k * Z.of_nat (S (length ds))) with (k + k * Z.of_nat (length ds)) by lia.
  rewrite Z.pow_add_r by lia. pose proof (pow2_pos k Hk). nia.
Qed.

Lemma testbit_lane k x y i :
  0 <= k -> 0 <= x < 2 ^ k -> 0 <= i ->
  Z.testbit (x + 2 ^ k * y) i = if i <? k then Z.testbit x i else Z.testbit y (i - k).
Proof.
  intros Hk Hx Hi. destruct (Z.ltb_spec i k).
  - rewrite <- (Z.mod_pow2_bits_low _ k) by lia.
    rewrite Z.mul_comm, Z_mod_plus_full, Z.mod_small by lia. done.
  - replace i with (i - k + k) at 1 by lia. rewrite <- Z.div_pow2_bits by lia.
    rewrite Z.mul_comm, Z.div_add by (pose proof (pow2_pos k Hk); lia).
    by rewrite Z.div_small by lia.
Qed.

Lemma land_lane k x y m n :
  0 <= k -> 0 <= x < 2 ^ k -> 0 <= m < 2 ^ k ->
  Z.land (x + 2 ^ k * y) (m + 2 ^ k * n) = Z.land x m + 2 ^ k * Z.land y n.
Proof.
  intros Hk Hx Hm. pose proof (land_bound_l k x m Hk Hx).
  apply Z.bits_inj'. intros i Hi. rewrite Z.land_spec, !testbit_lane by done || lia.
  destruct (i <? k); by rewrite Z.land_spec.
Qed.

Lemma shiftr_lane k x y : 0 <= k -> 0 <= x < 2 ^ k -> Z.shiftr (x + 2 ^ k * y) k = y.
Proof.
  intros Hk Hx. rewrite Z.shiftr_div_pow2, Z.mul_comm, Z.div_add by (pose proof (pow2_pos k Hk); lia).
  by rewrite Z.div_small.
Qed.

(** First stage: from bits to two-bit lanes. *)
Lemma stage_bits n ds :
  length ds = (2 * n)%nat -> lanes 0 1 ds ->
  join 1 ds - Z.land (Z.shiftr (join 1 ds) 1) (join 2 (replicate n 1)) = join 2 (pairs ds).
Proof.
  revert ds. induction n as [|n IH]; intros ds Hl Hd.
  - destruct ds; [done|simpl in Hl; lia].
  - destruct ds as [|a [|b ds]]; simpl in Hl; [lia|lia|].
    apply Forall_cons in Hd as [Ha Hd]. apply Forall_cons in Hd as [Hb Hd].
    specialize (IH ds ltac:(lia) Hd). cbn [join pairs replicate].
    rewrite shiftr_lane by lia.
    set (r := join 1 ds) in *. set (M := join 2 (replicate n 1)) in *.
    assert (Hr : b + 2 ^ 1 * r = (b + 2 * (r mod 2)) + 2 ^ 2 * Z.shiftr r 1).
    { rewrite Z.shiftr_div_pow2 by lia. change (2 ^ 1) with 2. pose proof (Z.div_mod r 2 ltac:(lia)). lia. }
    pose proof (Z.mod_pos_bound r 2 ltac:(lia)). rewrite Hr at 2.
    rewrite (land_lane 2) by lia.
    assert (Hlow : Z.land (b + 2 * (r mod 2)) 1 = b).
    { replace (Z.land (b + 2 * (r mod 2)) 1) with (Z.land (b + 2 * (r mod 2)) (Z.ones 1)) by done. rewrite Z.land_ones by lia.
      rewrite (Z.mul_comm 2), Z_mod_plus_full. apply Z.mod_small. lia. }
    rewrite Hlow. lia.
Qed.

(** A stage that masks before it adds. *)
Lemma stage_mask k n ds :
  0 < k -> length ds = (2 * n)%nat -> lanes 0 (2 ^ k - 1) ds ->
  Z.land (join k ds) (join (2 * k) (replicate n (2 ^ k - 1))) +
  Z.land (Z.shiftr (join k ds) k) (join (2 * k) (replicate n (2 ^ k - 1))) = join (2 * k) (pairs ds).
Proof.
  intros Hk. revert ds. induction n as [|n IH]; intros ds Hl Hd.
  - destruct ds; [simpl; by rewrite Z.shiftr_0_l|simpl in Hl; lia].
  - destruct ds as [|a [|b ds]]; simpl in Hl; [lia|lia|].
    apply Forall_cons in Hd as [Ha Hd]. apply Forall_cons in Hd as [Hb Hd].
    specialize (IH ds ltac:(lia) Hd). cbn [join pairs replicate].
    rewrite shiftr_lane by lia. pose proof (pow2_pos k ltac:(lia)) as Hp.
    assert (H2 : 2 ^ (2 * k) = 2 ^ k * 2 ^ k) by (rewrite <- Z.pow_add_r by lia; f_equal; lia).
    set (r := join k ds) in *. set (M := join (2 * k) (replicate n (2 ^ k - 1))) in *.
    replace (a + 2 ^ k * (b + 2 ^ k * r)) with ((a + 2 ^ k * b) + 2 ^ (2 * k) * r) by (rewrite H2; ring).
    assert (Hr : b + 2 ^ k * r = (b + 2 ^ k * (r mod 2 ^ k)) + 2 ^ (2 * k) * Z.shiftr r k).
    { rewrite H2, Z.shiftr_div_pow2 by lia. pose proof (Z.div_mod r (2 ^ k) ltac:(lia)). nia. }
    pose proof (Z.mod_pos_bound r (2 ^ k) ltac:(lia)). rewrite Hr.
    rewrite !(land_lane (2 * k)) by nia.
    assert (Hlow : forall x y, 0 <= x <= 2 ^ k - 1 -> Z.land (x + 2 ^ k * y) (2 ^ k - 1) = x).
    { intros x y Hx. replace (2 ^ k - 1) with (Z.ones k) by (rewrite Z.ones_equiv; lia).
      rewrite Z.land_ones by lia. rewrite (Z.mul_comm (2 ^ k)), Z_mod_plus_full. apply Z.mod_small. lia. }
    rewrite !Hlow by lia. rewrite <- IH. ring.
Qed.

(** A stage that adds before it masks: the lanes must leave room for the sum. *)
Lemma stage_add k n ds hi :
  0 < k -> 2 * hi < 2 ^ k -> 0 <= hi -> length ds = (2 * n)%nat -> lanes 0 hi ds ->
  Z.land (join k ds + Z.shiftr (join k ds) k) (join (2 * k) (replicate n (2 ^ k - 1)))
  = join (2 * k) (pairs ds).
Proof.
  intros Hk Hhi Hh0. revert ds. induction n as [|n IH]; intros ds Hl Hd.
  - destruct ds; [simpl; by rewrite Z.shiftr_0_l|simpl in Hl; lia].
  - destruct ds as [|a [|b ds]]; simpl in Hl; [lia|lia|].
    apply Forall_cons in Hd as [Ha Hd]. apply Forall_cons in Hd as [Hb Hd].
    specialize (IH ds ltac:(lia) Hd). cbn [join pairs replicate].
    pose proof (pow2_pos k ltac:(lia)) as Hp. rewrite shiftr_lane by lia.
    assert (H2 : 2 ^ (2 * k) = 2 ^ k * 2 ^ k) by (rewrite <- Z.pow_add_r by lia; f_equal; lia).
    set (r := join k ds) in *. set (M := join (2 * k) (replicate n (2 ^ k - 1))) in *.
    assert (Hmod : 0 <= r mod 2 ^ k <= hi /\ r = r mod 2 ^ k + 2 ^ k * Z.shiftr r k).
    { unfold r. destruct ds as [|c ds]; simpl; [rewrite Z.mod_0_l, Z.shiftr_0_l by lia; lia|].
      apply Forall_cons in Hd as [Hc _].
      rewrite shiftr_lane, (Z.mul_comm (2 ^ k)), Z_mod_plus_full, Z.mod_small by lia. lia. }
    destruct Hmod as [Hm Hr].
    replace (a + 2 ^ k * (b + 2 ^ k * r) + (b + 2 ^ k * r))
      with ((a + b + 2 ^ k * (b + r mod 2 ^ k)) + 2 ^ (2 * k) * (r + Z.shiftr r k))
      by (rewrite H2; nia).
    rewrite (land_lane (2 * k)) by nia. rewrite IH.
    replace (2 ^ k - 1) with (Z.ones k) by (rewrite Z.ones_equiv; lia).
    rewrite Z.land_ones by lia. rewrite (Z.mul_comm (2 ^ k) (b + _)), Z_mod_plus_full.
    rewrite Z.mod_small by lia. done.
Qed.

Fixpoint zsum (ds : list Z) : Z := match ds with [] => 0 | d :: ds => d + zsum ds end.

Lemma pairs_sum n ds : length ds = (2 * n)%nat -> zsum (pairs ds) = zsum ds.
Proof. revert n ds. apply (pair_ind (fun ds => _)); [done|]. intros a b ds IH. simpl. lia. Qed.

Lemma pairs_length n ds : length ds = (2 * n)%nat -> length (pairs ds) = n.
Proof.
  revert ds. induction n as [|n IH]; intros ds Hl; [by destruct ds|].
  destruct ds as [|a [|b ds]]; simpl in *; [lia|lia|]. rewrite IH; lia.
Qed.

Lemma pairs_lanes n hi ds : length ds = (2 * n)%nat -> lanes 0 hi ds -> lanes 0 (2 * hi) (pairs ds).
Proof.
  revert n ds. apply (pair_ind (fun ds => lanes 0 hi ds -> lanes 0 (2 * hi) (pairs ds))); [by constructor|].
  intros a b ds IH Hd.
  apply Forall_cons in Hd as [Ha Hd]. apply Forall_cons in Hd as [Hb Hd].
  apply Forall_cons. split; [lia|by apply IH].
Qed.

(** The last three additions leave the sum of the eight bytes in the lowest. *)
Lemma stage_fold ds :
  length ds = 8%nat -> lanes 0 8 ds ->
  let r1 := join 8 ds + Z.shiftr (join 8 ds) 8 in
  let r2 := r1 + Z.shiftr r1 16 in
  0 <= r1 < 2 ^ 64 /\ 0 <= r2 < 2 ^ 64 /\ 0 <= r2 + Z.shiftr r2 32 < 2 ^ 64 /\
  Z.land (r2 + Z.shiftr r2 32) 0xFF = zsum ds.
Proof.
  intros Hl Hd.
  destruct ds as [|d0 [|d1 [|d2 [|d3 [|d4 [|d5 [|d6 [|d7 [|d8 ds]]]]]]]]]; try discriminate Hl.
  unfold lanes in Hd. rewrite !Forall_cons in Hd.
  destruct Hd as (H0 & H1 & H2 & H3 & H4 & H5 & H6 & H7 & _). intros r1.
  assert (E1 : r1 = (d0 + d1 + 2 ^ 8 * (d1 + d2)) + 2 ^ 16 * join 8 [d2 + d3; d3 + d4; d4 + d5; d5 + d6; d6 + d7; d7]).
  { unfold r1. cbn [join]. rewrite shiftr_lane by lia. lia. }
  clearbody r1. subst r1. intros r2.
  assert (E2 : r2 = (d0 + d1 + d2 + d3 + 2 ^ 8 * (d1 + d2 + d3 + d4)
                     + 2 ^ 16 * (d2 + d3 + d4 + d5) + 2 ^ 24 * (d3 + d4 + d5 + d6))
                    + 2 ^ 32 * join 8 [d4 + d5 + d6 + d7; d5 + d6 + d7; d6 + d7; d7]).
  { unfold r2. rewrite shiftr_lane by lia. cbn [join]. lia. }
  clearbody r2. subst r2. rewrite shiftr_lane by lia. cbn [join zsum].
  change 0xFF with (Z.ones 8). rewrite Z.land_ones by lia.
  split_and!; try lia. symmetry. apply (Z.mod_unique _ _ (
     (d1 + d2 + d3 + d4) + 2 ^ 8 * (d2 + d3 + d4 + d5) + 2 ^ 16 * (d3 + d4 + d5 + d6)
     + 2 ^ 24 * join 8 [d4 + d5 + d6 + d7; d5 + d6 + d7; d6 + d7; d7]
     + join 8 [d5 + d6 + d7; d6 + d7; d7])); cbn [join]; lia.
Qed.

(** The bits of a word as a list of zeros and ones. *)
Definition bit_list (w : Z) (n : nat) : list Z := map (fun i => Z.b2z (Z.testbit w (Z.of_nat i))) (seq 0 n).

Lemma bit_list_S w n : bit_list w (S n) = Z.b2z (Z.odd w) :: bit_list (w / 2) n.
Proof.
  unfold bit_list. cbn [seq map]. f_equal.
  rewrite <- seq_shift, map_map. apply map_ext. intros i. f_equal.
  rewrite Z.div2_bits by lia. f_equal. lia.
Qed.

Lemma join_bit_list n w : 0 <= w < 2 ^ Z.of_nat n -> join 1 (bit_list w n) = w.
Proof.
  revert w. induction n as [|n IH]; intros w Hw; [simpl in *; lia|].
  rewrite bit_list_S. cbn [join]. rewrite IH.
  - pose proof (Z.div_mod w 2 ltac:(lia)). rewrite Zmod_odd in H. destruct (Z.odd w); simpl in *; lia.
  - rewrite Nat2Z.inj_succ, Z.pow_succ_r in Hw by lia.
    split; [apply Z.div_pos; lia|apply Z.div_lt_upper_bound; lia].
Qed.

Lemma bit_list_lanes w n : lanes 0 1 (bit_list w n).
Proof.
  apply Forall_forall. intros d Hd. apply list_elem_of_fmap in Hd as (i & -> & _).
  destruct (Z.testbit w _); simpl; lia.
Qed.

(** The number of set bits below bit [n]. *)
Definition popcount (w : Z) (n : nat) : Z := zsum (bit_list w n).

Lemma __sw_hweight64_ok w : 0 <= w < 2 ^ 64 -> __sw_hweight64 w = popcount w 64.
Proof.
  intros Hw. unfold __sw_hweight64, popcount. set (b := bit_list w 64).
  assert (Lb : length b = 64%nat) by (unfold b, bit_list; by rewrite length_map, length_seq).
  pose proof (bit_list_lanes w 64) as Hb. fold b in Hb.
  rewrite <- (join_bit_list 64 w) by done. fold b.
  pose proof (pairs_lanes 32 1 b Lb Hb) as Hp1. pose proof (pairs_length 32 b Lb) as L1.
  change 0x5555555555555555 with (join 2 (replicate 32 1)).
  change 0x3333333333333333 with (join 4 (replicate 16 (2 ^ 2 - 1))).
  change 0x0F0F0F0F0F0F0F0F with (join 8 (replicate 8 (2 ^ 4 - 1))).
  rewrite (stage_bits 32) by done. set (p1 := pairs b) in *.
  pose proof (join_bound 2 (2 * 1) p1 ltac:(lia) ltac:(lia) Hp1) as B1.
  rewrite L1 in B1. change (2 * Z.of_nat 32) with 64 in B1.
  pose proof (join_nonneg 2 _ p1 ltac:(lia) Hp1).
  rewrite (u64_id (join 2 p1)) by lia.
  assert (Hp1' : lanes 0 (2 ^ 2 - 1) p1) by (eapply Forall_impl; [exact Hp1|]; simpl; lia).
  pose proof (stage_mask 2 16 p1 ltac:(lia) L1 Hp1') as S2.
  replace (2 * 2) with 4 in S2 by lia. rewrite S2.
  pose proof (pairs_lanes 16 _ p1 L1 Hp1) as Hp2. pose proof (pairs_length 16 p1 L1) as L2.
  set (p2 := pairs p1) in *.
  pose proof (join_bound 4 (2 * (2 * 1)) p2 ltac:(lia) ltac:(lia) Hp2) as B2.
  rewrite L2 in B2. change (4 * Z.of_nat 16) with 64 in B2.
  pose proof (join_nonneg 4 _ p2 ltac:(lia) Hp2).
  rewrite (u64_id (join 4 p2)) by lia.
  assert (Hsh : 0 <= Z.shiftr (join 4 p2) 4 < 2 ^ 63).
  { rewrite Z.shiftr_div_pow2 by lia. split; [apply Z.div_pos; lia|].
    apply Z.div_lt_upper_bound; lia. }
  assert (B2' : join 4 p2 < 2 ^ 63).
  { destruct p2 as [|e0 [|e1 [|e2 [|e3 [|e4 [|e5 [|e6 [|e7 [|e8 [|e9 [|e10 [|e11 [|e12 [|e13 [|e14 [|e15 p2]]]]]]]]]]]]]]]];
      try discriminate L2. destruct p2; [|discriminate L2].
    unfold lanes in Hp2. rewrite !Forall_cons in Hp2. cbn [join]. lia. }
  rewrite (u64_id (join 4 p2 + _)) by lia.
  pose proof (stage_add 4 8 p2 (2 * (2 * 1)) ltac:(lia) ltac:(lia) ltac:(lia) L2 Hp2) as S3.
  replace (2 * 4) with 8 in S3 by lia. rewrite S3.
  pose proof (pairs_lanes 8 _ p2 L2 Hp2) as Hp3. pose proof (pairs_length 8 p2 L2) as L3.
  destruct (stage_fold (pairs p2) L3 Hp3) as (F1 & F2 & F3 & F4).
  rewrite (u64_id (join 8 (pairs p2) + _)) by lia.
  rewrite (u64_id (_ + Z.shiftr _ 16)) by lia. rewrite u64_id by lia.
  rewrite F4. unfold p2, p1. by rewrite (pairs_sum 8), (pairs_sum 16), (pairs_sum 32).
Qed.

(** ** Bulk operations *)

(** The number of set bits among positions [i .. i+n-1]. *)
Definition wcount (m : list Z) (i n : nat) : Z :=
  zsum (map (fun j => Z.b2z (wbit m (Z.of_nat j))) (seq i n)).

Lemma zsum_app l1 l2 : zsum (l1 ++ l2) = zsum l1 + zsum l2.
Proof. induction l1 as [|d l1 IH]; simpl; [done|]. rewrite IH. lia. Qed.

Lemma wcount_app m i n k : wcount m i (n + k) = wcount m i n + wcount m (i + n) k.
Proof. unfold wcount. by rewrite seq_app, map_app, zsum_app. Qed.

Lemma wcount_word m q n w :
  (n <= 64)%nat -> m !! q = Some w -> wcount m (64 * q) n = popcount w n.
Proof.
  intros Hn Hw. unfold wcount, popcount, bit_list. f_equal.
  apply list_eq. intros i. rewrite !list_lookup_fmap.
  destruct (decide (i < n)%nat).
  - rewrite !lookup_seq_lt by lia. simpl. do 2 f_equal.
    rewrite <- (wbit_lookup m (Z.of_nat q) (Z.of_nat i) w) by (rewrite ?Nat2Z.id; lia || done).
    f_equal. lia.
  - by rewrite !lookup_seq_ge by lia.
Qed.

Lemma popcount_land_ones w n : popcount (Z.land w (Z.ones (Z.of_nat n))) 64 = popcount w (Nat.min n 64).
Proof.
  unfold popcount, bit_list. destruct (decide (n <= 64)%nat) as [Hle|Hgt].
  - rewrite Nat.min_l by lia. replace 64%nat with (n + (64 - n))%nat by lia.
    rewrite seq_app, map_app, zsum_app.
    assert (E : zsum (map (fun i => Z.b2z (Z.testbit (Z.land w (Z.ones (Z.of_nat n))) (Z.of_nat i)))
                  (seq (0 + n) (64 - n))) = 0).
    { generalize (64 - n)%nat as k. assert (Hs : (n <= 0 + n)%nat) by lia. revert Hs.
      generalize (0 + n)%nat as s. intros s Hs k. revert s Hs.
      induction k as [|k IH]; intros s Hs; [done|]. cbn [seq map zsum]. rewrite IH by lia.
      rewrite Z.land_spec, Z.testbit_ones by lia. decide_cmp. by rewrite andb_false_r. }
    rewrite E, Z.add_0_r. f_equal. apply map_ext_in. intros i Hi. apply in_seq in Hi.
    rewrite Z.land_spec, Z.testbit_ones by lia. decide_cmp. by rewrite andb_true_r.
  - rewrite Nat.min_r by lia. f_equal. apply map_ext_in. intros i Hi. apply in_seq in Hi.
    rewrite Z.land_spec, Z.testbit_ones by lia. decide_cmp. by rewrite andb_true_r.
Qed.

Lemma weight_words_ok n m k w :
  words_ok m -> (k + n <= length m)%nat ->
  weight_words n m (Z.of_nat k) w = Ok (w + wcount m (64 * k) (64 * n)).
Proof.
  intros Hm. revert k w. induction n as [|n IH]; intros k w Hk.
  - cbn [weight_words]. f_equal. unfold wcount. simpl. lia.
  - cbn [weight_words]. destruct (aget_is_ok m (Z.of_nat k)) as (x & -> & Hx); [lia|]. cbn [obind].
    rewrite Nat2Z.id in Hx. pose proof (word64_bound _ _ _ Hm Hx) as Hb.
    replace (Z.of_nat k + 1) with (Z.of_nat (S k)) by lia. rewrite IH by lia.
    rewrite __sw_hweight64_ok by done. rewrite <- (wcount_word m k) by lia || done.
    replace (64 * S n)%nat with (64 + 64 * n)%nat by lia. rewrite wcount_app.
    replace (64 * k + 64)%nat with (64 * S k)%nat by lia. f_equal. lia.
Qed.

Lemma bitmap_weight_ok m (nbits : nat) :
  words_ok m -> (nbits <= 64 * length m)%nat ->
  __bitmap_weight m (Z.of_nat nbits) = Ok (wcount m 0 nbits).
Proof.
  intros Hm Hn. unfold __bitmap_weight, BITS_PER_LONG.
  destruct (split64 (Z.of_nat nbits) ltac:(lia)) as (Hd & Hr & Hq).
  set (q := Z.to_nat (Z.of_nat nbits / 64)). set (r := Z.to_nat (Z.of_nat nbits mod 64)).
  assert (Hqr : nbits = (64 * q + r)%nat) by lia.
  pose proof (weight_words_ok q m 0 0 Hm ltac:(lia)) as Hw. simpl (64 * 0)%nat in Hw.
  change (Z.of_nat 0) with 0 in Hw. rewrite Hw. cbn [obind].
  replace (wcount m 0 nbits) with (wcount m 0 (64 * q) + wcount m (64 * q) r) by (rewrite Hqr; symmetry; apply wcount_app).
  destruct (Z.eqb_spec (Z.of_nat nbits mod 64) 0) as [E|E]; simpl negb.
  - replace (wcount m (64 * q) r) with 0 by (by replace r with 0%nat by lia). f_equal. lia.
  - destruct (aget_is_ok m (Z.of_nat nbits / 64)) as (x & -> & Hx); [lia|]. cbn [obind].
    fold q in Hx. pose proof (word64_bound _ _ _ Hm Hx) as Hb.
    rewrite last_word_mask by lia. rewrite (proj2 (Z.eqb_neq _ _)) by done.
    rewrite __sw_hweight64_ok by (apply land_bound_l; lia).
    replace (Z.of_nat nbits mod 64) with (Z.of_nat r) by lia. rewrite popcount_land_ones.
    rewrite Nat.min_l by lia. rewrite (wcount_word m q r x) by lia || done. f_equal; lia.
Qed.

(** ** Properties *)

Module BitmapSpec.

(** C25: the bit searches are exact.  [find_next_bit], [find_next_zero_bit] and
    [find_next_and_bit] return the first position at or after the offset where
    the bit is set, clear, or set in both maps, and the size when there is none;
    in particular they never skip a candidate and never report one at or past the size. *)
Theorem find_next_exact addr addr2 size offset :
  words_ok addr -> words_ok addr2 -> 0 <= offset -> size < 2 ^ 64 - 64 ->
  size <= 64 * Z.of_nat (length addr) -> size <= 64 * Z.of_nat (length addr2) ->
  (exists r, find_next_bit addr size offset = Ok r /\ first_from (wbit addr) offset size r) /\
  (exists r, find_next_zero_bit addr size offset = Ok r /\
     first_from (fun j => negb (wbit addr j)) offset size r) /\
  (exists r, find_next_and_bit addr addr2 size offset = Ok r /\
     first_from (fun j => wbit addr j && wbit addr2 j) offset size r).
Proof.
  intros H1 H2 Ho Hs L1 L2.
  assert (Hext : forall f g r, (forall j, f j = g j) -> first_from f offset size r -> first_from g offset size r).
  { intros f g r E (Ha & Hb). split; [intros j Hj; rewrite <- E; by apply Ha|].
    destruct Hb as [[? Hb]|[? Hb]]; [left|right]; (split; [done|]); [|by rewrite <- E].
    intros j Hj. rewrite <- E. by apply Hb. }
  split_and!.
  - destruct (find_next_spec addr None size false H1 L1 I Hs offset Ho) as (r & Hr & Hf).
    exists r. split; [done|]. revert Hf. apply Hext. intros j. unfold sought.
    by rewrite andb_true_r, xorb_false_r.
  - destruct (find_next_spec addr None size true H1 L1 I Hs offset Ho) as (r & Hr & Hf).
    exists r. split; [done|]. revert Hf. apply Hext. intros j. unfold sought.
    by rewrite andb_true_r, xorb_true_r.
  - destruct (find_next_spec addr (Some addr2) size false H1 L1 (conj H2 L2) Hs offset Ho) as (r & Hr & Hf).
    exists r. split; [done|]. revert Hf. apply Hext. intros j. unfold sought. by rewrite xorb_false_r.
Qed.

Definition sample_map : list Z := [0xffffffffffffffff; 0xf0; 0x1].

Lemma sample_map_ok : words_ok sample_map.
Proof. by repeat (apply Forall_cons; split). Qed.

Lemma find_next_exact_witness :
  exists r, find_next_zero_bit sample_map 140 3 = Ok r /\
    first_from (fun j => negb (wbit sample_map j)) 3 140 r.
Proof.
  refine (proj1 (proj2 (find_next_exact sample_map sample_map 140 3 sample_map_ok sample_map_ok _ _ _ _)));
    by vm_compute.
Defined.

(** [bitmap_set] and [bitmap_clear] change exactly the asked range: every bit of
    it becomes set or clear, no bit outside it changes, and no word outside
    the map is touched, whether the range lies in one word or spans several. *)
Theorem bitmap_range_exact map start len :
  words_ok map -> 0 <= start -> 0 <= len -> start + len <= 64 * Z.of_nat (length map) ->
  start + len < 2 ^ 31 ->
  (exists map', bitmap_set map start len = Ok map' /\ upd_bits map map' start len true) /\
  (exists map', bitmap_clear map start len = Ok map' /\ upd_bits map map' start len false).
Proof. intros. split; by apply bitmap_range_ok. Qed.

Lemma bitmap_range_exact_witness :
  (exists map', bitmap_set sample_map 70 100 = Ok map' /\ upd_bits sample_map map' 70 100 true) /\
  (exists map', bitmap_clear sample_map 70 100 = Ok map' /\ upd_bits sample_map map' 70 100 false).
Proof. apply (bitmap_range_exact sample_map 70 100); [apply sample_map_ok|by vm_compute..]. Defined.

(** C26: [__bitmap_weight] counts.  The parallel lane additions of
    [__sw_hweight64] and the mask of the last word add up to the number of set
    bits below [nbits]. *)
Theorem bitmap_weight_counts m (nbits : nat) :
  words_ok m -> (nbits <= 64 * length m)%nat ->
  __bitmap_weight m (Z.of_nat nbits) =
    Ok (Z.of_nat (length (filter (fun j => wbit m (Z.of_nat j) = true) (seq 0 nbits)))).
Proof.
  intros Hm Hn. rewrite bitmap_weight_ok by done. f_equal. unfold wcount.
  generalize (seq 0 nbits). intros l. induction l as [|j l IH]; [done|].
  cbn [map zsum]. rewrite IH, filter_cons. destruct (wbit m (Z.of_nat j)); case_decide; simpl; try done; lia.
Qed.

Lemma bitmap_weight_counts_witness :
  __bitmap_weight sample_map (Z.of_nat 129) =
    Ok (Z.of_nat (length (filter (fun j => wbit sample_map (Z.of_nat j) = true) (seq 0 129)))).
Proof. apply (bitmap_weight_counts sample_map 129); [apply sample_map_ok|vm_compute; lia]. Defined.

(** [find_first_bit] and [find_first_zero_bit] agree with the searches from 0. *)
Theorem find_first_exact addr size :
  words_ok addr -> size <= 64 * Z.of_nat (length addr) -> 0 <= size < 2 ^ 63 ->
  (exists r, find_first_bit addr size = Ok r /\ first_from (wbit addr) 0 size r) /\
  (exists r, find_first_zero_bit addr size = Ok r /\
     first_from (fun j => negb (wbit addr j)) 0 size r).
Proof.
  intros H1 H2 H3. assert (0 <= size / 64) by (apply Z.div_pos; lia).
  split; [apply find_first_bit_loop_ok|apply find_first_zero_bit_loop_ok]; done || lia.
Qed.

(** [fls64] is the position of the most significant set bit, counted from 1. *)
Theorem fls64_log2 x : 0 <= x < 2 ^ 64 -> fls64 x = if x =? 0 then 0 else Z.log2 x + 1.
Proof. intros Hx. unfold fls64. destruct (Z.eqb_spec x 0); [done|]. by rewrite __fls_log2 by lia. Qed.

End BitmapSpec.
