(* ===== verification/BitmapOps.v ===== *)
(** * The rest of the bitmap header (os/lib/libutils/include/bitmap.h, bitops.h, bitmap.c)

    The inline wrappers choose between one word and the general routine when
    the size is a constant of at most 64 bits; [const] says whether the
    compiler sees a constant.  Both ways give the same result. *)

From Stdlib Require Import ZArith Lia Bool.
From stdpp Require Import base numbers list.
From S2P Require Import Prelude Bitmap.
#[local] Open Scope Z_scope.

Definition small_const_nbits (const : bool) (nbits : Z) : bool := const && (nbits <=? BITS_PER_LONG).

(** [fls] of 32 bits, with [__builtin_clz]. *)
Definition fls (x : Z) : Z := if negb (x =? 0) then 32 - (31 - Z.log2 x) else 0.
Definition hweight_long (w : Z) : Z := __sw_hweight64 w.
Definition fls_long (l : Z) : Z := fls64 l.

Definition set_words (n : nat) (v : Z) (dst : list Z) : outcome (list Z) :=
  if (n <=? length dst)%nat then Ok (replicate n v ++ drop n dst) else Fault.

Definition bitmap_fill (const : bool) (dst : list Z) (nbits : Z) : outcome (list Z) :=
  let nlongs := BITS_TO_LONGS nbits in
  let! dst :=
    (if negb (small_const_nbits const nbits) then set_words (Z.to_nat (u32 (nlongs - 1))) ONES64 dst else Ok dst) in
  aset dst (u32 (nlongs - 1)) (BITMAP_LAST_WORD_MASK nbits).

Definition bitmap_empty (const : bool) (src : list Z) (nbits : Z) : outcome bool :=
  if small_const_nbits const nbits then
    let! w := aget src 0 in Ok (Z.land w (BITMAP_LAST_WORD_MASK nbits) =? 0)
  else let! r := find_first_bit src nbits in Ok (r =? nbits).

Definition bitmap_full (const : bool) (src : list Z) (nbits : Z) : outcome bool :=
  if small_const_nbits const nbits then
    let! w := aget src 0 in Ok (Z.land (not64 w) (BITMAP_LAST_WORD_MASK nbits) =? 0)
  else let! r := find_first_zero_bit src nbits in Ok (r =? nbits).

Definition bitmap_weight (const : bool) (src : list Z) (nbits : Z) : outcome Z :=
  if small_const_nbits const nbits then
    let! w := aget src 0 in Ok (hweight_long (Z.land w (BITMAP_LAST_WORD_MASK nbits)))
  else __bitmap_weight src nbits.

Definition bitmap_or (const : bool) (dst src1 src2 : list Z) (nbits : Z) : outcome (list Z) :=
  if small_const_nbits const nbits then
    let! x := aget src1 0 in let! y := aget src2 0 in aset dst 0 (Z.lor x y)
  else __bitmap_or dst src1 src2 nbits.

Definition bitmap_and (const : bool) (dst src1 src2 : list Z) (nbits : Z) : outcome (list Z * bool) :=
  if small_const_nbits const nbits then
    let! x := aget src1 0 in
    let! y := aget src2 0 in
    let v := Z.land (Z.land x y) (BITMAP_LAST_WORD_MASK nbits) in
    let! dst := aset dst 0 v in
    Ok (dst, negb (v =? 0))
  else __bitmap_and dst src1 src2 nbits.

(** [k_memcmp] of [nbits / 8] bytes: the little-endian bytes of the words. *)
Definition map_byte (m : list Z) (i : Z) : outcome Z :=
  let! w := aget m (i / 8) in Ok (Z.land (Z.shiftr w (8 * (i mod 8))) 0xff).

Fixpoint memcmp_equal (n : nat) (m1 m2 : list Z) (i : Z) : outcome bool :=
  match n with
  | O => Ok true
  | S n =>
      let! x := map_byte m1 i in
      let! y := map_byte m2 i in
      if x =? y then memcmp_equal n m1 m2 (i + 1) else Ok false
  end.

Definition bitmap_equal (const : bool) (src1 src2 : list Z) (nbits : Z) : outcome bool :=
  if small_const_nbits const nbits then
    let! x := aget src1 0 in
    let! y := aget src2 0 in
    Ok (Z.land (Z.lxor x y) (BITMAP_LAST_WORD_MASK nbits) =? 0)
  else if const && (Z.land nbits 7 =? 0) then memcmp_equal (Z.to_nat (nbits / 8)) src1 src2 0
  else __bitmap_equal src1 src2 nbits.

(** ** Printing a bitmap *)

(** [k_vsnprintf] of this library writes nothing and returns 0. *)
Definition k_vsnprintf : Z := 0.

Definition scnprintf (size : Z) : Z :=
  let ssize := s64 size in
  let i := k_vsnprintf in
  if ssize <=? i then s32 (ssize - 1) else i.

(** The loop over the ranges of set bits; [ret] is what was written so far. *)
Fixpoint scnprintf_loop (fuel : nat) (bitmap : list Z) (nbits size cur : Z) (first : bool) (rbot ret : Z) : outcome Z :=
  match fuel with
  | O => Diverge
  | S fuel =>
      if cur <? nbits then
        let rtop := cur in
        let! cur := find_next_bit bitmap nbits (cur + 1) in
        if (cur <? nbits) && (cur <=? rtop + 1) then scnprintf_loop fuel bitmap nbits size cur first rbot ret
        else
          let ret := if negb first then u64 (ret + scnprintf (u64 (size - ret))) else ret in
          let ret := u64 (ret + scnprintf (u64 (size - ret))) in
          let ret := if rbot <? rtop then u64 (ret + scnprintf (u64 (size - ret))) else ret in
          scnprintf_loop fuel bitmap nbits size cur false cur ret
      else Ok ret
  end.

Definition bitmap_scnprintf (fuel : nat) (bitmap : list Z) (nbits size : Z) : outcome Z :=
  let! cur := find_first_bit bitmap nbits in
  scnprintf_loop fuel bitmap nbits size cur true cur 0.

(** ** One word *)

Lemma mask_small nbits : 0 < nbits <= 64 -> BITMAP_LAST_WORD_MASK nbits = Z.ones nbits.
Proof.
  intros Hn. rewrite last_word_mask by lia. f_equal.
  destruct (Z.eqb_spec (nbits mod 64) 0) as [E|E].
  - destruct (decide (nbits = 64)) as [->|]; [done|]. rewrite Z.mod_small in E by lia. lia.
  - destruct (decide (nbits = 64)) as [->|]; [done|]. apply Z.mod_small. lia.
Qed.

Lemma masked_zero w n : 0 <= n -> Z.land w (Z.ones n) = 0 <-> forall j, 0 <= j < n -> Z.testbit w j = false.
Proof.
  intros Hn. rewrite land_eq_0. split; intros H j Hj.
  - apply H; [lia|]. rewrite Z.testbit_ones_nonneg by lia. apply Z.ltb_lt. lia.
  - intros Ho. rewrite Z.testbit_ones_nonneg in Ho by lia. apply Z.ltb_lt in Ho. apply H. lia.
Qed.

Section OneWord.
Context (x : Z) (rest : list Z) (nbits : Z).
Hypothesis Hm : words_ok (x :: rest).
Hypothesis Hn : 0 < nbits <= 64.

Lemma word_bit j : 0 <= j < 64 -> wbit (x :: rest) j = Z.testbit x j.
Proof. intros Hj. rewrite <- (wbit_lookup (x :: rest) 0 j x); [f_equal; lia|lia|done|done]. Qed.

Lemma first_from_end f r : first_from f 0 nbits r ->
  (r =? nbits) = true <-> forall j, 0 <= j < nbits -> f j = false.
Proof.
  intros (Ha & Hb). rewrite Z.eqb_eq. split.
  - intros ->. destruct Hb as [[_ Hb]|[Hlt _]]; [done|lia].
  - intros Hall. destruct Hb as [[-> _]|[Hlt Hf]]; [done|]. rewrite Hall in Hf; [done|]. lia.
Qed.
End OneWord.

(** ** Comparison, bit by bit *)

Definition agree (m1 m2 : list Z) (a b : Z) : Prop := forall j, a <= j < b -> wbit m1 j = wbit m2 j.

Lemma agree_split m1 m2 a b c : a <= b <= c -> agree m1 m2 a c <-> agree m1 m2 a b /\ agree m1 m2 b c.
Proof.
  intros Hb. split.
  - intros H. split; intros j Hj; apply H; lia.
  - intros [H1 H2] j Hj. destruct (Z.lt_ge_cases j b); [apply H1|apply H2]; lia.
Qed.

Lemma agree_empty m1 m2 a b : b <= a -> agree m1 m2 a b.
Proof. intros H j Hj. lia. Qed.

(** The bits [r .. r+n-1] of two words, compared through any two values that
    hold exactly them. *)
Lemma same_bits x y r n u v : 0 <= r -> 0 <= n ->
  (forall j, 0 <= j -> Z.testbit u j = (j <? n) && Z.testbit x (r + j)) ->
  (forall j, 0 <= j -> Z.testbit v j = (j <? n) && Z.testbit y (r + j)) ->
  u = v <-> forall j, r <= j < r + n -> Z.testbit x j = Z.testbit y j.
Proof.
  intros Hr Hn Hu Hv. split.
  - intros -> j Hj. specialize (Hu (j - r) ltac:(lia)). specialize (Hv (j - r) ltac:(lia)).
    rewrite Hu in Hv. rewrite (proj2 (Z.ltb_lt _ _)) in Hv by lia. simpl in Hv.
    by replace (r + (j - r)) with j in Hv by lia.
  - intros H. apply Z.bits_inj'. intros j Hj. rewrite Hu, Hv by done.
    destruct (Z.ltb_spec j n); [|done]. simpl. apply H. lia.
Qed.

Section Compare.
Context (m1 m2 : list Z).
Hypothesis H1 : words_ok m1.
Hypothesis H2 : words_ok m2.

Lemma agree_in_word q r n x y : m1 !! q = Some x -> m2 !! q = Some y -> 0 <= r -> 0 <= n -> r + n <= 64 ->
  agree m1 m2 (64 * Z.of_nat q + r) (64 * Z.of_nat q + r + n) <->
  forall j, r <= j < r + n -> Z.testbit x j = Z.testbit y j.
Proof.
  intros Hx Hy Hr Hn Hle. split; intros H j Hj.
  - rewrite <- (wbit_lookup m1 (Z.of_nat q) j x), <- (wbit_lookup m2 (Z.of_nat q) j y) by (rewrite ?Nat2Z.id; done || lia). apply H. lia.
  - replace j with (64 * Z.of_nat q + (j - 64 * Z.of_nat q)) by lia.
    rewrite (wbit_lookup m1 (Z.of_nat q) _ x), (wbit_lookup m2 (Z.of_nat q) _ y) by (rewrite ?Nat2Z.id; done || lia). apply H. lia.
Qed.

Lemma word_bits w j : 0 <= w < 2 ^ 64 -> 0 <= j -> Z.testbit w j = (j <? 64) && Z.testbit w (0 + j).
Proof.
  intros Hw Hj. rewrite Z.add_0_l. destruct (Z.ltb_spec j 64); [done|].
  by rewrite (testbit_high 64 w j) by lia.
Qed.

Lemma equal_words_ok n k : (k + n <= length m1)%nat -> (k + n <= length m2)%nat ->
  exists b, equal_words n m1 m2 (Z.of_nat k) = Ok b /\
    (b = true <-> agree m1 m2 (64 * Z.of_nat k) (64 * Z.of_nat (k + n))).
Proof.
  revert k. induction n as [|n IH]; intros k L1 L2; simpl.
  - exists true. split; [done|]. split; [|done]. intros _. apply agree_empty. lia.
  - destruct (aget_is_ok m1 (Z.of_nat k)) as (x & -> & Hx); [lia|].
    destruct (aget_is_ok m2 (Z.of_nat k)) as (y & -> & Hy); [lia|]. cbn [obind].
    rewrite Nat2Z.id in Hx, Hy.
    pose proof (word64_bound _ _ _ H1 Hx) as Bx. pose proof (word64_bound _ _ _ H2 Hy) as By.
    pose proof (agree_in_word k 0 64 x y Hx Hy ltac:(lia) ltac:(lia) ltac:(lia)) as Hw.
    rewrite <- (same_bits x y 0 64 x y), Z.add_0_r in Hw
      by (lia || (intros j Hj; by apply word_bits)).
    pose proof (agree_split m1 m2 (64 * Z.of_nat k) (64 * Z.of_nat k + 64) (64 * Z.of_nat (k + S n)) ltac:(lia)) as Hs.
    destruct (Z.eqb_spec x y) as [E|E]; simpl negb; cbn match.
    + destruct (IH (S k)) as (b & Hb & Hi); [lia..|].
      replace (Z.of_nat k + 1) with (Z.of_nat (S k)) by lia. exists b. split; [done|].
      rewrite Hi, Hs, Hw.
      replace (64 * Z.of_nat (S k)) with (64 * Z.of_nat k + 64) by lia.
      replace (S k + n)%nat with (k + S n)%nat by lia. tauto.
    + exists false. split; [done|]. rewrite Hs, Hw. split; [done|tauto].
Qed.

Lemma bitmap_equal_ok nbits : 0 <= nbits -> nbits <= 64 * Z.of_nat (length m1) -> nbits <= 64 * Z.of_nat (length m2) ->
  exists b, __bitmap_equal m1 m2 nbits = Ok b /\ (b = true <-> agree m1 m2 0 nbits).
Proof.
  intros Hn L1 L2. unfold __bitmap_equal, BITS_PER_LONG.
  destruct (split64 nbits Hn) as (Hd & Hr & Hq). set (q := Z.to_nat (nbits / 64)).
  destruct (equal_words_ok q 0) as (b & Hb & Hi); [lia..|]. change (Z.of_nat 0) with 0 in *. change (0 + q)%nat with q in Hi.
  rewrite Z.mul_0_r in Hi. rewrite Hb. cbn [obind].
  pose proof (agree_split m1 m2 0 (64 * Z.of_nat q) nbits ltac:(lia)) as Hs. rewrite <- Hi in Hs.
  destruct b; [|exists false; split; [done|]; rewrite Hs; split; [done|tauto]].
  destruct (Z.eqb_spec (nbits mod 64) 0) as [E|E]; simpl negb; cbn match.
  - exists true. split; [done|]. split; [|done]. intros _. apply Hs. split; [done|]. apply agree_empty. lia.
  - destruct (aget_is_ok m1 (nbits / 64)) as (x & -> & Hx); [lia|].
    destruct (aget_is_ok m2 (nbits / 64)) as (y & -> & Hy); [lia|]. cbn [obind].
    eexists. split; [done|]. rewrite Hs, last_word_mask by lia. rewrite (proj2 (Z.eqb_neq (nbits mod 64) 0)) by done.
    pose proof (agree_in_word q 0 (nbits mod 64) x y Hx Hy ltac:(lia) ltac:(lia) ltac:(lia)) as Hw.
    replace (64 * Z.of_nat q + 0 + nbits mod 64) with nbits in Hw by lia. rewrite Z.add_0_r in Hw.
    rewrite Hw, Z.eqb_eq, masked_zero by lia. split.
    + intros Hz. split; [done|]. intros j Hj. specialize (Hz j Hj). rewrite Z.lxor_spec in Hz.
      by apply xorb_eq.
    + intros [_ Hz] j Hj. rewrite Z.lxor_spec, Hz by lia. apply xorb_nilpotent.
Qed.

Lemma map_byte_ok m q r x : m !! q = Some x -> 0 <= r < 8 ->
  exists u, map_byte m (8 * Z.of_nat q + r) = Ok u /\
    forall j, 0 <= j -> Z.testbit u j = (j <? 8) && Z.testbit x (8 * r + j).
Proof.
  intros Hx Hr. unfold map_byte.
  assert ((8 * Z.of_nat q + r) / 8 = Z.of_nat q /\ (8 * Z.of_nat q + r) mod 8 = r) as [-> ->]
    by (split; [symmetry; apply (Z.div_unique _ _ _ r)|symmetry; apply (Z.mod_unique _ _ (Z.of_nat q))]; lia).
  rewrite (aget_lookup m _ x) by (rewrite ?Nat2Z.id; done || lia). cbn [obind]. eexists. split; [done|].
  intros j Hj. change 255 with (Z.ones 8).
  rewrite Z.land_spec, Z.testbit_ones_nonneg, Z.shiftr_spec, andb_comm by lia. do 2 f_equal. lia.
Qed.

Lemma memcmp_equal_ok n i : (i + n <= 8 * length m1)%nat -> (i + n <= 8 * length m2)%nat ->
  exists b, memcmp_equal n m1 m2 (Z.of_nat i) = Ok b /\
    (b = true <-> agree m1 m2 (8 * Z.of_nat i) (8 * Z.of_nat (i + n))).
Proof.
  revert i. induction n as [|n IH]; intros i L1 L2; simpl memcmp_equal.
  - exists true. split; [done|]. split; [|done]. intros _. apply agree_empty. lia.
  - pose proof (Z.div_mod (Z.of_nat i) 8 ltac:(lia)) as Hd.
    pose proof (Z.mod_pos_bound (Z.of_nat i) 8 ltac:(lia)) as Hr.
    pose proof (Z.div_pos (Z.of_nat i) 8 ltac:(lia) ltac:(lia)) as Hq.
    set (q := Z.to_nat (Z.of_nat i / 8)). set (r := Z.of_nat i mod 8) in *.
    assert (Hi : Z.of_nat i = 8 * Z.of_nat q + r) by lia.
    destruct (lookup_lt_is_Some_2 m1 q) as [x Hx]; [lia|].
    destruct (lookup_lt_is_Some_2 m2 q) as [y Hy]; [lia|].
    destruct (map_byte_ok m1 q r x Hx Hr) as (u & Hu & Tu).
    destruct (map_byte_ok m2 q r y Hy Hr) as (v & Hv & Tv).
    rewrite <- Hi in Hu, Hv. rewrite Hu, Hv. cbn [obind].
    pose proof (agree_in_word q (8 * r) 8 x y Hx Hy ltac:(lia) ltac:(lia) ltac:(lia)) as Hw.
    rewrite <- (same_bits x y (8 * r) 8 u v) in Hw by (done || lia).
    replace (64 * Z.of_nat q + 8 * r) with (8 * Z.of_nat i) in Hw by lia.
    pose proof (agree_split m1 m2 (8 * Z.of_nat i) (8 * Z.of_nat i + 8) (8 * Z.of_nat (i + S n)) ltac:(lia)) as Hs.
    rewrite Hw in Hs.
    destruct (Z.eqb_spec u v) as [E|E].
    + destruct (IH (S i)) as (b & Hb & Hi'); [lia..|].
      replace (Z.of_nat i + 1) with (Z.of_nat (S i)) by lia. exists b. split; [done|].
      rewrite Hi', Hs. replace (8 * Z.of_nat (S i)) with (8 * Z.of_nat i + 8) by lia.
      replace (S i + n)%nat with (i + S n)%nat by lia. tauto.
    + exists false. split; [done|]. rewrite Hs. split; [done|tauto].
Qed.
End Compare.

(** ** A size of at most one word *)

Lemma small_div nbits : 0 < nbits <= 64 -> nbits < 64 /\ nbits / 64 = 0 /\ nbits mod 64 = nbits \/ nbits = 64.
Proof. intros Hn. destruct (decide (nbits = 64)); [by right|left]. rewrite Z.div_small, Z.mod_small; lia. Qed.

Lemma land_word x : 0 <= x < 2 ^ 64 -> Z.land x (Z.ones 64) = x.
Proof. intros Hx. rewrite Z.land_ones by lia. apply Z.mod_small. lia. Qed.

Section Small.
Context (x y d : Z) (m1 m2 dst : list Z) (nbits : Z).
Hypothesis H1 : words_ok (x :: m1).
Hypothesis H2 : words_ok (y :: m2).
Hypothesis Hn : 0 < nbits <= 64.

Let Hx : 0 <= x < 2 ^ 64. Proof. by inversion H1. Qed.
Let Hy : 0 <= y < 2 ^ 64. Proof. by inversion H2. Qed.

Lemma small_const : small_const_nbits true nbits = true.
Proof. apply Z.leb_le. unfold BITS_PER_LONG. lia. Qed.

(** A search of one word against the masked word. *)
Lemma search_one_word f w r : first_from f 0 nbits r -> (forall j, 0 <= j < nbits -> f j = Z.testbit w j) ->
  (Z.land w (Z.ones nbits) =? 0) = (r =? nbits).
Proof.
  intros Hr Hf. apply eq_true_iff_eq. rewrite (first_from_end nbits f r Hr), Z.eqb_eq, masked_zero by lia.
  split; intros H j Hj; [rewrite Hf by done; by apply H|rewrite <- Hf by done; by apply H].
Qed.

Lemma small_fill : bitmap_fill true (d :: dst) nbits = bitmap_fill false (d :: dst) nbits.
Proof.
  unfold bitmap_fill. rewrite small_const. simpl small_const_nbits. unfold BITS_TO_LONGS.
  replace ((nbits + 64 - 1) / 64) with 1 by (apply (Z.div_unique _ _ _ (nbits - 1)); lia). reflexivity.
Qed.

Lemma small_empty : bitmap_empty true (x :: m1) nbits = bitmap_empty false (x :: m1) nbits.
Proof.
  unfold bitmap_empty. rewrite small_const. simpl small_const_nbits. cbn match.
  destruct (BitmapSpec.find_first_exact (x :: m1) nbits) as [(r & -> & Hr) _]; [done|cbn [length]; lia..|].
  change (aget (x :: m1) 0) with (Ok x). cbn [obind]. rewrite mask_small by done. f_equal. apply (search_one_word _ _ _ Hr).
  intros j Hj. apply word_bit; lia.
Qed.

Lemma small_full : bitmap_full true (x :: m1) nbits = bitmap_full false (x :: m1) nbits.
Proof.
  unfold bitmap_full. rewrite small_const. simpl small_const_nbits. cbn match.
  destruct (BitmapSpec.find_first_exact (x :: m1) nbits) as [_ (r & -> & Hr)]; [done|cbn [length]; lia..|].
  change (aget (x :: m1) 0) with (Ok x). cbn [obind]. rewrite mask_small by done. f_equal. apply (search_one_word _ _ _ Hr).
  intros j Hj. rewrite word_bit, testbit_not64; [done|lia..].
Qed.

Lemma small_weight : bitmap_weight true (x :: m1) nbits = bitmap_weight false (x :: m1) nbits.
Proof.
  unfold bitmap_weight. rewrite small_const, mask_small by done. unfold __bitmap_weight, BITS_PER_LONG, hweight_long.
  change (aget (x :: m1) 0) with (Ok x). cbn [obind small_const_nbits andb].
  destruct (small_div nbits Hn) as [(Hlt & -> & ->)| ->].
  - rewrite (proj2 (Z.eqb_neq nbits 0)), mask_small by lia. change (Z.to_nat 0) with 0%nat.
    cbn [weight_words obind negb]. change (aget (x :: m1) 0) with (Ok x). cbn [obind]. by rewrite Z.add_0_l.
  - rewrite land_word by done. change (64 / 64) with 1. change (64 mod 64 =? 0) with true.
    change (Z.to_nat 1) with 1%nat. cbn [weight_words]. change (aget (x :: m1) 0) with (Ok x).
    cbn [obind negb]. by rewrite Z.add_0_l.
Qed.

Lemma small_or : bitmap_or true (d :: dst) (x :: m1) (y :: m2) nbits = bitmap_or false (d :: dst) (x :: m1) (y :: m2) nbits.
Proof.
  unfold bitmap_or. rewrite small_const. simpl small_const_nbits. cbn match. unfold __bitmap_or, BITS_TO_LONGS.
  replace ((nbits + 64 - 1) / 64) with 1 by (apply (Z.div_unique _ _ _ (nbits - 1)); lia). reflexivity.
Qed.

Lemma small_and :
  bitmap_and true (d :: dst) (x :: m1) (y :: m2) nbits = bitmap_and false (d :: dst) (x :: m1) (y :: m2) nbits.
Proof.
  unfold bitmap_and. rewrite small_const, mask_small by done. simpl small_const_nbits. cbn match.
  unfold __bitmap_and, BITS_PER_LONG. destruct (small_div nbits Hn) as [(Hlt & -> & ->)| ->].
  - rewrite (proj2 (Z.eqb_neq nbits 0)), mask_small by lia. reflexivity.
  - change (aget (x :: m1) 0) with (Ok x). change (aget (y :: m2) 0) with (Ok y). cbn [obind].
    rewrite land_word by (apply land_bound_l; lia). reflexivity.
Qed.

Lemma small_equal : bitmap_equal true (x :: m1) (y :: m2) nbits = bitmap_equal false (x :: m1) (y :: m2) nbits.
Proof.
  unfold bitmap_equal. rewrite small_const, mask_small by done. simpl small_const_nbits. cbn match.
  destruct (bitmap_equal_ok (x :: m1) (y :: m2) H1 H2 nbits) as (b & Hb & Hi); [cbn [length]; lia..|].
  simpl andb. cbn match. rewrite Hb.
  change (aget (x :: m1) 0) with (Ok x). change (aget (y :: m2) 0) with (Ok y). cbn [obind]. f_equal.
  apply eq_true_iff_eq. rewrite Hi, Z.eqb_eq, masked_zero by lia.
  pose proof (agree_in_word (x :: m1) (y :: m2) 0 0 nbits x y eq_refl eq_refl ltac:(lia) ltac:(lia) ltac:(lia)) as Hw.
  change (64 * Z.of_nat 0 + 0) with 0 in Hw. rewrite Z.add_0_l in Hw. rewrite Hw.
  split; intros H j Hj; specialize (H j Hj).
  - rewrite Z.lxor_spec in H. by apply xorb_eq.
  - rewrite Z.lxor_spec, H. apply xorb_nilpotent.
Qed.
End Small.

(** Above one word only the comparison looks at the constant. *)
Lemma large_equal m1 m2 nbits : words_ok m1 -> words_ok m2 -> 64 < nbits ->
  nbits <= 64 * Z.of_nat (length m1) -> nbits <= 64 * Z.of_nat (length m2) ->
  bitmap_equal true m1 m2 nbits = bitmap_equal false m1 m2 nbits.
Proof.
  intros H1 H2 Hn L1 L2. unfold bitmap_equal, small_const_nbits, BITS_PER_LONG.
  rewrite (proj2 (Z.leb_gt _ _)) by lia. simpl andb. cbn match.
  destruct (Z.eqb_spec (Z.land nbits 7) 0) as [E|]; [|done]. change 7 with (Z.ones 3) in E.
  rewrite Z.land_ones in E by lia. change (2 ^ 3) with 8 in E.
  pose proof (Z.div_mod nbits 8 ltac:(lia)) as Hd. rewrite E, Z.add_0_r in Hd.
  pose proof (Z.div_pos nbits 8 ltac:(lia) ltac:(lia)).
  destruct (memcmp_equal_ok m1 m2 (Z.to_nat (nbits / 8)) 0) as (b & Hb & Hi); [lia..|].
  change (Z.of_nat 0) with 0 in *. rewrite Hb.
  destruct (bitmap_equal_ok m1 m2 H1 H2 nbits) as (b' & -> & Hi'); [lia..|]. f_equal.
  apply eq_true_iff_eq. rewrite Hi, Hi', Z.mul_0_r, Nat.add_0_l, Z2Nat.id by done. by rewrite <- Hd.
Qed.

(** ** Printing writes nothing *)

Lemma scnprintf_zero size : 0 < size < 2 ^ 63 -> scnprintf size = 0.
Proof.
  intros Hs. unfold scnprintf, k_vsnprintf. rewrite s64_id by lia.
  by rewrite (proj2 (Z.leb_gt size 0)) by lia.
Qed.

Section Print.
Context (bitmap : list Z) (nbits size : Z).
Hypothesis Hm : words_ok bitmap.
Hypothesis Hn : nbits < 2 ^ 31.
Hypothesis Hl : nbits <= 64 * Z.of_nat (length bitmap).
Hypothesis Hs : 0 < size < 2 ^ 63.

(** [size - ret] stays [size]: every call adds 0. *)
Lemma scnprintf_adds_nothing : u64 (0 + scnprintf (u64 (size - 0))) = 0.
Proof. rewrite Z.sub_0_r, (u64_id size), scnprintf_zero by lia. done. Qed.

Lemma scnprintf_loop_zero fuel cur first rbot : 0 <= cur -> (Z.to_nat (nbits - cur) < fuel)%nat ->
  scnprintf_loop fuel bitmap nbits size cur first rbot 0 = Ok 0.
Proof.
  revert cur first rbot. induction fuel as [|fuel IH]; intros cur first rbot Hc Hf; [lia|].
  cbn [scnprintf_loop]. destruct (Z.ltb_spec cur nbits); [|done].
  destruct (find_next_spec bitmap None nbits false Hm Hl I ltac:(lia) (cur + 1) ltac:(lia)) as (r & Hr & Hf').
  unfold find_next_bit. rewrite Hr. cbn [obind].
  assert (cur < r) by (destruct Hf' as (_ & [[-> _]|[? _]]); lia).
  destr_if; [apply IH; lia|]. rewrite !scnprintf_adds_nothing.
  assert ((if negb first then 0 else 0) = 0) as -> by (by destruct first).
  rewrite !scnprintf_adds_nothing. assert ((if rbot <? cur then 0 else 0) = 0) as -> by (by destr_if).
  apply IH; lia.
Qed.

Lemma bitmap_scnprintf_zero fuel : 0 <= nbits -> (Z.to_nat nbits < fuel)%nat ->
  bitmap_scnprintf fuel bitmap nbits size = Ok 0.
Proof.
  intros H0 Hf. unfold bitmap_scnprintf.
  destruct (BitmapSpec.find_first_exact bitmap nbits) as [(r & -> & Hr) _]; [done|lia..|]. cbn [obind].
  assert (0 <= r) by (destruct Hr as (_ & [[-> _]|[? _]]); lia). apply scnprintf_loop_zero; lia.
Qed.
End Print.

(** ** Properties *)

Module BitmapOpsSpec.

(** the shortcut that the inline bitmap operations take when the size is a
    compile-time constant never changes the result: filling, testing for empty
    or full, counting, the union, the intersection and the comparison give the
    same value and the same destination with and without the constant, for
    every size the arrays can hold. *)
Theorem constant_paths_agree dst src1 src2 nbits :
  words_ok src1 -> words_ok src2 -> 0 < nbits < 2 ^ 31 ->
  nbits <= 64 * Z.of_nat (length dst) ->
  nbits <= 64 * Z.of_nat (length src1) -> nbits <= 64 * Z.of_nat (length src2) ->
  bitmap_fill true dst nbits = bitmap_fill false dst nbits /\
  bitmap_empty true src1 nbits = bitmap_empty false src1 nbits /\
  bitmap_full true src1 nbits = bitmap_full false src1 nbits /\
  bitmap_weight true src1 nbits = bitmap_weight false src1 nbits /\
  bitmap_or true dst src1 src2 nbits = bitmap_or false dst src1 src2 nbits /\
  bitmap_and true dst src1 src2 nbits = bitmap_and false dst src1 src2 nbits /\
  bitmap_equal true src1 src2 nbits = bitmap_equal false src1 src2 nbits.
Proof.
  intros H1 H2 Hn Ld L1 L2. destruct (Z.le_gt_cases nbits 64) as [Hs|Hs].
  - destruct src1 as [|x m1]; [cbn in L1; lia|]. destruct src2 as [|y m2]; [cbn in L2; lia|].
    destruct dst as [|d dst]; [cbn in Ld; lia|].
    split_and!; [|apply small_empty|apply small_full|apply small_weight
      |apply small_or|apply small_and|apply small_equal]; try done || lia.
    apply small_fill. lia.
  - assert (small_const_nbits true nbits = false) as E by (apply Z.leb_gt; unfold BITS_PER_LONG; lia).
    split_and!; [..|by apply large_equal];
      unfold bitmap_fill, bitmap_empty, bitmap_full, bitmap_weight, bitmap_or, bitmap_and; by rewrite E.
Qed.

Definition sample1 : list Z := [0xf0; 0x3].
Definition sample2 : list Z := [0xff; 0x3].

(** The intersection of two maps of 66 bits. *)
Lemma constant_paths_agree_witness :
  bitmap_and true [0; 0] sample1 sample2 66 = bitmap_and false [0; 0] sample1 sample2 66 /\
  bitmap_and false [0; 0] sample1 sample2 66 = Ok ([0xf0; 0x3], true).
Proof.
  split; [|reflexivity].
  destruct (constant_paths_agree [0; 0] sample1 sample2 66) as (_ & _ & _ & _ & _ & E & _); [..|exact E];
    try (cbn; lia); repeat constructor; lia.
Defined.

(** [bitmap_scnprintf] prints no bitmap: the formatter it calls is a stub, so
    the result is the empty string whatever the bits are. *)
Theorem scnprintf_prints_nothing bitmap nbits size :
  words_ok bitmap -> 0 <= nbits < 2 ^ 31 -> nbits <= 64 * Z.of_nat (length bitmap) -> 0 < size < 2 ^ 63 ->
  bitmap_scnprintf (S (Z.to_nat nbits)) bitmap nbits size = Ok 0.
Proof. intros Hm Hn Hl Hs. apply bitmap_scnprintf_zero; done || lia. Qed.

End BitmapOpsSpec.
