(* ===== verification/KList.v ===== *)
(** * Intrusive doubly linked lists (os/include/uapi/list.h)

    The kernel links task control blocks and memory areas through embedded
    [struct list_head] nodes.  A store maps node addresses to their two
    pointers, so that aliasing between lists is visible.  [dlist s h xs] says
    that the nodes reachable from head [h] are exactly [xs], in order, with
    both pointers consistent; each routine is proved against it together with
    the frame it leaves alone. *)

From Stdlib Require Import ZArith Lia Bool.
From stdpp Require Import base numbers list gmap.
From S2P Require Import Prelude.

Record list_head : Type := MkNode { next : Z; prev : Z }.

Abbreviation store := (gmap Z list_head).

(** ** Field access *)

Definition get_next (s : store) (p : Z) : outcome Z :=
  match s !! p with Some n => Ok (next n) | None => Fault end.

Definition get_prev (s : store) (p : Z) : outcome Z :=
  match s !! p with Some n => Ok (prev n) | None => Fault end.

Definition set_next (s : store) (p v : Z) : outcome store :=
  match s !! p with Some n => Ok (<[p := MkNode v (prev n)]> s) | None => Fault end.

Definition set_prev (s : store) (p v : Z) : outcome store :=
  match s !! p with Some n => Ok (<[p := MkNode (next n) v]> s) | None => Fault end.

(** ** Operations *)

Definition INIT_LIST_HEAD (s : store) (list : Z) : outcome store :=
  let! s := set_next s list list in
  set_prev s list list.

Definition __list_add (s : store) (new prev next : Z) : outcome store :=
  let! s := set_prev s next new in
  let! s := set_next s new next in
  let! s := set_prev s new prev in
  set_next s prev new.

Definition list_add (s : store) (new head : Z) : outcome store :=
  let! n := get_next s head in
  __list_add s new head n.

Definition list_add_tail (s : store) (new head : Z) : outcome store :=
  let! p := get_prev s head in
  __list_add s new p head.

Definition __list_del (s : store) (prev next : Z) : outcome store :=
  let! s := set_prev s next prev in
  set_next s prev next.

Definition LIST_POISON1 : Z := 0x00100100.
Definition LIST_POISON2 : Z := 0x00200200.

Definition __list_del_entry (s : store) (entry : Z) : outcome store :=
  let! p := get_prev s entry in
  let! n := get_next s entry in
  __list_del s p n.

Definition list_del (s : store) (entry : Z) : outcome store :=
  let! s := __list_del_entry s entry in
  let! s := set_next s entry LIST_POISON1 in
  set_prev s entry LIST_POISON2.

Definition list_replace (s : store) (old new : Z) : outcome store :=
  let! on := get_next s old in
  let! s := set_next s new on in
  let! s := set_prev s on new in
  let! op := get_prev s old in
  let! s := set_prev s new op in
  set_next s op new.

Definition list_replace_init (s : store) (old new : Z) : outcome store :=
  let! s := list_replace s old new in
  INIT_LIST_HEAD s old.

Definition list_del_init (s : store) (entry : Z) : outcome store :=
  let! s := __list_del_entry s entry in
  INIT_LIST_HEAD s entry.

Definition list_move (s : store) (list head : Z) : outcome store :=
  let! s := __list_del_entry s list in
  list_add s list head.

Definition list_move_tail (s : store) (list head : Z) : outcome store :=
  let! s := __list_del_entry s list in
  list_add_tail s list head.

Definition list_is_last (s : store) (list head : Z) : outcome bool :=
  let! n := get_next s list in Ok (n =? head).

Definition list_empty (s : store) (head : Z) : outcome bool :=
  let! n := get_next s head in Ok (n =? head).

Definition list_rotate_left (s : store) (head : Z) : outcome store :=
  let! e := list_empty s head in
  if e then Ok s
  else let! first := get_next s head in list_move_tail s first head.

Definition list_is_singular (s : store) (head : Z) : outcome bool :=
  let! e := list_empty s head in
  if e then Ok false
  else let! n := get_next s head in let! p := get_prev s head in Ok (n =? p).

(** The nodes met by [list_for_each]: from [pos] along [next] up to [head]. *)
Fixpoint list_walk (fuel : nat) (s : store) (pos head : Z) : outcome (list Z) :=
  match fuel with
  | O => Diverge
  | S fuel =>
      if pos =? head then Ok []
      else let! n := get_next s pos in
           let! rest := list_walk fuel s n head in
           Ok (pos :: rest)
  end.

(** ** Lists in the store *)

Definition linked (s : store) (a b : Z) : Prop :=
  next <$> s !! a = Some b /\ prev <$> s !! b = Some a.

Fixpoint links (s : store) (l : list Z) : Prop :=
  match l with
  | a :: (b :: _) as l' => linked s a b /\ links s l'
  | _ => True
  end.

Definition dlist (s : store) (h : Z) (xs : list Z) : Prop :=
  NoDup (h :: xs) /\ links s (h :: xs ++ [h]).

(** [s'] differs from [s] at most in the nodes of [ps]. *)
Definition touches (s s' : store) (ps : list Z) : Prop :=
  dom s' = dom s /\ forall q, q ∉ ps -> s' !! q = s !! q.

Lemma links_app s l1 a l2 : links s (l1 ++ a :: l2) <-> links s (l1 ++ [a]) /\ links s (a :: l2).
Proof.
  induction l1 as [|x l1 IH]; [simpl; tauto|].
  destruct l1 as [|y l1]; [simpl; tauto|].
  cbn [app links] in *. rewrite IH. tauto.
Qed.

Lemma links_frame s s' l :
  links s l ->
  (forall a, a ∈ removelast l -> next <$> s' !! a = next <$> s !! a) ->
  (forall b, b ∈ tail l -> prev <$> s' !! b = prev <$> s !! b) ->
  links s' l.
Proof.
  induction l as [|a l IH]; [done|]. destruct l as [|b l]; [done|].
  intros [[H1 H2] H3] Hn Hp. split.
  - split; [rewrite Hn; [done|]|rewrite Hp; [done|]]; simpl; apply list_elem_of_here.
  - apply IH; [done|..].
    + intros x Hx. apply Hn. simpl. by apply list_elem_of_further.
    + intros x Hx. apply Hp. simpl in *. by apply list_elem_of_further.
Qed.

Lemma dlist_ext s s' h xs : dlist s h xs -> (forall x, x ∈ h :: xs -> s' !! x = s !! x) -> dlist s' h xs.
Proof.
  intros [Hnd Hl] Ht. split; [done|]. eapply links_frame; [done|..].
  - intros a Ha. rewrite Ht; [done|].
    change (h :: xs ++ [h]) with ((h :: xs) ++ [h]) in Ha. by rewrite removelast_last in Ha.
  - intros b Hb. rewrite Ht; [done|]. simpl in Hb.
    apply elem_of_app in Hb as [Hb| ->%list_elem_of_singleton]; [by right|left].
Qed.

Lemma dlist_frame s s' h xs ps :
  dlist s h xs -> touches s s' ps -> (forall x, x ∈ h :: xs -> x ∉ ps) -> dlist s' h xs.
Proof. intros Hd [_ Ht] Hn. apply (dlist_ext s); [done|]. intros x Hx. by apply Ht, Hn. Qed.

Lemma touches_refl s ps : touches s s ps.
Proof. done. Qed.

Lemma touches_trans s1 s2 s3 ps : touches s1 s2 ps -> touches s2 s3 ps -> touches s1 s3 ps.
Proof.
  intros [D1 H1] [D2 H2]. split; [congruence|]. intros q Hq. rewrite H2, H1 by done. done.
Qed.

Lemma touches_mono s s' ps qs : touches s s' ps -> ps ⊆ qs -> touches s s' qs.
Proof. intros [Hd H] Hs. split; [done|]. intros q Hq. apply H. intros Hp. apply Hq. by apply Hs. Qed.

Lemma touches_one s s' p ps : touches s s' [p] -> p ∈ ps -> touches s s' ps.
Proof.
  intros Ht Hp. eapply touches_mono; [exact Ht|]. intros x Hx.
  by apply list_elem_of_singleton in Hx as ->.
Qed.

#[export] Hint Resolve touches_refl : kern.

(** Membership in explicit lists. *)
Ltac in_list := repeat rewrite elem_of_app; repeat rewrite elem_of_cons; tauto.

(** ** Single field updates *)

Lemma get_next_ok s p v : next <$> s !! p = Some v -> get_next s p = Ok v.
Proof. unfold get_next. destruct (s !! p); simpl; intros; by simplify_eq. Qed.

Lemma get_prev_ok s p v : prev <$> s !! p = Some v -> get_prev s p = Ok v.
Proof. unfold get_prev. destruct (s !! p); simpl; intros; by simplify_eq. Qed.

(** What a store says about one field after an update. *)
Definition field_upd (f : list_head -> Z) (s s' : store) (p v : Z) : Prop :=
  forall q, f <$> s' !! q = if decide (q = p) then Some v else f <$> s !! q.

Definition field_same (f : list_head -> Z) (s s' : store) : Prop :=
  forall q, f <$> s' !! q = f <$> s !! q.

Lemma insert_touches s p n n' : s !! p = Some n -> touches s (<[p := n']> s) [p].
Proof.
  intros Hn. split.
  - rewrite dom_insert_L. apply elem_of_dom_2 in Hn. apply set_eq. intros x.
    rewrite elem_of_union, elem_of_singleton. split; [intros [->|]; done|by right].
  - intros q Hq. rewrite lookup_insert_ne; [done|]. intros ->. apply Hq. left.
Qed.

Lemma set_next_ok s p v :
  p ∈ dom s -> exists s', set_next s p v = Ok s' /\ touches s s' [p] /\
    field_upd next s s' p v /\ field_same prev s s'.
Proof.
  intros [n Hn]%elem_of_dom. unfold set_next. rewrite Hn. eexists. split; [done|].
  split; [by eapply insert_touches|]. split; intros q.
  - case_decide as E; [subst; by rewrite lookup_insert_eq|by rewrite lookup_insert_ne].
  - destruct (decide (q = p)) as [->|]; [by rewrite lookup_insert_eq, Hn|by rewrite lookup_insert_ne].
Qed.

Lemma set_prev_ok s p v :
  p ∈ dom s -> exists s', set_prev s p v = Ok s' /\ touches s s' [p] /\
    field_upd prev s s' p v /\ field_same next s s'.
Proof.
  intros [n Hn]%elem_of_dom. unfold set_prev. rewrite Hn. eexists. split; [done|].
  split; [by eapply insert_touches|]. split; intros q.
  - case_decide as E; [subst; by rewrite lookup_insert_eq|by rewrite lookup_insert_ne].
  - destruct (decide (q = p)) as [->|]; [by rewrite lookup_insert_eq, Hn|by rewrite lookup_insert_ne].
Qed.

Lemma linked_dom s a b : linked s a b -> a ∈ dom s /\ b ∈ dom s.
Proof.
  intros [H1 H2]. rewrite !elem_of_dom. destruct (s !! a); [|done]. destruct (s !! b); [|done].
  split; by eexists.
Qed.

(** ** Insertion and removal between two neighbours *)

(** The places where a link can leave or enter a ring only once. *)
Definition cut_ok (l1 : list Z) (p q : Z) (l2 : list Z) : Prop :=
  (p ∉ l1) /\ (p ∉ removelast (q :: l2)) /\ (q ∉ tail (l1 ++ [p])) /\ (q ∉ l2).

Lemma removelast_snoc_in (l : list Z) a x : x ∈ removelast (l ++ [a]) <-> x ∈ l.
Proof. by rewrite removelast_last. Qed.

Lemma tail_in (l : list Z) x : x ∈ tail l -> x ∈ l.
Proof. destruct l; [done|]. by right. Qed.

Lemma removelast_in (l : list Z) x : x ∈ removelast l -> x ∈ l.
Proof.
  destruct (decide (l = [])) as [->|H]; [done|].
  rewrite (app_removelast_last 0 H) at 2. intros. apply elem_of_app. by left.
Qed.

Lemma __list_add_ok s l1 p q l2 n :
  links s (l1 ++ p :: q :: l2) -> cut_ok l1 p q l2 -> n ∈ dom s -> n ∉ l1 ++ p :: q :: l2 ->
  exists s', __list_add s n p q = Ok s' /\ links s' (l1 ++ p :: n :: q :: l2) /\ touches s s' [p; q; n].
Proof.
  intros Hl (C1 & C2 & C3 & C4) Hn Hnew.
  rewrite elem_of_app, !elem_of_cons in Hnew.
  apply links_app in Hl as [Hl1 [Hpq Hl2]]. destruct (linked_dom _ _ _ Hpq) as [Dp Dq].
  unfold __list_add.
  destruct (set_prev_ok s q n Dq) as (s1 & -> & T1 & P1 & N1). cbn [obind].
  destruct (set_next_ok s1 n q) as (s2 & -> & T2 & N2 & P2); [by rewrite (proj1 T1)|]. cbn [obind].
  destruct (set_prev_ok s2 n p) as (s3 & -> & T3 & P3 & N3);
    [by rewrite (proj1 T2), (proj1 T1)|]. cbn [obind].
  destruct (set_next_ok s3 p n) as (s4 & -> & T4 & N4 & P4);
    [by rewrite (proj1 T3), (proj1 T2), (proj1 T1)|].
  assert (Hnext : forall x, next <$> s4 !! x =
            if decide (x = p) then Some n else if decide (x = n) then Some q else next <$> s !! x).
  { intros x. rewrite N4, N3, N2, N1. done. }
  assert (Hprev : forall x, prev <$> s4 !! x =
            if decide (x = n) then Some p else if decide (x = q) then Some n else prev <$> s !! x).
  { intros x. rewrite P4, P3, P2, P1. done. }
  exists s4. split; [done|]. split.
  - apply links_app. split.
    + apply (links_frame s); [done|..]; intros x Hx.
      * apply removelast_snoc_in in Hx. rewrite Hnext. repeat case_decide; subst; tauto.
      * rewrite Hprev. apply tail_in in Hx as Hx'. apply elem_of_app in Hx'.
        rewrite list_elem_of_singleton in Hx'. repeat case_decide; subst; tauto.
    + split; [|split].
      * split; [rewrite Hnext|rewrite Hprev]; repeat case_decide; subst; tauto.
      * split; [rewrite Hnext|rewrite Hprev]; repeat case_decide; subst; tauto.
      * apply (links_frame s); [done|..]; intros x Hx.
        -- rewrite Hnext. apply removelast_in in Hx as Hx'. apply elem_of_cons in Hx'.
           repeat case_decide; subst; tauto.
        -- rewrite Hprev. simpl in Hx. repeat case_decide; subst; tauto.
  - apply (touches_trans _ s1); [eapply touches_one; [exact T1|in_list]|].
    apply (touches_trans _ s2); [eapply touches_one; [exact T2|in_list]|].
    apply (touches_trans _ s3); [eapply touches_one; [exact T3|in_list]|].
    eapply touches_one; [exact T4|in_list].
Qed.

Lemma __list_del_ok s l1 p e q l2 :
  links s (l1 ++ p :: e :: q :: l2) -> cut_ok l1 p q l2 ->
  exists s', __list_del s p q = Ok s' /\ links s' (l1 ++ p :: q :: l2) /\ touches s s' [p; q].
Proof.
  intros Hl (C1 & C2 & C3 & C4).
  apply links_app in Hl as [Hl1 [Hpe [Heq Hl2]]].
  destruct (linked_dom _ _ _ Hpe) as [Dp _]. destruct (linked_dom _ _ _ Heq) as [_ Dq].
  unfold __list_del.
  destruct (set_prev_ok s q p Dq) as (s1 & -> & T1 & P1 & N1). cbn [obind].
  destruct (set_next_ok s1 p q) as (s2 & -> & T2 & N2 & P2); [by rewrite (proj1 T1)|].
  assert (Hnext : forall x, next <$> s2 !! x = if decide (x = p) then Some q else next <$> s !! x).
  { intros x. rewrite N2, N1. done. }
  assert (Hprev : forall x, prev <$> s2 !! x = if decide (x = q) then Some p else prev <$> s !! x).
  { intros x. rewrite P2, P1. done. }
  exists s2. split; [done|]. split.
  - apply links_app. split.
    + apply (links_frame s); [done|..]; intros x Hx.
      * apply removelast_snoc_in in Hx. rewrite Hnext. case_decide; subst; tauto.
      * rewrite Hprev. case_decide; subst; tauto.
    + split; [split; [rewrite Hnext|rewrite Hprev]; case_decide; subst; tauto|].
      apply (links_frame s); [done|..]; intros x Hx.
      * rewrite Hnext. case_decide; subst; tauto.
      * rewrite Hprev. simpl in Hx. case_decide; subst; tauto.
  - apply (touches_trans _ s1); [eapply touches_one; [exact T1|in_list]|].
    eapply touches_one; [exact T2|in_list].
Qed.

(** Any cut of a ring [h :: l1 ++ l2 ++ h] is a legal place to work. *)
Lemma ring_cut h l1 l2 :
  NoDup (h :: l1 ++ l2) ->
  exists l1' p q l2', h :: l1 = l1' ++ [p] /\ l2 ++ [h] = q :: l2' /\ cut_ok l1' p q l2'.
Proof.
  intros Hnd. destruct (exists_last (l := h :: l1)) as (l1' & p & Hp); [done|].
  assert (Hq : exists q l2', l2 ++ [h] = q :: l2') by (destruct l2; simpl; eauto).
  destruct Hq as (q & l2' & Hq). exists l1', p, q, l2'. split; [done|]. split; [done|].
  change (h :: l1 ++ l2) with ((h :: l1) ++ l2) in Hnd. pose proof Hnd as Hnd'.
  rewrite Hp, NoDup_app, NoDup_app in Hnd. destruct Hnd as ((_ & Hd & _) & Hd2 & Hnd2).
  assert (Htail : tail (l1' ++ [p]) = l1) by (by rewrite <- Hp).
  assert (Hrl : removelast (q :: l2') = l2) by (rewrite <- Hq; apply removelast_last).
  unfold cut_ok. rewrite Htail, Hrl. split_and!.
  - intros Hin. apply (Hd p Hin). by apply list_elem_of_singleton.
  - apply Hd2. apply elem_of_app. right. by apply list_elem_of_singleton.
  - apply NoDup_app in Hnd' as (Hn1 & Hn2 & _). apply NoDup_cons in Hn1 as [Hn1 _].
    destruct l2 as [|x l2]; simpl in Hq; simplify_eq; [done|].
    intros Hin. apply (Hn2 q); [by right|left].
  - destruct l2 as [|x l2]; simpl in Hq; simplify_eq; [apply not_elem_of_nil|].
    apply NoDup_cons in Hnd2 as [Hx _]. rewrite elem_of_app, list_elem_of_singleton.
    intros [?| ->]; [done|]. apply NoDup_app in Hnd' as (_ & Hn2 & _). apply (Hn2 h); left.
Qed.

Lemma ring_shape (h : Z) l1 l2 l1' p q l2' :
  h :: l1 = l1' ++ [p] -> l2 ++ [h] = q :: l2' ->
  forall m, h :: (l1 ++ m ++ l2) ++ [h] = l1' ++ p :: m ++ q :: l2'.
Proof.
  intros E1 E2 m. trans ((h :: l1) ++ m ++ (l2 ++ [h])); [simpl; by rewrite !app_assoc|].
  by rewrite E1, E2, <- app_assoc.
Qed.

Lemma dlist_insert s h l1 l2 n p q :
  dlist s h (l1 ++ l2) -> n ∈ dom s -> n ∉ h :: l1 ++ l2 ->
  last (h :: l1) = Some p -> head (l2 ++ [h]) = Some q ->
  exists s', __list_add s n p q = Ok s' /\ dlist s' h (l1 ++ n :: l2) /\
    touches s s' (n :: h :: l1 ++ l2).
Proof.
  intros [Hnd Hl] Hn Hnew Hp Hq.
  destruct (ring_cut h l1 l2 Hnd) as (l1' & p' & q' & l2' & E1 & E2 & Hc).
  rewrite E1, last_snoc in Hp. rewrite E2 in Hq. simpl in Hq. simplify_eq.
  pose proof (ring_shape h l1 l2 l1' p q l2' E1 E2) as Ering.
  pose proof (Ering []) as E0. simpl in E0. rewrite E0 in Hl.
  assert (Hin : forall x, x ∈ l1' ++ p :: q :: l2' -> x ∈ h :: l1 ++ l2).
  { intros x Hx. rewrite <- E0 in Hx. revert Hx. rewrite !elem_of_cons, !elem_of_app, list_elem_of_singleton. tauto. }
  destruct (__list_add_ok s l1' p q l2' n Hl Hc Hn) as (s' & Hs & Hl' & Ht); [by intros ?%Hin|].
  exists s'. split; [done|]. split; [split|].
  - rewrite <- (Permutation_middle l1 l2 n). rewrite NoDup_cons. split.
    + rewrite not_elem_of_cons. apply NoDup_cons in Hnd as [? _]. split; [|done].
      intros ->. apply Hnew. left.
    + apply NoDup_cons. split; [|by apply NoDup_cons in Hnd as [_ ?]].
      intros ?. apply Hnew. by right.
  - specialize (Ering [n]). simpl in Ering. by rewrite Ering.
  - eapply touches_mono; [exact Ht|]. intros x Hx. rewrite !elem_of_cons in Hx.
    destruct Hx as [->|[->|[->|[]%not_elem_of_nil]]]; [right|right|left];
      apply Hin; rewrite elem_of_app; right; [left|right; left].
Qed.

Lemma dlist_remove s h l1 e l2 p q :
  dlist s h (l1 ++ e :: l2) -> last (h :: l1) = Some p -> head (l2 ++ [h]) = Some q ->
  exists s', __list_del s p q = Ok s' /\ dlist s' h (l1 ++ l2) /\ touches s s' (h :: l1 ++ l2) /\
    s' !! e = s !! e.
Proof.
  intros [Hnd Hl] Hp Hq.
  assert (Hnd2 : NoDup (h :: l1 ++ l2) /\ (e ∉ h :: l1 ++ l2)).
  { rewrite <- (Permutation_middle l1 l2 e), NoDup_cons, NoDup_cons in Hnd.
    destruct Hnd as (H1 & H2 & H3). rewrite not_elem_of_cons in H1. split; [apply NoDup_cons; tauto|].
    rewrite not_elem_of_cons. split; [|done]. intros ->. tauto. }
  destruct Hnd2 as [Hnd2 He].
  destruct (ring_cut h l1 l2 Hnd2) as (l1' & p' & q' & l2' & E1 & E2 & Hc).
  rewrite E1, last_snoc in Hp. rewrite E2 in Hq. simpl in Hq. simplify_eq.
  pose proof (ring_shape h l1 l2 l1' p q l2' E1 E2) as Ering.
  pose proof (Ering []) as E0. simpl in E0. specialize (Ering [e]). simpl in Ering. rewrite Ering in Hl.
  destruct (__list_del_ok s l1' p e q l2' Hl Hc) as (s' & Hs & Hl' & Ht).
  assert (Hin : forall x, x ∈ [p; q] -> x ∈ h :: l1 ++ l2).
  { intros x Hx. assert (Hx' : x ∈ l1' ++ p :: q :: l2').
    { rewrite !elem_of_cons in Hx. rewrite elem_of_app, !elem_of_cons.
      destruct Hx as [->|[->|[]%not_elem_of_nil]]; tauto. }
    rewrite <- E0 in Hx'. revert Hx'. rewrite !elem_of_cons, !elem_of_app, list_elem_of_singleton. tauto. }
  exists s'. split; [done|]. split; [split; [done|by rewrite E0]|].
  split; [eapply touches_mono; [exact Ht|exact Hin]|].
  apply Ht. intros ?%Hin. done.
Qed.

(** ** The routines against [dlist] *)

Lemma dlist_head_next s h xs : dlist s h xs -> exists q, head (xs ++ [h]) = Some q /\ next <$> s !! h = Some q.
Proof.
  intros [_ Hl]. destruct xs as [|x xs]; simpl in *; destruct Hl as [[H _] _]; eauto.
Qed.

Lemma dlist_head_prev s h xs : dlist s h xs -> exists p, last (h :: xs) = Some p /\ prev <$> s !! h = Some p.
Proof.
  intros [_ Hl]. destruct (exists_last (l := h :: xs)) as (l & p & E); [done|].
  exists p. rewrite E, last_snoc. split; [done|].
  change (h :: xs ++ [h]) with ((h :: xs) ++ [h]) in Hl. rewrite E, <- app_assoc in Hl.
  apply links_app in Hl as [_ [[_ H] _]]. done.
Qed.

Lemma dlist_entry s h l1 e l2 :
  dlist s h (l1 ++ e :: l2) ->
  (exists p, last (h :: l1) = Some p /\ prev <$> s !! e = Some p) /\
  (exists q, head (l2 ++ [h]) = Some q /\ next <$> s !! e = Some q).
Proof.
  intros [_ Hl]. destruct (exists_last (l := h :: l1)) as (l & p & E); [done|].
  assert (Hq : exists q l2', l2 ++ [h] = q :: l2') by (destruct l2; simpl; eauto).
  destruct Hq as (q & l2' & Hq).
  pose proof (ring_shape h l1 l2 l p q l2' E Hq [e]) as Ering. simpl in Ering. rewrite Ering in Hl.
  apply links_app in Hl as [_ [[_ H1] [[H2 _] _]]].
  split; [exists p|exists q]; (split; [|done]); [by rewrite E, last_snoc|by rewrite Hq].
Qed.

Lemma dlist_dom s h xs x : dlist s h xs -> x ∈ h :: xs -> x ∈ dom s.
Proof.
  intros Hd Hx. rewrite elem_of_dom. apply elem_of_cons in Hx as [->|Hx].
  - destruct (dlist_head_next s h xs Hd) as (q & _ & H). destruct (s !! h); [by eexists|done].
  - apply list_elem_of_split in Hx as (l1 & l2 & ->).
    destruct (dlist_entry s h l1 x l2 Hd) as [_ (q & _ & H)]. destruct (s !! x); [by eexists|done].
Qed.

Lemma INIT_LIST_HEAD_ok s h :
  h ∈ dom s -> exists s', INIT_LIST_HEAD s h = Ok s' /\ dlist s' h [] /\ touches s s' [h].
Proof.
  intros Hh. unfold INIT_LIST_HEAD.
  destruct (set_next_ok s h h Hh) as (s1 & -> & T1 & N1 & P1). cbn [obind].
  destruct (set_prev_ok s1 h h) as (s2 & -> & T2 & P2 & N2); [by rewrite (proj1 T1)|].
  exists s2. split; [done|]. split; [|by apply (touches_trans _ s1)].
  split; [apply NoDup_singleton|]. split; [|done]. split.
  - rewrite N2, N1. by rewrite decide_True.
  - rewrite P2. by rewrite decide_True.
Qed.

Lemma list_add_ok s h xs n :
  dlist s h xs -> n ∈ dom s -> n ∉ h :: xs ->
  exists s', list_add s n h = Ok s' /\ dlist s' h (n :: xs) /\ touches s s' (n :: h :: xs).
Proof.
  intros Hd Hn Hnew. unfold list_add.
  destruct (dlist_head_next s h xs Hd) as (q & Hq & Hnx). rewrite (get_next_ok _ _ _ Hnx). cbn [obind].
  apply (dlist_insert s h [] xs n h q); done.
Qed.

Lemma list_add_tail_ok s h xs n :
  dlist s h xs -> n ∈ dom s -> n ∉ h :: xs ->
  exists s', list_add_tail s n h = Ok s' /\ dlist s' h (xs ++ [n]) /\ touches s s' (n :: h :: xs).
Proof.
  intros Hd Hn Hnew. unfold list_add_tail.
  destruct (dlist_head_prev s h xs Hd) as (p & Hp & Hpv). rewrite (get_prev_ok _ _ _ Hpv). cbn [obind].
  pose proof (dlist_insert s h xs [] n p h) as H. rewrite app_nil_r in H. by apply H.
Qed.

Lemma list_empty_ok s h xs : dlist s h xs -> list_empty s h = Ok (bool_decide (xs = [])).
Proof.
  intros Hd. unfold list_empty. destruct (dlist_head_next s h xs Hd) as (q & Hq & Hnx).
  rewrite (get_next_ok _ _ _ Hnx). cbn [obind]. f_equal. destruct Hd as [Hnd _].
  destruct xs as [|x xs]; simpl in Hq; simplify_eq.
  - by rewrite Z.eqb_refl.
  - rewrite (proj2 (Z.eqb_neq _ _)); [by rewrite bool_decide_eq_false_2|].
    intros ->. apply NoDup_cons in Hnd as [H _]. apply H. left.
Qed.

Lemma list_del_entry_ok s h l1 e l2 :
  dlist s h (l1 ++ e :: l2) ->
  exists s', __list_del_entry s e = Ok s' /\ dlist s' h (l1 ++ l2) /\
    touches s s' (h :: l1 ++ e :: l2) /\ e ∈ dom s' /\ (e ∉ h :: l1 ++ l2).
Proof.
  intros Hd. unfold __list_del_entry.
  destruct (dlist_entry s h l1 e l2 Hd) as [(p & Hp & Hpv) (q & Hq & Hnx)].
  rewrite (get_prev_ok _ _ _ Hpv), (get_next_ok _ _ _ Hnx). cbn [obind].
  destruct (dlist_remove s h l1 e l2 p q Hd Hp Hq) as (s' & -> & Hd' & Ht & He).
  exists s'. split; [done|]. split; [done|]. split; [|split].
  - eapply touches_mono; [exact Ht|]. intros x. rewrite !elem_of_cons, !elem_of_app, elem_of_cons. tauto.
  - rewrite (proj1 Ht). eapply dlist_dom; [exact Hd|]. rewrite elem_of_cons, elem_of_app, elem_of_cons. tauto.
  - destruct Hd as [Hnd _]. rewrite <- (Permutation_middle l1 l2 e), NoDup_cons, NoDup_cons in Hnd.
    rewrite elem_of_cons in Hnd. rewrite elem_of_cons.
    destruct Hnd as (H1 & H2 & _). intros [->|?]; tauto.
Qed.

Lemma list_del_ok s h l1 e l2 :
  dlist s h (l1 ++ e :: l2) ->
  exists s', list_del s e = Ok s' /\ dlist s' h (l1 ++ l2) /\ touches s s' (h :: l1 ++ e :: l2).
Proof.
  intros Hd. unfold list_del.
  destruct (list_del_entry_ok s h l1 e l2 Hd) as (s1 & -> & Hd1 & T1 & De & He). cbn [obind].
  destruct (set_next_ok s1 e LIST_POISON1 De) as (s2 & -> & T2 & _). cbn [obind].
  destruct (set_prev_ok s2 e LIST_POISON2) as (s3 & -> & T3 & _); [by rewrite (proj1 T2)|].
  exists s3. split; [done|]. assert (T13 : touches s1 s3 [e]) by (by apply (touches_trans _ s2)).
  split.
  - eapply dlist_frame; [exact Hd1|exact T13|]. intros x Hx Hxe.
    apply list_elem_of_singleton in Hxe as ->. done.
  - apply (touches_trans _ s1); [done|]. eapply touches_one; [exact T13|].
    rewrite elem_of_cons, elem_of_app, elem_of_cons. tauto.
Qed.

Lemma list_del_init_ok s h l1 e l2 :
  dlist s h (l1 ++ e :: l2) ->
  exists s', list_del_init s e = Ok s' /\ dlist s' h (l1 ++ l2) /\ dlist s' e [] /\
    touches s s' (h :: l1 ++ e :: l2).
Proof.
  intros Hd. unfold list_del_init.
  destruct (list_del_entry_ok s h l1 e l2 Hd) as (s1 & -> & Hd1 & T1 & De & He). cbn [obind].
  destruct (INIT_LIST_HEAD_ok s1 e De) as (s2 & -> & Hd2 & T2).
  exists s2. split; [done|]. split; [|split; [done|]].
  - eapply dlist_frame; [exact Hd1|exact T2|]. intros x Hx Hxe.
    apply list_elem_of_singleton in Hxe as ->. done.
  - apply (touches_trans _ s1); [done|]. eapply touches_one; [exact T2|].
    rewrite elem_of_cons, elem_of_app, elem_of_cons. tauto.
Qed.

Lemma list_walk_ok s h l1 l2 fuel pos :
  dlist s h (l1 ++ l2) -> head (l2 ++ [h]) = Some pos -> (length l2 < fuel)%nat ->
  list_walk fuel s pos h = Ok l2.
Proof.
  intros Hd. revert l1 pos fuel Hd. induction l2 as [|x l2 IH]; intros l1 pos fuel Hd Hpos Hf.
  - simpl in Hpos. simplify_eq. destruct fuel as [|fuel]; [simpl in Hf; lia|].
    cbn [list_walk]. by rewrite Z.eqb_refl.
  - simpl in Hpos. simplify_eq. destruct fuel as [|fuel]; [simpl in Hf; lia|]. cbn [list_walk].
    assert (Hne : pos <> h).
    { intros ->. destruct Hd as [Hnd _]. apply NoDup_cons in Hnd as [H _]. apply H.
      apply elem_of_app. right. left. }
    rewrite (proj2 (Z.eqb_neq _ _)) by done.
    destruct (dlist_entry s h l1 pos l2 Hd) as [_ (q & Hq & Hnx)].
    rewrite (get_next_ok _ _ _ Hnx). cbn [obind].
    rewrite (IH (l1 ++ [pos]) q fuel); [done|by rewrite <- app_assoc|done|simpl in Hf; lia].
Qed.

Lemma list_move_tail_ok s h l1 e l2 :
  dlist s h (l1 ++ e :: l2) ->
  exists s', list_move_tail s e h = Ok s' /\ dlist s' h ((l1 ++ l2) ++ [e]) /\
    touches s s' (h :: l1 ++ e :: l2).
Proof.
  intros Hd. unfold list_move_tail.
  destruct (list_del_entry_ok s h l1 e l2 Hd) as (s1 & -> & Hd1 & T1 & De & He). cbn [obind].
  destruct (list_add_tail_ok s1 h (l1 ++ l2) e Hd1 De He) as (s2 & -> & Hd2 & T2).
  exists s2. split; [done|]. split; [done|]. apply (touches_trans _ s1); [done|].
  eapply touches_mono; [exact T2|]. intros x. rewrite !elem_of_cons, !elem_of_app, !elem_of_cons. tauto.
Qed.

Lemma list_rotate_left_ok s h xs :
  dlist s h xs ->
  exists s', list_rotate_left s h = Ok s' /\ touches s s' (h :: xs) /\
    dlist s' h (match xs with [] => [] | x :: xs => xs ++ [x] end).
Proof.
  intros Hd. unfold list_rotate_left. rewrite (list_empty_ok s h xs Hd). cbn [obind].
  destruct xs as [|x xs].
  - exists s. split; [done|]. by split.
  - rewrite bool_decide_eq_false_2 by done.
    destruct (dlist_head_next s h (x :: xs) Hd) as (q & Hq & Hnx). simpl in Hq. simplify_eq.
    rewrite (get_next_ok _ _ _ Hnx). cbn [obind].
    destruct (list_move_tail_ok s h [] q xs Hd) as (s' & Hs & Hd' & Ht). by exists s'.
Qed.

(** ** Properties *)

Module KListSpec.

(** C27: inserting refines list insertion.  On a store where [h] heads the list [xs]
    and [n] is a node outside it, [list_add] makes [n] the first and
    [list_add_tail] the last element, and any other list of the store, disjoint
    from [h :: xs] and not holding [n], is left as it is. *)
Theorem list_insert_refines s h xs n h2 ys :
  dlist s h xs -> n ∈ dom s -> n ∉ h :: xs ->
  dlist s h2 ys -> (forall y, y ∈ h2 :: ys -> y ∉ n :: h :: xs) ->
  (exists s', list_add s n h = Ok s' /\ dlist s' h (n :: xs) /\ dlist s' h2 ys) /\
  (exists s', list_add_tail s n h = Ok s' /\ dlist s' h (xs ++ [n]) /\ dlist s' h2 ys).
Proof.
  intros Hd Hn Hnew Hd2 Hdisj. split.
  - destruct (list_add_ok s h xs n Hd Hn Hnew) as (s' & Hs & H1 & Ht).
    exists s'. split; [done|]. split; [done|]. by eapply dlist_frame.
  - destruct (list_add_tail_ok s h xs n Hd Hn Hnew) as (s' & Hs & H1 & Ht).
    exists s'. split; [done|]. split; [done|]. by eapply dlist_frame.
Qed.

(** Head 10 with nodes 20 and 30; head 40 with node 50; node 60 alone. *)
Definition sample_store : store :=
  {[ 10 := MkNode 20 30; 20 := MkNode 30 10; 30 := MkNode 10 20;
     40 := MkNode 50 50; 50 := MkNode 40 40; 60 := MkNode 60 60 ]}.

Lemma sample_list : dlist sample_store 10 [20; 30].
Proof. split; [|by vm_compute]. by apply (bool_decide_unpack (NoDup [10; 20; 30])). Qed.

Lemma sample_other : dlist sample_store 40 [50].
Proof. split; [|by vm_compute]. by apply (bool_decide_unpack (NoDup [40; 50])). Qed.

Lemma list_insert_refines_witness :
  (exists s', list_add sample_store 60 10 = Ok s' /\ dlist s' 10 [60; 20; 30] /\ dlist s' 40 [50]) /\
  (exists s', list_add_tail sample_store 60 10 = Ok s' /\ dlist s' 10 [20; 30; 60] /\ dlist s' 40 [50]).
Proof.
  apply (list_insert_refines sample_store 10 [20; 30] 60 40 [50]);
    [apply sample_list| | |apply sample_other|].
  - apply elem_of_dom. by eexists.
  - by apply (bool_decide_unpack (60 ∉ [10; 20; 30])).
  - apply Forall_forall. by apply (bool_decide_unpack (Forall (fun y => y ∉ [60; 10; 20; 30]) [40; 50])).
Defined.

(** C28: deletion refines list deletion.  [list_del] and [list_del_init]
    unlink exactly the given entry, wherever it stands in the list, keep the
    order of the others, leave every disjoint list alone, and
    [list_del_init] leaves the entry as an empty list of its own;
    [list_empty] answers truthfully before and after. *)
Theorem list_delete_refines s h l1 e l2 h2 ys :
  dlist s h (l1 ++ e :: l2) ->
  dlist s h2 ys -> (forall y, y ∈ h2 :: ys -> y ∉ h :: l1 ++ e :: l2) ->
  list_empty s h = Ok false /\
  (exists s', list_del s e = Ok s' /\ dlist s' h (l1 ++ l2) /\ dlist s' h2 ys /\
     list_empty s' h = Ok (bool_decide (l1 ++ l2 = []))) /\
  (exists s', list_del_init s e = Ok s' /\ dlist s' h (l1 ++ l2) /\ dlist s' e [] /\ dlist s' h2 ys /\
     list_empty s' e = Ok true).
Proof.
  intros Hd Hd2 Hdisj. split_and!.
  - rewrite (list_empty_ok _ _ _ Hd). by rewrite bool_decide_eq_false_2 by (by destruct l1).
  - destruct (list_del_ok s h l1 e l2 Hd) as (s' & Hs & H1 & Ht). exists s'. split_and!; try done.
    + by eapply dlist_frame.
    + by apply list_empty_ok.
  - destruct (list_del_init_ok s h l1 e l2 Hd) as (s' & Hs & H1 & He & Ht).
    exists s'. split_and!; try done; [by eapply dlist_frame|]. by rewrite (list_empty_ok _ _ _ He).
Qed.

Lemma list_delete_refines_witness :
  exists s', list_del_init sample_store 20 = Ok s' /\ dlist s' 10 [30] /\ dlist s' 20 [] /\ dlist s' 40 [50] /\
    list_empty s' 20 = Ok true.
Proof.
  refine (proj2 (proj2 (list_delete_refines sample_store 10 [] 20 [30] 40 [50] sample_list sample_other _))).
  apply Forall_forall. by apply (bool_decide_unpack (Forall (fun y => y ∉ [10; 20; 30]) [40; 50])).
Defined.

End KListSpec.
