(* ===== verification/ListOps.v ===== *)
(** * Cutting, splicing and hash lists (os/include/uapi/list.h)

    The operations of the list header that the kernel itself does not call: the
    cut and splice family of the doubly linked lists of [KList], and the hash
    lists, whose nodes point back at the pointer that leads to them. *)

From Stdlib Require Import ZArith Lia Bool.
From stdpp Require Import base numbers list gmap.
From S2P Require Import Prelude KList.
#[local] Open Scope Z_scope.

(** ** Cut and splice *)

Definition list_empty_careful (s : store) (head : Z) : outcome bool :=
  let! n := get_next s head in
  let! p := get_prev s head in
  Ok ((n =? head) && (n =? p)).

Definition __list_cut_position (s : store) (list head entry : Z) : outcome store :=
  let! new_first := get_next s entry in
  let! hn := get_next s head in
  let! s := set_next s list hn in
  let! ln := get_next s list in
  let! s := set_prev s ln list in
  let! s := set_prev s list entry in
  let! s := set_next s entry list in
  let! s := set_next s head new_first in
  set_prev s new_first head.

Definition list_cut_position (s : store) (list head entry : Z) : outcome store :=
  let! e := list_empty s head in
  if e then Ok s
  else
    let! sg := list_is_singular s head in
    let! hn := get_next s head in
    if sg && (negb (hn =? entry) && negb (head =? entry)) then Ok s
    else if entry =? head then INIT_LIST_HEAD s list
    else __list_cut_position s list head entry.

Definition __list_splice (s : store) (list prev next : Z) : outcome store :=
  let! first := get_next s list in
  let! last := get_prev s list in
  let! s := set_prev s first prev in
  let! s := set_next s prev first in
  let! s := set_next s last next in
  set_prev s next last.

Definition list_splice (s : store) (list head : Z) : outcome store :=
  let! e := list_empty s list in
  if e then Ok s else let! n := get_next s head in __list_splice s list head n.

Definition list_splice_tail (s : store) (list head : Z) : outcome store :=
  let! e := list_empty s list in
  if e then Ok s else let! p := get_prev s head in __list_splice s list p head.

Definition list_splice_init (s : store) (list head : Z) : outcome store :=
  let! e := list_empty s list in
  if e then Ok s
  else
    let! n := get_next s head in
    let! s := __list_splice s list head n in
    INIT_LIST_HEAD s list.

Definition list_splice_tail_init (s : store) (list head : Z) : outcome store :=
  let! e := list_empty s list in
  if e then Ok s
  else
    let! p := get_prev s head in
    let! s := __list_splice s list p head in
    INIT_LIST_HEAD s list.

(** ** Hash lists *)

(** A pointer cell is a head's [first] or a node's [next], both at the start of
    their object; [pprev] of a node is the address of the cell that leads to it. *)
Record hstore : Type := MkHs { cells : gmap Z Z; pprevs : gmap Z Z }.

Definition get_cell (s : hstore) (a : Z) : outcome Z := match cells s !! a with Some v => Ok v | None => Fault end.
Definition get_pprev (s : hstore) (a : Z) : outcome Z := match pprevs s !! a with Some v => Ok v | None => Fault end.
Definition set_cell (s : hstore) (a v : Z) : outcome hstore :=
  match cells s !! a with Some _ => Ok (MkHs (<[a := v]> (cells s)) (pprevs s)) | None => Fault end.
Definition set_pprev (s : hstore) (a v : Z) : outcome hstore :=
  match pprevs s !! a with Some _ => Ok (MkHs (cells s) (<[a := v]> (pprevs s))) | None => Fault end.

Definition INIT_HLIST_HEAD (s : hstore) (h : Z) : outcome hstore := set_cell s h 0.

Definition INIT_HLIST_NODE (s : hstore) (h : Z) : outcome hstore :=
  let! s := set_cell s h 0 in set_pprev s h 0.

Definition hlist_unhashed (s : hstore) (h : Z) : outcome bool := let! p := get_pprev s h in Ok (p =? 0).
Definition hlist_empty (s : hstore) (h : Z) : outcome bool := let! f := get_cell s h in Ok (f =? 0).

Definition __hlist_del (s : hstore) (n : Z) : outcome hstore :=
  let! next := get_cell s n in
  let! pprev := get_pprev s n in
  let! s := set_cell s pprev next in
  if negb (next =? 0) then set_pprev s next pprev else Ok s.

Definition hlist_del (s : hstore) (n : Z) : outcome hstore :=
  let! s := __hlist_del s n in
  let! s := set_cell s n LIST_POISON1 in
  set_pprev s n LIST_POISON2.

Definition hlist_del_init (s : hstore) (n : Z) : outcome hstore :=
  let! u := hlist_unhashed s n in
  if negb u then let! s := __hlist_del s n in INIT_HLIST_NODE s n else Ok s.

Definition hlist_add_head (s : hstore) (n h : Z) : outcome hstore :=
  let! first := get_cell s h in
  let! s := set_cell s n first in
  let! s := (if negb (first =? 0) then set_pprev s first n else Ok s) in
  let! s := set_cell s h n in
  set_pprev s n h.

Definition hlist_add_before (s : hstore) (n next : Z) : outcome hstore :=
  let! p := get_pprev s next in
  let! s := set_pprev s n p in
  let! s := set_cell s n next in
  let! s := set_pprev s next n in
  let! p := get_pprev s n in
  set_cell s p n.

Definition hlist_add_after (s : hstore) (n next : Z) : outcome hstore :=
  let! nn := get_cell s n in
  let! s := set_cell s next nn in
  let! s := set_cell s n next in
  let! s := set_pprev s next n in
  let! nn := get_cell s next in
  if negb (nn =? 0) then set_pprev s nn next else Ok s.

Definition hlist_add_fake (s : hstore) (n : Z) : outcome hstore := set_pprev s n n.

Definition hlist_move_list (s : hstore) (old new : Z) : outcome hstore :=
  let! f := get_cell s old in
  let! s := set_cell s new f in
  let! f := get_cell s new in
  let! s := (if negb (f =? 0) then set_pprev s f new else Ok s) in
  set_cell s old 0.

(** ** Splicing concatenates *)

Lemma links_join s a ys b l :
  ys <> [] -> links s (a :: ys ++ b :: l) <->
  (exists f, head ys = Some f /\ linked s a f) /\ links s ys /\ (exists z, last ys = Some z /\ linked s z b) /\ links s (b :: l).
Proof.
  intros Hne. destruct (exists_last Hne) as (ys0 & z & ->).
  rewrite last_snoc, <- app_assoc. cbn [app].
  change (a :: ys0 ++ z :: b :: l) with ((a :: ys0) ++ z :: b :: l). rewrite links_app.
  destruct ys0 as [|f ys0]; cbn; split.
  - intros [[H1 _] [H2 H3]]. split_and!; eauto.
  - intros ((f & [= <-] & H1) & _ & (z' & [= <-] & H2) & H3). auto.
  - intros [[H1 H2] [H3 H4]]. split_and!; eauto.
  - intros ((f' & [= <-] & H1) & H2 & (z' & [= <-] & H3) & H4). auto.
Qed.

Lemma head_in (l : list Z) x : head l = Some x -> x ∈ l.
Proof. destruct l; simpl; [done|]. intros [= ->]. left. Qed.

Lemma last_in (l : list Z) x : last l = Some x -> x ∈ l.
Proof. intros (l' & ->)%last_Some. apply elem_of_app. right. left. Qed.

(** The four pointers of a splice, on the links between two neighbours. *)
Lemma __list_splice_ok s l ys l1 p q l2 :
  dlist s l ys -> ys <> [] -> links s (l1 ++ p :: q :: l2) -> cut_ok l1 p q l2 ->
  (forall x, x ∈ ys -> x ∉ l1 ++ p :: q :: l2) ->
  exists s', __list_splice s l p q = Ok s' /\ links s' (l1 ++ p :: ys ++ q :: l2) /\ touches s s' (p :: q :: ys).
Proof.
  intros [Hnd Hring] Hne Hl (C1 & C2 & C3 & C4) Hdis.
  apply links_join in Hring as ((f & Hf & Hlf) & Hys & (z & Hz & Hzl) & _); [|done].
  apply links_app in Hl as [Hl1 [Hpq Hl2]]. destruct (linked_dom _ _ _ Hpq) as [Dp Dq].
  destruct (linked_dom _ _ _ Hlf) as [_ Df]. destruct (linked_dom _ _ _ Hzl) as [Dz _].
  pose proof (head_in _ _ Hf) as Inf. pose proof (last_in _ _ Hz) as Inz.
  assert (Hd : forall x, x ∈ ys -> x <> p /\ x <> q /\ (x ∉ l1) /\ (x ∉ l2)).
  { intros x Hx. specialize (Hdis x Hx). rewrite elem_of_app, !elem_of_cons in Hdis. tauto. }
  unfold __list_splice. rewrite (get_next_ok _ _ _ (proj1 Hlf)), (get_prev_ok _ _ _ (proj2 Hzl)). cbn [obind].
  destruct (set_prev_ok s f p Df) as (s1 & -> & T1 & P1 & N1). cbn [obind].
  destruct (set_next_ok s1 p f) as (s2 & -> & T2 & N2 & P2); [by rewrite (proj1 T1)|]. cbn [obind].
  destruct (set_next_ok s2 z q) as (s3 & -> & T3 & N3 & P3); [by rewrite (proj1 T2), (proj1 T1)|]. cbn [obind].
  destruct (set_prev_ok s3 q z) as (s4 & -> & T4 & P4 & N4); [by rewrite (proj1 T3), (proj1 T2), (proj1 T1)|].
  assert (Hnext : forall x, next <$> s4 !! x = if decide (x = z) then Some q else if decide (x = p) then Some f else next <$> s !! x)
    by (intros x; by rewrite N4, N3, N2, N1).
  assert (Hprev : forall x, prev <$> s4 !! x = if decide (x = q) then Some z else if decide (x = f) then Some p else prev <$> s !! x)
    by (intros x; by rewrite P4, P3, P2, P1).
  pose proof (Hd f Inf) as Hdf. pose proof (Hd z Inz) as Hdz.
  exists s4. split; [done|]. split.
  - apply links_app. split.
    + apply (links_frame s); [done|..]; intros x Hx.
      * apply removelast_snoc_in in Hx. rewrite Hnext. repeat case_decide; subst; tauto.
      * rewrite Hprev. apply tail_in in Hx as Hx'. apply elem_of_app in Hx'.
        rewrite list_elem_of_singleton in Hx'. repeat case_decide; subst; tauto.
    + apply links_join; [done|]. split_and!.
      * exists f. split; [done|]. split; [rewrite Hnext|rewrite Hprev]; repeat case_decide; subst; tauto.
      * apply (links_frame s); [done|..]; intros x Hx.
        -- rewrite Hnext. pose proof (Hd x (removelast_in _ _ Hx)). repeat case_decide; subst; try tauto.
           exfalso. destruct (last_Some ys z) as [Hl _]. destruct (Hl Hz) as (ys0 & ->).
           rewrite removelast_snoc_in in Hx. apply NoDup_cons in Hnd as [_ Hnd].
           apply NoDup_app in Hnd as (_ & Hno & _). apply (Hno z Hx). left.
        -- rewrite Hprev. pose proof (Hd x (tail_in _ _ Hx)). repeat case_decide; subst; try tauto.
           exfalso. destruct ys as [|y ys]; [done|]. simpl in Hf, Hx. simplify_eq.
           apply NoDup_cons in Hnd as [_ Hnd]. apply NoDup_cons in Hnd as [Hno _]. done.
      * exists z. split; [done|]. split; [rewrite Hnext|rewrite Hprev]; repeat case_decide; subst; tauto.
      * apply (links_frame s); [done|..]; intros x Hx.
        -- rewrite Hnext. apply removelast_in in Hx as Hx'. apply elem_of_cons in Hx'. repeat case_decide; subst; tauto.
        -- rewrite Hprev. simpl in Hx. repeat case_decide; subst; tauto.
  - apply (touches_trans _ s1); [eapply touches_one; [exact T1|in_list]|].
    apply (touches_trans _ s2); [eapply touches_one; [exact T2|in_list]|].
    apply (touches_trans _ s3); [eapply touches_one; [exact T3|in_list]|].
    eapply touches_one; [exact T4|in_list].
Qed.

Lemma dlist_splice s h l1 l2 l ys p q :
  dlist s h (l1 ++ l2) -> dlist s l ys -> ys <> [] -> (forall x, x ∈ l :: ys -> x ∉ h :: l1 ++ l2) ->
  last (h :: l1) = Some p -> head (l2 ++ [h]) = Some q ->
  exists s', __list_splice s l p q = Ok s' /\ dlist s' h (l1 ++ ys ++ l2) /\ touches s s' (h :: l1 ++ ys ++ l2).
Proof.
  intros [Hnd Hl] Hys Hne Hdis Hp Hq.
  destruct (ring_cut h l1 l2 Hnd) as (l1' & p' & q' & l2' & E1 & E2 & Hc).
  rewrite E1, last_snoc in Hp. rewrite E2 in Hq. simpl in Hq. simplify_eq.
  pose proof (ring_shape h l1 l2 l1' p q l2' E1 E2) as Ering.
  pose proof (Ering []) as E0. simpl in E0. rewrite E0 in Hl.
  assert (Hin : forall x, x ∈ l1' ++ p :: q :: l2' -> x ∈ h :: l1 ++ l2).
  { intros x Hx. rewrite <- E0 in Hx. revert Hx. rewrite !elem_of_cons, !elem_of_app, list_elem_of_singleton. tauto. }
  destruct (__list_splice_ok s l ys l1' p q l2' Hys Hne Hl Hc) as (s' & Hs & Hl' & Ht).
  { intros x Hx Hx'. apply (Hdis x); [by right|by apply Hin]. }
  exists s'. split; [done|]. split; [split|].
  - destruct Hys as [Hndy _]. apply NoDup_cons in Hndy as [_ Hndy].
    assert (Hperm : Permutation (h :: l1 ++ ys ++ l2) (ys ++ h :: l1 ++ l2)).
    { rewrite (app_assoc l1), (Permutation_app_comm l1 ys), <- app_assoc. apply Permutation_middle. }
    rewrite Hperm. apply NoDup_app. split_and!; [done| |done]. intros x Hx. apply Hdis. by right.
  - by rewrite Ering.
  - eapply touches_mono; [exact Ht|]. intros x Hx. rewrite !elem_of_cons in Hx.
    assert (Hall : x ∈ h :: l1 ++ l2 \/ x ∈ ys).
    { destruct Hx as [->|[->|Hx]]; [left; apply Hin; rewrite elem_of_app; right; left
        |left; apply Hin; rewrite elem_of_app; right; right; left|by right]. }
    rewrite !elem_of_cons, !elem_of_app in *. tauto.
Qed.

(** ** Cutting splits *)

(** The six pointers of a cut: from the head [h] up to [e] to the new head [l]; [f]
    is the first element and [q] what follows [e]. *)
Lemma __list_cut_fields s l h e f q :
  l ∈ dom s -> linked s h f -> linked s e q -> e <> l ->
  exists s', __list_cut_position s l h e = Ok s' /\ touches s s' [l; h; e; f; q] /\
    (forall x, next <$> s' !! x = if decide (x = h) then Some q else if decide (x = e) then Some l
       else if decide (x = l) then Some f else next <$> s !! x) /\
    (forall x, prev <$> s' !! x = if decide (x = q) then Some h else if decide (x = l) then Some e
       else if decide (x = f) then Some l else prev <$> s !! x).
Proof.
  intros Dl Hhf Heq Hel. destruct (linked_dom _ _ _ Hhf) as [Dh Df]. destruct (linked_dom _ _ _ Heq) as [De Dq].
  unfold __list_cut_position. rewrite (get_next_ok _ _ _ (proj1 Heq)), (get_next_ok _ _ _ (proj1 Hhf)). cbn [obind].
  destruct (set_next_ok s l f Dl) as (s1 & -> & T1 & N1 & P1). cbn [obind].
  rewrite (get_next_ok s1 l f) by (by rewrite N1, decide_True). cbn [obind].
  destruct (set_prev_ok s1 f l) as (s2 & -> & T2 & P2 & N2); [by rewrite (proj1 T1)|]. cbn [obind].
  destruct (set_prev_ok s2 l e) as (s3 & -> & T3 & P3 & N3); [by rewrite (proj1 T2), (proj1 T1)|]. cbn [obind].
  destruct (set_next_ok s3 e l) as (s4 & -> & T4 & N4 & P4); [by rewrite (proj1 T3), (proj1 T2), (proj1 T1)|]. cbn [obind].
  destruct (set_next_ok s4 h q) as (s5 & -> & T5 & N5 & P5); [by rewrite (proj1 T4), (proj1 T3), (proj1 T2), (proj1 T1)|]. cbn [obind].
  destruct (set_prev_ok s5 q h) as (s6 & -> & T6 & P6 & N6);
    [by rewrite (proj1 T5), (proj1 T4), (proj1 T3), (proj1 T2), (proj1 T1)|].
  exists s6. split_and!; [done| |intros x; by rewrite N6, N5, N4, N3, N2, N1|intros x; by rewrite P6, P5, P4, P3, P2, P1].
  apply (touches_trans _ s1); [eapply touches_one; [exact T1|in_list]|].
  apply (touches_trans _ s2); [eapply touches_one; [exact T2|in_list]|].
  apply (touches_trans _ s3); [eapply touches_one; [exact T3|in_list]|].
  apply (touches_trans _ s4); [eapply touches_one; [exact T4|in_list]|].
  apply (touches_trans _ s5); [eapply touches_one; [exact T5|in_list]|].
  eapply touches_one; [exact T6|in_list].
Qed.

Lemma __list_cut_ok s l h l1 e l2 :
  dlist s h (l1 ++ e :: l2) -> l ∈ dom s -> l ∉ h :: l1 ++ e :: l2 ->
  exists s', __list_cut_position s l h e = Ok s' /\ dlist s' h l2 /\ dlist s' l (l1 ++ [e]) /\
    touches s s' (l :: h :: l1 ++ e :: l2).
Proof.
  intros [Hnd Hl] Dl Hnew. rewrite not_elem_of_cons, not_elem_of_app, not_elem_of_cons in Hnew.
  destruct Hnew as (Hlh & Hl1 & Hle & Hl2).
  assert (Hq : exists q l2', l2 ++ [h] = q :: l2') by (destruct l2; simpl; eauto). destruct Hq as (q & l2' & Eq).
  assert (Ering : h :: (l1 ++ e :: l2) ++ [h] = h :: (l1 ++ [e]) ++ q :: l2') by (by rewrite <- Eq, <- !app_assoc).
  assert (Hne : l1 ++ [e] <> []) by (by destruct l1).
  rewrite Ering in Hl. apply links_join in Hl as ((f & Hf & Hhf) & Hys & (z & Hz & Heq) & Hl2q); [|done].
  rewrite last_snoc in Hz. simplify_eq. pose proof (head_in _ _ Hf) as Inf.
  assert (Hnd' : NoDup (h :: (l1 ++ [z]) ++ l2)) by (by rewrite <- app_assoc).
  apply NoDup_cons in Hnd' as [Hh Hnd']. apply NoDup_app in Hnd' as (Ny & Hyl & N2). rewrite not_elem_of_app in Hh.
  assert (Hly : l ∉ l1 ++ [z]) by (rewrite elem_of_app, list_elem_of_singleton; tauto).
  assert (Inz : z ∈ l1 ++ [z]) by (rewrite elem_of_app; right; left).
  assert (Hq2 : q = h \/ q ∈ l2) by (destruct l2; simpl in Eq; simplify_eq; [by left|right; left]).
  assert (Hyq : forall x, x ∈ l1 ++ [z] -> x <> q) by (intros x Hx ->; destruct Hq2 as [->|Hq2]; [tauto|by apply (Hyl q)]).
  assert (Hlq : l <> q) by (intros ->; destruct Hq2 as [->|Hq2]; tauto).
  assert (Hyn : forall x, x ∈ l1 ++ [z] -> x <> h /\ x <> l) by (intros x Hx; split; intros ->; tauto).
  destruct (__list_cut_fields s l h z f q Dl Hhf Heq) as (s' & Hs & Ht & Hnext & Hprev); [by apply Hyn|].
  exists s'. split; [done|]. split_and!.
  - split; [apply NoDup_cons; tauto|]. rewrite Eq. change (links s' (h :: q :: l2')) with (linked s' h q /\ links s' (q :: l2')). split.
    + split; [rewrite Hnext|rewrite Hprev]; by rewrite decide_True.
    + apply (links_frame s); [done|..]; intros x Hx.
      * rewrite <- Eq, removelast_last in Hx. rewrite Hnext, !decide_False; [done|..]; intros ->; try tauto; by apply (Hyl z).
      * simpl in Hx. assert (Hxq : x <> q /\ (x = h \/ x ∈ l2)).
        { destruct l2 as [|y l2]; simpl in Eq; simplify_eq; [by apply not_elem_of_nil in Hx|].
          apply NoDup_cons in N2 as [N2 _]. apply elem_of_app in Hx as [Hx|Hx%list_elem_of_singleton].
          - split; [by intros ->|right; by right].
          - subst. split; [|by left]. intros ->. apply (proj2 Hh). left. }
        destruct Hxq as [Hxq Hx2]. rewrite Hprev, !decide_False; [done|..]; intros ->; destruct Hx2 as [Hx2|Hx2]; try tauto;
          try congruence; [destruct (Hyn f Inf); congruence|by apply (Hyl f)].
  - split; [by apply NoDup_cons|]. apply links_join; [done|]. split_and!; [|..|done].
    + exists f. split; [done|]. destruct (Hyn f Inf), (Hyn z Inz). pose proof (Hyq f Inf).
      split; [rewrite Hnext|rewrite Hprev]; repeat case_decide; congruence.
    + apply (links_frame s); [done|..]; intros x Hx.
      * rewrite removelast_last in Hx. assert (Hxy : x ∈ l1 ++ [z]) by (rewrite elem_of_app; by left).
        destruct (Hyn x Hxy). rewrite Hnext, !decide_False; [done|done| |done]. intros ->.
        apply NoDup_app in Ny as (_ & Hno & _). apply (Hno z Hx). left.
      * pose proof (tail_in _ _ Hx) as Hxy. destruct (Hyn x Hxy). rewrite Hprev, !decide_False; [done| |done|by apply Hyq].
        intros ->. destruct (l1 ++ [z]) as [|y ys]; [done|]. simpl in *. simplify_eq. by apply NoDup_cons in Ny as [? _].
    + exists z. rewrite last_snoc. split; [done|]. destruct (Hyn z Inz).
      split; [rewrite Hnext|rewrite Hprev]; repeat case_decide; congruence.
  - eapply touches_mono; [exact Ht|]. intros x Hx. rewrite elem_of_app, list_elem_of_singleton in Inf.
    rewrite !elem_of_cons, elem_of_app, elem_of_cons. rewrite !elem_of_cons in Hx.
    destruct Hx as [->|[->|[->|[->|[->|[]%not_elem_of_nil]]]]]; tauto.
Qed.

Lemma list_cut_ok s l h l1 e l2 :
  dlist s h (l1 ++ e :: l2) -> l ∈ dom s -> l ∉ h :: l1 ++ e :: l2 ->
  exists s', list_cut_position s l h e = Ok s' /\ dlist s' h l2 /\ dlist s' l (l1 ++ [e]) /\
    touches s s' (l :: h :: l1 ++ e :: l2).
Proof.
  intros Hd Dl Hnew. destruct (__list_cut_ok s l h l1 e l2 Hd Dl Hnew) as (s' & Hs & H).
  exists s'. split; [|exact H]. unfold list_cut_position. rewrite (list_empty_ok _ _ _ Hd). cbn [obind].
  rewrite bool_decide_eq_false_2 by (by destruct l1).
  assert (Heh : e <> h).
  { destruct Hd as [Hnd _]. apply NoDup_cons in Hnd as [Hh _]. intros ->. apply Hh, elem_of_app. right. left. }
  destruct (dlist_head_next _ _ _ Hd) as (q & Hq & Hnx). destruct (dlist_head_prev _ _ _ Hd) as (p & Hp & Hpv).
  unfold list_is_singular. rewrite (list_empty_ok _ _ _ Hd). cbn [obind].
  rewrite bool_decide_eq_false_2 by (by destruct l1). rewrite (get_next_ok _ _ _ Hnx), (get_prev_ok _ _ _ Hpv). cbn [obind].
  destruct (Z.eqb_spec e h) as [|_]; [done|].
  replace ((q =? p) && (negb (q =? e) && negb (h =? e))) with false; [done|]. symmetry.
  destruct (Z.eqb_spec q e) as [|Hqe]; [by rewrite andb_false_r|].
  destruct (Z.eqb_spec q p) as [->|]; [|done]. exfalso.
  (* [q] is the first element and [p] the last of a list in which [e] is another one *)
  destruct Hd as [Hnd _]. apply NoDup_cons in Hnd as [_ Hnd]. destruct l1 as [|x l1]; simpl in Hq; simplify_eq.
  apply NoDup_cons in Hnd as [Hno _]. apply Hno. cbn [app] in Hp. rewrite !last_cons in Hp.
  destruct (last (l1 ++ e :: l2)) as [z|] eqn:E; [|apply last_None in E; by destruct l1].
  simplify_eq. by apply last_in.
Qed.

Lemma list_splice_ok s h xs l ys :
  dlist s h xs -> dlist s l ys -> (forall x, x ∈ l :: ys -> x ∉ h :: xs) ->
  exists s', list_splice s l h = Ok s' /\ dlist s' h (ys ++ xs) /\ touches s s' (h :: ys ++ xs).
Proof.
  intros Hd Hl Hdis. unfold list_splice. rewrite (list_empty_ok _ _ _ Hl). cbn [obind].
  case_bool_decide as Hne; [subst; by exists s|].
  destruct (dlist_head_next _ _ _ Hd) as (q & Hq & Hnx). rewrite (get_next_ok _ _ _ Hnx). cbn [obind].
  by apply (dlist_splice s h [] xs l ys h q).
Qed.

Lemma list_splice_tail_ok s h xs l ys :
  dlist s h xs -> dlist s l ys -> (forall x, x ∈ l :: ys -> x ∉ h :: xs) ->
  exists s', list_splice_tail s l h = Ok s' /\ dlist s' h (xs ++ ys) /\ touches s s' (h :: xs ++ ys).
Proof.
  intros Hd Hl Hdis. unfold list_splice_tail. rewrite (list_empty_ok _ _ _ Hl). cbn [obind].
  case_bool_decide as Hne; [subst; exists s; by rewrite app_nil_r|].
  destruct (dlist_head_prev _ _ _ Hd) as (p & Hp & Hpv). rewrite (get_prev_ok _ _ _ Hpv). cbn [obind].
  destruct (dlist_splice s h xs [] l ys p h) as (s' & H1 & H2 & H3); try done; [by rewrite app_nil_r..|].
  rewrite app_nil_r in *. eauto.
Qed.

(** The variants that leave the source empty: the same splice, then a new head. *)
Lemma splice_then_init (f : store -> Z -> Z -> outcome store) s h zs l ys :
  (exists s', f s l h = Ok s' /\ dlist s' h zs /\ touches s s' (h :: zs)) ->
  dlist s l ys -> (l ∉ h :: zs) ->
  exists s', (let! s := f s l h in INIT_LIST_HEAD s l) = Ok s' /\ dlist s' h zs /\ dlist s' l [] /\ touches s s' (l :: h :: zs).
Proof.
  intros (s1 & -> & H1 & T1) Hl Hno. cbn [obind].
  destruct (INIT_LIST_HEAD_ok s1 l) as (s2 & -> & H2 & T2).
  { rewrite (proj1 T1). apply (dlist_dom s l ys l Hl). left. }
  exists s2. split_and!; try done.
  - eapply dlist_frame; [exact H1|exact T2|]. intros x Hx ->%list_elem_of_singleton. done.
  - apply (touches_trans _ s1); [eapply touches_mono; [exact T1|]; intros x Hx; by right|].
    eapply touches_one; [exact T2|left].
Qed.

Lemma list_splice_init_ok s h xs l ys :
  dlist s h xs -> dlist s l ys -> (forall x, x ∈ l :: ys -> x ∉ h :: xs) ->
  exists s', list_splice_init s l h = Ok s' /\ dlist s' h (ys ++ xs) /\ dlist s' l [] /\ touches s s' (l :: h :: ys ++ xs).
Proof.
  intros Hd Hl Hdis. assert (Hno : l ∉ h :: ys ++ xs).
  { specialize (Hdis l (list_elem_of_here l ys)). destruct Hl as [Hnd _]. apply NoDup_cons in Hnd as [Hnd _].
    rewrite elem_of_cons, elem_of_app in *. tauto. }
  destruct (splice_then_init list_splice s h (ys ++ xs) l ys (list_splice_ok s h xs l ys Hd Hl Hdis) Hl Hno)
    as (s' & Hs & H). unfold list_splice_init, list_splice in *. rewrite (list_empty_ok _ _ _ Hl) in *. cbn [obind] in *.
  case_bool_decide as Hne; [subst; exists s; split_and!; try done; apply touches_refl|].
  exists s'. split; [|exact H]. by rewrite obind_assoc in Hs.
Qed.

Lemma list_splice_tail_init_ok s h xs l ys :
  dlist s h xs -> dlist s l ys -> (forall x, x ∈ l :: ys -> x ∉ h :: xs) ->
  exists s', list_splice_tail_init s l h = Ok s' /\ dlist s' h (xs ++ ys) /\ dlist s' l [] /\ touches s s' (l :: h :: xs ++ ys).
Proof.
  intros Hd Hl Hdis. assert (Hno : l ∉ h :: xs ++ ys).
  { specialize (Hdis l (list_elem_of_here l ys)). destruct Hl as [Hnd _]. apply NoDup_cons in Hnd as [Hnd _].
    rewrite elem_of_cons, elem_of_app in *. tauto. }
  destruct (splice_then_init list_splice_tail s h (xs ++ ys) l ys (list_splice_tail_ok s h xs l ys Hd Hl Hdis) Hl Hno)
    as (s' & Hs & H). unfold list_splice_tail_init, list_splice_tail in *. rewrite (list_empty_ok _ _ _ Hl) in *. cbn [obind] in *.
  case_bool_decide as Hne; [subst; exists s; rewrite app_nil_r; split_and!; try done; apply touches_refl|].
  exists s'. split; [|exact H]. by rewrite obind_assoc in Hs.
Qed.

(** ** Hash lists as lists *)

(** The cell [c] leads to the nodes [xs]. *)
Fixpoint chain (s : hstore) (c : Z) (xs : list Z) : Prop :=
  match xs with
  | [] => cells s !! c = Some 0
  | x :: xs => cells s !! c = Some x /\ pprevs s !! x = Some c /\ chain s x xs
  end.

Definition hlist (s : hstore) (h : Z) (xs : list Z) : Prop := NoDup (h :: xs) /\ (0 ∉ xs) /\ chain s h xs.

(** The cell at the end of a part of the list. *)
Definition end_of (c : Z) (xs : list Z) : Z := default c (last xs).

Fixpoint hsegment (s : hstore) (c : Z) (xs : list Z) : Prop :=
  match xs with
  | [] => True
  | x :: xs => cells s !! c = Some x /\ pprevs s !! x = Some c /\ hsegment s x xs
  end.

Lemma end_of_cons c x xs : end_of c (x :: xs) = end_of x xs.
Proof. unfold end_of. destruct xs; [done|]. simpl. by destruct (last (z :: xs)) eqn:E; [|apply last_None in E]. Qed.

Lemma chain_app s c xs ys : chain s c (xs ++ ys) <-> hsegment s c xs /\ chain s (end_of c xs) ys.
Proof.
  revert c. induction xs as [|x xs IH]; intros c; [simpl; tauto|].
  rewrite end_of_cons. cbn [app chain hsegment]. rewrite IH. tauto.
Qed.

Lemma end_of_in c xs : end_of c xs ∈ c :: xs.
Proof. unfold end_of. destruct (last xs) eqn:E; simpl; [right; by apply last_in|left]. Qed.

Lemma chain_frame s s' c xs :
  chain s c xs -> (forall x, x ∈ c :: xs -> cells s' !! x = cells s !! x) ->
  (forall x, x ∈ xs -> pprevs s' !! x = pprevs s !! x) -> chain s' c xs.
Proof.
  revert c. induction xs as [|x xs IH]; intros c; simpl; intros H Hc Hp; [rewrite Hc; [done|left]|].
  destruct H as (H1 & H2 & H3). split_and!; [rewrite Hc; [done|left]|rewrite Hp; [done|left]|].
  apply IH; [done|intros y Hy; apply Hc; by right|intros y Hy; apply Hp; by right].
Qed.

Lemma segment_frame s s' c xs :
  hsegment s c xs -> (forall x, x ∈ c :: xs -> x <> end_of c xs -> cells s' !! x = cells s !! x) ->
  (forall x, x ∈ xs -> pprevs s' !! x = pprevs s !! x) -> NoDup (c :: xs) -> hsegment s' c xs.
Proof.
  revert c. induction xs as [|x xs IH]; intros c; cbn [hsegment]; [done|]. intros (H1 & H2 & H3) Hc Hp Hnd.
  rewrite end_of_cons in Hc. apply NoDup_cons in Hnd as [Hno Hnd].
  split_and!; [rewrite Hc; [done|left|]|rewrite Hp; [done|left]|].
  - intros ->. apply Hno, end_of_in.
  - apply IH; [done|intros y Hy; apply Hc; by right|intros y Hy; apply Hp; by right|done].
Qed.

Lemma set_cell_eq s a v w : cells s !! a = Some w -> set_cell s a v = Ok (MkHs (<[a := v]> (cells s)) (pprevs s)).
Proof. intros H. unfold set_cell. by rewrite H. Qed.

Lemma set_pprev_eq s a v w : pprevs s !! a = Some w -> set_pprev s a v = Ok (MkHs (cells s) (<[a := v]> (pprevs s))).
Proof. intros H. unfold set_pprev. by rewrite H. Qed.

(** Pieces of a list with [n] inside or between. *)
Lemma pieces (h : Z) l1 n l2 : NoDup (h :: l1 ++ n :: l2) ->
  NoDup (h :: l1) /\ (n ∉ h :: l1) /\ (n ∉ l2) /\ NoDup l2 /\ forall x, x ∈ h :: l1 -> x ∉ l2.
Proof.
  change (h :: l1 ++ n :: l2) with ((h :: l1) ++ n :: l2). intros (H1 & H2 & H3)%NoDup_app.
  apply NoDup_cons in H3 as [H3 H4]. split_and!; try done; [intros Hn; apply (H2 n Hn); left|].
  intros x Hx Hx2. apply (H2 x Hx). by right.
Qed.

Lemma get_cell_eq s a v : cells s !! a = Some v -> get_cell s a = Ok v.
Proof. intros H. unfold get_cell. by rewrite H. Qed.

Lemma get_pprev_eq s a v : pprevs s !! a = Some v -> get_pprev s a = Ok v.
Proof. intros H. unfold get_pprev. by rewrite H. Qed.

(** The first cell of a chain, and its first node's way back. *)
Lemma chain_cell s c xs : chain s c xs -> cells s !! c = Some (default 0 (head xs)).
Proof. destruct xs; simpl; tauto. Qed.

Lemma chain_node s c xs x : chain s c xs -> x ∈ xs -> is_Some (cells s !! x) /\ is_Some (pprevs s !! x).
Proof.
  revert c. induction xs as [|y xs IH]; intros c; [by intros _ ?%not_elem_of_nil|].
  intros (_ & H2 & H3) [->|Hx]%elem_of_cons; [|by eapply IH].
  split; [exists (default 0 (head xs)); by apply chain_cell|by exists c].
Qed.

(** A chain whose first node gets another way back. *)
Lemma chain_reseat s s' c c' xs :
  chain s c xs -> cells s' !! c' = Some (default 0 (head xs)) ->
  (forall x, x ∈ xs -> cells s' !! x = cells s !! x) ->
  (forall x, x ∈ xs -> pprevs s' !! x = if decide (head xs = Some x) then Some c' else pprevs s !! x) ->
  NoDup xs -> chain s' c' xs.
Proof.
  destruct xs as [|x xs]; simpl; [done|]. intros (H1 & H2 & H3) Hc Hcs Hp Hnd. apply NoDup_cons in Hnd as [Hno _].
  split_and!; [done|rewrite Hp, decide_True; [done|done|left]|].
  apply (chain_frame s); [done|intros y Hy; by apply Hcs|].
  intros y Hy. rewrite Hp, decide_False; [done|congruence|by right].
Qed.

Lemma __hlist_del_ok s h l1 n l2 :
  hlist s h (l1 ++ n :: l2) ->
  exists s', __hlist_del s n = Ok s' /\ hlist s' h (l1 ++ l2) /\ is_Some (cells s' !! n) /\ is_Some (pprevs s' !! n) /\
    forall x, x ∉ h :: l1 ++ n :: l2 -> cells s' !! x = cells s !! x /\ pprevs s' !! x = pprevs s !! x.
Proof.
  intros (Hnd & H0 & Hch). destruct (pieces _ _ _ _ Hnd) as (N1 & Hn1 & Hn2 & N2 & Hd).
  apply chain_app in Hch as [Hseg (Hc & Hp & Hch2)]. set (c := end_of h l1) in *.
  assert (Hcin : c ∈ h :: l1) by apply end_of_in.
  set (x2 := default 0 (head l2)). pose proof (chain_cell _ _ _ Hch2) as Hcn. fold x2 in Hcn.
  set (s1 := MkHs (<[c := x2]> (cells s)) (pprevs s)).
  set (s2 := match head l2 with Some y => MkHs (cells s1) (<[y := c]> (pprevs s1)) | None => s1 end).
  assert (Hs : __hlist_del s n = Ok s2).
  { unfold __hlist_del. rewrite (get_cell_eq _ _ _ Hcn), (get_pprev_eq _ _ _ Hp). cbn [obind].
    rewrite (set_cell_eq _ _ _ _ Hc). cbn [obind]. fold s1. unfold x2, s2. destruct l2 as [|y l2]; [done|]. simpl.
    rewrite (proj2 (Z.eqb_neq y 0)) by (intros ->; apply H0, elem_of_app; right; right; left).
    cbn. destruct Hch2 as (_ & Hy & _). by rewrite (set_pprev_eq s1 y c n Hy). }
  assert (Hcells : forall x, cells s2 !! x = if decide (x = c) then Some x2 else cells s !! x).
  { intros x. replace (cells s2) with (<[c := x2]> (cells s)) by (unfold s2; by destruct (head l2)).
    case_decide; subst; [apply lookup_insert_eq|by apply lookup_insert_ne]. }
  assert (Hpp : forall x, pprevs s2 !! x = if decide (head l2 = Some x) then Some c else pprevs s !! x).
  { intros x. unfold s2. destruct (head l2) as [y|]; cbn [pprevs]; case_decide as E; try done.
    - injection E as ->. apply lookup_insert_eq.
    - apply lookup_insert_ne. congruence. }
  assert (Hnc : n <> c) by (intros ->; done).
  exists s2. split; [done|]. split; [|split; [|split]].
  - split_and!.
    + change (h :: l1 ++ l2) with ((h :: l1) ++ l2). by apply NoDup_app.
    + revert H0. rewrite !elem_of_app, elem_of_cons. tauto.
    + apply chain_app. fold c. split.
      * apply (segment_frame s); [done|..|done].
        -- intros x Hx Hxc. rewrite Hcells, decide_False; done.
        -- intros x Hx. rewrite Hpp, decide_False; [done|]. intros E. apply (Hd x); [by right|by apply head_in].
      * apply (chain_reseat s s2 n c); [done|by rewrite Hcells, decide_True|..|done].
        -- intros x Hx. rewrite Hcells, decide_False; [done|]. intros ->. by apply (Hd c).
        -- intros x Hx. apply Hpp.
  - rewrite Hcells, decide_False by done. by exists x2.
  - rewrite Hpp, decide_False; [by exists c|]. intros E. by apply Hn2, head_in.
  - intros x Hx. rewrite elem_of_cons, elem_of_app, elem_of_cons in Hx. rewrite elem_of_cons in Hcin.
    rewrite Hcells, Hpp, !decide_False; [done| |].
    + intros E. apply Hx. right. right. right. by apply head_in.
    + intros ->. tauto.
Qed.

(** Insertion of [n] in front of what the cell at the end of [l1] leads to. *)
Lemma hlist_insert s s' h l1 n l2 :
  hlist s h (l1 ++ l2) -> n ∉ h :: l1 ++ l2 -> n <> 0 ->
  (forall x, cells s' !! x = if decide (x = end_of h l1) then Some n else if decide (x = n) then Some (default 0 (head l2)) else cells s !! x) ->
  (forall x, pprevs s' !! x = if decide (x = n) then Some (end_of h l1) else if decide (head l2 = Some x) then Some n else pprevs s !! x) ->
  hlist s' h (l1 ++ n :: l2).
Proof.
  intros (Hnd & H0 & Hch) Hnew Hn0 Hcells Hpp. set (c := end_of h l1) in *.
  assert (Hcin : c ∈ h :: l1) by apply end_of_in.
  rewrite elem_of_cons, elem_of_app in Hnew. apply chain_app in Hch as [Hseg Hch2]. fold c in Hch2.
  assert (Hnc : n <> c) by (intros ->; rewrite elem_of_cons in Hcin; tauto).
  change (h :: l1 ++ l2) with ((h :: l1) ++ l2) in Hnd. pose proof Hnd as (N1 & Hd & N2)%NoDup_app.
  split_and!.
  - rewrite <- (Permutation_middle l1 l2 n), <- Permutation_swap, NoDup_cons. split; [|done].
    rewrite elem_of_cons, elem_of_app. tauto.
  - rewrite elem_of_app, elem_of_cons. rewrite elem_of_app in H0. intros [?|[?|?]]; [tauto|congruence|tauto].
  - apply chain_app. fold c. split.
    + apply (segment_frame s); [done|..|done].
      * intros x Hx Hxc. rewrite Hcells, !decide_False; [done| |done]. intros ->. rewrite elem_of_cons in Hx. tauto.
      * intros x Hx. rewrite Hpp, !decide_False; [done| |].
        -- intros E. apply (Hd x); [by right|by apply head_in].
        -- intros ->. tauto.
    + split_and!; [by rewrite Hcells, decide_True|by rewrite Hpp, decide_True|].
      apply (chain_reseat s s' c n); [done|by rewrite Hcells, decide_False, decide_True by done|..|done].
      * intros x Hx. rewrite Hcells, !decide_False; [done|intros ->; tauto|intros ->; by apply (Hd c)].
      * intros x Hx. rewrite Hpp, decide_False; [done|]. intros ->. tauto.
Qed.

Lemma end_of_snoc c xs x : end_of c (xs ++ [x]) = x.
Proof. unfold end_of. by rewrite last_snoc. Qed.

(** Case analysis on the updates of a store of cells. *)
Ltac cell_updates := intros x; cbn [cells pprevs]; repeat case_decide; simplify_eq;
  rewrite ?lookup_insert_eq; try done; repeat (rewrite lookup_insert_ne by congruence); rewrite ?lookup_insert_eq; try done.

Lemma hlist_add_head_ok s h xs n :
  hlist s h xs -> n ∉ h :: xs -> n <> 0 -> is_Some (cells s !! n) -> is_Some (pprevs s !! n) ->
  exists s', hlist_add_head s n h = Ok s' /\ hlist s' h (n :: xs).
Proof.
  intros Hl Hnew Hn0 [vc Hvc] [vp Hvp]. pose proof Hl as (Hnd & H0 & Hch).
  pose proof (chain_cell _ _ _ Hch) as Hh. assert (Hnh : n <> h) by (intros ->; apply Hnew; left).
  unfold hlist_add_head. rewrite (get_cell_eq _ _ _ Hh). cbn [obind]. rewrite (set_cell_eq _ _ _ _ Hvc). cbn [obind].
  destruct xs as [|y xs].
  - change (default 0 (head (@nil Z))) with 0 in *. cbn [negb Z.eqb obind]. rewrite (set_cell_eq _ h n 0) by (cbn [cells]; by rewrite lookup_insert_ne).
    cbn [obind]. rewrite (set_pprev_eq _ n h vp) by done. eexists. split; [reflexivity|].
    apply (hlist_insert s _ h [] n []); try done; cbn [end_of last default head]; cell_updates.
  - destruct Hch as (_ & Hy & _). change (default 0 (head (y :: xs))) with y in *.
    assert (Hy0 : y <> 0) by (intros ->; apply H0; left). assert (Hyn : y <> n) by (intros ->; apply Hnew; right; left).
    rewrite (proj2 (Z.eqb_neq y 0)) by done. cbn [negb]. rewrite (set_pprev_eq _ y n h) by done. cbn [obind].
    rewrite (set_cell_eq _ h n y) by (cbn [cells]; by rewrite lookup_insert_ne). cbn [obind].
    rewrite (set_pprev_eq _ n h vp) by (cbn [pprevs]; by rewrite lookup_insert_ne). eexists. split; [reflexivity|].
    apply (hlist_insert s _ h [] n (y :: xs)); try done; cbn [end_of last default head]; cell_updates.
Qed.

Lemma hlist_add_before_ok s h l1 next l2 n :
  hlist s h (l1 ++ next :: l2) -> n ∉ h :: l1 ++ next :: l2 -> n <> 0 -> is_Some (cells s !! n) -> is_Some (pprevs s !! n) ->
  exists s', hlist_add_before s n next = Ok s' /\ hlist s' h (l1 ++ n :: next :: l2).
Proof.
  intros Hl Hnew Hn0 [vc Hvc] [vp Hvp]. pose proof Hl as (Hnd & H0 & Hch).
  apply chain_app in Hch as [_ (Hc & Hp & _)]. set (c := end_of h l1) in *.
  assert (Hcin : c ∈ h :: l1) by apply end_of_in. rewrite !elem_of_cons, elem_of_app, elem_of_cons in *.
  assert (Hnc : n <> c) by (intros ->; tauto). assert (Hnn : n <> next) by (intros ->; tauto).
  unfold hlist_add_before. rewrite (get_pprev_eq _ _ _ Hp). cbn [obind]. rewrite (set_pprev_eq _ n c vp) by done. cbn [obind].
  rewrite (set_cell_eq _ n next vc) by done. cbn [obind].
  rewrite (set_pprev_eq _ next n c) by (cbn [pprevs]; by rewrite lookup_insert_ne). cbn [obind].
  rewrite (get_pprev_eq _ n c) by (cbn [pprevs]; by rewrite lookup_insert_ne, lookup_insert_eq). cbn [obind].
  rewrite (set_cell_eq _ c n next) by (cbn [cells]; by rewrite lookup_insert_ne). eexists. split; [reflexivity|].
  apply (hlist_insert s _ h l1 n (next :: l2)); [done|rewrite elem_of_cons, elem_of_app, elem_of_cons; tauto|done|..];
    fold c; cbn [head default]; cell_updates.
Qed.

Lemma hlist_add_after_ok s h l1 n l2 next :
  hlist s h (l1 ++ n :: l2) -> next ∉ h :: l1 ++ n :: l2 -> next <> 0 -> is_Some (cells s !! next) -> is_Some (pprevs s !! next) ->
  exists s', hlist_add_after s n next = Ok s' /\ hlist s' h (l1 ++ n :: next :: l2).
Proof.
  intros Hl Hnew Hn0 [vc Hvc] [vp Hvp]. pose proof Hl as (Hnd & H0 & Hch).
  apply chain_app in Hch as [_ (_ & _ & Hch2)]. pose proof (chain_cell _ _ _ Hch2) as Hn.
  assert (Enm : forall l, l1 ++ n :: l = (l1 ++ [n]) ++ l) by (intros l; by rewrite <- app_assoc).
  rewrite (Enm l2) in Hl. rewrite (Enm (next :: l2)).
  assert (Hnn : next <> n) by (intros ->; apply Hnew; rewrite elem_of_cons, elem_of_app, elem_of_cons; tauto).
  unfold hlist_add_after. rewrite (get_cell_eq _ _ _ Hn). cbn [obind]. rewrite (set_cell_eq _ next _ vc) by done. cbn [obind].
  rewrite (set_cell_eq _ n next (default 0 (head l2))) by (cbn [cells]; by rewrite lookup_insert_ne). cbn [obind].
  rewrite (set_pprev_eq _ next n vp) by done. cbn [obind].
  rewrite (get_cell_eq _ next (default 0 (head l2))) by (cbn [cells]; by rewrite lookup_insert_ne, lookup_insert_eq). cbn [obind].
  destruct l2 as [|y l2].
  - change (default 0 (head (@nil Z))) with 0 in *. cbn [negb Z.eqb]. eexists. split; [reflexivity|].
    apply (hlist_insert s _ h (l1 ++ [n]) next []); [done|by rewrite <- Enm|done|..]; rewrite end_of_snoc; cbn [head default]; cell_updates.
  - destruct Hch2 as (_ & Hy & _). change (default 0 (head (y :: l2))) with y in *.
    assert (Hy0 : y <> 0) by (intros ->; apply H0, elem_of_app; right; right; left).
    assert (Hyn : y <> next) by (intros ->; apply Hnew; rewrite !elem_of_cons, elem_of_app, !elem_of_cons; tauto).
    rewrite (proj2 (Z.eqb_neq y 0)) by done. cbn [negb].
    rewrite (set_pprev_eq _ y next n) by (cbn [pprevs]; by rewrite lookup_insert_ne). eexists. split; [reflexivity|].
    apply (hlist_insert s _ h (l1 ++ [n]) next (y :: l2)); [done|by rewrite <- Enm|done|..]; rewrite end_of_snoc; cbn [head default]; cell_updates.
Qed.

Lemma hlist_frame s s' h xs : hlist s h xs ->
  (forall x, x ∈ h :: xs -> cells s' !! x = cells s !! x) -> (forall x, x ∈ xs -> pprevs s' !! x = pprevs s !! x) -> hlist s' h xs.
Proof. intros (H1 & H2 & H3) Hc Hp. split_and!; try done. by eapply chain_frame. Qed.

Lemma hlist_del_ok s h l1 n l2 :
  hlist s h (l1 ++ n :: l2) -> exists s', hlist_del s n = Ok s' /\ hlist s' h (l1 ++ l2).
Proof.
  intros Hl. pose proof Hl as (Hnd & _ & _). destruct (pieces _ _ _ _ Hnd) as (_ & Hn1 & Hn2 & _ & _).
  destruct (__hlist_del_ok s h l1 n l2 Hl) as (s1 & E & H1 & [vc Hvc] & [vp Hvp] & _).
  unfold hlist_del. rewrite E. cbn [obind]. rewrite (set_cell_eq _ n _ vc) by done. cbn [obind].
  rewrite (set_pprev_eq _ n _ vp) by done. eexists. split; [reflexivity|].
  rewrite elem_of_cons in Hn1.
  apply (hlist_frame s1); [done|..]; intros x Hx; cbn [cells pprevs]; rewrite lookup_insert_ne; try done; intros <-;
    rewrite ?elem_of_cons, elem_of_app in Hx; tauto.
Qed.

Lemma hlist_move_list_ok s old new xs :
  hlist s old xs -> new ∉ old :: xs -> is_Some (cells s !! new) ->
  exists s', hlist_move_list s old new = Ok s' /\ hlist s' new xs /\ hlist s' old [].
Proof.
  intros (Hnd & H0 & Hch) Hnew [vn Hvn]. rewrite elem_of_cons in Hnew. pose proof (chain_cell _ _ _ Hch) as Ho.
  apply NoDup_cons in Hnd as [Hold Hnd]. assert (Hno : new <> old) by (intros ->; tauto).
  unfold hlist_move_list. rewrite (get_cell_eq _ _ _ Ho). cbn [obind]. rewrite (set_cell_eq _ new _ vn) by done. cbn [obind].
  rewrite (get_cell_eq _ new (default 0 (head xs))) by (cbn [cells]; by rewrite lookup_insert_eq). cbn [obind].
  destruct xs as [|y xs].
  - change (default 0 (head (@nil Z))) with 0 in *. cbn [negb Z.eqb obind]. rewrite (set_cell_eq _ old 0 0) by (cbn [cells]; by rewrite lookup_insert_ne).
    eexists. split; [reflexivity|]. split; (split_and!; [apply NoDup_singleton|apply not_elem_of_nil|cbn [chain cells]]).
    + by rewrite lookup_insert_ne, lookup_insert_eq by congruence.
    + by rewrite lookup_insert_eq.
  - pose proof Hch as (_ & Hy & _). change (default 0 (head (y :: xs))) with y in *.
    rewrite (proj2 (Z.eqb_neq y 0)) by (intros ->; apply H0; left). cbn [negb]. rewrite (set_pprev_eq _ y new old) by done.
    cbn [obind]. rewrite (set_cell_eq _ old 0 y) by (cbn [cells]; by rewrite lookup_insert_ne). eexists. split; [reflexivity|]. split.
    + split_and!; [by apply NoDup_cons; split; [tauto|]|done|].
      apply (chain_reseat s _ old new); [done|cbn [cells head default]; by rewrite lookup_insert_ne, lookup_insert_eq by congruence|..|done].
      * intros x Hx. cbn [cells]. rewrite !lookup_insert_ne; [done|intros <-; tauto|intros <-; tauto].
      * cbn [head]. intros x Hx. cbn [pprevs]. case_decide as E; [injection E as ->; apply lookup_insert_eq|apply lookup_insert_ne; congruence].
    + split_and!; [apply NoDup_singleton|apply not_elem_of_nil|]. cbn [chain cells]. by rewrite lookup_insert_eq.
Qed.

Module ListOpsSpec.

(** C29: cutting a list and splicing it back restores it.  [list_cut_position] moves
    the elements up to and including [e] to the other head, in order, and leaves the
    rest; [list_splice_init] then gives back the list there was, with the other head
    empty, and no node outside both lists was touched. *)
Theorem cut_then_splice s l h l1 e l2 :
  dlist s h (l1 ++ e :: l2) -> l ∈ dom s -> l ∉ h :: l1 ++ e :: l2 ->
  exists s1 s2, list_cut_position s l h e = Ok s1 /\ dlist s1 h l2 /\ dlist s1 l (l1 ++ [e]) /\
    list_splice_init s1 l h = Ok s2 /\ dlist s2 h (l1 ++ e :: l2) /\ dlist s2 l [] /\
    touches s s2 (l :: h :: l1 ++ e :: l2).
Proof.
  intros Hd Dl Hnew. destruct (list_cut_ok s l h l1 e l2 Hd Dl Hnew) as (s1 & H1 & H2 & H3 & T1).
  destruct (list_splice_init_ok s1 h l2 l (l1 ++ [e]) H2 H3) as (s2 & H4 & H5 & H6 & T2).
  { destruct Hd as [Hnd _]. destruct (pieces _ _ _ _ Hnd) as (_ & He1 & He2 & _ & Hdis).
    apply NoDup_cons in Hnd as [Hh _]. intros x Hx. rewrite !elem_of_cons, !elem_of_app, list_elem_of_singleton, ?elem_of_cons in *.
    destruct Hx as [->|[Hx| ->]]; [tauto| |tauto]. intros [->|Hx2]; [tauto|].
    apply (Hdis x); [by right|done]. }
  rewrite <- app_assoc in H5, T2. exists s1, s2. split_and!; try done. by apply (touches_trans _ s1).
Qed.

Lemma cut_then_splice_witness : exists s1 s2,
  list_cut_position KListSpec.sample_store 60 10 20 = Ok s1 /\ dlist s1 10 [30] /\ dlist s1 60 [20] /\
  list_splice_init s1 60 10 = Ok s2 /\ dlist s2 10 [20; 30] /\ dlist s2 60 [] /\ touches KListSpec.sample_store s2 [60; 10; 20; 30].
Proof.
  apply (cut_then_splice KListSpec.sample_store 60 10 [] 20 [30]).
  - split; [|vm_compute; intuition reflexivity]. apply (bool_decide_unpack _). reflexivity.
  - apply elem_of_dom. exists (MkNode 60 60). reflexivity.
  - apply (bool_decide_unpack _). reflexivity.
Defined.

(** The hash list operations against lists of nodes. *)
Lemma hlist_refines s h l1 n l2 m :
  hlist s h (l1 ++ n :: l2) -> m ∉ h :: l1 ++ n :: l2 -> m <> 0 -> is_Some (cells s !! m) -> is_Some (pprevs s !! m) ->
  (exists s', hlist_del s n = Ok s' /\ hlist s' h (l1 ++ l2)) /\
  (exists s', hlist_add_head s m h = Ok s' /\ hlist s' h (m :: l1 ++ n :: l2)) /\
  (exists s', hlist_add_before s m n = Ok s' /\ hlist s' h (l1 ++ m :: n :: l2)) /\
  (exists s', hlist_add_after s n m = Ok s' /\ hlist s' h (l1 ++ n :: m :: l2)).
Proof.
  intros Hl Hm Hm0 Hc Hp. split_and!; [by apply hlist_del_ok|by apply hlist_add_head_ok|by apply hlist_add_before_ok|by apply hlist_add_after_ok].
Qed.
End ListOpsSpec.
