(* ===== verification/Libc.v ===== *)
(** * Memory and string routines (os/lib/libc/k_mem*.c, k_str*.c)

    Memory is a finite map from addresses to bytes; an access outside its
    domain is a [Fault].  The file proves the word-at-a-time [k_memset] equal
    to a byte loop, and the copy and string routines correct on the bytes they
    read and write.  [char] is unsigned on this target. *)

From Stdlib Require Import ZArith Lia Bool.
From stdpp Require Import base numbers list gmap.
From S2P Require Import Prelude.

Abbreviation memory := (gmap Z Z).

Definition load8 (m : memory) (a : Z) : outcome Z :=
  match m !! a with Some v => Ok v | None => Fault end.

Definition store8 (m : memory) (a v : Z) : outcome memory :=
  match m !! a with Some _ => Ok (<[a := u8 v]> m) | None => Fault end.

(** Little-endian stores of 2, 4 and 8 bytes. *)
Definition store16 (m : memory) (a v : Z) : outcome memory :=
  let! m := store8 m a v in store8 m (a + 1) (Z.shiftr v 8).

Definition store32 (m : memory) (a v : Z) : outcome memory :=
  let! m := store16 m a v in store16 m (a + 2) (Z.shiftr v 16).

Definition store64 (m : memory) (a v : Z) : outcome memory :=
  let! m := store32 m a v in store32 m (a + 4) (Z.shiftr v 32).

(** ** k_memset *)

(** The loop that writes 64 bits at a time, and what is left afterwards. *)
Fixpoint memset64_loop (fuel : nat) (m : memory) (addr val64 n : Z) : outcome (memory * Z * Z) :=
  match fuel with
  | O => Diverge
  | S fuel =>
      if 8 <=? n then
        let! m := store64 m addr val64 in
        memset64_loop fuel m (u64 (addr + 8)) val64 (u64 (n - 8))
      else Ok (m, addr, n)
  end.

Definition k_memset (m : memory) (s c n : Z) : outcome memory :=
  let addr := s in
  let val16 := u16 (Z.lor (s32 (Z.shiftl (u16 c) 8)) (u16 c)) in
  let val32 := Z.lor (u32 (Z.shiftl val16 16)) val16 in
  let val64 := Z.lor (u64 (Z.shiftl val32 32)) val32 in
  if 0 <? n then
    let! (m, addr, n) :=
      (if negb (Z.land addr 1 =? 0) then
         let! m := store8 m addr c in Ok (m, u64 (addr + 1), u64 (n - 1))
       else Ok (m, addr, n)) in
    let! (m, addr, n) :=
      (if 2 <=? n then
         let! (m, addr, n) :=
           (if negb (Z.land addr 3 =? 0) then
              let! m := store16 m addr val16 in Ok (m, u64 (addr + 2), u64 (n - 2))
            else Ok (m, addr, n)) in
         if 4 <=? n then
           let! (m, addr, n) :=
             (if negb (Z.land addr 7 =? 0) then
                let! m := store32 m addr val32 in Ok (m, u64 (addr + 4), u64 (n - 4))
              else Ok (m, addr, n)) in
           memset64_loop (Z.to_nat (n / 8) + 1) m addr val64 n
         else Ok (m, addr, n)
       else Ok (m, addr, n)) in
    let! (m, addr, n) :=
      (if 4 <=? n then
         let! m := store32 m addr val32 in Ok (m, u64 (addr + 4), u64 (n - 4))
       else Ok (m, addr, n)) in
    let! (m, addr, n) :=
      (if 2 <=? n then
         let! m := store16 m addr val16 in Ok (m, u64 (addr + 2), u64 (n - 2))
       else Ok (m, addr, n)) in
    if 1 <=? n then store8 m addr c else Ok m
  else Ok m.

(** ** k_memcpy.c *)

Fixpoint memcpy_loop (n : nat) (m : memory) (pout pin : Z) : outcome memory :=
  match n with
  | O => Ok m
  | S n =>
      let! v := load8 m pin in
      let! m := store8 m pout v in
      memcpy_loop n m (pout + 1) (pin + 1)
  end.

Definition k_memcpy (m : memory) (dest src n : Z) : outcome memory :=
  memcpy_loop (Z.to_nat n) m dest src.

Fixpoint k_memcmp (n : nat) (m : memory) (l r : Z) : outcome Z :=
  match n with
  | O => Ok 0
  | S n =>
      let! a := load8 m l in
      let! b := load8 m r in
      if a =? b then k_memcmp n m (l + 1) (r + 1) else Ok (a - b)
  end.

(** ** Strings *)

(** The copying loop of [k_strncpy]: [n] bytes of room are left at [dest]. *)
Fixpoint strncpy_copy (n : nat) (m : memory) (dest src : Z) : outcome (memory * Z * nat) :=
  match n with
  | O => Ok (m, dest, O)
  | S n =>
      let! v := load8 m src in
      let! m := store8 m dest v in
      if v =? 0 then Ok (m, dest + 1, n) else strncpy_copy n m (dest + 1) (src + 1)
  end.

Fixpoint strncpy_pad (n : nat) (m : memory) (dest : Z) : outcome memory :=
  match n with
  | O => Ok m
  | S n => let! m := store8 m dest 0 in strncpy_pad n m (dest + 1)
  end.

Definition k_strncpy (m : memory) (dest src n : Z) : outcome memory :=
  let! (m, d, k) := strncpy_copy (Z.to_nat n) m dest src in
  strncpy_pad k m d.

Fixpoint k_strcpy (fuel : nat) (m : memory) (dest src : Z) : outcome memory :=
  match fuel with
  | O => Diverge
  | S fuel =>
      let! v := load8 m src in
      let! m := store8 m dest v in
      if v =? 0 then Ok m else k_strcpy fuel m (dest + 1) (src + 1)
  end.

Fixpoint strlen_loop (fuel : nat) (m : memory) (s sc : Z) : outcome Z :=
  match fuel with
  | O => Diverge
  | S fuel =>
      let! v := load8 m sc in
      if v =? 0 then Ok (sc - s) else strlen_loop fuel m s (sc + 1)
  end.

Definition k_strlen (fuel : nat) (m : memory) (s : Z) : outcome Z := strlen_loop fuel m s s.

Fixpoint strnlen_loop (fuel : nat) (m : memory) (s sc maxlen : Z) : outcome Z :=
  match fuel with
  | O => Diverge
  | S fuel =>
      if maxlen =? 0 then Ok (sc - s)
      else
        let! v := load8 m sc in
        if v =? 0 then Ok (sc - s) else strnlen_loop fuel m s (sc + 1) (maxlen - 1)
  end.

Definition k_strnlen (fuel : nat) (m : memory) (s maxlen : Z) : outcome Z := strnlen_loop fuel m s s maxlen.

(** [result] is a [signed char]: the difference is cut to 8 bits. *)
Definition s8 (x : Z) : Z := let y := u8 x in if y <? 128 then y else y - 256.

Fixpoint k_strcmp (fuel : nat) (m : memory) (cs ct : Z) : outcome Z :=
  match fuel with
  | O => Diverge
  | S fuel =>
      let! a := load8 m cs in
      let! b := load8 m ct in
      let result := s8 (a - b) in
      if negb (result =? 0) || (a =? 0) then Ok result
      else k_strcmp fuel m (cs + 1) (ct + 1)
  end.

(** ** The byte loop that [k_memset] abbreviates *)

Fixpoint fill (n : nat) (m : memory) (a c : Z) : outcome memory :=
  match n with
  | O => Ok m
  | S n => let! m := store8 m a c in fill n m (a + 1) c
  end.

Lemma obind_ext {A B} (x : outcome A) (f g : A -> outcome B) :
  (forall a, f a = g a) -> obind x f = obind x g.
Proof. intros H. destruct x; simpl; by rewrite ?H. Qed.

Lemma fill_app n k m a c :
  fill (n + k) m a c = (let! m' := fill n m a c in fill k m' (a + Z.of_nat n) c).
Proof.
  revert m a. induction n as [|n IH]; intros m a.
  - simpl. f_equal. lia.
  - cbn [fill Nat.add]. rewrite obind_assoc. apply obind_ext. intros m'. rewrite IH.
    apply obind_ext. intros m''. f_equal. lia.
Qed.

Lemma store8_u8 m a v v' : u8 v = u8 v' -> store8 m a v = store8 m a v'.
Proof. intros H. unfold store8. by rewrite H. Qed.

(** A word made of equal bytes. *)
Definition bytes_are (k : Z) (v c : Z) : Prop := forall i, 0 <= i < k -> u8 (Z.shiftr v (8 * i)) = u8 c.

Lemma store16_fill m a v c : bytes_are 2 v c -> store16 m a v = fill 2 m a c.
Proof.
  intros H. unfold store16. cbn [fill]. pose proof (H 0 ltac:(lia)) as H0. pose proof (H 1 ltac:(lia)) as H1.
  rewrite Z.shiftr_0_r in H0. rewrite (store8_u8 _ _ v c) by done. apply obind_ext. intros m'.
  rewrite (store8_u8 _ _ (Z.shiftr v 8) c) by done. by destruct (store8 m' (a + 1) c).
Qed.

Lemma bytes_are_half k v c :
  0 < k -> bytes_are (2 * k) v c -> bytes_are k v c /\ bytes_are k (Z.shiftr v (8 * k)) c.
Proof.
  intros Hk H. split; intros i Hi; [apply H; lia|].
  rewrite Z.shiftr_shiftr by lia. replace (8 * k + 8 * i) with (8 * (k + i)) by lia. apply H. lia.
Qed.

Lemma store32_fill m a v c : bytes_are 4 v c -> store32 m a v = fill 4 m a c.
Proof.
  intros H. destruct (bytes_are_half 2 v c) as [H1 H2]; [lia|done|].
  unfold store32. rewrite (store16_fill _ _ _ _ H1). rewrite (fill_app 2 2).
  apply obind_ext. intros m'. by apply store16_fill.
Qed.

Lemma store64_fill m a v c : bytes_are 8 v c -> store64 m a v = fill 8 m a c.
Proof.
  intros H. destruct (bytes_are_half 4 v c) as [H1 H2]; [lia|done|].
  unfold store64. rewrite (store32_fill _ _ _ _ H1). rewrite (fill_app 4 4).
  apply obind_ext. intros m'. by apply store32_fill.
Qed.

(** Doubling a repeated byte pattern. *)
Lemma bytes_are_double k v c :
  0 < k -> 0 <= v < 2 ^ (8 * k) -> bytes_are k v c ->
  bytes_are (2 * k) (Z.lor (Z.shiftl v (8 * k)) v) c.
Proof.
  intros Hk Hv H i Hi. destruct (Z.lt_ge_cases i k).
  - rewrite <- (H i) by lia. unfold u8. apply Z.bits_inj'. intros j Hj.
    rewrite !Z.testbit_mod_pow2 by lia. destruct (Z.ltb_spec j 8); [|done]. simpl.
    rewrite !Z.shiftr_spec, Z.lor_spec, Z.shiftl_spec by lia. by rewrite (Z.testbit_neg_r v) by lia.
  - rewrite <- (H (i - k)) by lia. unfold u8. apply Z.bits_inj'. intros j Hj.
    rewrite !Z.testbit_mod_pow2 by lia. destruct (Z.ltb_spec j 8); [|done]. simpl.
    rewrite !Z.shiftr_spec, Z.lor_spec, Z.shiftl_spec by lia.
    rewrite (testbit_high (8 * k) v (j + 8 * i)) by lia. rewrite orb_false_r. f_equal. lia.
Qed.

Section Memset.
Context (c : Z) (Hc : 0 <= c < 256).
Let val16 := u16 (Z.lor (s32 (Z.shiftl (u16 c) 8)) (u16 c)).
Let val32 := Z.lor (u32 (Z.shiftl val16 16)) val16.
Let val64 := Z.lor (u64 (Z.shiftl val32 32)) val32.

Lemma shl_id w v : 0 <= v < 2 ^ w -> 0 <= w <= 32 -> (Z.shiftl v w) mod 2 ^ (w + w) = Z.shiftl v w.
Proof.
  intros Hv Hw. apply Z.mod_small. rewrite Z.shiftl_mul_pow2, Z.pow_add_r by lia. nia.
Qed.

Lemma memset_values : bytes_are 2 val16 c /\ bytes_are 4 val32 c /\ bytes_are 8 val64 c.
Proof.
  assert (H1 : bytes_are 1 c c) by (intros i Hi; by replace (8 * i) with 0 by lia).
  assert (E16 : val16 = Z.lor (Z.shiftl c 8) c).
  { unfold val16. unfold u16 at 2 3. rewrite Z.mod_small by lia. rewrite s32_id.
    - unfold u16. apply Z.mod_small, (lor_bound 16); [lia| |lia]. rewrite Z.shiftl_mul_pow2 by lia. lia.
    - rewrite Z.shiftl_mul_pow2 by lia. lia. }
  assert (B16 : 0 <= val16 < 2 ^ 16) by (unfold val16, u16; apply Z.mod_pos_bound; lia).
  assert (H2 : bytes_are 2 val16 c) by (rewrite E16; apply (bytes_are_double 1); lia || done).
  assert (E32 : val32 = Z.lor (Z.shiftl val16 16) val16).
  { unfold val32, u32. by rewrite (shl_id 16) by lia. }
  assert (B32 : 0 <= val32 < 2 ^ 32).
  { rewrite E32. apply lor_bound; [lia| |lia]. rewrite Z.shiftl_mul_pow2 by lia. lia. }
  assert (H4 : bytes_are 4 val32 c) by (rewrite E32; apply (bytes_are_double 2); lia || done).
  split; [done|]. split; [done|].
  unfold val64, u64. rewrite (shl_id 32) by lia. apply (bytes_are_double 4); lia || done.
Qed.

Lemma memset64_loop_ok fuel m addr n :
  0 <= addr -> 0 <= n -> addr + n < 2 ^ 64 -> n / 8 < Z.of_nat fuel ->
  memset64_loop fuel m addr val64 n =
    (let! m' := fill (Z.to_nat (8 * (n / 8))) m addr c in Ok (m', addr + 8 * (n / 8), n mod 8)).
Proof.
  destruct memset_values as (_ & _ & H8).
  revert m addr n. induction fuel as [|fuel IH]; intros m addr n Ha Hn He Hf.
  { assert (0 <= n / 8) by (apply Z.div_pos; lia). lia. }
  cbn [memset64_loop]. destruct (Z.leb_spec 8 n).
  - rewrite (store64_fill _ _ _ c H8).
    assert (Hd : n / 8 = (n - 8) / 8 + 1).
    { replace n with (n - 8 + 1 * 8) at 1 by lia. rewrite Z.div_add by lia. done. }
    assert (0 <= (n - 8) / 8) by (apply Z.div_pos; lia).
    replace (Z.to_nat (8 * (n / 8))) with (8 + Z.to_nat (8 * ((n - 8) / 8)))%nat by lia.
    rewrite fill_app, obind_assoc. apply obind_ext. intros m'.
    rewrite !u64_id by lia. rewrite IH by lia. apply obind_ext. intros m''. do 2 f_equal; [f_equal; lia|].
    replace n with (n - 8 + 1 * 8) at 2 by lia. by rewrite Z_mod_plus_full.
  - assert (n / 8 = 0) as -> by (apply Z.div_small; lia). simpl. f_equal. f_equal; [f_equal; lia|].
    rewrite Z.mod_small by lia. done.
Qed.

(** One guarded store of [k] bytes, followed by code that fills the rest. *)
Lemma memset_stage (b : bool) (k : nat) (st : memory -> Z -> outcome memory) m a n
    (cont : memory * Z * Z -> outcome memory) :
  0 <= a -> 0 <= n -> a + n < 2 ^ 64 -> (b = true -> Z.of_nat k <= n) ->
  (forall m a, st m a = fill k m a c) ->
  (forall m' a' n', 0 <= a' -> 0 <= n' -> a' + n' = a + n -> (n' = if b then n - Z.of_nat k else n) ->
     cont (m', a', n') = fill (Z.to_nat n') m' a' c) ->
  obind (if b then let! m := st m a in Ok (m, u64 (a + Z.of_nat k), u64 (n - Z.of_nat k))
         else Ok (m, a, n)) cont = fill (Z.to_nat n) m a c.
Proof.
  intros Ha Hn He Hb Hst Hk. destruct b.
  - specialize (Hb eq_refl). rewrite Hst.
    replace (Z.to_nat n) with (k + Z.to_nat (n - Z.of_nat k))%nat by lia.
    rewrite fill_app, obind_assoc. apply obind_ext. intros m'. cbn [obind]. rewrite !u64_id by lia.
    apply Hk; lia.
  - cbn [obind]. apply Hk; lia.
Qed.

(** The last up to seven bytes. *)
Lemma memset_tail m a n :
  0 <= a -> 0 <= n < 8 -> a + n < 2 ^ 64 ->
  (let! (m, addr, n) :=
     (if 4 <=? n then let! m := store32 m a val32 in Ok (m, u64 (a + 4), u64 (n - 4))
      else Ok (m, a, n)) in
   let! (m, addr, n) :=
     (if 2 <=? n then let! m := store16 m addr val16 in Ok (m, u64 (addr + 2), u64 (n - 2))
      else Ok (m, addr, n)) in
   if 1 <=? n then store8 m addr c else Ok m) = fill (Z.to_nat n) m a c.
Proof.
  intros Ha Hn He. destruct memset_values as (H2 & H4 & _).
  apply (memset_stage (4 <=? n) 4 (fun m a => store32 m a val32)); [lia..| |intros; by apply store32_fill|].
  { intros E; breflect; lia. }
  intros m1 a1 n1 Ha1 Hn1 Hs1 En1. assert (Hb1 : n1 < 4) by (destruct (Z.leb_spec 4 n); lia).
  apply (memset_stage (2 <=? n1) 2 (fun m a => store16 m a val16)); [lia..| |intros; by apply store16_fill|].
  { intros E; breflect; lia. }
  intros m2 a2 n2 Ha2 Hn2 Hs2 En2. assert (Hb2 : n2 < 2) by (destruct (Z.leb_spec 2 n1); lia).
  destruct (Z.leb_spec 1 n2).
  - replace n2 with 1 by lia. change (Z.to_nat 1) with 1%nat. cbn [fill]. by destruct (store8 m2 a2 c).
  - by replace n2 with 0 by lia.
Qed.

Lemma k_memset_fill m s n :
  0 <= s -> 0 <= n -> s + n < 2 ^ 64 -> k_memset m s c n = fill (Z.to_nat n) m s c.
Proof.
  intros Hs Hn He. unfold k_memset. fold val16. fold val32. fold val64.
  destruct memset_values as (H2 & H4 & _).
  destruct (Z.ltb_spec 0 n); [|by replace n with 0 by lia].
  apply (memset_stage _ 1 (fun m a => store8 m a c)); [lia..| |intros; cbn [fill]; by destruct (store8 _ _ _)|].
  { lia. }
  intros m1 a1 n1 Ha1 Hn1 Hs1 _. destruct (Z.leb_spec 2 n1); [|cbn [obind]; apply memset_tail; lia].
  rewrite obind_assoc.
  apply (memset_stage _ 2 (fun m a => store16 m a val16)); [lia..|intros; by apply store16_fill|].
  intros m2 a2 n2 Ha2 Hn2 Hs2 _. destruct (Z.leb_spec 4 n2); [|cbn [obind]; apply memset_tail; lia].
  rewrite obind_assoc.
  apply (memset_stage _ 4 (fun m a => store32 m a val32)); [lia..|intros; by apply store32_fill|].
  intros m3 a3 n3 Ha3 Hn3 Hs3 _.
  assert (0 <= n3 / 8) by (apply Z.div_pos; lia).
  rewrite memset64_loop_ok by lia. rewrite obind_assoc.
  pose proof (Z.div_mod n3 8 ltac:(lia)) as Hd. pose proof (Z.mod_pos_bound n3 8 ltac:(lia)).
  replace (Z.to_nat n3) with (Z.to_nat (8 * (n3 / 8)) + Z.to_nat (n3 mod 8))%nat by lia.
  rewrite fill_app. apply obind_ext. intros m4. cbn [obind].
  rewrite Z2Nat.id by lia. apply memset_tail; lia.
Qed.
End Memset.

(** ** What the routines leave in memory *)

Definition mapped (m : memory) (a n : Z) : Prop := forall x, a <= x < a + n -> is_Some (m !! x).

(** [m'] is [m] with the bytes of [a .. a+n-1] given by [f]. *)
Definition rewritten (m m' : memory) (a n : Z) (f : Z -> Z) : Prop :=
  forall x, m' !! x = if bool_decide (a <= x < a + n) then Some (f (x - a)) else m !! x.

Definition is_byte (v : Z) : Prop := 0 <= v < 256.

Lemma u8_id v : is_byte v -> u8 v = v.
Proof. apply Z.mod_small. Qed.

Lemma store8_ok m a v : is_Some (m !! a) -> is_byte v -> store8 m a v = Ok (<[a := v]> m).
Proof. intros [w Hw] Hv. unfold store8. rewrite Hw. by rewrite u8_id. Qed.

Lemma load8_ok m a v : m !! a = Some v -> load8 m a = Ok v.
Proof. intros H. unfold load8. by rewrite H. Qed.

Lemma mapped_insert m a n x v : mapped m a n -> mapped (<[x := v]> m) a n.
Proof.
  intros H y Hy. destruct (decide (x = y)) as [->|]; [rewrite lookup_insert_eq; by eexists|].
  rewrite lookup_insert_ne by done. by apply H.
Qed.

Lemma mapped_next m a n : mapped m a (n + 1) -> mapped m (a + 1) n.
Proof. intros H x Hx. apply H. lia. Qed.

(** Writing the first byte, then the rest. *)
Lemma rewritten_cons m m' a n f v :
  0 <= n -> rewritten (<[a := v]> m) m' (a + 1) n (fun i => f (i + 1)) -> v = f 0 ->
  rewritten m m' a (n + 1) f.
Proof.
  intros Hn H -> x. rewrite H. repeat case_bool_decide; try lia.
  - do 2 f_equal. lia.
  - replace x with a by lia. rewrite lookup_insert_eq, Z.sub_diag. done.
  - rewrite lookup_insert_ne by lia. done.
Qed.

Lemma rewritten_nil m a f : rewritten m m a 0 f.
Proof. intros x. case_bool_decide; [lia|done]. Qed.

Lemma fill_ok n m a c :
  is_byte c -> mapped m a (Z.of_nat n) ->
  exists m', fill n m a c = Ok m' /\ rewritten m m' a (Z.of_nat n) (fun _ => c).
Proof.
  intros Hc. revert m a. induction n as [|n IH]; intros m a Hm.
  - exists m. split; [done|]. apply rewritten_nil.
  - cbn [fill]. rewrite store8_ok by (done || apply Hm; lia). cbn [obind].
    replace (Z.of_nat (S n)) with (Z.of_nat n + 1) in * by lia.
    destruct (IH (<[a := c]> m) (a + 1)) as (m' & -> & Hr); [by apply mapped_insert, mapped_next|].
    exists m'. split; [done|]. eapply rewritten_cons; [lia|exact Hr|done].
Qed.

(** The bytes of a region. *)
Definition holds (m : memory) (a : Z) (bs : list Z) : Prop :=
  forall i b, bs !! i = Some b -> m !! (a + Z.of_nat i) = Some b.

Lemma holds_cons m a b bs : holds m a (b :: bs) <-> m !! a = Some b /\ holds m (a + 1) bs.
Proof.
  split.
  - intros H. split; [by specialize (H O b eq_refl); rewrite Z.add_0_r in H|].
    intros i x Hx. specialize (H (S i) x Hx). by replace (a + 1 + Z.of_nat i) with (a + Z.of_nat (S i)) by lia.
  - intros [H1 H2] [|i] x Hx; [simpl in Hx; simplify_eq; by rewrite Z.add_0_r|].
    replace (a + Z.of_nat (S i)) with (a + 1 + Z.of_nat i) by lia. by apply H2.
Qed.

Lemma holds_insert m a bs x v :
  holds m a bs -> ~ (a <= x < a + Z.of_nat (length bs)) -> holds (<[x := v]> m) a bs.
Proof.
  intros H Hx i b Hb. apply lookup_lt_Some in Hb as Hl. rewrite lookup_insert_ne by lia. by apply H.
Qed.

(** A NUL-terminated string. *)
Definition cstr (m : memory) (a : Z) (str : list Z) : Prop :=
  Forall (fun b => 0 < b < 256) str /\ holds m a (str ++ [0]).

Definition disjoint (a n b k : Z) : Prop := a + n <= b \/ b + k <= a.

Lemma memcpy_ok m dest src bs :
  holds m src bs -> Forall is_byte bs -> mapped m dest (Z.of_nat (length bs)) ->
  disjoint dest (Z.of_nat (length bs)) src (Z.of_nat (length bs)) ->
  exists m', k_memcpy m dest src (Z.of_nat (length bs)) = Ok m' /\
    rewritten m m' dest (Z.of_nat (length bs)) (fun i => nth (Z.to_nat i) bs 0).
Proof.
  unfold k_memcpy. rewrite Nat2Z.id. revert m dest src.
  induction bs as [|b bs IH]; intros m dest src Hs Hb Hm Hd.
  - exists m. split; [done|]. apply rewritten_nil.
  - cbn [length memcpy_loop]. apply Forall_cons in Hb as [Hb Hbs].
    apply holds_cons in Hs as [Hs1 Hs2]. rewrite (load8_ok _ _ _ Hs1). cbn [obind].
    cbn [length] in *. replace (Z.of_nat (S (length bs))) with (Z.of_nat (length bs) + 1) in * by lia.
    rewrite store8_ok by (done || apply Hm; lia). cbn [obind]. unfold disjoint in Hd.
    destruct (IH (<[dest := b]> m) (dest + 1) (src + 1)) as (m' & -> & Hr); [|done| | |].
    + apply holds_insert; [done|lia].
    + by apply mapped_insert, mapped_next.
    + unfold disjoint. lia.
    + exists m'. split; [done|]. eapply rewritten_cons; [lia| |done].
      intros x. rewrite Hr. case_bool_decide; [|done]. f_equal.
      replace (Z.to_nat (x - (dest + 1) + 1)) with (S (Z.to_nat (x - (dest + 1)))) by lia. done.
Qed.

Lemma strncpy_pad_fill n m d : strncpy_pad n m d = fill n m d 0.
Proof. revert m d. induction n as [|n IH]; intros m d; simpl; [done|]. apply obind_ext. intros. apply IH. Qed.

Lemma strncpy_ok n m dest src str :
  cstr m src str -> mapped m dest (Z.of_nat n) ->
  disjoint dest (Z.of_nat n) src (Z.of_nat (length str) + 1) ->
  exists m', k_strncpy m dest src (Z.of_nat n) = Ok m' /\
    rewritten m m' dest (Z.of_nat n) (fun i => nth (Z.to_nat i) str 0).
Proof.
  unfold k_strncpy. rewrite Nat2Z.id. revert m dest src str.
  induction n as [|n IH]; intros m dest src str [Hb Hs] Hm Hd.
  - exists m. split; [done|]. apply rewritten_nil.
  - cbn [strncpy_copy]. replace (Z.of_nat (S n)) with (Z.of_nat n + 1) in * by lia. unfold disjoint in Hd.
    destruct str as [|b str].
    + apply holds_cons in Hs as [Hs _]. rewrite (load8_ok _ _ _ Hs). cbn [obind].
      rewrite store8_ok by (done || apply Hm; lia). cbn [obind]. simpl (0 =? 0). cbn [obind].
      rewrite strncpy_pad_fill.
      destruct (fill_ok n (<[dest := 0]> m) (dest + 1) 0) as (m' & -> & Hr);
        [done|by apply mapped_insert, mapped_next|].
      exists m'. split; [done|]. eapply rewritten_cons; [lia| |done].
      intros x. rewrite Hr. case_bool_decide; [|done]. by destruct (Z.to_nat _).
    + apply holds_cons in Hs as [Hs1 Hs2]. apply Forall_cons in Hb as [Hb Hbs].
      rewrite (load8_ok _ _ _ Hs1). cbn [obind].
      rewrite store8_ok by (unfold is_byte; lia || apply Hm; lia). cbn [obind].
      rewrite (proj2 (Z.eqb_neq _ _)) by lia. cbn [length] in Hd.
      destruct (IH (<[dest := b]> m) (dest + 1) (src + 1) str) as (m' & Hok & Hr).
      * split; [done|]. apply holds_insert; [done|]. rewrite length_app. simpl. lia.
      * by apply mapped_insert, mapped_next.
      * unfold disjoint. lia.
      * exists m'. split; [exact Hok|]. eapply rewritten_cons; [lia| |done].
        intros x. rewrite Hr. case_bool_decide; [|done]. f_equal.
        replace (Z.to_nat (x - (dest + 1) + 1)) with (S (Z.to_nat (x - (dest + 1)))) by lia. done.
Qed.

Lemma strlen_ok m s str : cstr m s str -> forall fuel, (length str < fuel)%nat ->
  k_strlen fuel m s = Ok (Z.of_nat (length str)).
Proof.
  intros [Hb Hs]. unfold k_strlen.
  assert (H : forall fuel sc k, (length str < fuel)%nat -> holds m sc (str ++ [0]) -> k = sc - s ->
            strlen_loop fuel m s sc = Ok (k + Z.of_nat (length str))).
  { clear Hs. induction Hb as [|b str Hb Hbs IH]; intros fuel sc k Hf Hs ->;
      (destruct fuel as [|fuel]; [simpl in Hf; lia|]); cbn [strlen_loop];
      apply holds_cons in Hs as [Hs1 Hs2]; rewrite (load8_ok _ _ _ Hs1); cbn [obind].
    - simpl. f_equal. lia.
    - rewrite (proj2 (Z.eqb_neq _ _)) by lia. rewrite (IH fuel (sc + 1) (sc + 1 - s));
        [f_equal; cbn [length]; lia|simpl in Hf; lia|done|done]. }
  intros fuel Hf. rewrite (H fuel s 0); [f_equal; lia|done|done|lia].
Qed.

Lemma s8_zero a b : 0 <= a < 256 -> 0 <= b < 256 -> s8 (a - b) = 0 <-> a = b.
Proof.
  intros Ha Hb. unfold s8, u8. change (2 ^ 8) with 256. split.
  - destruct (Z.ltb_spec ((a - b) mod 256) 128) as [Hlt|Hge]; intros E.
    + apply Z.mod_divide in E; [|lia]. destruct E as [k Hk]. lia.
    + pose proof (Z.mod_pos_bound (a - b) 256 ltac:(lia)). lia.
  - intros ->. by rewrite Z.sub_diag.
Qed.

Lemma strcmp_ok m s1 : forall a b s2 fuel, cstr m a s1 -> cstr m b s2 -> (length s1 < fuel)%nat ->
  exists r, k_strcmp fuel m a b = Ok r /\ (r = 0 <-> s1 = s2).
Proof.
  induction s1 as [|x s1 IH]; intros a b s2 fuel [H1 C1] [H2 C2] Hf;
    (destruct fuel as [|fuel]; [simpl in Hf; lia|]); cbn [k_strcmp];
    apply holds_cons in C1 as [L1 C1]; rewrite (load8_ok _ _ _ L1); cbn [obind].
  - destruct s2 as [|y s2]; apply holds_cons in C2 as [L2 C2]; rewrite (load8_ok _ _ _ L2); cbn [obind].
    + simpl. exists 0. done.
    + apply Forall_cons in H2 as [H2 _]. rewrite orb_true_r. exists (s8 (0 - y)). split; [done|].
      rewrite s8_zero by lia. split; [lia|done].
  - apply Forall_cons in H1 as [Hx H1].
    destruct s2 as [|y s2]; apply holds_cons in C2 as [L2 C2]; rewrite (load8_ok _ _ _ L2); cbn [obind].
    + exists (s8 (x - 0)). pose proof (s8_zero x 0 ltac:(lia) ltac:(lia)) as Hz.
      rewrite (proj2 (Z.eqb_neq (s8 (x - 0)) 0)) by (rewrite Hz; lia). split; [done|].
      rewrite Hz. split; [lia|done].
    + apply Forall_cons in H2 as [Hy H2]. pose proof (s8_zero x y ltac:(lia) ltac:(lia)) as Hz.
      rewrite (proj2 (Z.eqb_neq x 0)) by lia. rewrite orb_false_r.
      destruct (Z.eqb_spec (s8 (x - y)) 0) as [E|E]; simpl.
      * apply Hz in E as ->. destruct (IH (a + 1) (b + 1) s2 fuel) as (r & -> & Hr);
          [done|done|simpl in Hf; lia|]. exists r. split; [done|]. rewrite Hr. split; congruence.
      * exists (s8 (x - y)). split; [done|]. rewrite Hz. split; [intros; subst; tauto|congruence].
Qed.

(** ** Properties *)

Module LibcSpec.

(** C30: the optimised [k_memset] is the byte loop.  For every byte value and any
    address and length, aligned or not, the 8-, 16-, 32- and 64-bit stores do
    what storing the byte [n] times does, and fault when it faults; on mapped
    memory the [n] bytes become [c] and no other byte changes. *)
Theorem k_memset_is_byte_loop m s c n :
  0 <= c < 256 -> 0 <= s -> 0 <= n -> s + n < 2 ^ 64 ->
  k_memset m s c n = fill (Z.to_nat n) m s c /\
  (mapped m s n -> exists m', k_memset m s c n = Ok m' /\ rewritten m m' s n (fun _ => c)).
Proof.
  intros Hc Hs Hn He. rewrite k_memset_fill by done. split; [done|]. intros Hm.
  destruct (fill_ok (Z.to_nat n) m s c) as (m' & Hf & Hr); [done|by rewrite Z2Nat.id|].
  rewrite Z2Nat.id in Hr by lia. by exists m'.
Qed.

(** Bytes 3 to 22 are mapped. *)
Definition sample_mem : memory :=
  list_to_map (map (fun i => (Z.of_nat i, 65 + Z.of_nat i)) (seq 3 20)).

Lemma sample_mapped a n : 3 <= a -> 0 <= n -> a + n <= 23 -> mapped sample_mem a n.
Proof.
  intros Ha Hn He x Hx.
  assert (x = Z.of_nat (Z.to_nat x)) as -> by lia.
  assert (3 <= Z.to_nat x < 23)%nat as Hr by lia. revert Hr. generalize (Z.to_nat x). intros k Hk.
  do 23 (destruct k as [|k]; [try lia; by eexists|]). lia.
Qed.

Lemma k_memset_is_byte_loop_witness :
  exists m', k_memset sample_mem 3 0 19 = Ok m' /\ rewritten sample_mem m' 3 19 (fun _ => 0).
Proof.
  refine (proj2 (k_memset_is_byte_loop sample_mem 3 0 19 _ _ _ _) _); [by vm_compute..|].
  apply sample_mapped; lia.
Defined.

(** [k_strncpy] fills exactly [n] bytes: the string, cut to [n] bytes when it
    is longer, and NUL bytes up to the end when it is shorter; nothing else
    changes. *)
Theorem k_strncpy_exact m dest src str n :
  cstr m src str -> 0 <= n -> mapped m dest n -> disjoint dest n src (Z.of_nat (length str) + 1) ->
  exists m', k_strncpy m dest src n = Ok m' /\ rewritten m m' dest n (fun i => nth (Z.to_nat i) str 0).
Proof.
  intros Hs Hn Hm Hd. rewrite <- (Z2Nat.id n) in * by done. by apply strncpy_ok.
Qed.

Definition named_mem : memory := <[22 := 0]> sample_mem.

Lemma k_strncpy_exact_witness :
  exists m', k_strncpy named_mem 4 20 9 = Ok m' /\
    rewritten named_mem m' 4 9 (fun i => nth (Z.to_nat i) [85; 86] 0).
Proof.
  apply (k_strncpy_exact named_mem 4 20 [85; 86] 9); [|done| |by left; vm_compute].
  - split; [by repeat (apply Forall_cons; split)|].
    intros i b Hb. do 3 (destruct i as [|i]; [by vm_compute in Hb |- *|]). done.
  - apply mapped_insert, sample_mapped; lia.
Defined.

(** [k_strcmp] is zero exactly on equal strings. *)
Theorem k_strcmp_zero_iff m a b s1 s2 fuel :
  cstr m a s1 -> cstr m b s2 -> (length s1 < fuel)%nat ->
  exists r, k_strcmp fuel m a b = Ok r /\ (r = 0 <-> s1 = s2).
Proof. intros. by apply strcmp_ok. Qed.

(** The sign of [k_strcmp] is not the order of the strings: the difference of
    the two characters is cut to a signed byte. *)
Example k_strcmp_sign :
  k_strcmp 3 {[1 := 200; 2 := 0; 3 := 1; 4 := 0]} 1 3 = Ok (-57).
Proof. by vm_compute. Qed.

End LibcSpec.
