(* ===== verification/Board.v ===== *)
(** * The board's memory map (board.h), its configuration and address conversion (pagetable.h)

    Kernel virtual addresses of RAM are physical addresses at a fixed offset. *)

From Stdlib Require Import ZArith Lia.
From stdpp Require Import base tactics.
From S2P Require Import Prelude.

Definition RAM_PBASE : Z := 0x40000000.
Definition RAM_VBASE : Z := 0xffffff8000000000.
Definition RAM_SIZE : Z := 2 * 1024 * 1024 * 1024.

(** The stack of the idle task (config.h); the boot code runs on it too. *)
Definition CONFIG_IDLE_TASK_STACKSIZE : Z := 1024.

Definition vbase_to_pbase (vbase : Z) : Z := u64 (u64 (vbase - RAM_VBASE) + RAM_PBASE).
Definition pbase_to_vbase (pbase : Z) : Z := u64 (u64 (pbase - RAM_PBASE) + RAM_VBASE).

Lemma pbase_vbase p : 0 <= p < 2 ^ 64 -> vbase_to_pbase (pbase_to_vbase p) = p.
Proof.
  intros Hp. unfold vbase_to_pbase, pbase_to_vbase, u64, RAM_VBASE, RAM_PBASE.
  Z.div_mod_to_equations. lia.
Qed.

Lemma vbase_ram v :
  RAM_VBASE <= v < RAM_VBASE + RAM_SIZE -> vbase_to_pbase v = v - RAM_VBASE + RAM_PBASE.
Proof.
  unfold vbase_to_pbase, RAM_VBASE, RAM_SIZE, RAM_PBASE. intros H.
  rewrite (u64_id (v - _)) by lia. by rewrite u64_id by lia.
Qed.

Lemma pbase_ram p :
  RAM_PBASE <= p < RAM_PBASE + RAM_SIZE -> pbase_to_vbase p = p - RAM_PBASE + RAM_VBASE.
Proof.
  unfold pbase_to_vbase, RAM_VBASE, RAM_SIZE, RAM_PBASE. intros H.
  rewrite (u64_id (p - _)) by lia. by rewrite u64_id by lia.
Qed.
