(* ===== verification/Task.v ===== *)
(** * Tasks: control blocks, identifiers and address space identifiers

    Models os/core/sched/task.c, os/core/include/task.h and the register
    frame of os/arch/arm64/context.c.  Task identifiers come from a bitmap of
    [CONFIG_MAX_TASKS] bits; address space identifiers (ASIDs) carry a
    generation in their upper bits and are handed out by
    [check_and_switch_context].  The file proves that live tasks have distinct
    identifiers and that two user tasks never run under the same ASID. *)

From Stdlib Require Import ZArith Lia Bool.
From stdpp Require Import base numbers list gmap.
From S2P Require Import Prelude Bitmap KList Board.

(** ** The saved registers (context.c) *)

Definition X0 : Z := 0.
Definition X8 : Z := 8.
Definition LR : Z := 30.
Definition PC : Z := 31.
Definition SP : Z := 32.
Definition PSTATE : Z := 33.
Definition REGS_COUNT : nat := 34.

Definition TASK_TYPE_USER : Z := 0x00.
Definition TASK_TYPE_KERNEL : Z := 0xff.

Definition PSTATE_USER : Z := Z.lor (Z.lor (Z.shiftl 1 6) 0) (Z.shiftl 1 8).
Definition PSTATE_KERNEL : Z := Z.lor (Z.lor (Z.shiftl 1 6) 5) (Z.shiftl 1 8).

Definition context : Type := list Z.

Definition reg (ctx : context) (r : Z) : Z := default 0 (ctx !! Z.to_nat r).

Definition set_reg (ctx : context) (r v : Z) : context := <[Z.to_nat r := v]> ctx.

Definition context_init (ctx : context) (type : Z) : context :=
  let ctx := replicate REGS_COUNT 0 in
  if type =? TASK_TYPE_USER then set_reg ctx PSTATE PSTATE_USER
  else set_reg ctx PSTATE PSTATE_KERNEL.

Definition context_set_entry (ctx : context) (entry : Z) : context := set_reg ctx PC entry.

Definition context_set_exit (ctx : context) (exit : Z) : context := set_reg ctx LR exit.

Definition context_set_retcode (ctx : context) (retcode : Z) : context := set_reg ctx X0 retcode.

Definition context_set_params (ctx : context) (p0 p1 p2 p3 p4 p5 p6 p7 : Z) : context :=
  set_reg (set_reg (set_reg (set_reg (set_reg (set_reg (set_reg (set_reg ctx
    0 p0) 1 p1) 2 p2) 3 p3) 4 p4) 5 p5) 6 p6) 7 p7.

Definition context_set_stack (ctx : context) (stack size : Z) : context :=
  set_reg ctx SP (u64 (stack + size)).

(** ** Control blocks (task.h) *)

Inductive task_state_e : Type :=
| TSTATE_TASK_INVALID
| TSTATE_TASK_INACTIVE
| TSTATE_TASK_READYTORUN
| TSTATE_TASK_RUNNING
| TSTATE_TASK_SLEEPING
| TSTATE_TASK_PENDING
| TSTATE_TASK_SUSPEND.

#[export] Instance task_state_eq_dec : EqDecision task_state_e.
Proof. solve_decision. Defined.

Record mm_area : Type := MkMm {
  mmap_base : Z;
  start_brk : Z; brk : Z; start_stack : Z; end_stack : Z;
  start_code : Z; end_code : Z; start_data : Z; end_data : Z;
  start_bss : Z; end_bss : Z
}.

Record tcb : Type := MkTcb {
  tid : Z;
  tgid : Z;
  sched_priority : Z;
  init_priority : Z;
  entry : Z;
  task_state : task_state_e;
  name : list Z;
  stack : Z;
  stack_size : Z;
  readytime : Z;
  timeslice : Z;
  type : Z;
  ctx : context;
  addrspace : Z;
  mm : mm_area;
  asid : Z
}.

Definition zero_mm : mm_area := MkMm 0 0 0 0 0 0 0 0 0 0 0.

Definition set_tid (t : tcb) (v : Z) : tcb :=
  MkTcb v (tgid t) (sched_priority t) (init_priority t) (entry t) (task_state t) (name t) (stack t)
    (stack_size t) (readytime t) (timeslice t) (type t) (ctx t) (addrspace t) (mm t) (asid t).

Definition set_tgid (t : tcb) (v : Z) : tcb :=
  MkTcb (tid t) v (sched_priority t) (init_priority t) (entry t) (task_state t) (name t) (stack t)
    (stack_size t) (readytime t) (timeslice t) (type t) (ctx t) (addrspace t) (mm t) (asid t).

Definition set_task_state (t : tcb) (v : task_state_e) : tcb :=
  MkTcb (tid t) (tgid t) (sched_priority t) (init_priority t) (entry t) v (name t) (stack t)
    (stack_size t) (readytime t) (timeslice t) (type t) (ctx t) (addrspace t) (mm t) (asid t).

Definition set_name (t : tcb) (v : list Z) : tcb :=
  MkTcb (tid t) (tgid t) (sched_priority t) (init_priority t) (entry t) (task_state t) v (stack t)
    (stack_size t) (readytime t) (timeslice t) (type t) (ctx t) (addrspace t) (mm t) (asid t).

Definition set_readytime (t : tcb) (v : Z) : tcb :=
  MkTcb (tid t) (tgid t) (sched_priority t) (init_priority t) (entry t) (task_state t) (name t) (stack t)
    (stack_size t) v (timeslice t) (type t) (ctx t) (addrspace t) (mm t) (asid t).

Definition set_ctx (t : tcb) (v : context) : tcb :=
  MkTcb (tid t) (tgid t) (sched_priority t) (init_priority t) (entry t) (task_state t) (name t) (stack t)
    (stack_size t) (readytime t) (timeslice t) (type t) v (addrspace t) (mm t) (asid t).

Definition set_mm (t : tcb) (v : mm_area) : tcb :=
  MkTcb (tid t) (tgid t) (sched_priority t) (init_priority t) (entry t) (task_state t) (name t) (stack t)
    (stack_size t) (readytime t) (timeslice t) (type t) (ctx t) (addrspace t) v (asid t).

Definition set_asid (t : tcb) (v : Z) : tcb :=
  MkTcb (tid t) (tgid t) (sched_priority t) (init_priority t) (entry t) (task_state t) (name t) (stack t)
    (stack_size t) (readytime t) (timeslice t) (type t) (ctx t) (addrspace t) (mm t) v.

(** ** Configuration *)

Definition CONFIG_MAX_TASKS : Z := 0x20000.
Definition CONFIG_MAX_TASK_PRIORITY : Z := 32.
Definition CONFIG_DEFAULT_TASK_PRIORITY : Z := 10.
Definition CONFIG_RR_INTERVAL : Z := 10.
Definition CONFIG_TASK_NAME_SIZE : nat := 63.

(** ** Task identifiers *)

Record tid_state : Type := MkTid { task_bitmap : list Z; g_lasttid : Z }.

Definition INVALID_TASK_ID : Z := -1.

Definition task_release_tid (st : tid_state) (id : Z) : outcome tid_state :=
  let! map := bitmap_clear (task_bitmap st) (u32 id) 1 in
  Ok (MkTid map (s32 (id - 1))).

(** Returns the new allocator state, the task and the identifier it got. *)
Definition task_assign_tid (st : tid_state) (t : tcb) : outcome (tid_state * tcb * Z) :=
  let pid := s32 (g_lasttid st + 1) in
  let! id := find_next_zero_bit (task_bitmap st) CONFIG_MAX_TASKS (u64 pid) in
  if CONFIG_MAX_TASKS <=? id then Ok (st, t, INVALID_TASK_ID)
  else
    let! map := bitmap_set (task_bitmap st) (u32 id) 1 in
    let t := set_tid t (s32 id) in
    Ok (MkTid map (s32 id), t, tid t).

(** ** Creation *)

(** [k_strncpy] into the name buffer, then a NUL in its last byte; [None] is a
    [NULL] name.  The name is the list of its characters. *)
Definition g_noname : list Z := [60; 110; 111; 110; 97; 109; 101; 62].

Definition task_setup_name (t : tcb) (nm : option (list Z)) : tcb :=
  let str := default g_noname nm in
  set_name t (map (fun i => nth i str 0) (seq 0 CONFIG_TASK_NAME_SIZE) ++ [0]).

(** Offset of [mm.link_head] in a control block; [link_head] is at offset 0. *)
Definition MM_LINK_OFFSET : Z := 424.

(** [p] is the address of the control block, whose two list nodes live in the
    store [s]. *)
Definition task_init (s : store) (p ty : Z) : outcome (store * tcb) :=
  let! s := INIT_LIST_HEAD s p in
  let t := MkTcb 0 0 CONFIG_DEFAULT_TASK_PRIORITY CONFIG_DEFAULT_TASK_PRIORITY 0 TSTATE_TASK_INACTIVE
             (replicate (S CONFIG_TASK_NAME_SIZE) 0) 0 0 0 CONFIG_RR_INTERVAL ty
             (context_init [] ty) 0 zero_mm 0 in
  let t := task_setup_name t None in
  let! s := INIT_LIST_HEAD s (p + MM_LINK_OFFSET) in
  Ok (s, t).

Definition task_create (st : tid_state) (s : store) (p ent : Z) (nm : option (list Z))
    (priority stk stk_size ty as_ : Z) : outcome (tid_state * store * tcb) :=
  let! (s, t) := task_init s p ty in
  let t := task_setup_name t nm in
  let! (st, t, _) := task_assign_tid st t in
  assert! (priority <? CONFIG_MAX_TASK_PRIORITY) in
  let c := context_set_stack (context_set_entry (ctx t) ent) stk stk_size in
  Ok (st, s, MkTcb (tid t) (tgid t) priority priority ent TSTATE_TASK_INACTIVE (name t) stk stk_size
            (readytime t) (timeslice t) (type t) c as_ (mm t) (asid t)).

(** ** Address space identifiers *)

Record asid_state : Type := MkAsid {
  asid_bits : Z;
  asid_generation : Z;
  asid_bitmap : list Z;
  cur_idx : Z;           (* the static local of [check_and_switch_context] *)
  b_tlb_flush : bool
}.

Definition ASID_MASK (a : asid_state) : Z := u64 (Z.shiftl 1 (asid_bits a) - 1).
Definition NUM_USER_ASIDS (a : asid_state) : Z := Z.shiftl 1 (asid_bits a).

(** [ID_AA64MMFR0_EL1] is the value of the feature register. *)
Definition get_cpu_asid_bits (ID_AA64MMFR0_EL1 : Z) : outcome Z :=
  let v := Z.land (Z.shiftr ID_AA64MMFR0_EL1 4) 15 in
  if v =? 0 then Ok 8 else if v =? 2 then Ok 16 else Halt.

(** The bitmap lies in the zeroed block that [asid_calloc] returns. *)
Definition asid_initialize (ID_AA64MMFR0_EL1 : Z) : outcome asid_state :=
  let! bits := get_cpu_asid_bits ID_AA64MMFR0_EL1 in
  let! map := bitmap_zero (replicate (Z.to_nat (2 ^ bits / 8)) 0) (Z.shiftl 1 bits) in
  Ok (MkAsid bits (Z.shiftl 1 bits) map 1 false).

(** The second half of [check_and_switch_context]: a new identifier, from the
    next generation when the current one is used up. *)
Definition asid_allocate (a : asid_state) (t : tcb) (generation : Z) : outcome (asid_state * tcb * Z) :=
  let! n := find_next_zero_bit (asid_bitmap a) (NUM_USER_ASIDS a) (cur_idx a) in
  let! (a, n) :=
    (if NUM_USER_ASIDS a <=? n then
       let idx := u32 (u32 (Z.shiftr generation (asid_bits a)) + 1) in
       let gen := u32 (Z.shiftl idx (asid_bits a)) in
       let! map := bitmap_clear (asid_bitmap a) 0 (NUM_USER_ASIDS a) in
       let a := MkAsid (asid_bits a) gen map (cur_idx a) true in
       let! n := find_next_zero_bit (asid_bitmap a) (NUM_USER_ASIDS a) 1 in
       Ok (a, n)
     else Ok (a, n)) in
  let! map := bitmap_set (asid_bitmap a) n 1 in
  Ok (MkAsid (asid_bits a) (asid_generation a) map (u32 n) (b_tlb_flush a),
      set_asid t (Z.lor n (asid_generation a)), n).

Definition check_and_switch_context (a : asid_state) (t : tcb) : outcome (asid_state * tcb * Z) :=
  let id := asid t in
  let generation := asid_generation a in
  if type t =? TASK_TYPE_KERNEL then Ok (a, t, 0)
  else if Z.land id (not64 (ASID_MASK a)) =? generation then Ok (a, t, id)
  else if negb (id =? 0) then
    let! (map, was_set) := test_and_set_bit (Z.land id (ASID_MASK a)) (asid_bitmap a) in
    let a := MkAsid (asid_bits a) (asid_generation a) map (cur_idx a) (b_tlb_flush a) in
    if was_set then asid_allocate a t generation
    else Ok (a, t, Z.lor generation (Z.land id (ASID_MASK a)))
  else asid_allocate a t generation.

(** The machine state that a switch changes: [TTBR0_EL1] and the number of
    full TLB invalidations. *)
Record mmu : Type := MkMmu { ttbr0 : Z; tlb_flushes : Z }.

Definition as_switch (hw : mmu) (as_ ty id : Z) : outcome mmu :=
  let pbase := vbase_to_pbase as_ in
  if ty =? TASK_TYPE_KERNEL then Ok hw
  else if ty =? TASK_TYPE_USER then Ok (MkMmu (Z.lor pbase id) (tlb_flushes hw))
  else Halt.

Definition task_switch (a : asid_state) (hw : mmu) (from to : tcb) : outcome (asid_state * mmu * tcb) :=
  let! (a, to, id) := check_and_switch_context a to in
  if negb (tgid to =? tgid from) then
    let! hw := as_switch hw (addrspace to) (type to) (u64 (Z.shiftl id (64 - asid_bits a))) in
    if b_tlb_flush a then
      Ok (MkAsid (asid_bits a) (asid_generation a) (asid_bitmap a) (cur_idx a) false,
          MkMmu (ttbr0 hw) (tlb_flushes hw + 1), to)
    else Ok (a, hw, to)
  else Ok (a, hw, to).

(** ** Lemmas on task identifiers *)

Record tid_wf (st : tid_state) : Prop := {
  tid_words : words_ok (task_bitmap st);
  tid_len : CONFIG_MAX_TASKS <= 64 * Z.of_nat (length (task_bitmap st));
  tid_last : -1 <= g_lasttid st < CONFIG_MAX_TASKS
}.

Lemma find_zero_spec m size start :
  words_ok m -> size <= 64 * Z.of_nat (length m) -> size < 2 ^ 64 - 64 -> 0 <= start ->
  exists r, find_next_zero_bit m size start = Ok r /\ first_from (fun j => negb (wbit m j)) start size r.
Proof.
  intros Hm Hl Hs Ho.
  destruct (find_next_spec m None size true Hm Hl I Hs start Ho) as (r & Hr & Hf).
  exists r. split; [done|]. destruct Hf as [Ha Hb].
  assert (E : forall j, negb (wbit m j) = sought m None true j).
  { intros j. unfold sought. by rewrite andb_true_r, xorb_true_r. }
  split; [intros j Hj; rewrite E; by apply Ha|].
  destruct Hb as [[? Hb]|[? Hb]]; [left|right]; (split; [done|]); [|by rewrite E].
  intros j Hj. rewrite E. by apply Hb.
Qed.

Lemma bitmap_set_ok m start len :
  words_ok m -> 0 <= start -> 0 <= len -> start + len <= 64 * Z.of_nat (length m) -> start + len < 2 ^ 31 ->
  exists m', bitmap_set m start len = Ok m' /\ upd_bits m m' start len true.
Proof. apply bitmap_range_ok. Qed.

Lemma bitmap_clear_ok m start len :
  words_ok m -> 0 <= start -> 0 <= len -> start + len <= 64 * Z.of_nat (length m) -> start + len < 2 ^ 31 ->
  exists m', bitmap_clear m start len = Ok m' /\ upd_bits m m' start len false.
Proof. apply bitmap_range_ok. Qed.

(** The identifier is the first free one after the last one handled. *)
Lemma task_assign_tid_cases st t :
  tid_wf st ->
  (exists id m', task_assign_tid st t = Ok (MkTid m' id, set_tid t id, id) /\
     g_lasttid st < id < CONFIG_MAX_TASKS /\ wbit (task_bitmap st) id = false /\
     (forall j, g_lasttid st < j < id -> wbit (task_bitmap st) j = true) /\
     upd_bits (task_bitmap st) m' id 1 true) \/
  (task_assign_tid st t = Ok (st, t, INVALID_TASK_ID) /\
   forall j, g_lasttid st < j < CONFIG_MAX_TASKS -> wbit (task_bitmap st) j = true).
Proof.
  intros [Hw Hl Hlast]. unfold task_assign_tid, CONFIG_MAX_TASKS in *.
  rewrite s32_id, u64_id by lia.
  destruct (find_zero_spec (task_bitmap st) 0x20000 (g_lasttid st + 1) Hw Hl) as (r & -> & Ha & Hb); [lia..|].
  cbn [obind]. destruct Hb as [[-> Hb]|[Hr Hb]].
  - right. split; [done|]. intros j Hj. specialize (Hb j ltac:(lia)). by apply negb_false_iff in Hb.
  - left. rewrite (proj2 (Z.leb_gt _ _)) by lia. rewrite u32_id by lia.
    destruct (bitmap_set_ok (task_bitmap st) r 1 Hw) as (m' & -> & Hu); [lia..|]. cbn [obind].
    rewrite s32_id by lia. exists r, m'. split; [done|]. split; [lia|].
    split; [by apply negb_true_iff in Hb|]. split; [|done].
    intros j Hj. specialize (Ha j ltac:(lia)). by apply negb_false_iff in Ha.
Qed.

Lemma task_release_tid_ok st id :
  tid_wf st -> 0 <= id < CONFIG_MAX_TASKS ->
  exists m', task_release_tid st id = Ok (MkTid m' (id - 1)) /\ upd_bits (task_bitmap st) m' id 1 false.
Proof.
  intros [Hw Hl Hlast] Hid. unfold task_release_tid, CONFIG_MAX_TASKS in *. rewrite u32_id, s32_id by lia.
  destruct (bitmap_clear_ok (task_bitmap st) id 1 Hw) as (m' & -> & Hu); [lia..|].
  by exists m'.
Qed.

(** The kernel creates tasks and releases the identifiers of live ones;
    [ids] remembers the live identifiers. *)
Inductive tid_step : tid_state * list Z -> tid_state * list Z -> Prop :=
| tid_assign st ids t st' t' id :
    task_assign_tid st t = Ok (st', t', id) -> id <> INVALID_TASK_ID ->
    tid_step (st, ids) (st', id :: ids)
| tid_release st l1 l2 id st' :
    task_release_tid st id = Ok st' -> tid_step (st, l1 ++ id :: l2) (st', l1 ++ l2).

Inductive tid_steps : tid_state * list Z -> tid_state * list Z -> Prop :=
| tid_refl s : tid_steps s s
| tid_snoc s1 s2 s3 : tid_steps s1 s2 -> tid_step s2 s3 -> tid_steps s1 s3.

Definition tid_initial : tid_state := MkTid (replicate 2048 0) (-1).

(** The bitmap marks exactly the live identifiers. *)
Record tid_inv (s : tid_state * list Z) : Prop := {
  inv_tid_wf : tid_wf s.1;
  inv_nodup : NoDup s.2;
  inv_marked : forall j, 0 <= j < CONFIG_MAX_TASKS -> wbit (task_bitmap s.1) j = true <-> j ∈ s.2;
  inv_range : Forall (fun j => 0 <= j < CONFIG_MAX_TASKS) s.2
}.

Lemma wbit_replicate_zero n j : wbit (replicate n 0) j = false.
Proof.
  unfold wbit. destruct (replicate n 0 !! Z.to_nat (j / 64)) as [w|] eqn:E; [|done].
  apply lookup_replicate in E as [-> _]. apply Z.bits_0.
Qed.

Lemma words_ok_zero n : words_ok (replicate n 0).
Proof. unfold words_ok. apply Forall_replicate. lia. Qed.

Lemma tid_initial_inv : tid_inv (tid_initial, []).
Proof.
  constructor; cbn [fst snd].
  - constructor; [apply words_ok_zero|by vm_compute|by vm_compute].
  - constructor.
  - intros j Hj. unfold tid_initial, task_bitmap. rewrite wbit_replicate_zero. split; [done|]. by intros ?%not_elem_of_nil.
  - constructor.
Qed.

Lemma tid_step_inv s s' : tid_inv s -> tid_step s s' -> tid_inv s'.
Proof.
  intros Hi Hs. destruct Hs as [st ids t st' t' id Ha Hne|st l1 l2 id st' Hr].
  - destruct Hi as [W Hnd Hm Hrg]; simpl in *.
    destruct (task_assign_tid_cases st t W) as [(r & m' & He & Hid & Hfree & _ & Hu)|[He _]];
      rewrite He in Ha; simplify_eq. destruct W as [Hw Hl Hlast]. pose proof Hu as (HL & HW & HB).
    constructor; simpl.
    + constructor; simpl; [done|by rewrite HL|lia].
    + apply NoDup_cons. split; [|done]. intros Hin. apply Hm in Hin; [congruence|lia].
    + intros j Hj. rewrite HB by lia. rewrite elem_of_cons, <- Hm by lia.
      destruct (Z.leb_spec id j), (Z.ltb_spec j (id + 1)); simpl; split; intros H1; try tauto;
        try (left; lia); destruct H1; try done; lia.
    + constructor; [lia|done].
  - destruct Hi as [W Hnd Hm Hrg]; simpl in *.
    pose proof Hrg as Hrg2. rewrite Forall_app, Forall_cons in Hrg2. destruct Hrg2 as (Hr1 & Hid & Hr2).
    destruct (task_release_tid_ok st id W Hid) as (m' & He & Hu). rewrite He in Hr. simplify_eq.
    destruct W as [Hw Hl Hlast]. pose proof Hu as (HL & HW & HB).
    rewrite <- Permutation_middle in Hnd. apply NoDup_cons in Hnd as [Hni Hnd].
    constructor; simpl.
    + constructor; simpl; [done|by rewrite HL|unfold CONFIG_MAX_TASKS in *; lia].
    + done.
    + intros j Hj. rewrite HB by lia. specialize (Hm j Hj).
      rewrite elem_of_app, elem_of_cons in Hm. rewrite elem_of_app in *.
      destruct (Z.leb_spec id j), (Z.ltb_spec j (id + 1)); simpl.
      * replace j with id by lia. split; [done|]. intros. tauto.
      * rewrite Hm. split; [intros [?|[?|?]]; [tauto|lia|tauto]|tauto].
      * rewrite Hm. split; [intros [?|[?|?]]; [tauto|lia|tauto]|tauto].
      * rewrite Hm. split; [intros [?|[?|?]]; [tauto|lia|tauto]|tauto].
    + by apply Forall_app.
Qed.

Lemma tid_steps_inv s s' : tid_steps s s' -> tid_inv s -> tid_inv s'.
Proof. induction 1 as [|s1 s2 s3 _ IH Hs]; [done|]. intros Hi. apply (tid_step_inv s2); [by apply IH|done]. Qed.

(** ** Lemmas on address space identifiers *)

Lemma test_and_set_bit_ok nr m :
  words_ok m -> 0 <= nr < 64 * Z.of_nat (length m) ->
  exists m', test_and_set_bit nr m = Ok (m', wbit m nr) /\ upd_bits m m' nr 1 true.
Proof.
  intros Hm Hn. unfold test_and_set_bit, BIT_WORD, BIT_MASK, BITS_PER_LONG.
  destruct (split64 nr ltac:(lia)) as (Hd & Hr & Hq).
  destruct (aget_is_ok m (nr / 64)) as (w & -> & Hw); [lia|]. cbn [obind].
  rewrite aset_ok by lia. cbn [obind]. change (Z.shiftl 1 (nr mod 64)) with (range_mask (nr mod 64) 1).
  pose proof (mask_word_upd m (nr / 64) (nr mod 64) 1 w true Hm ltac:(lia) ltac:(lia) ltac:(lia) ltac:(lia) Hw) as Hu.
  rewrite <- Hd in Hu. eexists. split; [|exact Hu]. do 2 f_equal.
  unfold wbit. rewrite Hw. destruct (Z.testbit w (nr mod 64)) eqn:E.
  - apply negb_true_iff, Z.eqb_neq. rewrite land_eq_0. intros H.
    specialize (H (nr mod 64) ltac:(lia)). rewrite testbit_range_mask, E in H by lia.
    assert (true = false); [apply H; decide_cmp; done || lia|done].
  - apply negb_false_iff, Z.eqb_eq, land_eq_0. intros i Hi H. rewrite testbit_range_mask in H by lia.
    breflect. by replace i with (nr mod 64) by lia.
Qed.

Definition num_asids (a : asid_state) : Z := 2 ^ asid_bits a.

(** The shape of the allocator in generation [g]. *)
Record asid_wf (g : Z) (a : asid_state) : Prop := {
  asid_width : asid_bits a = 8 \/ asid_bits a = 16;
  asid_gen : asid_generation a = g * num_asids a;
  asid_gen_pos : 1 <= g;
  asid_gen_fits : g * num_asids a < 2 ^ 32;
  asid_words : words_ok (asid_bitmap a);
  asid_room : num_asids a <= 64 * Z.of_nat (length (asid_bitmap a));
  asid_cur : 1 <= cur_idx a < num_asids a
}.

Definition user (t : tcb) : Prop := type t = TASK_TYPE_USER.

(** The identifier of [t] belongs to generation [g']. *)
Definition in_gen (a : asid_state) (t : tcb) (g' : Z) : Prop :=
  exists low, asid t = g' * num_asids a + low /\ 1 <= low < num_asids a.

Record asid_inv (g : Z) (a : asid_state) (ts : gmap Z tcb) : Prop := {
  asid_inv_wf : asid_wf g a;
  asid_inv_old : forall p t, ts !! p = Some t -> user t ->
    asid t = 0 \/ exists g', 1 <= g' <= g /\ in_gen a t g';
  asid_inv_marked : forall p t, ts !! p = Some t -> user t -> in_gen a t g ->
    wbit (asid_bitmap a) (asid t mod num_asids a) = true;
  asid_inv_distinct : forall p q t u, ts !! p = Some t -> ts !! q = Some u -> p <> q ->
    user t -> user u -> in_gen a t g -> in_gen a u g ->
    asid t mod num_asids a <> asid u mod num_asids a
}.

Lemma num_asids_bounds g a : asid_wf g a -> 256 <= num_asids a <= 65536 /\ 0 < asid_bits a <= 16.
Proof. intros [[H|H] _ _ _ _ _ _]; unfold num_asids; rewrite H; lia. Qed.

Lemma gen_split a g low :
  0 < num_asids a -> 0 <= low < num_asids a ->
  (g * num_asids a + low) / num_asids a = g /\ (g * num_asids a + low) mod num_asids a = low.
Proof.
  intros Hp Hl. split; [symmetry; apply (Z.div_unique _ _ g low)|symmetry; apply (Z.mod_unique _ _ g low)]; lia.
Qed.

Lemma asid_masks g a x :
  asid_wf g a -> 0 <= x < 2 ^ 64 ->
  Z.land x (ASID_MASK a) = x mod num_asids a /\
  Z.land x (not64 (ASID_MASK a)) = x / num_asids a * num_asids a.
Proof.
  intros W Hx. destruct (num_asids_bounds g a W) as [Hn Hb]. unfold ASID_MASK, num_asids in *.
  rewrite shiftl1, u64_id by lia. split.
  - replace (2 ^ asid_bits a - 1) with (Z.ones (asid_bits a)) by (rewrite Z.ones_equiv; lia).
    apply Z.land_ones. lia.
  - apply land_not64_ones; lia.
Qed.

Lemma lor_gen g a low :
  asid_wf g a -> 0 <= g -> 0 <= low < num_asids a -> Z.lor low (g * num_asids a) = g * num_asids a + low.
Proof.
  intros W Hg Hl. destruct (num_asids_bounds g a W) as [Hn Hb]. unfold num_asids in *.
  apply Z.bits_inj'. intros i Hi. rewrite Z.lor_spec.
  rewrite Z.add_comm, (Z.mul_comm g), testbit_lane by lia.
  rewrite Z.mul_comm, <- Z.shiftl_mul_pow2, Z.shiftl_spec by lia.
  destruct (Z.ltb_spec i (asid_bits a)).
  - rewrite (Z.testbit_neg_r g) by lia. apply orb_false_r.
  - by rewrite (testbit_high (asid_bits a) low) by lia.
Qed.

(** Replacing the bitmap by one with more bits set keeps the invariant. *)
Lemma asid_inv_more g a ts m' k :
  asid_inv g a ts -> upd_bits (asid_bitmap a) m' k 1 true ->
  asid_inv g (MkAsid (asid_bits a) (asid_generation a) m' (cur_idx a) (b_tlb_flush a)) ts.
Proof.
  intros [[W1 W2 W3 W4 W5 W6 W7] Hold Hm Hd] (HL & HW & HB). constructor; try done.
  - constructor; try done. simpl. by rewrite HL.
  - intros p t Hp Hu Hg. simpl in *. specialize (Hm p t Hp Hu Hg).
    unfold num_asids in *. simpl in *. rewrite HB by (apply Z.mod_pos_bound; destruct W1 as [->| ->]; lia).
    destruct (_ && _); done.
Qed.

(** Giving task [p] a fresh identifier of the current generation. *)
Lemma asid_inv_fresh g a ts p t r m' fl :
  asid_inv g a ts -> ts !! p = Some t -> 1 <= r < num_asids a ->
  wbit (asid_bitmap a) r = false -> upd_bits (asid_bitmap a) m' r 1 true ->
  asid_inv g (MkAsid (asid_bits a) (asid_generation a) m' r fl)
    (<[p := set_asid t (g * num_asids a + r)]> ts).
Proof.
  intros [W Hold Hm Hd] Hp Hr Hfree (HL & HW & HB). destruct (num_asids_bounds g a W) as [Hn Hb].
  pose proof W as [W1 W2 W3 W4 W5 W6 W7].
  assert (Hsplit : (g * num_asids a + r) mod num_asids a = r) by (apply gen_split; lia).
  assert (Hne : forall q u, q <> p -> ts !! q = Some u -> user u -> in_gen a u g -> asid u mod num_asids a <> r).
  { intros q u Hq Hu Huser Hg E. specialize (Hm q u Hu Huser Hg). rewrite E in Hm. congruence. }
  constructor; unfold num_asids, in_gen in *; simpl in *.
  - constructor; unfold num_asids; simpl; try done. by rewrite HL.
  - intros q u Hq Hu. destruct (decide (q = p)) as [->|Hqp].
    + rewrite lookup_insert_eq in Hq. simplify_eq. right. exists g. split; [lia|]. by exists r.
    + rewrite lookup_insert_ne in Hq by done. by apply (Hold q).
  - intros q u Hq Hu Hg. destruct (decide (q = p)) as [->|Hqp].
    + rewrite lookup_insert_eq in Hq. simplify_eq. simpl. rewrite Hsplit, HB by lia. decide_cmp; done || lia.
    + rewrite lookup_insert_ne in Hq by done. rewrite HB by (apply Z.mod_pos_bound; lia).
      rewrite (Hm q u Hq Hu Hg). by destruct (_ && _).
  - intros q1 q2 u1 u2 H1 H2 Hq U1 U2 G1 G2.
    destruct (decide (q1 = p)) as [->|N1], (decide (q2 = p)) as [->|N2]; try done.
    + rewrite lookup_insert_eq in H1. rewrite lookup_insert_ne in H2 by done. simplify_eq. simpl.
      rewrite Hsplit. intros E. by apply (Hne q2 u2).
    + rewrite lookup_insert_eq in H2. rewrite lookup_insert_ne in H1 by done. simplify_eq. simpl.
      rewrite Hsplit. by apply (Hne q1 u1).
    + rewrite lookup_insert_ne in H1, H2 by done. by apply (Hd q1 q2).
Qed.

(** What one call guarantees to task [p]: [id] is its identifier. *)
Definition asid_granted (g : Z) (a a' : asid_state) (ts ts' : gmap Z tcb) (p id : Z) : Prop :=
  exists g', (g' = g \/ (g' = g + 1 /\ b_tlb_flush a' = true)) /\ asid_inv g' a' ts' /\
    asid_bits a' = asid_bits a /\ 1 <= id mod num_asids a < num_asids a /\
    wbit (asid_bitmap a') (id mod num_asids a) = true /\
    forall q u, q <> p -> ts' !! q = Some u -> user u -> in_gen a' u g' ->
      asid u mod num_asids a <> id mod num_asids a.

Lemma asid_inv_rollover g a ts m' :
  asid_inv g a ts -> (g + 1) * num_asids a < 2 ^ 32 ->
  upd_bits (asid_bitmap a) m' 0 (num_asids a) false ->
  asid_inv (g + 1) (MkAsid (asid_bits a) ((g + 1) * num_asids a) m' (cur_idx a) true) ts.
Proof.
  intros [W Hold Hm Hd] Hfit (HL & HW & HB). destruct (num_asids_bounds g a W) as [Hn Hb].
  pose proof W as [W1 W2 W3 W4 W5 W6 W7].
  assert (Hnone : forall p t, ts !! p = Some t -> user t -> ~ in_gen a t (g + 1)).
  { intros p t Hp Hu (low & Hlow & Hl). destruct (Hold p t Hp Hu) as [E|(g' & Hg' & low' & E & Hl')].
    - rewrite E in Hlow. nia.
    - rewrite E in Hlow. assert (g' = g + 1); [|lia].
      rewrite <- (proj1 (gen_split a g' low' ltac:(lia) ltac:(lia))), Hlow. apply gen_split; lia. }
  constructor; unfold num_asids, in_gen in *; simpl in *.
  - constructor; unfold num_asids; simpl; try done; [lia|by rewrite HL].
  - intros p t Hp Hu. destruct (Hold p t Hp Hu) as [?|(g' & Hg' & H)]; [by left|right].
    exists g'. split; [lia|done].
  - intros p t Hp Hu Hg. by destruct (Hnone p t).
  - intros p q t u Hp Hq Hne Hut Huu Hg. by destruct (Hnone p t).
Qed.

Lemma asid_granted_fresh g0 g a a0 ts p t r m' fl :
  asid_inv g a ts -> ts !! p = Some t -> 1 <= r < num_asids a ->
  wbit (asid_bitmap a) r = false -> upd_bits (asid_bitmap a) m' r 1 true ->
  asid_bits a = asid_bits a0 -> (g = g0 \/ (g = g0 + 1 /\ fl = true)) ->
  asid_granted g0 a0 (MkAsid (asid_bits a) (asid_generation a) m' r fl) ts
    (<[p := set_asid t (g * num_asids a + r)]> ts) p r.
Proof.
  intros Hi Hp Hr Hfree Hu Hb Hg. pose proof (asid_inv_fresh g a ts p t r m' fl Hi Hp Hr Hfree Hu) as Hi'.
  assert (Hna : num_asids a0 = num_asids a) by (unfold num_asids; by rewrite Hb).
  assert (Hrm : r mod num_asids a = r) by (apply Z.mod_small; lia).
  exists g. rewrite Hna, Hrm. split; [done|]. split; [done|]. split; [done|]. split; [lia|]. split.
  - simpl. destruct Hu as (_ & _ & ->); [|lia]. decide_cmp; done || lia.
  - intros q u Hq Hq2 Huser Hgen. rewrite lookup_insert_ne in Hq2 by done.
    destruct Hi as [_ _ Hm _]. specialize (Hm q u Hq2 Huser Hgen). intros E. rewrite E in Hm. congruence.
Qed.

Lemma asid_allocate_ok g a a0 ts p t :
  asid_inv g a ts -> ts !! p = Some t -> (g + 1) * num_asids a < 2 ^ 32 -> asid_bits a = asid_bits a0 ->
  exists a' t' id, asid_allocate a t (asid_generation a) = Ok (a', t', id) /\
    asid_granted g a0 a' ts (<[p := t']> ts) p id.
Proof.
  intros Hi Hp Hfit Hb0. pose proof Hi as [W _ _ _]. destruct (num_asids_bounds g a W) as [Hn Hb].
  pose proof W as [W1 W2 W3 W4 W5 W6 W7]. unfold asid_allocate, NUM_USER_ASIDS.
  rewrite shiftl1 by lia. fold (num_asids a).
  destruct (find_zero_spec (asid_bitmap a) (num_asids a) (cur_idx a) W5 W6) as (r & -> & _ & Hr); [lia..|].
  cbn [obind]. destruct Hr as [[-> _]|[Hr Hfree]].
  - rewrite (proj2 (Z.leb_le _ _)) by lia.
    destruct (bitmap_clear_ok (asid_bitmap a) 0 (num_asids a) W5) as (m1 & -> & Hu1); [lia..|]. cbn [obind].
    assert (Hgen : u32 (Z.shiftl (u32 (u32 (Z.shiftr (asid_generation a) (asid_bits a)) + 1)) (asid_bits a))
              = (g + 1) * num_asids a).
    { rewrite W2, Z.shiftr_div_pow2 by lia. fold (num_asids a). rewrite Z.div_mul by lia.
      assert (g < 2 ^ 32) by nia. rewrite (u32_id g) by lia.
      rewrite (u32_id (g + 1)) by nia. rewrite Z.shiftl_mul_pow2 by lia. fold (num_asids a).
      apply u32_id. lia. }
    rewrite Hgen. pose proof (asid_inv_rollover g a ts m1 Hi Hfit Hu1) as Hi1.
    set (a1 := MkAsid (asid_bits a) ((g + 1) * num_asids a) m1 (cur_idx a) true) in *.
    pose proof Hu1 as (L1 & O1 & B1).
    assert (Hna : num_asids a1 = num_asids a) by done.
    destruct (find_zero_spec m1 (num_asids a) 1 O1) as (r & Hr1 & _ & Hr); [by rewrite L1|lia..|].
    cbn [a1 asid_bitmap asid_bits asid_generation b_tlb_flush cur_idx].
    rewrite ?shiftl1 by lia. fold (num_asids a). rewrite Hr1. cbn [obind asid_bitmap asid_bits asid_generation b_tlb_flush].
    destruct Hr as [[_ Hall]|[Hr Hf]].
    { specialize (Hall 1 ltac:(lia)). rewrite B1 in Hall by lia. revert Hall. decide_cmp; done || lia. }
    apply negb_true_iff in Hf.
    change (asid_bitmap a1) with m1.
    destruct (bitmap_set_ok m1 r 1 O1) as (m2 & -> & Hu2); [lia|lia|rewrite L1; lia|lia|]. cbn [obind].
    eexists _, _, _. split; [done|].
    change (asid_generation a1) with ((g + 1) * num_asids a1).
    rewrite (lor_gen (g + 1) a1 r) by (apply Hi1 || lia). rewrite (u32_id r) by lia.
    apply (asid_granted_fresh g (g + 1) a1 a0 ts p t r m2 true Hi1 Hp); try done; lia || (right; lia || done).
  - rewrite (proj2 (Z.leb_gt _ _)) by lia. cbn [obind]. apply negb_true_iff in Hfree.
    destruct (bitmap_set_ok (asid_bitmap a) r 1 W5) as (m2 & -> & Hu2); [lia..|]. cbn [obind].
    eexists _, _, _. split; [done|]. rewrite W2, (lor_gen g a r) by (done || lia). rewrite (u32_id r) by lia.
    pose proof (asid_granted_fresh g g a a0 ts p t r m2 (b_tlb_flush a) Hi Hp ltac:(lia) Hfree Hu2 Hb0 ltac:(by left)) as H.
    by rewrite W2 in H.
Qed.

Lemma check_and_switch_ok g a ts p t :
  asid_inv g a ts -> ts !! p = Some t -> user t -> (g + 1) * num_asids a < 2 ^ 32 ->
  exists a' t' id, check_and_switch_context a t = Ok (a', t', id) /\
    asid_granted g a a' ts (<[p := t']> ts) p id.
Proof.
  intros Hi Hp Hu Hfit. pose proof Hi as [W Hold Hm Hd]. destruct (num_asids_bounds g a W) as [Hn Hb].
  pose proof W as [W1 W2 W3 W4 W5 W6 W7]. unfold check_and_switch_context.
  rewrite Hu. change (TASK_TYPE_USER =? TASK_TYPE_KERNEL) with false. cbv iota.
  destruct (Hold p t Hp Hu) as [E|(g' & Hg' & low & E & Hlow)].
  - rewrite E. destruct (asid_masks g a 0 W) as [_ ->]; [lia|]. rewrite Z.div_0_l, Z.mul_0_l by lia.
    rewrite (proj2 (Z.eqb_neq 0 _)) by lia. simpl (negb (0 =? 0)). cbv iota.
    by apply (asid_allocate_ok g).
  - assert (Hx : 0 <= asid t < 2 ^ 64) by nia.
    destruct (asid_masks g a (asid t) W Hx) as [Hmod Hdiv]. rewrite Hmod, Hdiv.
    destruct (gen_split a g' low ltac:(lia) ltac:(lia)) as [Hq Hr]. rewrite <- E in Hq, Hr.
    rewrite Hq, Hr, W2. destruct (Z.eqb_spec (g' * num_asids a) (g * num_asids a)) as [Eg|Ng].
    + assert (g' = g) as -> by nia. eexists _, _, _. split; [done|]. exists g.
      rewrite insert_id by done. rewrite Hr. split; [by left|]. split; [done|]. split; [done|]. split; [lia|].
      assert (Hcur : in_gen a t g) by (by exists low). split.
      * rewrite <- Hr. by apply (Hm p).
      * intros q u Hqp Hqu Huser Hgen. rewrite <- Hr. by apply (Hd q p).
    + rewrite (proj2 (Z.eqb_neq (asid t) 0)) by nia. simpl negb. cbv iota.
      destruct (test_and_set_bit_ok low (asid_bitmap a) W5) as (m' & -> & Hu'); [lia|]. cbn [obind].
      pose proof (asid_inv_more g a ts m' low Hi Hu') as Hi'.
      destruct (wbit (asid_bitmap a) low) eqn:Ew.
      * rewrite <- W2. by apply (asid_allocate_ok g (MkAsid _ _ _ _ _) a ts p t Hi' Hp).
      * eexists _, _, _. split; [done|].
        change (ASID_MASK _) with (ASID_MASK a). rewrite Hmod, Hr.
        rewrite (Z.lor_comm _ low), (lor_gen g a low) by (done || lia).
        exists g. rewrite insert_id by done.
        destruct (gen_split a g low ltac:(lia) ltac:(lia)) as [_ Hlm]. rewrite Hlm.
        split; [by left|]. split; [by rewrite W2 in Hi'|]. split; [done|]. split; [lia|]. split.
        -- simpl. destruct Hu' as (_ & _ & ->); [|lia]. decide_cmp; done || lia.
        -- intros q u Hqp Hqu Huser Hgen Heq. specialize (Hm q u Hqu Huser Hgen). rewrite Heq in Hm. congruence.
Qed.

(** ** Switching tasks *)

(** The invariant looks at the type and the identifier of a task only. *)
Lemma asid_inv_view g a ts ts' :
  (forall p, (fun t => (type t, asid t)) <$> ts' !! p = (fun t => (type t, asid t)) <$> ts !! p) ->
  asid_inv g a ts -> asid_inv g a ts'.
Proof.
  intros Hv [W Ho Hm Hd].
  assert (Hback : forall p t', ts' !! p = Some t' -> exists t, ts !! p = Some t /\ type t = type t' /\ asid t = asid t').
  { intros p t' Hp. specialize (Hv p). rewrite Hp in Hv. simpl in Hv. symmetry in Hv.
    apply fmap_Some in Hv as (t & Ht & E). simplify_eq. by exists t. }
  constructor; [done|..]; unfold user, in_gen in *.
  - intros p t' Hp. destruct (Hback p t' Hp) as (t & Ht & <- & <-). by apply (Ho p).
  - intros p t' Hp. destruct (Hback p t' Hp) as (t & Ht & <- & <-). by apply (Hm p).
  - intros p q t' u' Hp Hq. destruct (Hback p t' Hp) as (t & Ht & <- & <-).
    destruct (Hback q u' Hq) as (u & Hu & <- & <-). by apply (Hd p q).
Qed.

Lemma asid_allocate_shape a t gen a' t' id :
  asid_allocate a t gen = Ok (a', t', id) -> t' = set_asid t (asid t').
Proof.
  unfold asid_allocate. destruct (find_next_zero_bit _ _ _) as [n| | |]; try done. cbn [obind].
  match goal with |- (obind ?m _) = _ -> _ => destruct m as [[b i]| | |] end; try done. cbn [obind].
  destruct (bitmap_set _ _ _) as [m| | |]; try done. cbn [obind]. intros; by simplify_eq.
Qed.

Lemma set_asid_id t : set_asid t (asid t) = t.
Proof. by destruct t. Qed.

Lemma check_and_switch_shape a t a' t' id :
  check_and_switch_context a t = Ok (a', t', id) -> t' = set_asid t (asid t').
Proof.
  unfold check_and_switch_context.
  destruct (type t =? TASK_TYPE_KERNEL); [intros; simplify_eq; by rewrite set_asid_id|].
  destruct (Z.land _ _ =? _); [intros; simplify_eq; by rewrite set_asid_id|].
  destruct (negb _); [|by apply asid_allocate_shape].
  destruct (test_and_set_bit _ _) as [[m [|]]| | |]; try done; cbn [obind]; [by apply asid_allocate_shape|].
  intros; simplify_eq; by rewrite set_asid_id.
Qed.

(** A switch between known tasks returns; it changes the target's identifier
    only, and keeps the identifiers in order. *)
Lemma task_switch_ok g a h ts p from to :
  asid_inv g a ts -> ts !! p = Some to -> (user to \/ type to = TASK_TYPE_KERNEL) ->
  (g + 1) * num_asids a < 2 ^ 32 ->
  exists a' h' to' g', task_switch a h from to = Ok (a', h', to') /\ to' = set_asid to (asid to') /\
    (g' = g \/ g' = g + 1) /\ asid_inv g' a' (<[p := to']> ts) /\ asid_bits a' = asid_bits a.
Proof.
  intros Hi Hp Hty Hroom. unfold task_switch.
  assert (H : exists a' to' id g', check_and_switch_context a to = Ok (a', to', id) /\ (g' = g \/ g' = g + 1) /\
            asid_inv g' a' (<[p := to']> ts) /\ asid_bits a' = asid_bits a).
  { destruct Hty as [Hu|Hk].
    - destruct (check_and_switch_ok g a ts p to Hi Hp Hu Hroom) as (a' & t' & id & E & g' & Hg' & Hi' & Hb & _).
      exists a', t', id, g'. split; [done|]. split; [tauto|done].
    - exists a, to, 0, g. unfold check_and_switch_context. rewrite Hk. simpl.
      rewrite insert_id by done. auto. }
  destruct H as (a' & to' & id & g' & E & Hg' & Hi' & Hb). pose proof (check_and_switch_shape _ _ _ _ _ E) as Hs.
  rewrite E. cbn [obind]. destruct (negb _); [|by exists a', h, to', g'].
  assert (Has : exists h', as_switch h (addrspace to') (type to') (u64 (Z.shiftl id (64 - asid_bits a'))) = Ok h').
  { rewrite Hs. simpl. unfold as_switch. destruct Hty as [->| ->]; by eexists. }
  destruct Has as (h' & ->). cbn [obind]. destruct (b_tlb_flush a'); [|by exists a', h', to', g'].
  eexists _, _, _, g'. split; [done|]. split; [done|]. split; [done|]. split; [|done].
  destruct Hi' as [[W1 W2 W3 W4 W5 W6 W7] ? ? ?]. constructor; try done.
Qed.

(** ** Properties *)

(** The control block that [task_create] fills in. *)
Definition fresh_tcb (id ent : Z) (nm : option (list Z)) (priority stk stk_size ty as_ : Z) : tcb :=
  MkTcb id 0 priority priority ent TSTATE_TASK_INACTIVE (name (task_setup_name (MkTcb 0 0 0 0 0 TSTATE_TASK_INVALID [] 0 0 0 0 0 [] 0 zero_mm 0) nm))
    stk stk_size 0 CONFIG_RR_INTERVAL ty (context_set_stack (context_set_entry (context_init [] ty) ent) stk stk_size) as_ zero_mm 0.

Lemma task_create_ok st s p ent nm priority stk stk_size ty as_ :
  tid_wf st -> p ∈ dom s -> p + MM_LINK_OFFSET ∈ dom s -> priority < CONFIG_MAX_TASK_PRIORITY ->
  (exists j, g_lasttid st < j < CONFIG_MAX_TASKS /\ wbit (task_bitmap st) j = false) ->
  exists m' s' id, let st' := MkTid m' id in
    task_create st s p ent nm priority stk stk_size ty as_ = Ok (st', s', fresh_tcb id ent nm priority stk stk_size ty as_) /\
    tid_wf st' /\ g_lasttid st < id < CONFIG_MAX_TASKS /\ wbit (task_bitmap st) id = false /\
    (forall j, g_lasttid st < j < id -> wbit (task_bitmap st) j = true) /\ upd_bits (task_bitmap st) m' id 1 true /\
    dlist s' p [] /\ dlist s' (p + MM_LINK_OFFSET) [] /\ touches s s' [p; p + MM_LINK_OFFSET].
Proof.
  intros W Hdp Hdm Hp (j & Hj & Hfree). unfold task_create, task_init.
  destruct (INIT_LIST_HEAD_ok s p Hdp) as (s1 & -> & D1 & T1). cbn [obind].
  destruct (INIT_LIST_HEAD_ok s1 (p + MM_LINK_OFFSET)) as (s2 & -> & D2 & T2); [by rewrite (proj1 T1)|].
  cbn [obind].
  match goal with |- context [task_assign_tid st ?x] => set (t0 := x) end.
  destruct (task_assign_tid_cases st t0 W) as [(id & m' & -> & Hid & Hf & Hbelow & Hu)|[_ Hno]];
    [|rewrite Hno in Hfree by done; done].
  cbn [obind]. rewrite (proj2 (Z.ltb_lt _ _)) by lia. exists m', s2, id. split; [done|].
  destruct W as [Hw Hl Hlast]. pose proof Hu as (HL & HW & HB).
  split; [constructor; simpl; [done|by rewrite HL|lia]|]. do 4 (split; [done|]). split.
  { eapply dlist_frame; [exact D1|exact T2|]. intros x Hx Hm.
    apply list_elem_of_singleton in Hx, Hm. subst x. unfold MM_LINK_OFFSET in Hm. lia. }
  split; [done|]. eapply touches_trans; [eapply touches_mono; [exact T1|]|eapply touches_mono; [exact T2|]];
    intros x Hx%list_elem_of_singleton; rewrite !elem_of_cons; tauto.
Qed.

Module TaskSpec.

(** C31: live tasks have distinct identifiers.  After any sequence of
    [task_assign_tid] and releases of live identifiers from boot, the live
    identifiers are pairwise distinct, below [CONFIG_MAX_TASKS], and exactly the
    set bits of the bitmap. *)
Theorem live_tids_distinct st ids :
  tid_steps (tid_initial, []) (st, ids) ->
  NoDup ids /\ Forall (fun j => 0 <= j < CONFIG_MAX_TASKS) ids /\
  forall j, 0 <= j < CONFIG_MAX_TASKS -> wbit (task_bitmap st) j = true <-> j ∈ ids.
Proof.
  intros Hs. destruct (tid_steps_inv _ _ Hs tid_initial_inv) as [_ H1 H2 H3]. done.
Qed.

Definition blank : tcb := MkTcb 0 0 10 10 0 TSTATE_TASK_INACTIVE [] 0 0 0 10 TASK_TYPE_USER [] 0 zero_mm 0.

(** Two tasks are created, the first one goes, and its identifier is reused. *)
Lemma live_tids_distinct_witness : exists st,
  tid_steps (tid_initial, []) (st, [0; 1]) /\ NoDup [0; 1].
Proof.
  assert (H : exists st, tid_steps (tid_initial, []) (st, [0; 1])).
  { eexists. eapply tid_snoc; [eapply tid_snoc; [eapply tid_snoc; [eapply tid_snoc; [apply tid_refl|]|]|]|].
    - eapply (tid_assign _ _ blank _ (set_tid blank 0) 0); [vm_compute; reflexivity|done].
    - eapply (tid_assign _ _ blank _ (set_tid blank 1) 1); [vm_compute; reflexivity|done].
    - eapply (tid_release _ [1] [] 0). vm_compute. reflexivity.
    - eapply (tid_assign _ _ blank _ (set_tid blank 0) 0); [vm_compute; reflexivity|done]. }
  destruct H as [st H]. exists st. split; [exact H|]. exact (proj1 (live_tids_distinct st [0; 1] H)).
Defined.

(** C19: no two user tasks share an address space identifier.  In any table of
    user tasks that satisfies the allocator's invariant, and as long as the next
    generation still fits in 32 bits, switching to one of them yields a non-zero
    identifier that is marked in use and differs from that of every other task of the
    current generation; the invariant holds again afterwards, and when the
    identifiers run out and a new generation starts a TLB flush is requested. *)
Theorem asid_exclusive g a ts p t :
  asid_inv g a ts -> ts !! p = Some t -> user t -> (g + 1) * num_asids a < 2 ^ 32 ->
  exists a' t' id, check_and_switch_context a t = Ok (a', t', id) /\
    asid_granted g a a' ts (<[p := t']> ts) p id.
Proof. apply check_and_switch_ok. Qed.

Definition two_tasks : gmap Z tcb := {[ 1 := blank; 2 := set_asid blank (0x100 + 1) ]}.

Definition small_asids : asid_state := MkAsid 8 0x100 [2; 0; 0; 0] 1 false.

Lemma asid_exclusive_witness :
  exists a' t' id, check_and_switch_context small_asids blank = Ok (a', t', id) /\
    asid_granted 1 small_asids a' two_tasks (<[1 := t']> two_tasks) 1 id.
Proof.
  apply (asid_exclusive 1 small_asids two_tasks 1 blank); [|by vm_compute..].
  assert (Hcase : forall p t, two_tasks !! p = Some t -> (p = 1 /\ t = blank) \/ (p = 2 /\ t = set_asid blank 257)).
  { intros p t H. unfold two_tasks in H.
    apply lookup_insert_Some in H as [[<- <-]|[_ H]]; [by left|].
    apply lookup_singleton_Some in H as [<- <-]. by right. }
  assert (Hblank : forall g', ~ (1 <= g' /\ in_gen small_asids blank g')).
  { intros g' [Hg (low & E & Hl)]. unfold num_asids, small_asids in *. simpl in *. lia. }
  constructor.
  - constructor; [by left|done|done|by vm_compute|by repeat (apply Forall_cons; split)|by vm_compute|by vm_compute].
  - intros p t Hp _. destruct (Hcase p t Hp) as [[-> ->]|[-> ->]]; [by left|right].
    exists 1. split; [lia|]. exists 1. by vm_compute.
  - intros p t Hp _ Hg. destruct (Hcase p t Hp) as [[-> ->]|[-> ->]]; [|by vm_compute].
    by destruct (Hblank 1).
  - intros p q t u Hp Hq Hne _ _ Gt Gu.
    destruct (Hcase p t Hp) as [[-> ->]|[-> ->]]; [by destruct (Hblank 1)|].
    destruct (Hcase q u Hq) as [[-> ->]|[-> ->]]; [by destruct (Hblank 1)|done].
Defined.

(** The reuse path returns the identifier without storing it in the task, so
    the next switch of the same task allocates another one. *)
Example asid_reuse_not_stored :
  check_and_switch_context (MkAsid 8 0x200 [0; 0; 0; 0] 1 false) (set_asid blank 0x105)
  = Ok (MkAsid 8 0x200 [32; 0; 0; 0] 1 false, set_asid blank 0x105, 0x205).
Proof. by vm_compute. Qed.

(** The generation is computed in 32 bits: at the last one it wraps to 0, and
    a task that never had an identifier then runs under identifier 0. *)
Example asid_generation_wraps :
  asid_allocate (MkAsid 16 0xffff0000 (replicate 1024 ONES64) 1 false) blank 0xffff0000
  = Ok (MkAsid 16 0 (2 :: replicate 1023 0) 1 true, set_asid blank 1, 1).
Proof. by vm_compute. Qed.

(** Identifiers below the last one handled are not searched: with identifier 5
    free, allocation fails when the last one was the highest. *)
Example tid_not_wrapped :
  task_assign_tid (MkTid (0xffffffffffffffdf :: replicate 2047 ONES64) (CONFIG_MAX_TASKS - 1)) blank
  = Ok (MkTid (0xffffffffffffffdf :: replicate 2047 ONES64) (CONFIG_MAX_TASKS - 1), blank, INVALID_TASK_ID).
Proof. by vm_compute. Qed.

(** [task_create] builds a task that is ready to be attached: inactive, with
    the asked priority below the limit, a fresh identifier, a saved frame whose
    program counter is the entry, whose stack pointer is the end of the stack
    and whose mode is that of the task type, and a name that ends in NUL. *)
Theorem task_create_frame st s p ent nm priority stk stk_size ty as_ :
  tid_wf st -> p ∈ dom s -> p + MM_LINK_OFFSET ∈ dom s -> 0 <= priority < CONFIG_MAX_TASK_PRIORITY ->
  (exists j, g_lasttid st < j < CONFIG_MAX_TASKS /\ wbit (task_bitmap st) j = false) ->
  exists st' s' t', task_create st s p ent nm priority stk stk_size ty as_ = Ok (st', s', t') /\
    tid_wf st' /\ wbit (task_bitmap st) (tid t') = false /\ wbit (task_bitmap st') (tid t') = true /\
    dlist s' p [] /\ dlist s' (p + MM_LINK_OFFSET) [] /\
    task_state t' = TSTATE_TASK_INACTIVE /\ sched_priority t' = priority /\ init_priority t' = priority /\
    reg (ctx t') PC = ent /\ reg (ctx t') SP = u64 (stk + stk_size) /\
    reg (ctx t') PSTATE = (if ty =? TASK_TYPE_USER then PSTATE_USER else PSTATE_KERNEL) /\
    type t' = ty /\ addrspace t' = as_ /\ last (name t') = Some 0 /\ asid t' = 0.
Proof.
  intros W Hdp Hdm Hp Hfree.
  destruct (task_create_ok st s p ent nm priority stk stk_size ty as_ W Hdp Hdm) as (m' & s' & id & H1 & H2 & H3 & H4 & _ & (_ & _ & H5) & H6 & H7 & _);
    [lia|done|].
  eexists _, s', _. split; [exact H1|]. split; [done|]. split; [done|].
  split; [simpl; rewrite H5 by (destruct W; lia); decide_cmp; done || lia|]. split; [done|]. split; [done|].
  unfold fresh_tcb, task_setup_name, set_name, context_init. cbn [ctx name type addrspace asid task_state sched_priority init_priority].
  split_and!; try done; destruct (ty =? TASK_TYPE_USER); try done; apply last_snoc.
Qed.

Definition tcb_store : store := {[ 0x5000 := MkNode 0 0; 0x5000 + MM_LINK_OFFSET := MkNode 0 0 ]}.

Lemma task_create_frame_witness :
  exists st' s' t', task_create tid_initial tcb_store 0x5000 0x1000 (Some [114; 111; 111; 116]) 10 0x8000 0x2000 0 77
      = Ok (st', s', t') /\ reg (ctx t') SP = u64 (0x8000 + 0x2000).
Proof.
  destruct (task_create_frame tid_initial tcb_store 0x5000 0x1000 (Some [114; 111; 111; 116]) 10 0x8000 0x2000 0 77)
    as (st' & s' & t' & H1 & _ & _ & _ & _ & _ & _ & _ & _ & _ & H2 & _).
  - apply tid_initial_inv.
  - apply elem_of_dom. by eexists.
  - apply elem_of_dom. by eexists.
  - by vm_compute.
  - exists 0. split; [by vm_compute|]. apply wbit_replicate_zero.
  - exists st', s', t'. exact (conj H1 H2).
Defined.

End TaskSpec.
