(* ===== verification/Sched.v ===== *)
(** * The scheduler (os/core/sched/scheduler.c)

    A task is in at most one queue: one of the 32 ready queues, one per
    priority, or the pending queue, which holds the running task and the
    sleeping ones.  A two-level bitmap says which priorities have ready tasks.
    The queues are the intrusive lists of [KList], so that the routines are
    modelled down to the pointers; the theorems relate them to plain lists. *)

From Stdlib Require Import ZArith Lia Bool.
From stdpp Require Import base numbers list gmap.
From S2P Require Import Prelude Bitmap KList Task.

(** ** Where the linker puts the queue heads *)

Class KernelLayout : Type := {
  g_readytorun : Z;     (* address of the array of ready queues *)
  g_pendingtasks : Z    (* address of the pending queue *)
}.

(** ** State *)

Record sched_state : Type := MkSched {
  links : store;                (* every [link_head] of the kernel *)
  tasks : gmap Z tcb;           (* control blocks, by address *)
  g_current_task : Z;
  g_priority_bitmap : list Z;   (* bytes *)
  g_priority_group : Z;
  tids : tid_state;
  asids : asid_state;
  hw : mmu
}.

Definition set_links (k : sched_state) (s : store) : sched_state :=
  MkSched s (tasks k) (g_current_task k) (g_priority_bitmap k) (g_priority_group k) (tids k) (asids k) (hw k).

Definition set_tasks (k : sched_state) (ts : gmap Z tcb) : sched_state :=
  MkSched (links k) ts (g_current_task k) (g_priority_bitmap k) (g_priority_group k) (tids k) (asids k) (hw k).

Definition set_current (k : sched_state) (p : Z) : sched_state :=
  MkSched (links k) (tasks k) p (g_priority_bitmap k) (g_priority_group k) (tids k) (asids k) (hw k).

Definition set_bits (k : sched_state) (bm : list Z) (grp : Z) : sched_state :=
  MkSched (links k) (tasks k) (g_current_task k) bm grp (tids k) (asids k) (hw k).

Definition get_task (k : sched_state) (p : Z) : outcome tcb :=
  match tasks k !! p with Some t => Ok t | None => Fault end.

Definition put_task (k : sched_state) (p : Z) (t : tcb) : sched_state :=
  set_tasks k (<[p := t]> (tasks k)).

Definition MAX_PRIORITY_BITMAP_INDEX : Z := CONFIG_MAX_TASK_PRIORITY / 8.

(** The sixteen rows of the table differ in their first entry only. *)
Definition g_priority_map : list Z :=
  flat_map (fun h => [h; 0; 1; 0; 2; 0; 1; 0; 3; 0; 1; 0; 2; 0; 1; 0])
    [0; 4; 5; 4; 6; 4; 5; 4; 7; 4; 5; 4; 6; 4; 5; 4].

(** ** Operations *)

Section Operations.
Context `{KernelLayout}.

(** [&g_readytorun[p].tasks_head] *)
Definition ready_head (p : Z) : Z := g_readytorun + 16 * p.

(** [g_priority_group |= bit(index); g_priority_bitmap[index] |= bit(remain)] *)
Definition priority_set (k : sched_state) (prio : Z) : outcome sched_state :=
  let index := prio / 8 in
  let remain := prio mod 8 in
  if MAX_PRIORITY_BITMAP_INDEX <? index then Ok k
  else
    let grp := u8 (Z.lor (g_priority_group k) (Z.shiftl 1 index)) in
    let! b := aget (g_priority_bitmap k) index in
    let! bm := aset (g_priority_bitmap k) index (u8 (Z.lor b (Z.shiftl 1 remain))) in
    Ok (set_bits k bm grp).

(** The bits of a priority are cleared once its queue is empty. *)
Definition priority_clear (k : sched_state) (prio : Z) : outcome sched_state :=
  let index := prio / 8 in
  let remain := prio mod 8 in
  if MAX_PRIORITY_BITMAP_INDEX <? index then Ok k
  else
    let! e := list_empty (links k) (ready_head prio) in
    if e then
      let! b := aget (g_priority_bitmap k) index in
      let b' := u8 (Z.land b (not64 (Z.shiftl 1 remain))) in
      let! bm := aset (g_priority_bitmap k) index b' in
      let grp := if b' =? 0 then u8 (Z.land (g_priority_group k) (not64 (Z.shiftl 1 index)))
                 else g_priority_group k in
      Ok (set_bits k bm grp)
    else Ok k.

Definition sched_attach (k : sched_state) (p : Z) : outcome sched_state :=
  assert! (negb (p =? 0)) in
  let! t := get_task k p in
  let k := put_task k p (set_task_state t TSTATE_TASK_READYTORUN) in
  let! s := list_add_tail (links k) p (ready_head (sched_priority t)) in
  priority_set (set_links k s) (sched_priority t).

Fixpoint init_heads (n : nat) (s : store) (i : Z) : outcome store :=
  match n with
  | O => Ok s
  | S n => let! s := INIT_LIST_HEAD s (ready_head i) in init_heads n s (i + 1)
  end.

Definition sched_init (k : sched_state) (idle_task : Z) : outcome sched_state :=
  assert! (negb (idle_task =? 0)) in
  let! s := init_heads (Z.to_nat CONFIG_MAX_TASK_PRIORITY) (links k) 0 in
  let! s := INIT_LIST_HEAD s g_pendingtasks in
  let! k := sched_attach (set_links k s) idle_task in
  Ok (set_current k idle_task).

Definition sched_detach (k : sched_state) (p : Z) : outcome sched_state :=
  assert! (negb (p =? 0)) in
  let! t := get_task k p in
  let k := put_task k p (set_task_state t TSTATE_TASK_INACTIVE) in
  let! ids := task_release_tid (tids k) (tid t) in
  let k := MkSched (links k) (tasks k) (g_current_task k) (g_priority_bitmap k) (g_priority_group k)
             ids (asids k) (hw k) in
  let! e := list_empty (links k) (ready_head (sched_priority t)) in
  let! k := (if e then Ok k else let! s := list_del (links k) p in Ok (set_links k s)) in
  priority_clear k (sched_priority t).

Definition sched_unblock (k : sched_state) (p : Z) : outcome sched_state :=
  assert! (negb (p =? 0)) in
  let! t := get_task k p in
  let k := put_task k p (set_task_state t TSTATE_TASK_READYTORUN) in
  let! s := list_add (links k) p (ready_head (sched_priority t)) in
  priority_set (set_links k s) (sched_priority t).

Definition sched_block (k : sched_state) (p : Z) : outcome sched_state :=
  assert! (negb (p =? 0)) in
  let! s := list_del_init (links k) p in
  let! t := get_task k p in
  let k := put_task (set_links k s) p (set_task_state t TSTATE_TASK_PENDING) in
  priority_clear k (sched_priority t).

(** An out-of-range priority returns before the task is put in the pending queue. *)
Definition sched_sleep (k : sched_state) (p : Z) : outcome sched_state :=
  assert! (negb (p =? 0)) in
  let! s := list_del_init (links k) p in
  let! t := get_task k p in
  let k := put_task (set_links k s) p (set_task_state t TSTATE_TASK_SLEEPING) in
  if MAX_PRIORITY_BITMAP_INDEX <? sched_priority t / 8 then Ok k
  else
    let! k := priority_clear k (sched_priority t) in
    let! s := list_add_tail (links k) p g_pendingtasks in
    Ok (set_links k s).

Definition sched_wake (k : sched_state) (p : Z) : outcome sched_state :=
  let! s := list_del_init (links k) p in
  let! t := get_task k p in
  priority_set (set_links k s) (sched_priority t).

(** [time i] is the counter as read by turn [i] of the loop. *)
Fixpoint pending_loop (fuel : nat) (time : nat -> Z) (i : nat) (k : sched_state) (pos n : Z)
    : outcome sched_state :=
  match fuel with
  | O => Diverge
  | S fuel =>
      if pos =? g_pendingtasks then Ok k
      else
        let! t := get_task k pos in
        let remain_ticks := s64 (readytime t - time i) in
        let! k := (if remain_ticks <? 0 then
                     let! k := sched_wake k pos in sched_attach k pos
                   else Ok k) in
        let! n' := get_next (links k) n in
        pending_loop fuel time (S i) k n n'
  end.

Definition sched_pending_check (fuel : nat) (time : nat -> Z) (k : sched_state) : outcome sched_state :=
  let! pos := get_next (links k) g_pendingtasks in
  let! n := get_next (links k) pos in
  pending_loop fuel time 0 k pos n.

(** The body of the search loop: [pos] becomes the current task and moves from
    its ready queue to the tail of the pending queue. *)
Definition schedule_switch (k : sched_state) (cur pos : Z) : outcome sched_state :=
  let! t := get_task k pos in
  let k := set_current (put_task k pos (set_task_state t TSTATE_TASK_RUNNING)) pos in
  let! s := list_del (links k) pos in
  let! s := list_add_tail s pos g_pendingtasks in
  let k := set_links k s in
  let! from := get_task k cur in
  let! to := get_task k pos in
  let! (a, h, to) := task_switch (asids k) (hw k) from to in
  Ok (MkSched (links k) (<[pos := to]> (tasks k)) (g_current_task k) (g_priority_bitmap k)
        (g_priority_group k) (tids k) a h).

(** The search for the first task of the queue that is not the current one. *)
Fixpoint schedule_loop (fuel : nat) (k : sched_state) (cur head pos n : Z) : outcome sched_state :=
  match fuel with
  | O => Diverge
  | S fuel =>
      if pos =? head then Ok k
      else if negb (cur =? pos) then schedule_switch k cur pos
      else
        let! n' := get_next (links k) n in
        schedule_loop fuel k cur head n n'
  end.

(** The priority that the two-level bitmap designates. *)
Definition highest_priority (k : sched_state) : outcome Z :=
  let! row := aget g_priority_map (g_priority_group k) in
  let! re := aget (g_priority_bitmap k) row in
  let! col := aget g_priority_map re in
  Ok (u8 (row * 8 + col)).

Definition schedule (fuel : nat) (time : nat -> Z) (k : sched_state) : outcome sched_state :=
  let cur_task := g_current_task k in
  let! k := sched_pending_check fuel time k in
  let! prio := highest_priority k in
  let head := ready_head prio in
  let! pos := get_next (links k) head in
  let! n := get_next (links k) pos in
  schedule_loop fuel k cur_task head pos n.
End Operations.

(** ** The queues as a family of lists

    Queue [-1] is the pending queue, queue [i] the ready queue of priority [i]. *)

Section Queues.
Context `{KernelLayout}.

Definition PEND : Z := -1.

Definition qhead (i : Z) : Z := if i =? PEND then g_pendingtasks else ready_head i.

Definition qidx (i : Z) : Prop := -1 <= i < 32.

Definition upd (qs : Z -> list Z) (i : Z) (l : list Z) : Z -> list Z :=
  fun j => if j =? i then l else qs j.

(** The linker gives the pending queue its own place. *)
Definition layout_ok : Prop := forall p, 0 <= p < 32 -> g_readytorun + 16 * p <> g_pendingtasks.

Record queues (s : store) (qs : Z -> list Z) : Prop := {
  q_dlist : forall i, qidx i -> dlist s (qhead i) (qs i);
  q_once : forall i j x, qidx i -> qidx j -> x ∈ qs i -> x ∈ qs j -> i = j;
  q_heads : forall i j, qidx i -> qidx j -> qhead i ∉ qs j
}.

Definition queued (qs : Z -> list Z) (x : Z) : Prop := exists i, qidx i /\ x ∈ qs i.

Definition is_head (x : Z) : Prop := exists i, qidx i /\ x = qhead i.

Lemma upd_eq qs i l : upd qs i l i = l.
Proof. unfold upd. by rewrite Z.eqb_refl. Qed.

Lemma upd_ne qs i j l : j <> i -> upd qs i l j = qs j.
Proof. intros. unfold upd. by rewrite (proj2 (Z.eqb_neq _ _)). Qed.

Lemma qhead_inj i j : layout_ok -> qidx i -> qidx j -> qhead i = qhead j -> i = j.
Proof.
  intros HL Hi Hj. unfold qhead, qidx, PEND, ready_head in *.
  destruct (Z.eqb_spec i (-1)), (Z.eqb_spec j (-1)); try lia; intros E; exfalso.
  - apply (HL j); lia.
  - apply (HL i); lia.
Qed.

(** A change inside queue [i], plus one free node, does not reach queue [j]. *)
Lemma queues_frame s s' qs i j ps :
  layout_ok -> queues s qs -> qidx i -> qidx j -> j <> i -> touches s s' ps ->
  (forall x, x ∈ ps -> x ∈ qhead i :: qs i \/ (~ queued qs x /\ ~ is_head x)) ->
  dlist s' (qhead j) (qs j).
Proof.
  intros HL [Hd Ho Hh] Hi Hj Hne Ht Hps. eapply dlist_frame; [by apply Hd|exact Ht|].
  intros x Hx Hxp. specialize (Hps x Hxp). apply elem_of_cons in Hx as [->|Hx].
  - destruct Hps as [Hps|[_ Hps]]; [|apply Hps; by exists j].
    apply elem_of_cons in Hps as [E|E]; [by apply Hne, qhead_inj|by apply (Hh j i)].
  - destruct Hps as [Hps|[Hps _]]; [|apply Hps; by exists j].
    apply elem_of_cons in Hps as [->|E]; [by apply (Hh i j)|]. by apply Hne, (Ho j i x).
Qed.

Lemma queues_upd s s' qs i l :
  queues s qs -> qidx i -> (forall j, qidx j -> j <> i -> dlist s' (qhead j) (qs j)) ->
  dlist s' (qhead i) l ->
  (forall x, x ∈ l -> x ∈ qs i \/ (~ queued qs x /\ ~ is_head x)) ->
  queues s' (upd qs i l).
Proof.
  intros [Hd Ho Hh] Hi Hoth Hl Hmem. constructor.
  - intros j Hj. destruct (decide (j = i)) as [->|]; [by rewrite upd_eq|rewrite upd_ne by done; by apply Hoth].
  - intros j1 j2 x H1 H2. unfold upd.
    destruct (Z.eqb_spec j1 i) as [->|N1], (Z.eqb_spec j2 i) as [->|N2]; intros X1 X2; try done.
    + destruct (Hmem x X1) as [Hx|[Hx _]]; [by apply (Ho i j2 x)|]. destruct Hx. by exists j2.
    + destruct (Hmem x X2) as [Hx|[Hx _]]; [by apply (Ho j1 i x)|]. destruct Hx. by exists j1.
    + by apply (Ho j1 j2 x).
  - intros j1 j2 H1 H2. unfold upd. destruct (Z.eqb_spec j2 i) as [->|N2]; [|by apply Hh].
    intros X. destruct (Hmem _ X) as [Hx|[_ Hx]]; [by apply (Hh j1 i)|]. apply Hx. by exists j1.
Qed.

Lemma queues_add_tail s qs i x :
  layout_ok -> queues s qs -> qidx i -> x ∈ dom s -> ~ queued qs x -> ~ is_head x ->
  exists s', list_add_tail s x (qhead i) = Ok s' /\ queues s' (upd qs i (qs i ++ [x])) /\ dom s' = dom s.
Proof.
  intros HL Hq Hi Hx Hnq Hnh.
  destruct (list_add_tail_ok s (qhead i) (qs i) x) as (s' & Hs & Hd & Ht); [by apply Hq|done| |].
  { rewrite elem_of_cons. intros [->|?]; [apply Hnh|apply Hnq]; by exists i. }
  exists s'. split; [done|]. split; [|apply Ht]. apply (queues_upd s); try done.
  - intros j Hj Hne. apply (queues_frame s s' qs i j (x :: qhead i :: qs i)); try done.
    intros y [->|Hy]%elem_of_cons; [by right|by left].
  - intros y [Hy|Hy]%elem_of_app; [by left|]. apply list_elem_of_singleton in Hy as ->. by right.
Qed.

Lemma queues_add s qs i x :
  layout_ok -> queues s qs -> qidx i -> x ∈ dom s -> ~ queued qs x -> ~ is_head x ->
  exists s', list_add s x (qhead i) = Ok s' /\ queues s' (upd qs i (x :: qs i)) /\ dom s' = dom s.
Proof.
  intros HL Hq Hi Hx Hnq Hnh.
  destruct (list_add_ok s (qhead i) (qs i) x) as (s' & Hs & Hd & Ht); [by apply Hq|done| |].
  { rewrite elem_of_cons. intros [->|?]; [apply Hnh|apply Hnq]; by exists i. }
  exists s'. split; [done|]. split; [|apply Ht]. apply (queues_upd s); try done.
  - intros j Hj Hne. apply (queues_frame s s' qs i j (x :: qhead i :: qs i)); try done.
    intros y [->|Hy]%elem_of_cons; [by right|by left].
  - intros y [->|Hy]%elem_of_cons; [by right|by left].
Qed.

(** Removal of [x] from queue [i], by [list_del] or [list_del_init]. *)
Lemma queues_remove s s' qs i l1 x l2 :
  layout_ok -> queues s qs -> qidx i -> qs i = l1 ++ x :: l2 ->
  dlist s' (qhead i) (l1 ++ l2) -> touches s s' (qhead i :: l1 ++ x :: l2) ->
  queues s' (upd qs i (l1 ++ l2)) /\ ~ queued (upd qs i (l1 ++ l2)) x /\ ~ is_head x /\ x ∈ dom s' /\
  dom s' = dom s.
Proof.
  intros HL Hq Hi E Hd Ht. pose proof Hq as [Hd0 Ho Hh].
  assert (Hxi : x ∈ qs i) by (rewrite E, elem_of_app, elem_of_cons; tauto).
  assert (Hnh : ~ is_head x) by (intros (j & Hj & ->); by apply (Hh j i)).
  split_and!.
  - apply (queues_upd s); try done.
    + intros j Hj Hne. apply (queues_frame s s' qs i j (qhead i :: l1 ++ x :: l2)); try done.
      intros y Hy. left. by rewrite E.
    + intros y Hy. left. rewrite E. rewrite elem_of_app, elem_of_cons. rewrite elem_of_app in Hy. tauto.
  - intros (j & Hj & Hx). unfold upd in Hx. destruct (Z.eqb_spec j i) as [->|Hne].
    + specialize (Hd0 i Hi) as [Hnd _]. rewrite E in Hnd. apply NoDup_cons in Hnd as [_ Hnd].
      rewrite <- Permutation_middle in Hnd. by apply NoDup_cons in Hnd as [? _].
    + apply Hne. by apply (Ho j i x).
  - done.
  - rewrite (proj1 Ht). eapply dlist_dom; [by apply Hd0|]. by right.
  - apply Ht.
Qed.
End Queues.

(** ** The two-level bitmap *)

(** Is the bit of priority [p] set? *)
Definition pbit (bm : list Z) (p : Z) : bool :=
  match bm !! Z.to_nat (p / 8) with Some b => Z.testbit b (p mod 8) | None => false end.

Record bits_ok (bm : list Z) (grp : Z) : Prop := {
  bits_len : length bm = 4%nat;
  bits_bytes : Forall (fun b => 0 <= b < 256) bm;
  bits_group : 0 <= grp < 16;
  bits_sum : forall i b, bm !! i = Some b -> Z.testbit grp (Z.of_nat i) = negb (b =? 0)
}.

Lemma split8 p : 0 <= p < 32 -> p = 8 * (p / 8) + p mod 8 /\ 0 <= p mod 8 < 8 /\ 0 <= p / 8 < 4.
Proof.
  intros. pose proof (Z.div_mod p 8). pose proof (Z.mod_pos_bound p 8).
  assert (0 <= p / 8) by (apply Z.div_pos; lia). lia.
Qed.

(** Each table entry is the position of the lowest set bit of its index. *)
Lemma priority_map_ctz x : 1 <= x < 256 -> aget g_priority_map x = Ok (ctz_from 8 x 0).
Proof.
  intros Hx.
  assert (H : forallb (fun x => bool_decide (aget g_priority_map x = Ok (ctz_from 8 x 0))) (seqZ 1 255) = true)
    by (vm_compute; reflexivity).
  rewrite forallb_forall in H. specialize (H x).
  apply (bool_decide_eq_true_1 (aget g_priority_map x = Ok (ctz_from 8 x 0))), H.
  apply list_elem_of_In, elem_of_seqZ. lia.
Qed.

Lemma ctz8_spec x : 1 <= x < 256 ->
  let c := ctz_from 8 x 0 in 0 <= c < 8 /\ Z.testbit x c = true /\ forall j, 0 <= j < c -> Z.testbit x j = false.
Proof.
  intros Hx. destruct (ctz_from_spec 8 x 0) as (H1 & H2 & H3); [lia| |split; [lia|by split]].
  exists (Z.log2 x). split; [|apply Z.bit_log2; lia].
  pose proof (Z.log2_nonneg x). assert (Z.log2 x < 8) by (apply Z.log2_lt_pow2; lia). lia.
Qed.

(** [highest_priority] finds the lowest set bit when there is one. *)
Lemma highest_priority_ok k :
  bits_ok (g_priority_bitmap k) (g_priority_group k) ->
  exists p, highest_priority k = Ok p /\ 0 <= p < 32 /\
    (forall q, 0 <= q < p -> pbit (g_priority_bitmap k) q = false) /\
    ((exists q, 0 <= q < 32 /\ pbit (g_priority_bitmap k) q = true) -> pbit (g_priority_bitmap k) p = true).
Proof.
  intros [Hlen Hby Hgr Hsum]. unfold highest_priority.
  set (bm := g_priority_bitmap k) in *. set (grp := g_priority_group k) in *.
  assert (Hzero : forall q, 0 <= q < 32 -> Z.testbit grp (q / 8) = false -> pbit bm q = false).
  { intros q Hq Hg. destruct (split8 q Hq) as (_ & Hr & Hd). unfold pbit.
    destruct (bm !! Z.to_nat (q / 8)) as [b|] eqn:E; [|done]. apply Hsum in E.
    rewrite Z2Nat.id, Hg in E by lia. symmetry in E. apply negb_false_iff, Z.eqb_eq in E as ->. apply Z.bits_0. }
  destruct (Z.eq_dec grp 0) as [E|E].
  - rewrite E in *. change (aget g_priority_map 0) with (Ok 0). cbn [obind].
    destruct (aget_is_ok bm 0) as (b & -> & Hb); [lia|]. cbn [obind].
    assert (b = 0) as ->.
    { apply Hsum in Hb. rewrite Z.bits_0 in Hb. symmetry in Hb. by apply negb_false_iff, Z.eqb_eq in Hb. }
    change (aget g_priority_map 0) with (Ok 0). cbn [obind]. exists 0. split; [done|]. split; [lia|].
    split; [lia|]. intros (q & Hq & Hb2). rewrite Hzero in Hb2; [done|done|apply Z.bits_0].
  - rewrite priority_map_ctz by lia. cbn [obind].
    destruct (ctz8_spec grp ltac:(lia)) as (Hc1 & Hc2 & Hc3). set (row := ctz_from 8 grp 0) in *.
    assert (Hrow : row < 4).
    { destruct (Z.lt_ge_cases row 4); [done|]. rewrite (testbit_high 4) in Hc2 by lia. done. }
    destruct (aget_is_ok bm row) as (b & -> & Hb); [lia|]. cbn [obind].
    assert (Hb0 : 0 <= b < 256) by (by eapply Forall_lookup_1 in Hby).
    pose proof (Hsum _ _ Hb) as Hs. rewrite Z2Nat.id, Hc2 in Hs by lia. symmetry in Hs.
    apply negb_true_iff, Z.eqb_neq in Hs. rewrite priority_map_ctz by lia. cbn [obind].
    destruct (ctz8_spec b ltac:(lia)) as (Hd1 & Hd2 & Hd3). set (col := ctz_from 8 b 0) in *.
    exists (row * 8 + col). unfold u8. rewrite Z.mod_small by lia. split; [done|]. split; [lia|].
    assert (Hat : forall r, 0 <= r < 8 -> pbit bm (row * 8 + r) = Z.testbit b r).
    { intros r Hr. unfold pbit.
      assert ((row * 8 + r) / 8 = row) as -> by (symmetry; apply (Z.div_unique _ 8 row r); lia).
      assert ((row * 8 + r) mod 8 = r) as -> by (symmetry; apply (Z.mod_unique _ 8 row r); lia).
      by rewrite Hb. }
    split; [|intros _; by rewrite Hat by lia].
    intros q Hq. destruct (split8 q ltac:(lia)) as (Hq1 & Hq2 & Hq3).
    destruct (Z.lt_ge_cases (q / 8) row) as [Hlt|Hge]; [apply Hzero; [lia|apply Hc3; lia]|].
    replace q with (row * 8 + q mod 8) by lia. rewrite Hat by lia. apply Hd3. lia.
Qed.

Lemma pbit_insert bm i b b' q :
  0 <= i -> bm !! Z.to_nat i = Some b -> 0 <= q < 32 ->
  pbit (<[Z.to_nat i := b']> bm) q = if q / 8 =? i then Z.testbit b' (q mod 8) else pbit bm q.
Proof.
  intros Hi Hb Hq. destruct (split8 q Hq) as (_ & _ & Hd). unfold pbit.
  destruct (Z.eqb_spec (q / 8) i) as [->|Hne].
  - rewrite list_lookup_insert_eq by (by apply lookup_lt_Some in Hb). done.
  - by rewrite list_lookup_insert_ne by lia.
Qed.

(** Updating byte [i] and making the group agree with it. *)
Lemma bits_ok_insert bm grp i b b' grp' :
  bits_ok bm grp -> 0 <= i < 4 -> bm !! Z.to_nat i = Some b -> 0 <= b' < 256 -> 0 <= grp' < 16 ->
  (forall j, 0 <= j < 4 -> Z.testbit grp' j = if j =? i then negb (b' =? 0) else Z.testbit grp j) ->
  bits_ok (<[Z.to_nat i := b']> bm) grp'.
Proof.
  intros [Hlen Hby Hgr Hsum] Hi Hb Hb' Hg' Hj. constructor.
  - by rewrite length_insert.
  - by apply Forall_insert.
  - done.
  - intros j c Hc. apply lookup_lt_Some in Hc as Hl. rewrite length_insert, Hlen in Hl.
    rewrite Hj by lia. destruct (Z.eqb_spec (Z.of_nat j) i) as [E|E].
    + replace (Z.to_nat i) with j in Hc by lia. rewrite list_lookup_insert_eq in Hc by lia. by simplify_eq.
    + rewrite list_lookup_insert_ne in Hc by lia. by apply Hsum.
Qed.

Lemma bits_get bm grp p :
  bits_ok bm grp -> 0 <= p < 32 -> exists b, aget bm (p / 8) = Ok b /\ bm !! Z.to_nat (p / 8) = Some b /\ 0 <= b < 256.
Proof.
  intros [Hlen Hby _ _] Hp. destruct (split8 p Hp) as (_ & _ & Hd).
  destruct (aget_is_ok bm (p / 8)) as (b & Ha & Hb); [lia|]. exists b. split; [done|]. split; [done|].
  by eapply Forall_lookup_1 in Hby.
Qed.

Section Bits.
Context `{KernelLayout}.

Lemma priority_set_ok k p :
  bits_ok (g_priority_bitmap k) (g_priority_group k) -> 0 <= p < 32 ->
  exists bm grp, priority_set k p = Ok (set_bits k bm grp) /\ bits_ok bm grp /\
    forall q, 0 <= q < 32 -> pbit bm q = (q =? p) || pbit (g_priority_bitmap k) q.
Proof.
  intros Hok Hp. destruct (split8 p Hp) as (Hd & Hr & Hq). unfold priority_set.
  change MAX_PRIORITY_BITMAP_INDEX with 4. rewrite (proj2 (Z.ltb_ge 4 (p / 8))) by lia.
  destruct (bits_get _ _ p Hok Hp) as (b & -> & Hb & Hbb). cbn [obind].
  rewrite aset_ok by (destruct Hok; lia). cbn [obind].
  rewrite !shiftl1 by lia.
  assert (Hpow : forall i w, 0 <= i < w -> 0 <= 2 ^ i < 2 ^ w).
  { intros i w Hi. pose proof (pow2_pos i). pose proof (Z.pow_lt_mono_r 2 i w). lia. }
  pose proof (lor_bound 8 b (2 ^ (p mod 8)) ltac:(lia) ltac:(lia) ltac:(apply Hpow; lia)) as Hlb.
  pose proof (lor_bound 4 (g_priority_group k) (2 ^ (p / 8)) ltac:(lia) ltac:(destruct Hok; lia)
                ltac:(apply Hpow; lia)) as Hlg.
  unfold u8. rewrite (Z.mod_small (Z.lor b _)), (Z.mod_small (Z.lor (g_priority_group k) _)) by lia.
  eexists _, _. split; [done|]. split.
  - apply (bits_ok_insert _ (g_priority_group k) _ b); [done|lia|done|lia|lia|].
    intros j Hj. rewrite Z.lor_spec, Z.pow2_bits_eqb by lia. rewrite (Z.eqb_sym (p / 8) j).
    destruct (Z.eqb_spec j (p / 8)) as [->|]; [|apply orb_false_r].
    rewrite orb_true_r. symmetry. apply negb_true_iff, Z.eqb_neq. intros E.
    apply Z.lor_eq_0_iff in E as [_ E]. pose proof (pow2_pos (p mod 8)). lia.
  - intros q Hq2. rewrite (pbit_insert _ _ b) by done || lia. destruct (split8 q Hq2) as (Hd2 & Hr2 & Hq3).
    destruct (Z.eqb_spec (q / 8) (p / 8)) as [E|E].
    + rewrite Z.lor_spec, Z.pow2_bits_eqb by lia. unfold pbit. rewrite E, Hb.
      destruct (Z.eqb_spec (p mod 8) (q mod 8)), (Z.eqb_spec q p); try lia;
        by rewrite ?orb_true_r, ?orb_false_r.
    + rewrite (proj2 (Z.eqb_neq q p)) by congruence. done.
Qed.

Lemma set_bits_id k : set_bits k (g_priority_bitmap k) (g_priority_group k) = k.
Proof. by destruct k. Qed.

Lemma priority_clear_ok k p e :
  bits_ok (g_priority_bitmap k) (g_priority_group k) -> 0 <= p < 32 ->
  list_empty (links k) (ready_head p) = Ok e ->
  exists bm grp, priority_clear k p = Ok (set_bits k bm grp) /\ bits_ok bm grp /\
    forall q, 0 <= q < 32 -> pbit bm q = pbit (g_priority_bitmap k) q && negb (e && (q =? p)).
Proof.
  intros Hok Hp He. destruct (split8 p Hp) as (Hd & Hr & Hq). unfold priority_clear.
  change MAX_PRIORITY_BITMAP_INDEX with 4. rewrite (proj2 (Z.ltb_ge 4 (p / 8))) by lia.
  rewrite He. cbn [obind]. destruct e.
  2: { exists (g_priority_bitmap k), (g_priority_group k). rewrite set_bits_id. split; [done|].
       split; [done|]. intros q _. by rewrite andb_true_r. }
  destruct (bits_get _ _ p Hok Hp) as (b & -> & Hb & Hbb). cbn [obind].
  rewrite aset_ok by (destruct Hok; lia). cbn [obind]. rewrite !shiftl1 by lia.
  pose proof Hok as [Hlen Hby Hgr Hsum].
  pose proof (land_bound_l 8 b (not64 (2 ^ (p mod 8))) ltac:(lia) ltac:(lia)) as Hlb.
  pose proof (land_bound_l 4 (g_priority_group k) (not64 (2 ^ (p / 8))) ltac:(lia) ltac:(lia)) as Hlg.
  unfold u8. rewrite (Z.mod_small (Z.land b _)), (Z.mod_small (Z.land (g_priority_group k) _)) by lia.
  set (b' := Z.land b (not64 (2 ^ (p mod 8)))) in *.
  assert (Hb'bit : forall i, 0 <= i < 8 -> Z.testbit b' i = Z.testbit b i && negb (p mod 8 =? i)).
  { intros i Hi. unfold b', not64. rewrite Z.land_spec, Z.ldiff_spec, Z.pow2_bits_eqb, Z.testbit_ones by lia.
    f_equal. by decide_cmp. }
  eexists _, _. split; [done|]. split.
  - apply (bits_ok_insert _ (g_priority_group k) _ b); [done|lia|done|lia|destruct (b' =? 0); lia|].
     intros j Hj. destruct (Z.eqb_spec j (p / 8)) as [->|Hne].
      * destruct (Z.eqb_spec b' 0) as [E|E]; simpl.
        -- unfold not64. rewrite Z.land_spec, Z.ldiff_spec, Z.pow2_bits_eqb, Z.eqb_refl by lia.
           by rewrite andb_false_r, andb_false_r.
        -- specialize (Hsum _ _ Hb). rewrite Z2Nat.id in Hsum by lia. rewrite Hsum.
           apply negb_true_iff, Z.eqb_neq. intros E2. apply E. unfold b'. rewrite E2. apply Z.land_0_l.
      * destruct (b' =? 0); [|done]. unfold not64.
        rewrite Z.land_spec, Z.ldiff_spec, Z.pow2_bits_eqb, Z.testbit_ones by lia.
        rewrite (proj2 (Z.eqb_neq (p / 8) j)) by lia. decide_cmp. by rewrite andb_true_r.
  - intros q Hq2. rewrite (pbit_insert _ _ b) by done || lia. destruct (split8 q Hq2) as (Hd2 & Hr2 & Hq3).
    destruct (Z.eqb_spec (q / 8) (p / 8)) as [E|E].
    + rewrite Hb'bit by lia. unfold pbit. rewrite E, Hb. simpl. f_equal. f_equal.
      destruct (Z.eqb_spec (p mod 8) (q mod 8)), (Z.eqb_spec q p); done || lia.
    + rewrite (proj2 (Z.eqb_neq q p)) by congruence. simpl. by rewrite andb_true_r.
Qed.
End Bits.

(** ** The scheduler invariant

    [ex] are the priorities whose bit may be set although their queue is empty. *)

Section Invariant.
Context `{KernelLayout}.

Record sched_inv (ex : Z -> Prop) (k : sched_state) (qs : Z -> list Z) : Prop := {
  si_layout : layout_ok;
  si_queues : queues (links k) qs;
  si_nodes : forall x, x ∈ dom (tasks k) -> x ∈ dom (links k) /\ ~ is_head x /\ x <> 0;
  si_prio : forall x t, tasks k !! x = Some t -> 0 <= sched_priority t < 32;
  si_tasks : forall i x, qidx i -> x ∈ qs i -> x ∈ dom (tasks k);
  si_ready : forall i x t, 0 <= i < 32 -> x ∈ qs i -> tasks k !! x = Some t ->
    sched_priority t = i /\ task_state t = TSTATE_TASK_READYTORUN;
  si_bits : bits_ok (g_priority_bitmap k) (g_priority_group k);
  si_nolost : forall i, 0 <= i < 32 -> qs i <> [] -> pbit (g_priority_bitmap k) i = true;
  si_nostale : forall i, 0 <= i < 32 -> pbit (g_priority_bitmap k) i = true -> qs i <> [] \/ ex i
}.

(** The running task sits in the pending queue and keeps its bit. *)
Definition stale_cur (k : sched_state) (qs : Z -> list Z) (i : Z) : Prop :=
  g_current_task k ∈ qs PEND /\
  exists t, tasks k !! g_current_task k = Some t /\ task_state t = TSTATE_TASK_RUNNING /\ sched_priority t = i.

(** Components of the state that queue operations leave alone. *)
Definition same_rest (k k' : sched_state) : Prop :=
  g_current_task k' = g_current_task k /\ tids k' = tids k /\ asids k' = asids k /\ hw k' = hw k.

Lemma qhead_ready i : 0 <= i -> qhead i = ready_head i.
Proof. intros. unfold qhead, PEND. by rewrite (proj2 (Z.eqb_neq _ _)) by lia. Qed.

Lemma qidx_ready i : 0 <= i < 32 -> qidx i.
Proof. unfold qidx. lia. Qed.

Lemma qidx_pend : qidx PEND.
Proof. unfold qidx, PEND. lia. Qed.

#[local] Hint Resolve qidx_ready qidx_pend : kern.

Lemma sched_inv_weaken (ex ex' : Z -> Prop) k qs :
  (forall i, 0 <= i < 32 -> ex i -> ex' i) -> sched_inv ex k qs -> sched_inv ex' k qs.
Proof.
  intros Hi []. constructor; try done. intros i Hr Hb.
  destruct (si_nostale0 i Hr Hb); [by left|right; by apply Hi].
Qed.

Lemma sched_attach_ok ex k qs x t :
  sched_inv ex k qs -> tasks k !! x = Some t -> ~ queued qs x ->
  let p := sched_priority t in
  exists k', sched_attach k x = Ok k' /\ sched_inv (fun i => ex i /\ i <> p) k' (upd qs p (qs p ++ [x])) /\
    tasks k' = <[x := set_task_state t TSTATE_TASK_READYTORUN]> (tasks k) /\ same_rest k k'.
Proof.
  intros [HL HQ HN HP HT HR HB Hlost Hstale] Ht Hnq p.
  assert (Hx : x ∈ dom (tasks k)) by (apply elem_of_dom; by eexists).
  destruct (HN x Hx) as (Hxs & Hnh & Hnz). assert (Hp : 0 <= p < 32) by (by apply (HP x)).
  unfold sched_attach. rewrite (proj2 (Z.eqb_neq x 0)) by done. simpl negb. cbv iota.
  unfold get_task. rewrite Ht. cbn [obind]. rewrite <- qhead_ready by (fold p; lia). fold p.
  destruct (queues_add_tail (links k) qs p x) as (s' & Hs & Hq' & Hdom); auto with kern.
  cbn [links put_task set_tasks]. rewrite Hs. cbn [obind].
  set (k1 := set_links (put_task k x (set_task_state t TSTATE_TASK_READYTORUN)) s').
  destruct (priority_set_ok k1 p HB Hp) as (bm & grp & -> & Hbok & Hbits).
  eexists. split; [done|]. split; [|done]. constructor; try done.
  - intros y Hy. cbn in Hy |- *. rewrite dom_insert_L in Hy. rewrite Hdom.
    apply elem_of_union in Hy as [Hy|Hy]; [|by apply HN]. by apply elem_of_singleton in Hy as ->.
  - intros y u Hy. cbn in Hy. destruct (decide (y = x)) as [->|].
    + rewrite lookup_insert_eq in Hy. simplify_eq. done.
    + rewrite lookup_insert_ne in Hy by done. by apply (HP y).
  - intros i y Hi Hy. cbn. rewrite dom_insert_L. apply elem_of_union. unfold upd in Hy.
    destruct (i =? p) eqn:E; [|right; by apply (HT i)].
    apply Z.eqb_eq in E as ->. apply elem_of_app in Hy as [Hy|Hy]; [right; by apply (HT p)|].
    apply list_elem_of_singleton in Hy as ->. left. by apply elem_of_singleton.
  - intros i y u Hi Hy Hu. cbn in Hu. unfold upd in Hy. destruct (decide (y = x)) as [->|Hyx].
    + rewrite lookup_insert_eq in Hu. simplify_eq. split; [|done]. simpl.
      destruct (Z.eqb_spec i p) as [->|Hne]; [done|]. destruct Hnq. exists i. auto with kern.
    + rewrite lookup_insert_ne in Hu by done. apply (HR i y u Hi); [|done].
      destruct (Z.eqb_spec i p) as [->|]; [|done]. apply elem_of_app in Hy as [Hy|Hy]; [done|].
      by apply list_elem_of_singleton in Hy.
  - intros i Hi Hne. cbn. rewrite Hbits by done. unfold upd in Hne.
    destruct (Z.eqb_spec i p); [done|]. simpl. by apply Hlost.
  - intros i Hi Hb. cbn in Hb. rewrite Hbits in Hb by done. unfold upd.
    destruct (Z.eqb_spec i p) as [->|Hne]; [left; by destruct (qs p)|].
    simpl in Hb. destruct (Hstale i Hi Hb); [by left|right; done].
Qed.

(** [sched_wake] followed by [sched_attach], as the pending loop calls them. *)
Lemma wake_attach_ok ex k qs x t l1 l2 :
  sched_inv ex k qs -> tasks k !! x = Some t -> qs PEND = l1 ++ x :: l2 ->
  let p := sched_priority t in
  exists k', (let! k := sched_wake k x in sched_attach k x) = Ok k' /\
    sched_inv (fun i => ex i /\ i <> p) k' (upd (upd qs PEND (l1 ++ l2)) p (qs p ++ [x])) /\
    tasks k' = <[x := set_task_state t TSTATE_TASK_READYTORUN]> (tasks k) /\ same_rest k k'.
Proof.
  intros Hinv Ht HE p. pose proof Hinv as [HL HQ HN HP HT HR HB Hlost Hstale].
  assert (Hp : 0 <= p < 32) by (by apply (HP x)).
  unfold sched_wake. pose proof (q_dlist _ _ HQ PEND qidx_pend) as Hd. rewrite HE in Hd.
  destruct (list_del_init_ok _ _ l1 x l2 Hd) as (s1 & Hs & Hd1 & _ & Ht1). rewrite Hs. cbn [obind].
  destruct (queues_remove (links k) s1 qs PEND l1 x l2 HL HQ qidx_pend HE Hd1 Ht1)
    as (HQ1 & Hnq & Hnh & Hdx & Hdom).
  unfold get_task. rewrite Ht. cbn [obind]. fold p.
  destruct (priority_set_ok (set_links k s1) p HB Hp) as (bm & grp & -> & Hbok & Hbits). cbn [obind].
  set (qs1 := upd qs PEND (l1 ++ l2)) in *.
  assert (Hsame : forall i, 0 <= i -> qs1 i = qs i) by (intros i Hi; apply upd_ne; unfold PEND; lia).
  assert (Hsub : forall i y, y ∈ qs1 i -> y ∈ qs i).
  { intros i y. unfold qs1, upd. destruct (Z.eqb_spec i PEND) as [->|]; [|done].
    rewrite HE, !elem_of_app, elem_of_cons. tauto. }
  assert (Hinv1 : sched_inv (fun i => ex i \/ i = p) (set_bits (set_links k s1) bm grp) qs1).
  { constructor; try done.
    - intros y Hy. cbn in *. rewrite Hdom. by apply HN.
    - intros i y Hi Hy. cbn. apply (HT i); auto.
    - intros i y u Hi Hy Hu. cbn in Hu. apply (HR i y u Hi); auto.
    - intros i Hi Hne. cbn. rewrite Hbits by done. rewrite Hsame in Hne by lia.
      apply orb_true_iff. right. by apply Hlost.
    - intros i Hi Hb. cbn in Hb. rewrite Hbits in Hb by done. rewrite Hsame by lia.
      apply orb_true_iff in Hb as [Hb|Hb]; [right; right; by apply Z.eqb_eq|].
      destruct (Hstale i Hi Hb); [by left|right; by left]. }
  destruct (sched_attach_ok _ _ qs1 x t Hinv1 Ht Hnq) as (k' & Hk & Hinv2 & Htk & Hrest).
  exists k'. split; [exact Hk|]. split; [|done]. fold p in Hinv2. rewrite Hsame in Hinv2 by lia.
  eapply sched_inv_weaken; [|exact Hinv2]. intros i Hi [[?| ->] ?]; done.
Qed.
End Invariant.

(** ** Waking sleepers *)

Section Pending.
Context `{KernelLayout}.

(** The loop wakes the task at turn [i] when its ready time has passed. *)
Definition due (time : nat -> Z) (i : nat) (ts : gmap Z tcb) (x : Z) : bool :=
  match ts !! x with Some t => s64 (readytime t - time i) <? 0 | None => false end.

(** The tasks of [l] that stay, and those that are woken, from turn [i] on. *)
Fixpoint staying (time : nat -> Z) (i : nat) (ts : gmap Z tcb) (l : list Z) : list Z :=
  match l with
  | [] => []
  | x :: l => if due time i ts x then staying time (S i) ts l else x :: staying time (S i) ts l
  end.

Fixpoint woken (time : nat -> Z) (i : nat) (ts : gmap Z tcb) (l : list Z) : list Z :=
  match l with
  | [] => []
  | x :: l => if due time i ts x then x :: woken time (S i) ts l else woken time (S i) ts l
  end.

Definition prio_of (ts : gmap Z tcb) (x : Z) : Z :=
  match ts !! x with Some t => sched_priority t | None => 0 end.

(** The woken tasks of priority [p], in order. *)
Definition of_prio (ts : gmap Z tcb) (p : Z) (l : list Z) : list Z :=
  filter (fun x => prio_of ts x = p) l.

(** Tasks that differ at most in their state, and only those of [l]. *)
Definition states_differ (ts ts' : gmap Z tcb) (l : list Z) : Prop :=
  forall x, ts' !! x = if bool_decide (x ∈ l)
                       then (fun t => set_task_state t TSTATE_TASK_READYTORUN) <$> ts !! x
                       else ts !! x.

Lemma states_differ_due time ts ts' l i x :
  states_differ ts ts' l -> due time i ts' x = due time i ts x.
Proof.
  intros Hd. unfold due. rewrite Hd. case_bool_decide; [|done]. by destruct (ts !! x).
Qed.

Lemma states_differ_prio ts ts' l x : states_differ ts ts' l -> prio_of ts' x = prio_of ts x.
Proof.
  intros Hd. unfold prio_of. rewrite Hd. case_bool_decide; [|done]. by destruct (ts !! x).
Qed.

(** What holds of the pending scan: [qs'] is [qs] after the tasks [wake] have
    left the pending queue, where [stay] remain, for the ready queues. *)
Definition requeued (ts : gmap Z tcb) (qs qs' : Z -> list Z) (stay wake : list Z) : Prop :=
  qs' PEND = stay /\ forall p, 0 <= p < 32 -> qs' p = qs p ++ of_prio ts p wake.

(** The entry after next in the pending queue, read ahead of the removal. *)
Lemma pending_next s qs kept rest n : queues s qs -> qs PEND = kept ++ rest -> head (rest ++ [g_pendingtasks]) = Some n ->
  exists n', get_next s n = Ok n' /\ forall x rest', rest = x :: rest' -> head (rest' ++ [g_pendingtasks]) = Some n'.
Proof.
  intros HQ HE Hn. pose proof (q_dlist _ _ HQ PEND qidx_pend) as Hd. rewrite HE in Hd. destruct rest as [|y rest]; simpl in Hn; simplify_eq.
  - destruct (dlist_head_next _ _ _ Hd) as (q & _ & Hnx). exists q. split; [by apply get_next_ok|done].
  - destruct (dlist_entry _ _ kept n rest Hd) as [_ (q & Hq & Hnx)]. exists q. split; [by apply get_next_ok|]. intros ? ? ?; simplify_eq. done.
Qed.

(** One more task that is ready. *)
Lemma states_differ_snoc ts ts' done_ e t : states_differ ts ts' done_ -> ts !! e = Some t ->
  states_differ ts (<[e := set_task_state t TSTATE_TASK_READYTORUN]> ts') (done_ ++ [e]).
Proof.
  intros Hd Ht x. destruct (decide (x = e)) as [->|Hx].
  - rewrite lookup_insert_eq, bool_decide_eq_true_2 by (rewrite elem_of_app, list_elem_of_singleton; tauto). by rewrite Ht.
  - rewrite lookup_insert_ne by done. rewrite (Hd x). erewrite bool_decide_ext; [reflexivity|].
    rewrite elem_of_app, list_elem_of_singleton. tauto.
Qed.

Lemma requeued_cons ts qs qs' pend kept e woken_ : let p0 := prio_of ts e in 0 <= p0 < 32 ->
  requeued ts (upd (upd qs PEND kept) p0 (qs p0 ++ [e])) qs' pend woken_ -> requeued ts qs qs' pend (e :: woken_).
Proof.
  intros p0 Hp0 [Hr1 Hr2]. split; [done|]. intros p Hp. rewrite Hr2 by done. unfold of_prio. rewrite filter_cons. fold p0.
  destruct (decide (p = p0)) as [->|Hne].
  - rewrite upd_eq, decide_True by done. by rewrite <- app_assoc.
  - rewrite upd_ne, upd_ne by (unfold PEND; lia). by rewrite decide_False by done.
Qed.

Lemma pending_loop_ok time ts :
  forall rest fuel i ex k qs kept done_ pos n,
  sched_inv ex k qs -> qs PEND = kept ++ rest -> states_differ ts (tasks k) done_ ->
  (forall x, x ∈ done_ -> x ∉ rest) ->
  head (rest ++ [g_pendingtasks]) = Some pos ->
  (forall x rest', rest = x :: rest' -> head (rest' ++ [g_pendingtasks]) = Some n) ->
  (length rest < fuel)%nat ->
  exists k' qs', pending_loop fuel time i k pos n = Ok k' /\
    sched_inv (fun p => ex p /\ forall x, x ∈ woken time i ts rest -> prio_of ts x <> p) k' qs' /\
    requeued ts qs qs' (kept ++ staying time i ts rest) (woken time i ts rest) /\
    states_differ ts (tasks k') (done_ ++ woken time i ts rest) /\ same_rest k k'.
Proof.
  induction rest as [|e rest IH]; intros fuel i ex k qs kept done_ pos n Hinv HE Hdiff Hnew Hpos Hn Hf;
    (destruct fuel as [|fuel]; [simpl in Hf; lia|]); simpl in Hpos; injection Hpos as <-; cbn [pending_loop].
  - rewrite Z.eqb_refl. exists k, qs. split; [done|]. split.
    { eapply sched_inv_weaken; [|exact Hinv]. intros p _ Hp. split; [done|]. by intros ? ?%not_elem_of_nil. }
    split; [|by rewrite app_nil_r].
    split; [done|]. intros p _. unfold of_prio. simpl. rewrite filter_nil. by rewrite app_nil_r.
  - pose proof Hinv as [HL HQ HN HP HT HR HB Hlost Hstale].
    assert (Hin : e ∈ qs PEND) by (rewrite HE, elem_of_app, elem_of_cons; tauto).
    assert (Hne : e <> g_pendingtasks).
    { intros E. apply (q_heads _ _ HQ PEND PEND qidx_pend qidx_pend). rewrite <- E at 1. exact Hin. }
    rewrite (proj2 (Z.eqb_neq _ _)) by done.
    assert (Hdone : e ∉ done_) by (intros Hd; apply (Hnew e Hd); left).
    pose proof (HT PEND e qidx_pend Hin) as [t Ht]%elem_of_dom.
    assert (Hts : ts !! e = Some t).
    { specialize (Hdiff e). rewrite bool_decide_eq_false_2 in Hdiff by done. congruence. }
    unfold get_task. rewrite Ht. cbn [obind].
    cbn [staying woken]. assert (Hdue : due time i ts e = (s64 (readytime t - time i) <? 0))
      by (unfold due; by rewrite Hts).
    rewrite Hdue. specialize (Hn e rest eq_refl).
    assert (Hnr : e ∉ rest).
    { pose proof (q_dlist _ _ HQ PEND qidx_pend) as [Hnd _]. rewrite HE in Hnd.
      apply NoDup_cons in Hnd as [_ Hnd]. apply NoDup_app in Hnd as (_ & _ & Hnd).
      by apply NoDup_cons in Hnd as [? _]. }
    destruct (s64 (readytime t - time i) <? 0).
    + destruct (wake_attach_ok ex k qs e t kept rest Hinv Ht HE) as (k1 & -> & Hinv1 & Htk & Hrest1).
      cbn [obind]. set (p0 := sched_priority t) in *.
      assert (Hp0 : 0 <= p0 < 32) by (by apply (HP e)).
      set (qs1 := upd (upd qs PEND (kept ++ rest)) p0 (qs p0 ++ [e])) in *.
      assert (HE1 : qs1 PEND = kept ++ rest).
      { unfold qs1. rewrite upd_ne by (unfold PEND; lia). apply upd_eq. }
      destruct (pending_next (links k1) qs1 kept rest n (si_queues _ _ _ Hinv1) HE1 Hn) as (n' & -> & Hn'). cbn [obind].
      destruct (IH fuel (S i) _ k1 qs1 kept (done_ ++ [e]) n n' Hinv1 HE1) as (k' & qs' & Hk & Hi' & Hreq & Hd' & Hr').
      * rewrite Htk. by apply states_differ_snoc.
      * intros x. rewrite elem_of_app, list_elem_of_singleton. intros [Hx| ->]; [|done].
        intros Hxr. apply (Hnew x Hx). by right.
      * done.
      * done.
      * simpl in Hf. lia.
      * assert (Hpr : prio_of ts e = p0) by (unfold prio_of; by rewrite Hts).
        exists k', qs'. split; [exact Hk|]. split; [|split; [|split]].
        -- eapply sched_inv_weaken; [|exact Hi']. intros p _ [[He Hp] Hall]. split; [done|].
           intros x [->|Hx]%elem_of_cons; [rewrite Hpr; done|by apply Hall].
        -- apply (requeued_cons ts qs qs' _ (kept ++ rest)); rewrite Hpr; done.
        -- by rewrite <- app_assoc in Hd'.
        -- destruct Hrest1 as (?&?&?&?), Hr' as (?&?&?&?). split_and!; congruence.
    + cbn [obind]. assert (HE1 : qs PEND = (kept ++ [e]) ++ rest) by (by rewrite <- app_assoc).
      destruct (pending_next (links k) qs (kept ++ [e]) rest n HQ HE1 Hn) as (n' & -> & Hn'). cbn [obind].
      destruct (IH fuel (S i) ex k qs (kept ++ [e]) done_ n n' Hinv HE1 Hdiff) as (k' & qs' & Hk & Hi' & Hreq & Hd' & Hr').
      * intros x Hx Hxr. apply (Hnew x Hx). by right.
      * done.
      * done.
      * simpl in Hf. lia.
      * exists k', qs'. split; [exact Hk|]. rewrite <- app_assoc in Hreq. done.
Qed.

Lemma sched_pending_check_ok time fuel ex k qs :
  sched_inv ex k qs -> (length (qs PEND) < fuel)%nat ->
  exists k' qs', sched_pending_check fuel time k = Ok k' /\
    sched_inv (fun p => ex p /\ forall x, x ∈ woken time 0 (tasks k) (qs PEND) -> prio_of (tasks k) x <> p) k' qs' /\
    requeued (tasks k) qs qs' (staying time 0 (tasks k) (qs PEND)) (woken time 0 (tasks k) (qs PEND)) /\
    states_differ (tasks k) (tasks k') (woken time 0 (tasks k) (qs PEND)) /\ same_rest k k'.
Proof.
  intros Hinv Hf. unfold sched_pending_check. pose proof Hinv as [HL HQ _ _ _ _ _ _ _].
  pose proof (q_dlist _ _ HQ PEND qidx_pend) as Hd.
  destruct (dlist_head_next _ _ _ Hd) as (pos & Hpos & Hnx). change (qhead PEND) with g_pendingtasks in *.
  rewrite (get_next_ok _ _ _ Hnx). cbn [obind].
  assert (Hn : exists n, get_next (links k) pos = Ok n /\
            forall x rest, qs PEND = x :: rest -> head (rest ++ [g_pendingtasks]) = Some n).
  { destruct (qs PEND) as [|y l] eqn:E; simpl in Hpos; injection Hpos as <-.
    - eexists. split; [by apply get_next_ok|done].
    - destruct (dlist_entry _ _ [] y l Hd) as [_ (q & Hq & Hnq)]. exists q.
      split; [by apply get_next_ok|]. intros ? ? ?; simplify_eq. done. }
  destruct Hn as (n & -> & Hn). cbn [obind].
  apply (pending_loop_ok time (tasks k) (qs PEND) fuel 0 ex k qs [] [] pos n); try done.
  by intros x ?%not_elem_of_nil.
Qed.
End Pending.

(** ** Choosing and switching to a task *)

(** The first task of the queue that is not the current one. *)
Fixpoint pick (cur : Z) (l : list Z) : option Z :=
  match l with
  | [] => None
  | x :: l => if cur =? x then pick cur l else Some x
  end.

Lemma pick_split cur l x :
  pick cur l = Some x -> exists l1 l2, l = l1 ++ x :: l2 /\ x <> cur.
Proof.
  induction l as [|y l IH]; [done|]. simpl. destruct (Z.eqb_spec cur y) as [->|Hne].
  - intros Hp. destruct (IH Hp) as (l1 & l2 & -> & Hx). by exists (y :: l1), l2.
  - intros [= <-]. by exists [], l.
Qed.

Lemma filter_keeps (l : list Z) x : x ∉ l -> filter (fun y => y <> x) l = l.
Proof.
  induction l as [|y l IH]; [done|]. rewrite not_elem_of_cons. intros [Hx Hl].
  by rewrite filter_cons, decide_True, IH.
Qed.

Lemma filter_out (l1 : list Z) x l2 : NoDup (l1 ++ x :: l2) -> filter (fun y => y <> x) (l1 ++ x :: l2) = l1 ++ l2.
Proof.
  intros Hnd. rewrite filter_app, filter_cons, decide_False by tauto.
  apply NoDup_app in Hnd as (_ & Hd1 & Hnd). apply NoDup_cons in Hnd as [Hd2 _].
  f_equal; apply filter_keeps; [intros Hx; apply (Hd1 x Hx); by left|done].
Qed.

Section Choice.
Context `{KernelLayout}.

Lemma schedule_loop_pick k cur hd l :
  forall rest kept fuel pos n,
  dlist (links k) hd l -> l = kept ++ rest -> hd ∉ l ->
  head (rest ++ [hd]) = Some pos ->
  (forall x rest', rest = x :: rest' -> head (rest' ++ [hd]) = Some n) ->
  (length rest < fuel)%nat ->
  schedule_loop fuel k cur hd pos n =
    match pick cur rest with Some x => schedule_switch k cur x | None => Ok k end.
Proof.
  induction rest as [|x rest IH]; intros kept fuel pos n Hd E Hh Hpos Hn Hf;
    (destruct fuel as [|fuel]; [simpl in Hf; lia|]); simpl in Hpos; injection Hpos as <-; cbn [schedule_loop pick].
  - by rewrite Z.eqb_refl.
  - assert (Hx : x <> hd) by (intros ->; apply Hh; rewrite E, elem_of_app, elem_of_cons; tauto).
    rewrite (proj2 (Z.eqb_neq _ _)) by done. destruct (cur =? x); [|done]. cbn [negb].
    specialize (Hn x rest eq_refl). rewrite E in Hd.
    assert (Hnx : exists n', get_next (links k) n = Ok n' /\
              forall y rest', rest = y :: rest' -> head (rest' ++ [hd]) = Some n').
    { destruct rest as [|y rest]; simpl in Hn; injection Hn as <-.
      - destruct (dlist_head_next _ _ _ Hd) as (q & _ & Hq). exists q. split; [by apply get_next_ok|done].
      - replace (kept ++ x :: y :: rest) with ((kept ++ [x]) ++ y :: rest) in Hd by (by rewrite <- app_assoc).
        destruct (dlist_entry _ _ _ y rest Hd) as [_ (q & Hq & Hnq)]. exists q.
        split; [by apply get_next_ok|]. intros ? ? ?; by simplify_eq. }
    destruct Hnx as (n' & -> & Hn'). cbn [obind].
    apply (IH (kept ++ [x])); [|by rewrite <- app_assoc|done|done|done|simpl in Hf; lia].
    by rewrite E.
Qed.

(** What the kernel keeps between two calls of the scheduler. *)
Record kernel_inv (g : Z) (k : sched_state) (qs : Z -> list Z) : Prop := {
  ki_sched : sched_inv (stale_cur k qs) k qs;
  ki_asid : asid_inv g (asids k) (tasks k);
  ki_types : forall x t, tasks k !! x = Some t -> user t \/ type t = TASK_TYPE_KERNEL;
  ki_cur : g_current_task k ∈ dom (tasks k)
}.

(** Task [t] becomes [u], which differs in its state and its identifier only. *)
Definition ran (t u : tcb) : Prop := exists v, u = set_asid (set_task_state t TSTATE_TASK_RUNNING) v.

Lemma schedule_switch_ok g ex k qs p cur x t l1 l2 :
  sched_inv ex k qs -> asid_inv g (asids k) (tasks k) -> tasks k !! x = Some t ->
  (user t \/ type t = TASK_TYPE_KERNEL) -> cur ∈ dom (tasks k) -> cur <> x ->
  (g + 1) * num_asids (asids k) < 2 ^ 32 -> 0 <= p < 32 -> qs p = l1 ++ x :: l2 ->
  let qs' := upd (upd qs p (l1 ++ l2)) PEND (qs PEND ++ [x]) in
  exists k' g' u, schedule_switch k cur x = Ok k' /\ g_current_task k' = x /\
    tasks k' = <[x := u]> (tasks k) /\ ran t u /\ (g' = g \/ g' = g + 1) /\
    asid_inv g' (asids k') (tasks k') /\ num_asids (asids k') = num_asids (asids k) /\
    sched_inv (fun i => ex i \/ i = p) k' qs'.
Proof.
  intros Hinv Hasid Ht Hty Hcur Hne Hroom Hp HE qs'.
  pose proof Hinv as [HL HQ HN HP HT HR HB Hlost Hstale].
  unfold schedule_switch, get_task. rewrite Ht. cbn [obind links set_current put_task set_tasks].
  pose proof (q_dlist _ _ HQ p (qidx_ready p Hp)) as Hd. rewrite HE in Hd.
  destruct (list_del_ok _ _ l1 x l2 Hd) as (s1 & -> & Hd1 & Ht1). cbn [obind].
  destruct (queues_remove (links k) s1 qs p l1 x l2 HL HQ (qidx_ready p Hp) HE Hd1 Ht1)
    as (HQ1 & Hnq & Hnh & Hdx & Hdom).
  destruct (queues_add_tail s1 _ PEND x HL HQ1 qidx_pend Hdx Hnq Hnh) as (s2 & Hs2 & HQ2 & Hdom2).
  change (qhead PEND) with g_pendingtasks in Hs2. rewrite Hs2.
  cbn [obind links tasks g_current_task g_priority_bitmap g_priority_group tids asids hw set_links set_current put_task set_tasks].
  rewrite (upd_ne qs p PEND) in HQ2 by (unfold PEND; lia). fold qs' in HQ2.
  apply elem_of_dom in Hcur as [c Hc]. rewrite lookup_insert_ne, Hc by done. cbn [obind].
  rewrite lookup_insert_eq. cbn [obind asids hw].
  set (ts1 := <[x := set_task_state t TSTATE_TASK_RUNNING]> (tasks k)).
  assert (Hasid1 : asid_inv g (asids k) ts1).
  { eapply asid_inv_view; [|exact Hasid]. intros y. unfold ts1. destruct (decide (y = x)) as [->|].
    - by rewrite lookup_insert_eq, Ht.
    - by rewrite lookup_insert_ne. }
  destruct (task_switch_ok g (asids k) (hw k) ts1 x c (set_task_state t TSTATE_TASK_RUNNING))
    as (a' & h' & to' & g' & -> & Hto & Hg' & Hi' & Hb); [done|by apply lookup_insert_eq|done|done|].
  cbn [obind]. unfold ts1 in *. rewrite insert_insert_eq in Hi'. rewrite insert_insert_eq.
  eexists _, g', to'. split; [done|]. split; [done|]. split; [done|]. split; [by exists (asid to')|].
  split; [done|]. split; [done|]. split; [unfold num_asids; by rewrite <- Hb|].
  assert (Hsub : forall i y, y ∈ qs' i -> y ∈ qs i \/ y = x).
  { intros i y. unfold qs', upd. destruct (Z.eqb_spec i PEND) as [->|]; [|destruct (Z.eqb_spec i p) as [->|]].
    - rewrite elem_of_app, list_elem_of_singleton. tauto.
    - rewrite HE, !elem_of_app, elem_of_cons. tauto.
    - tauto. }
  assert (Hrdy : forall i, 0 <= i -> qs' i = if i =? p then l1 ++ l2 else qs i).
  { intros i Hi. unfold qs'. by rewrite upd_ne by (unfold PEND; lia). }
  assert (Hxr : forall i, 0 <= i < 32 -> x ∉ qs' i).
  { intros i Hi Hx. apply Hnq. exists i. split; [by apply qidx_ready|]. unfold qs' in Hx.
    by rewrite upd_ne in Hx by (unfold PEND; lia). }
  constructor; cbn [links tasks g_priority_bitmap g_priority_group]; try done.
  - intros y Hy. rewrite dom_insert_L in Hy. rewrite Hdom2, Hdom. apply HN.
    apply elem_of_union in Hy as [->%elem_of_singleton|Hy]; [by apply elem_of_dom|done].
  - intros y w Hy. destruct (decide (y = x)) as [->|].
    + rewrite lookup_insert_eq in Hy. simplify_eq. rewrite Hto. simpl. by apply (HP x).
    + rewrite lookup_insert_ne in Hy by done. by apply (HP y).
  - intros i y Hi Hy. rewrite dom_insert_L. apply elem_of_union.
    destruct (Hsub i y Hy) as [Hy2| ->]; [right; by apply (HT i)|left; by apply elem_of_singleton].
  - intros i y w Hi Hy Hw. destruct (decide (y = x)) as [->|Hyx]; [by destruct (Hxr i Hi)|].
    rewrite lookup_insert_ne in Hw by done. destruct (Hsub i y Hy) as [Hy2|]; [|done]. by apply (HR i y).
  - intros i Hi Hnn. apply Hlost; [done|]. rewrite Hrdy in Hnn by lia.
    destruct (Z.eqb_spec i p) as [->|]; [|done]. rewrite HE. by destruct l1.
  - intros i Hi Hb2. rewrite Hrdy by lia. destruct (Z.eqb_spec i p) as [->|]; [by right; right|].
    destruct (Hstale i Hi Hb2); [by left|by right; left].
Qed.

Lemma queue_length ex k qs i :
  sched_inv ex k qs -> qidx i -> (length (qs i) <= size (tasks k))%nat.
Proof.
  intros [HL HQ HN HP HT _ _ _ _] Hi. pose proof (q_dlist _ _ HQ i Hi) as [Hnd _].
  apply NoDup_cons in Hnd as [_ Hnd]. rewrite <- (size_dom (D := gset Z)).
  rewrite <- (size_list_to_set (C := gset Z) (qs i)) by done. apply subseteq_size.
  intros x Hx. apply elem_of_list_to_set in Hx. by apply (HT i).
Qed.

Lemma states_differ_dom ts ts' l : states_differ ts ts' l -> dom ts' = dom ts.
Proof.
  intros Hd. apply set_eq. intros x. rewrite !elem_of_dom. rewrite (Hd x).
  case_bool_decide; [|done]. by rewrite fmap_is_Some.
Qed.

Lemma states_differ_view ts ts' l x : states_differ ts ts' l ->
  (fun t => (type t, asid t)) <$> ts' !! x = (fun t => (type t, asid t)) <$> ts !! x.
Proof. intros Hd. rewrite (Hd x). case_bool_decide; [|done]. by destruct (ts !! x). Qed.

(** What [schedule] promises, from the ready queues after waking and the tasks
    [stay] that sleep on: the first task other than the current one of the
    most urgent non-empty queue runs and moves to the pending queue. *)
Definition scheduled (cur : Z) (ready : Z -> list Z) (stay : list Z) (k' : sched_state) (qs' : Z -> list Z) : Prop :=
  let unchanged := g_current_task k' = cur /\ qs' PEND = stay /\ forall q, 0 <= q < 32 -> qs' q = ready q in
  ((forall q, 0 <= q < 32 -> ready q = []) /\ unchanged) \/
  exists p, 0 <= p < 32 /\ ready p <> [] /\ (forall q, 0 <= q < p -> ready q = []) /\
    match pick cur (ready p) with
    | None => unchanged
    | Some x => g_current_task k' = x /\ qs' PEND = stay ++ [x] /\
        (exists u, tasks k' !! x = Some u /\ task_state u = TSTATE_TASK_RUNNING) /\
        forall q, 0 <= q < 32 -> qs' q = if q =? p then filter (fun y => y <> x) (ready p) else ready q
    end.

(** The chosen queue, once the bits tell the truth. *)
Lemma choose_ok fuel cur k qs :
  sched_inv (fun _ => False) k qs -> (size (tasks k) < fuel)%nat ->
  exists p, 0 <= p < 32 /\ (forall q, 0 <= q < p -> qs q = []) /\
    (qs p = [] -> forall q, 0 <= q < 32 -> qs q = []) /\
    (let! prio := highest_priority k in
     let! pos := get_next (links k) (ready_head prio) in
     let! n := get_next (links k) pos in
     schedule_loop fuel k cur (ready_head prio) pos n) =
    match pick cur (qs p) with Some x => schedule_switch k cur x | None => Ok k end.
Proof.
  intros Hinv Hf. pose proof Hinv as [HL HQ HN HP HT HR HB Hlost Hstale].
  destruct (highest_priority_ok k HB) as (p & -> & Hp & Hlow & Hany). cbn [obind].
  assert (Hempty : forall q, 0 <= q < 32 -> pbit (g_priority_bitmap k) q = false -> qs q = []).
  { intros q Hq Hb. destruct (qs q) eqn:E; [done|]. rewrite Hlost in Hb by (done || by rewrite E). done. }
  exists p. split; [done|]. split; [intros q Hq; apply Hempty; [lia|by apply Hlow]|]. split.
  { intros E q Hq. apply Hempty; [done|]. destruct (pbit _ q) eqn:Eb; [|done].
    destruct (Hstale p Hp); [apply Hany; by exists q| |]; done. }
  rewrite <- qhead_ready by lia. pose proof (q_dlist _ _ HQ p (qidx_ready p Hp)) as Hd.
  destruct (dlist_head_next _ _ _ Hd) as (pos & Hpos & Hnx). rewrite (get_next_ok _ _ _ Hnx). cbn [obind].
  assert (Hn : exists n, get_next (links k) pos = Ok n /\
            forall x rest, qs p = x :: rest -> head (rest ++ [qhead p]) = Some n).
  { destruct (qs p) as [|y l] eqn:E; simpl in Hpos; injection Hpos as <-.
    - eexists. split; [by apply get_next_ok|done].
    - destruct (dlist_entry _ _ [] y l Hd) as [_ (q & Hq & Hnq)]. exists q.
      split; [by apply get_next_ok|]. intros ? ? ?; by simplify_eq. }
  destruct Hn as (n & -> & Hn). cbn [obind].
  apply (schedule_loop_pick k cur (qhead p) (qs p) (qs p) []); try done.
  - by apply (q_heads _ _ HQ p p); apply qidx_ready.
  - pose proof (queue_length _ _ _ p Hinv (qidx_ready p Hp)). lia.
Qed.

Lemma switch_step g k qs cur p x :
  sched_inv (fun _ => False) k qs -> asid_inv g (asids k) (tasks k) ->
  (forall x t, tasks k !! x = Some t -> user t \/ type t = TASK_TYPE_KERNEL) ->
  cur ∈ dom (tasks k) -> (g + 1) * num_asids (asids k) < 2 ^ 32 -> 0 <= p < 32 ->
  pick cur (qs p) = Some x ->
  exists k' qs' g', schedule_switch k cur x = Ok k' /\ kernel_inv g' k' qs' /\ (g' = g \/ g' = g + 1) /\
    num_asids (asids k') = num_asids (asids k) /\ g_current_task k' = x /\ qs' PEND = qs PEND ++ [x] /\
    (exists u, tasks k' !! x = Some u /\ task_state u = TSTATE_TASK_RUNNING) /\
    (forall q, 0 <= q < 32 -> qs' q = if q =? p then filter (fun y => y <> x) (qs p) else qs q) /\
    exists t u, tasks k !! x = Some t /\ ran t u /\ tasks k' = <[x := u]> (tasks k).
Proof.
  intros Hinv Hasid Hty Hcur Hroom Hp Hpick.
  destruct (pick_split _ _ _ Hpick) as (l1 & l2 & HE & Hx).
  assert (Hxp : x ∈ qs p) by (rewrite HE, elem_of_app, elem_of_cons; tauto).
  pose proof (si_tasks _ _ _ Hinv p x (qidx_ready p Hp) Hxp) as [t Ht]%elem_of_dom.
  pose proof (si_ready _ _ _ Hinv p x t Hp Hxp Ht) as [Hpr _].
  destruct (schedule_switch_ok g _ k qs p cur x t l1 l2 Hinv)
    as (k' & g' & u & Hk' & Hcur' & Htk' & [v Hu] & Hg' & Hasid' & Hna & Hi'); try done.
  { by apply (Hty x). }
  set (qs' := upd (upd qs p (l1 ++ l2)) PEND (qs PEND ++ [x])) in *.
  assert (Hpend : qs' PEND = qs PEND ++ [x]) by (unfold qs'; by rewrite upd_eq).
  assert (Hux : tasks k' !! x = Some u) by (by rewrite Htk', lookup_insert_eq).
  exists k', qs', g'. split; [done|]. split; [|do 4 (split; [done|])].
  - constructor; try done.
    + eapply sched_inv_weaken; [|exact Hi']. intros i _ [[]| ->]. split.
      * rewrite Hcur', Hpend, elem_of_app, list_elem_of_singleton. tauto.
      * exists u. rewrite Hcur'. split; [done|]. by rewrite Hu.
    + intros y w. rewrite Htk'. destruct (decide (y = x)) as [->|].
      * rewrite lookup_insert_eq. intros [= <-]. rewrite Hu. destruct (Hty x t Ht); [by left|by right].
      * rewrite lookup_insert_ne by done. by apply Hty.
    + rewrite Hcur'. apply elem_of_dom. by exists u.
  - split; [exists u; split; [done|by rewrite Hu]|]. split; [|exists t, u; split; [done|]; split; [by exists v|done]].
    intros q Hq. unfold qs'. rewrite upd_ne by (unfold PEND; lia). unfold upd.
    destruct (Z.eqb_spec q p) as [->|]; [|done].
    rewrite HE, filter_out; [done|]. pose proof (q_dlist _ _ (si_queues _ _ _ Hinv) p (qidx_ready p Hp)) as [Hnd _].
    rewrite HE in Hnd. by apply NoDup_cons in Hnd as [_ Hnd].
Qed.

(** [schedule] changes the state and the identifier of a task only, and it
    sets running the task it makes current only. *)
Definition evolves (cur cur' : Z) (ts ts' : gmap Z tcb) : Prop :=
  forall x, match ts !! x, ts' !! x with
            | Some t, Some t' => (exists st v, t' = set_asid (set_task_state t st) v) /\
                (task_state t' = TSTATE_TASK_RUNNING -> task_state t = TSTATE_TASK_RUNNING \/ (x = cur' /\ cur' <> cur))
            | None, None => True
            | _, _ => False
            end.

Lemma same_but_asid t : t = set_asid (set_task_state t (task_state t)) (asid t).
Proof. by destruct t. Qed.

Lemma states_differ_evolves cur cur' ts ts' l : states_differ ts ts' l -> evolves cur cur' ts ts'.
Proof.
  intros Hd x. rewrite (Hd x). case_bool_decide; destruct (ts !! x) as [t|]; simpl; try done.
  - split; [|done]. by exists TSTATE_TASK_READYTORUN, (asid t).
  - split; [|by left]. exists (task_state t), (asid t). apply same_but_asid.
Qed.

Lemma evolves_run cur x ts ts' t u :
  evolves cur x ts ts' -> cur <> x -> ts' !! x = Some t -> ran t u -> evolves cur x ts (<[x := u]> ts').
Proof.
  intros He Hne Ht [v ->] y. specialize (He y). destruct (decide (y = x)) as [->|].
  - rewrite lookup_insert_eq. rewrite Ht in He. destruct (ts !! x) as [t0|]; [|done].
    destruct He as [(st & w & ->) _]. split; [|by right]. by eexists _, _.
  - by rewrite lookup_insert_ne.
Qed.

(** The running task was woken by an earlier call: its ready time has passed. *)
Definition current_due (time : nat -> Z) (k : sched_state) (qs : Z -> list Z) : Prop :=
  forall i, stale_cur k qs i -> g_current_task k ∈ woken time 0 (tasks k) (qs PEND).

Lemma schedule_ok fuel time g k qs :
  kernel_inv g k qs -> current_due time k qs -> (g + 1) * num_asids (asids k) < 2 ^ 32 ->
  (size (tasks k) < fuel)%nat ->
  let wake := woken time 0 (tasks k) (qs PEND) in
  exists k' qs' g', schedule fuel time k = Ok k' /\ kernel_inv g' k' qs' /\ (g' = g \/ g' = g + 1) /\
    num_asids (asids k') = num_asids (asids k) /\
    scheduled (g_current_task k) (fun p => qs p ++ of_prio (tasks k) p wake)
      (staying time 0 (tasks k) (qs PEND)) k' qs' /\
    evolves (g_current_task k) (g_current_task k') (tasks k) (tasks k').
Proof.
  intros [Hinv Hasid Hty Hcur] Hdue Hroom Hf wake. unfold schedule.
  destruct (sched_pending_check_ok time fuel _ k qs Hinv) as (k1 & qs1 & -> & Hi1 & [Hr1 Hr2] & Hd1 & Hs1).
  { pose proof (queue_length _ _ _ PEND Hinv qidx_pend). lia. }
  cbn [obind]. fold wake in Hi1, Hr2, Hd1. set (stay := staying time 0 (tasks k) (qs PEND)) in *.
  pose proof (states_differ_dom _ _ _ Hd1) as Hdom.
  assert (Hi2 : sched_inv (fun _ => False) k1 qs1).
  { eapply sched_inv_weaken; [|exact Hi1]. intros p _ [Hst Hall].
    apply (Hall (g_current_task k)); [by apply (Hdue p)|]. destruct Hst as (_ & t & Ht & _ & <-).
    unfold prio_of. by rewrite Ht. }
  destruct Hs1 as (Hc1 & _ & Ha1 & _).
  assert (Hasid1 : asid_inv g (asids k1) (tasks k1)).
  { rewrite Ha1. eapply asid_inv_view; [|exact Hasid]. intros x. by eapply states_differ_view. }
  assert (Hty1 : forall x t, tasks k1 !! x = Some t -> user t \/ type t = TASK_TYPE_KERNEL).
  { intros x t Hx. pose proof (states_differ_view _ _ _ x Hd1) as Hv. rewrite Hx in Hv. symmetry in Hv.
    apply fmap_Some in Hv as (t0 & Ht0 & E). injection E as E _. unfold user. rewrite E. by apply (Hty x). }
  destruct (choose_ok fuel (g_current_task k) k1 qs1 Hi2) as (p & Hp & Hlow & Hnone & ->).
  { rewrite <- (size_dom (D := gset Z)), Hdom, size_dom. done. }
  assert (Hready : forall q, 0 <= q < 32 -> qs q ++ of_prio (tasks k) q wake = qs1 q)
    by (intros q Hq; symmetry; by apply Hr2).
  destruct (pick (g_current_task k) (qs1 p)) as [x|] eqn:Hpick.
  - destruct (switch_step g k1 qs1 (g_current_task k) p x)
      as (k' & qs' & g' & -> & Hki & Hg' & Hna & Hcur' & Hpend & Hrun & Hqs' & t & u & Ht & Hr & Htk'); try done.
    { by rewrite Hdom. } { by rewrite Ha1. }
    exists k', qs', g'. split; [done|]. split; [done|]. split; [done|]. split; [by rewrite Hna, Ha1|].
    destruct (pick_split _ _ _ Hpick) as (_ & _ & _ & Hx). split.
    2: { rewrite Hcur', Htk'. eapply evolves_run; [by eapply states_differ_evolves|done|done|done]. }
    right. exists p. rewrite Hready by done. split; [done|].
    split; [intros E; by rewrite E in Hpick|]. split; [intros q Hq; rewrite Hready by lia; by apply Hlow|].
    rewrite Hpick. split; [done|]. split; [by rewrite Hpend, Hr1|]. split; [done|].
    intros q Hq. rewrite Hqs', Hready by done. done.
  - exists k1, qs1, g. split; [done|]. split; [|split; [by left|split; [by rewrite Ha1|]]].
    { constructor; try done.
      - eapply sched_inv_weaken; [|exact Hi2]. done.
      - by rewrite Hc1, Hdom. }
    assert (Hunch : g_current_task k1 = g_current_task k /\ qs1 PEND = stay /\
              forall q, 0 <= q < 32 -> qs1 q = qs q ++ of_prio (tasks k) q wake) by (split; done).
    split; [|by eapply states_differ_evolves].
    destruct (decide (qs1 p = [])) as [E|E].
    + left. split; [|done]. intros q Hq. rewrite Hready by done. by apply Hnone.
    + right. exists p. rewrite Hready by done. split; [done|]. split; [done|].
      split; [intros q Hq; rewrite Hready by lia; by apply Hlow|]. by rewrite Hpick.
Qed.
End Choice.

(** ** Leaving the queues *)

Section Leaving.
Context `{KernelLayout}.

(** The exemption for the running task survives unless the task itself leaves. *)
Definition stale_but (x : Z) (k : sched_state) (qs : Z -> list Z) (i : Z) : Prop :=
  g_current_task k <> x /\ stale_cur k qs i.

Lemma list_empty_queue k qs p :
  queues (links k) qs -> 0 <= p < 32 ->
  list_empty (links k) (ready_head p) = Ok (bool_decide (qs p = [])).
Proof.
  intros HQ Hp. rewrite <- qhead_ready by lia.
  rewrite (list_empty_ok _ _ (qs p)) by (apply HQ, qidx_ready, Hp).
  by destruct (qs p).
Qed.

(** The common part of [sched_block] and [sched_sleep]. *)
Lemma dequeue_ok k qs x t i l1 l2 st :
  sched_inv (stale_cur k qs) k qs -> tasks k !! x = Some t -> qidx i -> qs i = l1 ++ x :: l2 ->
  exists s k', list_del_init (links k) x = Ok s /\
    priority_clear (put_task (set_links k s) x (set_task_state t st)) (sched_priority t) = Ok k' /\
    sched_inv (stale_but x k qs) k' (upd qs i (l1 ++ l2)) /\ ~ queued (upd qs i (l1 ++ l2)) x /\
    tasks k' = <[x := set_task_state t st]> (tasks k) /\ same_rest k k'.
Proof.
  intros [HL HQ HN HP HT HR HB Hlost Hstale] Ht Hi HE.
  assert (Hp : 0 <= sched_priority t < 32) by (by apply (HP x)).
  pose proof (q_dlist _ _ HQ i Hi) as Hd. rewrite HE in Hd.
  destruct (list_del_init_ok _ _ l1 x l2 Hd) as (s1 & Hs & Hd1 & _ & Ht1).
  destruct (queues_remove (links k) s1 qs i l1 x l2 HL HQ Hi HE Hd1 Ht1) as (HQ1 & Hnq & Hnh & Hdx & Hdom).
  set (qs1 := upd qs i (l1 ++ l2)) in *. set (p := sched_priority t) in *.
  set (k1 := put_task (set_links k s1) x (set_task_state t st)).
  destruct (priority_clear_ok k1 p _ HB Hp (list_empty_queue k1 qs1 p HQ1 Hp)) as (bm & grp & Hk' & Hbok & Hbits).
  exists s1, (set_bits k1 bm grp). split; [done|]. split; [done|]. split; [|done].
  assert (Hsub : forall j y, qidx j -> y ∈ qs1 j -> y ∈ qs j /\ y <> x).
  { intros j y Hj Hy. split; [|intros ->; apply Hnq; by exists j]. unfold qs1, upd in Hy.
    destruct (Z.eqb_spec j i) as [E|]; [|done]. subst j. rewrite HE.
    rewrite elem_of_app in Hy. rewrite elem_of_app, elem_of_cons. tauto. }
  constructor; try done.
  - intros y Hy. cbn in Hy |- *. rewrite dom_insert_L in Hy. rewrite Hdom. apply HN.
    apply elem_of_union in Hy as [->%elem_of_singleton|Hy]; [apply elem_of_dom; by exists t|done].
  - intros y w Hy. cbn in Hy. destruct (decide (y = x)) as [->|].
    + rewrite lookup_insert_eq in Hy. by simplify_eq.
    + rewrite lookup_insert_ne in Hy by done. by apply (HP y).
  - intros j y Hj Hy. cbn. rewrite dom_insert_L. apply elem_of_union. right.
    apply (HT j); [done|]. by apply Hsub.
  - intros j y w Hj Hy Hw. cbn in Hw. destruct (Hsub j y (qidx_ready j Hj) Hy) as [Hy2 Hyx].
    rewrite lookup_insert_ne in Hw by done. by apply (HR j y).
  - intros j Hj Hne. cbn. rewrite Hbits by done. cbn. rewrite Hlost; [|done|].
    + destruct (Z.eqb_spec j p) as [->|]; [|by rewrite andb_false_r]. by rewrite bool_decide_eq_false_2.
    + destruct (qs1 j) as [|y l] eqn:E; [done|]. destruct (Hsub j y (qidx_ready j Hj)) as [Hy _]; [rewrite E; by left|].
      intros E2. rewrite E2 in Hy. by apply not_elem_of_nil in Hy.
  - intros j Hj Hb. cbn in Hb. rewrite Hbits in Hb by done. cbn in Hb. apply andb_true_iff in Hb as [Hb Hc].
    destruct (Z.eqb_spec j p) as [->|Hjp].
    + left. intros E. by rewrite bool_decide_eq_true_2 in Hc.
    + assert (Hji : j <> i).
      { intros E. apply Hjp. symmetry. apply (HR j x t Hj); [|done]. rewrite E, HE, elem_of_app, elem_of_cons. tauto. }
      destruct (Hstale j Hj Hb) as [Hne|Hst].
      * left. unfold qs1. by rewrite upd_ne.
      * right. split; [|done]. intros E. destruct Hst as (_ & u & Hu & _ & Hpr). rewrite E in Hu. by simplify_eq.
Qed.

(** A sleeping task goes to the tail of the pending queue. *)
Lemma sched_sleep_ok g k qs x t i l1 l2 :
  kernel_inv g k qs -> tasks k !! x = Some t -> qidx i -> qs i = l1 ++ x :: l2 ->
  let qs1 := upd qs i (l1 ++ l2) in
  let qs' := upd qs1 PEND (qs1 PEND ++ [x]) in
  exists k', sched_sleep k x = Ok k' /\ kernel_inv g k' qs' /\
    tasks k' = <[x := set_task_state t TSTATE_TASK_SLEEPING]> (tasks k) /\ same_rest k k'.
Proof.
  intros [Hinv Hasid Hty Hcur] Ht Hi HE qs1 qs'.
  assert (Hxd : x ∈ dom (tasks k)) by (apply elem_of_dom; by exists t).
  destruct (si_nodes _ _ _ Hinv x Hxd) as (_ & _ & Hx0).
  pose proof (si_prio _ _ _ Hinv x t Ht) as Hp. destruct (split8 _ Hp) as (_ & _ & Hq8).
  destruct (dequeue_ok k qs x t i l1 l2 TSTATE_TASK_SLEEPING Hinv Ht Hi HE)
    as (s & k1 & Hs & Hk1 & [HL HQ HN HP HT HR HB Hlost Hstale] & Hnq & Htk & Hrest).
  fold qs1 in HQ, HT, HR, Hlost, Hstale, Hnq.
  unfold sched_sleep. rewrite (proj2 (Z.eqb_neq x 0)) by done. cbn [negb]. rewrite Hs. cbn [obind].
  unfold get_task. rewrite Ht. cbn [obind]. change MAX_PRIORITY_BITMAP_INDEX with 4.
  rewrite (proj2 (Z.ltb_ge _ _)) by lia. rewrite Hk1. cbn [obind].
  assert (Hx1 : x ∈ dom (tasks k1)) by (rewrite Htk; apply elem_of_dom; by rewrite lookup_insert_eq).
  destruct (HN x Hx1) as (Hxl & Hnh & _).
  destruct (queues_add_tail (links k1) qs1 PEND x HL HQ qidx_pend Hxl Hnq Hnh) as (s2 & Hs2 & HQ2 & Hdom2).
  change (qhead PEND) with g_pendingtasks in Hs2. rewrite Hs2. cbn [obind]. fold qs' in HQ2.
  eexists. split; [done|]. split; [|by split].
  assert (Hrdy : forall j, 0 <= j -> qs' j = qs1 j) by (intros j Hj; apply upd_ne; unfold PEND; lia).
  constructor.
  - constructor; try done.
    + intros y Hy. cbn in *. rewrite Hdom2. by apply HN.
    + intros j y Hj Hy. unfold qs', upd at 1 in Hy. destruct (Z.eqb_spec j PEND) as [->|]; [|by apply (HT j)].
      apply elem_of_app in Hy as [Hy|Hy%list_elem_of_singleton]; [by apply (HT PEND)|by subst].
    + intros j y w Hj. rewrite Hrdy by lia. by apply HR.
    + intros j Hj. rewrite Hrdy by lia. by apply Hlost.
    + intros j Hj Hb. rewrite Hrdy by lia. destruct (Hstale j Hj Hb) as [?|[Hne (Hc & u & Hu & Hrun & Hpr)]]; [by left|right].
      destruct Hrest as (Hc' & _). unfold stale_cur. cbn [g_current_task set_links tasks]. rewrite Hc'. split.
      * assert (qs' PEND = qs1 PEND ++ [x]) as -> by apply upd_eq. rewrite elem_of_app. left. unfold qs1, upd.
        destruct (Z.eqb_spec PEND i) as [<-|]; [|done]. rewrite HE, elem_of_app, elem_of_cons in Hc.
        rewrite elem_of_app. destruct Hc as [?|[?|?]]; [by left|done|by right].
      * exists u. by rewrite Htk, lookup_insert_ne by done.
  - cbn. destruct Hrest as (_ & _ & -> & _). rewrite Htk. eapply asid_inv_view; [|exact Hasid].
    intros y. destruct (decide (y = x)) as [->|]; [by rewrite lookup_insert_eq, Ht|by rewrite lookup_insert_ne].
  - cbn. intros y w. rewrite Htk. destruct (decide (y = x)) as [->|].
    + rewrite lookup_insert_eq. intros [= <-]. destruct (Hty x t Ht); [by left|by right].
    + rewrite lookup_insert_ne by done. by apply Hty.
  - cbn. destruct Hrest as (-> & _). rewrite Htk, dom_insert_L. apply elem_of_union. by right.
Qed.
End Leaving.

(** ** Initialisation *)

Section Init.
Context `{KernelLayout}.

Lemma init_heads_ok n : forall s i,
  0 <= i -> (forall j, i <= j < i + Z.of_nat n -> ready_head j ∈ dom s) ->
  exists s', init_heads n s i = Ok s' /\ touches s s' (map ready_head (seqZ i (Z.of_nat n))) /\
    forall j, i <= j < i + Z.of_nat n -> dlist s' (ready_head j) [].
Proof.
  induction n as [|n IH]; intros s i Hi Hdom; simpl init_heads.
  { exists s. split; [done|]. split; [by split|lia]. }
  destruct (INIT_LIST_HEAD_ok s (ready_head i)) as (s1 & -> & Hd1 & T1); [apply Hdom; lia|]. cbn [obind].
  destruct (IH s1 (i + 1)) as (s2 & -> & T2 & Hd2); [lia|intros j Hj; rewrite (proj1 T1); apply Hdom; lia|].
  exists s2. split; [done|].
  assert (Hseq : seqZ i (Z.of_nat (S n)) = i :: seqZ (i + 1) (Z.of_nat n)).
  { rewrite seqZ_cons by lia. f_equal. unfold Z.succ, Z.pred. f_equal; lia. }
  rewrite Hseq. split.
  - destruct T1 as [D1 T1], T2 as [D2 T2]. split; [congruence|]. intros x Hx. simpl in Hx.
    apply not_elem_of_cons in Hx as [Hx1 Hx2]. rewrite T2 by done. apply T1. by rewrite list_elem_of_singleton.
  - intros j Hj. destruct (decide (j = i)) as [->|]; [|apply Hd2; lia].
    eapply dlist_frame; [exact Hd1|exact T2|]. intros x ->%list_elem_of_singleton Hx.
    apply list_elem_of_fmap in Hx as (j & E & Hj2). apply elem_of_seqZ in Hj2. unfold ready_head in E. lia.
Qed.

(** The boot state: the heads and the links of the tasks are mapped, no bit is set. *)
Record boot_ok (k : sched_state) (idle : Z) (t : tcb) : Prop := {
  boot_layout : layout_ok;
  boot_heads : forall i, qidx i -> qhead i ∈ dom (links k);
  boot_idle : tasks k !! idle = Some t;
  boot_nodes : forall x, x ∈ dom (tasks k) -> x ∈ dom (links k) /\ ~ is_head x /\ x <> 0;
  boot_prio : forall x u, tasks k !! x = Some u -> 0 <= sched_priority u < 32;
  boot_bits : g_priority_bitmap k = [0; 0; 0; 0] /\ g_priority_group k = 0
}.

Definition only (p x : Z) : Z -> list Z := upd (fun _ => []) p [x].

Lemma zero_bits : bits_ok [0; 0; 0; 0] 0 /\ forall q, 0 <= q < 32 -> pbit [0; 0; 0; 0] q = false.
Proof.
  split.
  - constructor; [done|by repeat constructor|lia|]. intros i b Hb. rewrite Z.bits_0.
    assert (b = 0) as ->; [|done]. apply list_elem_of_lookup_2 in Hb.
    repeat (apply elem_of_cons in Hb as [->|Hb]; [done|]). by apply not_elem_of_nil in Hb.
  - intros q Hq. unfold pbit. destruct (_ !! _) as [b|] eqn:E; [|done]. apply list_elem_of_lookup_2 in E.
    repeat (apply elem_of_cons in E as [->|E]; [apply Z.bits_0|]). by apply not_elem_of_nil in E.
Qed.

Lemma sched_init_ok k idle t :
  boot_ok k idle t ->
  exists k', sched_init k idle = Ok k' /\ sched_inv (fun _ => False) k' (only (sched_priority t) idle) /\
    g_current_task k' = idle /\ asids k' = asids k /\ hw k' = hw k /\ tids k' = tids k /\
    tasks k' = <[idle := set_task_state t TSTATE_TASK_READYTORUN]> (tasks k).
Proof.
  intros [HL Hheads Htk HN HP [Hbm Hgrp]].
  assert (Hi0 : idle <> 0) by (apply HN, elem_of_dom; by exists t). unfold sched_init.
  rewrite (proj2 (Z.eqb_neq idle 0)) by done. cbn [negb].
  destruct (init_heads_ok (Z.to_nat CONFIG_MAX_TASK_PRIORITY) (links k) 0) as (s1 & -> & T1 & Hd1).
  { lia. } { intros j Hj. change (Z.of_nat (Z.to_nat CONFIG_MAX_TASK_PRIORITY)) with 32 in Hj.
    rewrite <- qhead_ready by lia. apply Hheads, qidx_ready. lia. }
  change (Z.of_nat (Z.to_nat CONFIG_MAX_TASK_PRIORITY)) with 32 in *. cbn [obind].
  destruct (INIT_LIST_HEAD_ok s1 g_pendingtasks) as (s2 & -> & Hd2 & T2).
  { rewrite (proj1 T1). apply (Hheads PEND), qidx_pend. }
  cbn [obind]. assert (Hdom : dom s2 = dom (links k)) by (destruct T1, T2; congruence).
  assert (HQ : queues s2 (fun _ => [])).
  { constructor; [|by intros ? ? ? _ _ ?%not_elem_of_nil|intros ? ? _ _; apply not_elem_of_nil].
    intros i Hi. unfold qhead. destruct (Z.eqb_spec i PEND) as [->|Hne]; [done|].
    assert (0 <= i < 32) by (unfold qidx, PEND in *; lia).
    eapply dlist_frame; [apply Hd1; lia|exact T2|]. intros x ->%list_elem_of_singleton E%list_elem_of_singleton.
    by apply (HL i). }
  destruct zero_bits as [Hz1 Hz2].
  assert (Hinv : sched_inv (fun _ => False) (set_links k s2) (fun _ => [])).
  { constructor; cbn; rewrite ?Hbm, ?Hgrp, ?Hdom; try done.
    - by intros i x _ ?%not_elem_of_nil.
    - by intros i x u _ ?%not_elem_of_nil.
    - intros i Hi. by rewrite Hz2. }
  destruct (sched_attach_ok _ (set_links k s2) (fun _ => []) idle t Hinv) as (k1 & -> & Hi1 & Ht1 & Hr1).
  { done. } { intros (i & _ & Hx). by apply not_elem_of_nil in Hx. }
  cbn [obind]. destruct Hr1 as (_ & ? & ? & ?). eexists. split; [done|]. split; [|done].
  destruct Hi1. constructor; try done. intros i Hi Hb. destruct (si_nostale0 i Hi Hb) as [?|[[] _]]; by left.
Qed.
End Init.
