(* ===== verification/Timer.v ===== *)
(** * Timer interrupt and sleeping (os/core/sched/timer.c, os/dev/timer)

    The two ways a user task gives up the processor: the timer interrupt and
    [nanosleep].  The file models both and runs them as a sequence of events,
    with the theorem that the kernel keeps going and loses no task. *)

From Stdlib Require Import ZArith Lia Bool.
From stdpp Require Import base numbers list gmap.
From S2P Require Import Prelude Bitmap KList Task Sched.

Definition TIMER_CLOCK_HZ : Z := 62500000.
Definition TICKS_PER_NS : Z := TIMER_CLOCK_HZ / 1000 / 1000 / 1000.
Definition TICKS_PER_MS : Z := TIMER_CLOCK_HZ / 1000.
Definition TICKS_PER_S : Z := TIMER_CLOCK_HZ.
Definition IRQN_EL1_VIRT_TIMER : Z := 27.

(** The registers of the virtual timer. *)
Record timer_regs : Type := MkTimer { cntv_tval : Z; cntv_ctl : Z }.

(** [struct timer]; [clock_freq] is 32 bits wide. *)
Record timer : Type := MkTimerDesc { timer_irq : Z; clock_freq : Z }.

Definition generic_timer_reset (ms : Z) : timer_regs := MkTimer (u64 (ms * TICKS_PER_MS)) 1.

Definition generic_timer_clear : timer_regs := MkTimer 0 0.

(** [cntfrq] is the value of the frequency register. *)
Definition generic_timer_init (cntfrq : Z) : timer_regs * timer :=
  (MkTimer (TICKS_PER_MS * 1000) 1, MkTimerDesc IRQN_EL1_VIRT_TIMER (u32 cntfrq)).

Section Timer.
Context `{KernelLayout}.

Definition timer_handler (fuel : nat) (time : nat -> Z) (r : timer_regs) (k : sched_state)
    : outcome (timer_regs * sched_state) :=
  let r := generic_timer_clear in
  let r := generic_timer_reset CONFIG_RR_INTERVAL in
  let! k := schedule fuel time k in
  Ok (r, k).

(** [tv_sec] and [tv_nsec] are the fields of the request. *)
Definition sys_nanosleep (k : sched_state) (now tv_sec tv_nsec : Z) : outcome (sched_state * Z) :=
  let current := g_current_task k in
  let! t := get_task k current in
  let k := put_task k current
             (set_readytime t (u64 (u64 (now + u64 (tv_sec * TICKS_PER_S)) + u64 (tv_nsec * TICKS_PER_NS)))) in
  let! k := sched_sleep k current in
  Ok (k, 0).

(** What happens to the running task: the timer fires, or it asks to sleep; a
    system call ends with a call of the scheduler too. *)
Inductive event : Type :=
| Tick (time : nat -> Z)
| Sleep (now tv_sec tv_nsec : Z) (time : nat -> Z).

Definition step (fuel : nat) (k : sched_state) (e : event) : outcome sched_state :=
  match e with
  | Tick time =>
      let! (_, k) := timer_handler fuel time generic_timer_clear k in Ok k
  | Sleep now sec nsec time =>
      let! (k, _) := sys_nanosleep k now sec nsec in
      schedule fuel time k
  end.

Fixpoint run (fuel : nat) (k : sched_state) (es : list event) : outcome sched_state :=
  match es with
  | [] => Ok k
  | e :: es => let! k := step fuel k e in run fuel k es
  end.

(** The counter only grows, and stays below the sign bit; a request is
    non-negative and ends before the counter does. *)
Definition event_ok (t0 t1 : Z) (e : event) : Prop :=
  match e with
  | Tick time => forall i, t0 <= time i <= t1
  | Sleep now sec nsec time => t0 <= now /\ (forall i, now <= time i <= t1) /\ 0 <= sec /\
      0 <= nsec < 1000000000 /\ now + sec * TICKS_PER_S < 2 ^ 63
  end.

Fixpoint events_ok (t0 : Z) (es : list event) (t1 : Z) : Prop :=
  match es with
  | [] => t0 <= t1 < 2 ^ 63
  | e :: es => exists t, t0 <= t /\ event_ok t0 t e /\ events_ok t es t1
  end.

(** A ready task, or the running one, has a ready time in the past. *)
Definition runnable (k : sched_state) (qs : Z -> list Z) (x : Z) (t : tcb) : Prop :=
  (exists i, 0 <= i < 32 /\ x ∈ qs i) \/ (x = g_current_task k /\ task_state t = TSTATE_TASK_RUNNING).

Record sys_inv (now g : Z) (k : sched_state) (qs : Z -> list Z) : Prop := {
  sys_kernel : kernel_inv g k qs;
  sys_queued : forall x, x ∈ dom (tasks k) -> queued qs x;
  sys_clock : forall x t, tasks k !! x = Some t -> 0 <= readytime t < 2 ^ 63 /\ (runnable k qs x t -> readytime t < now);
  sys_now : 0 <= now
}.

Lemma s64_sub a b : 0 <= a < 2 ^ 63 -> 0 <= b < 2 ^ 63 -> s64 (a - b) = a - b.
Proof. intros. apply s64_id. lia. Qed.

Lemma due_iff time i ts x t now :
  ts !! x = Some t -> 0 <= readytime t < 2 ^ 63 -> (forall j, 0 <= now <= time j /\ time j < 2 ^ 63) ->
  due time i ts x = true <-> readytime t < time i.
Proof.
  intros Ht Hr Htime. unfold due. rewrite Ht, s64_sub by (done || specialize (Htime i); lia).
  rewrite Z.ltb_lt. lia.
Qed.

Lemma in_woken time ts x l : (forall i, due time i ts x = true) -> forall i, x ∈ l -> x ∈ woken time i ts l.
Proof.
  intros Hd. induction l as [|y l IH]; intros i Hx; [done|]. simpl. apply elem_of_cons in Hx as [->|Hx].
  - rewrite Hd. by left.
  - destruct (due time i ts y); [right|]; by apply IH.
Qed.

Lemma woken_due time ts x l : forall i, x ∈ woken time i ts l -> x ∈ l /\ exists j, due time j ts x = true.
Proof.
  induction l as [|y l IH]; intros i; simpl; [by intros ?%not_elem_of_nil|].
  destruct (due time i ts y) eqn:E.
  - intros [->|Hx]%elem_of_cons; [split; [by left|by exists i]|].
    destruct (IH _ Hx). split; [by right|done].
  - intros Hx. destruct (IH _ Hx). split; [by right|done].
Qed.

Lemma stay_or_woken time ts x l : forall i, x ∈ l -> x ∈ staying time i ts l \/ x ∈ woken time i ts l.
Proof.
  induction l as [|y l IH]; intros i Hx; [by apply not_elem_of_nil in Hx|]. simpl.
  apply elem_of_cons in Hx as [->|Hx]; [destruct (due time i ts y); [right|left]; by left|].
  destruct (IH (S i) Hx), (due time i ts y); rewrite ?elem_of_cons; tauto.
Qed.

Lemma elem_of_prio ts p l x : x ∈ of_prio ts p l <-> prio_of ts x = p /\ x ∈ l.
Proof. unfold of_prio. by rewrite list_elem_of_filter. Qed.

(** Where [schedule] leaves the tasks. *)
Lemma scheduled_elem cur ready stay k' qs' x :
  scheduled cur ready stay k' qs' ->
  (queued qs' x <-> x ∈ stay \/ exists p, 0 <= p < 32 /\ x ∈ ready p) /\
  (forall p, 0 <= p < 32 -> x ∈ qs' p -> x ∈ ready p) /\
  (g_current_task k' = cur \/ exists p, 0 <= p < 32 /\ g_current_task k' ∈ ready p).
Proof.
  assert (Hun : forall P, (qs' PEND = stay /\ forall q, 0 <= q < 32 -> qs' q = ready q) ->
    (queued qs' x <-> x ∈ stay \/ exists p, 0 <= p < 32 /\ x ∈ ready p) /\
    (forall p, 0 <= p < 32 -> x ∈ qs' p -> x ∈ ready p) /\ (g_current_task k' = cur \/ P) <->
    (g_current_task k' = cur \/ P)).
  { intros P [Hp Hq]. split; [tauto|]. intros HP. split; [|split; [intros p Hp2; by rewrite Hq|done]]. split.
    - intros (i & Hi & Hx). destruct (Z.eq_dec i PEND) as [->|]; [left; by rewrite <- Hp|right].
      assert (0 <= i < 32) by (unfold qidx, PEND in *; lia). exists i. by rewrite <- Hq.
    - intros [Hx|(p & Hp2 & Hx)]; [exists PEND; rewrite Hp|exists p; rewrite Hq by done];
        (split; [unfold qidx, PEND; lia|done]). }
  intros [[_ [Hc H2]]|(p & Hp & Hne & _ & Hm)]; [apply Hun; tauto|].
  destruct (pick cur (ready p)) as [y|] eqn:Hpick; [|destruct Hm as [Hc H2]; apply Hun; tauto].
  destruct Hm as (Hc & Hpe & _ & Hq). destruct (pick_split _ _ _ Hpick) as (l1 & l2 & HE & _).
  assert (Hy : y ∈ ready p) by (rewrite HE, elem_of_app, elem_of_cons; tauto).
  assert (Hin : forall q, 0 <= q < 32 -> (x ∈ qs' q -> x ∈ ready q) /\ (x ∈ ready q -> x ∈ qs' q \/ x = y)).
  { intros q Hq2. rewrite Hq by done. destruct (Z.eqb_spec q p) as [->|]; [|tauto].
    rewrite list_elem_of_filter. destruct (decide (x = y)); tauto. }
  split; [|split; [intros q Hq2; by apply Hin|right; exists p; by rewrite Hc]]. split.
  - intros (i & Hi & Hx). destruct (Z.eq_dec i PEND) as [->|].
    + rewrite Hpe, elem_of_app, list_elem_of_singleton in Hx. destruct Hx as [?| ->]; [by left|right; by exists p].
    + assert (Hi2 : 0 <= i < 32) by (unfold qidx, PEND in *; lia). right. exists i. split; [done|by apply Hin].
  - intros [Hx|(q & Hq2 & Hx)].
    + exists PEND. split; [apply qidx_pend|]. rewrite Hpe, elem_of_app. by left.
    + destruct (proj2 (Hin q Hq2) Hx) as [Hx2| ->]; [exists q; split; [by apply qidx_ready|done]|].
      exists PEND. split; [apply qidx_pend|]. rewrite Hpe, elem_of_app, list_elem_of_singleton. by right.
Qed.

Lemma evolves_back cur cur' ts ts' x t' :
  evolves cur cur' ts ts' -> ts' !! x = Some t' ->
  exists t, ts !! x = Some t /\ readytime t' = readytime t /\
    (task_state t' = TSTATE_TASK_RUNNING -> task_state t = TSTATE_TASK_RUNNING \/ (x = cur' /\ cur' <> cur)).
Proof.
  intros He Ht. specialize (He x). rewrite Ht in He. destruct (ts !! x) as [t|]; [|done].
  destruct He as [(st & v & ->) Hr]. by exists t.
Qed.

Lemma evolves_dom cur cur' ts ts' x : evolves cur cur' ts ts' -> x ∈ dom ts' <-> x ∈ dom ts.
Proof.
  intros He. specialize (He x). rewrite !elem_of_dom. destruct (ts !! x), (ts' !! x); try done.
  all: split; [intros []|intros []]; done.
Qed.

(** One call of [schedule] at a time in [now, t1]. *)
Lemma schedule_sys fuel time now t1 g k qs :
  sys_inv now g k qs -> (forall i, now <= time i <= t1) -> t1 < 2 ^ 63 -> now <= t1 ->
  (g + 1) * num_asids (asids k) < 2 ^ 32 -> (size (tasks k) < fuel)%nat ->
  exists k' qs' g', schedule fuel time k = Ok k' /\ sys_inv t1 g' k' qs' /\ (g' = g \/ g' = g + 1) /\
    num_asids (asids k') = num_asids (asids k) /\ dom (tasks k') = dom (tasks k) /\
    evolves (g_current_task k) (g_current_task k') (tasks k) (tasks k').
Proof.
  intros [Hki Hqd Hck Hnow] Htime Ht1 Hle Hroom Hf.
  assert (Hd : forall j, 0 <= now <= time j /\ time j < 2 ^ 63) by (intros j; specialize (Htime j); lia).
  assert (Hdue : current_due time k qs).
  { intros i (Hc & t & Ht & Hrun & _). apply in_woken; [|done]. intros j.
    destruct (Hck _ t Ht) as [Hr Hlt]. apply (due_iff time j _ _ t now Ht Hr Hd).
    specialize (Hd j). assert (readytime t < now) by (apply Hlt; right; done). lia. }
  destruct (schedule_ok fuel time g k qs Hki Hdue Hroom Hf)
    as (k' & qs' & g' & Hk & Hki' & Hg' & Hna & Hsch & Hev).
  assert (Hdom : dom (tasks k') = dom (tasks k)) by (apply set_eq; intros x; by eapply evolves_dom).
  exists k', qs', g'. split; [done|]. split; [|done]. constructor; [done|..|lia].
  - intros x Hx. rewrite Hdom in Hx. apply (scheduled_elem _ _ _ _ _ x Hsch).
    destruct (Hqd x Hx) as (i & Hi & Hxi). destruct (Z.eq_dec i PEND) as [->|].
    + destruct (stay_or_woken time (tasks k) x (qs PEND) 0 Hxi) as [?|Hw]; [by left|right].
      apply elem_of_dom in Hx as [t Ht]. exists (prio_of (tasks k) x). split.
      * unfold prio_of. rewrite Ht. by apply (si_prio _ _ _ (ki_sched _ _ _ Hki) x).
      * rewrite elem_of_app, elem_of_prio. by right.
    + right. exists i. split; [unfold qidx, PEND in *; lia|]. rewrite elem_of_app. by left.
  - intros x t' Ht'. destruct (evolves_back _ _ _ _ x t' Hev Ht') as (t & Ht & -> & Hst).
    destruct (Hck x t Ht) as [Hr Hlt]. split; [done|].
    destruct (scheduled_elem _ _ _ _ _ x Hsch) as (_ & Hback & Hcur).
    assert (Hrd : forall p, 0 <= p < 32 -> x ∈ qs p ++ of_prio (tasks k) p (woken time 0 (tasks k) (qs PEND)) ->
              readytime t < t1).
    { intros p Hp [Hx|Hx]%elem_of_app; [assert (readytime t < now) by (apply Hlt; left; by exists p); lia|].
      apply elem_of_prio in Hx as [_ Hx]. apply woken_due in Hx as [_ (j & Hj)].
      apply (due_iff time j _ x t now Ht Hr Hd) in Hj. specialize (Htime j). lia. }
    intros [(i & Hi & Hx)|[-> Hrun]]; [by apply (Hrd i Hi), Hback|].
    destruct Hcur as [Hc|(p & Hp & Hx)]; [|by apply (Hrd p)]. destruct (Hst Hrun) as [Hrun0|[_ Hne]]; [|done].
    assert (readytime t < now) by (apply Hlt; right; by split). lia.
Qed.

(** What the scheduler looks at in a control block. *)
Definition sched_view (t : tcb) : Z * task_state_e * Z * Z := (sched_priority t, task_state t, type t, asid t).

(** The scheduler's state apart from the tasks' other fields and the list nodes
    of other components. *)
Record same_sched (k k' : sched_state) (qs : Z -> list Z) : Prop := {
  ss_current : g_current_task k' = g_current_task k;
  ss_bits : g_priority_bitmap k' = g_priority_bitmap k /\ g_priority_group k' = g_priority_group k;
  ss_asids : asids k' = asids k;
  ss_tasks : forall x, sched_view <$> tasks k' !! x = sched_view <$> tasks k !! x;
  ss_nodes : forall i x, qidx i -> x ∈ qhead i :: qs i -> links k' !! x = links k !! x;
  ss_dom : forall x, x ∈ dom (tasks k) -> x ∈ dom (links k) -> x ∈ dom (links k')
}.

Lemma view_back (f : tcb -> Z * task_state_e * Z * Z) (ts ts' : gmap Z tcb) x t' :
  f <$> ts' !! x = f <$> ts !! x -> ts' !! x = Some t' -> exists t, ts !! x = Some t /\ f t' = f t.
Proof. intros E H'. rewrite H' in E. cbn in E. symmetry in E. apply fmap_Some in E as (t & Ht & E). by exists t. Qed.

Lemma view_dom {A} (f : tcb -> A) (ts ts' : gmap Z tcb) :
  (forall x, f <$> ts' !! x = f <$> ts !! x) -> dom ts' = dom ts.
Proof.
  intros E. apply set_eq. intros x. rewrite !elem_of_dom. rewrite <- !(fmap_is_Some f). by rewrite E.
Qed.

Lemma kernel_inv_frame g k k' qs : same_sched k k' qs -> kernel_inv g k qs -> kernel_inv g k' qs.
Proof.
  intros [Ec [Eb Eg] Ea Et En Ed] [[HL HQ HN HP HT HR HB Hlost Hstale] Hasid Hty Hcur].
  pose proof (view_dom _ _ _ Et) as Hdom.
  constructor; [constructor|..]; rewrite ?Ec, ?Eb, ?Eg, ?Ea, ?Hdom; try done.
  - destruct HQ as [Q1 Q2 Q3]. constructor; [|done..]. intros i Hi. apply (dlist_ext (links k)); [by apply Q1|].
    intros x Hx. by apply (En i).
  - intros x Hx. destruct (HN x Hx) as [H1 H2]. split; [by apply Ed|done].
  - intros x t' Ht'. destruct (view_back _ _ _ _ _ (Et x) Ht') as (t & Ht & [= -> _ _ _]). by apply (HP x).
  - intros i x t' Hi Hx Ht'. destruct (view_back _ _ _ _ _ (Et x) Ht') as (t & Ht & [= -> -> _ _]). by apply (HR i x).
  - intros i Hi Hb. destruct (Hstale i Hi Hb) as [?|(Hc & t & Ht & Hrun & Hpr)]; [by left|right].
    unfold stale_cur. rewrite Ec. split; [done|]. symmetry in Et.
    destruct (view_back _ _ _ _ _ (Et (g_current_task k)) Ht) as (t' & Ht' & E). exists t'. by injection E as <- <- _ _.
  - eapply asid_inv_view; [|exact Hasid]. intros x. specialize (Et x).
    destruct (tasks k' !! x), (tasks k !! x); try done. cbn in *. by injection Et as _ _ -> ->.
  - intros x t' Ht'. destruct (view_back _ _ _ _ _ (Et x) Ht') as (t & Ht & [= _ _ E _]). unfold user. rewrite E. by apply (Hty x).
Qed.

(** Other fields of one control block. *)
Lemma same_sched_put k qs x t t' : tasks k !! x = Some t -> sched_view t' = sched_view t -> same_sched k (put_task k x t') qs.
Proof.
  intros Ht Hv. constructor; try done. intros y. cbn. destruct (decide (y = x)) as [->|].
  - rewrite lookup_insert_eq, Ht. cbn. by rewrite Hv.
  - by rewrite lookup_insert_ne.
Qed.

Lemma kernel_inv_readytime g k qs x t r :
  kernel_inv g k qs -> tasks k !! x = Some t -> kernel_inv g (put_task k x (set_readytime t r)) qs.
Proof. intros Hk Ht. eapply kernel_inv_frame; [by eapply same_sched_put|done]. Qed.

Lemma sys_inv_frame now g k k' qs : same_sched k k' qs ->
  (forall x, readytime <$> tasks k' !! x = readytime <$> tasks k !! x) -> sys_inv now g k qs -> sys_inv now g k' qs.
Proof.
  intros HS Hr [H1 H2 H3 H4]. constructor; [by eapply kernel_inv_frame| | |done]; destruct HS as [Ec _ _ Et _ _].
  - by rewrite (view_dom _ _ _ Et).
  - intros x t' Ht'. destruct (view_back _ _ _ _ _ (Et x) Ht') as (t & Ht & [= _ E _ _]).
    specialize (Hr x). rewrite Ht, Ht' in Hr. injection Hr as ->. destruct (H3 x t Ht) as [R1 R2]. split; [done|].
    unfold runnable in *. rewrite Ec, E. done.
Qed.

Lemma ticks_of_request now sec nsec :
  0 <= now -> 0 <= sec -> 0 <= nsec < 1000000000 -> now + sec * TICKS_PER_S < 2 ^ 63 ->
  u64 (u64 (now + u64 (sec * TICKS_PER_S)) + u64 (nsec * TICKS_PER_NS)) = now + sec * TICKS_PER_S.
Proof.
  intros. change TICKS_PER_NS with 0. rewrite Z.mul_0_r. change (u64 0) with 0. rewrite Z.add_0_r.
  assert (0 <= sec * TICKS_PER_S) by (unfold TICKS_PER_S, TIMER_CLOCK_HZ; lia).
  rewrite (u64_id (sec * TICKS_PER_S)) by lia. rewrite !u64_id by (try apply u64_bound; lia). done.
Qed.

Lemma upd_remove_elem qs i l1 (x : Z) l2 j y :
  qs i = l1 ++ x :: l2 -> y <> x -> y ∈ upd qs i (l1 ++ l2) j <-> y ∈ qs j.
Proof.
  intros HE Hy. unfold upd. destruct (Z.eqb_spec j i) as [->|]; [|done].
  rewrite HE, !elem_of_app, elem_of_cons. tauto.
Qed.

Lemma upd_add_elem qs i (x : Z) j y : y <> x -> y ∈ upd qs i (qs i ++ [x]) j <-> y ∈ qs j.
Proof.
  intros Hy. unfold upd. destruct (Z.eqb_spec j i) as [->|]; [|done].
  rewrite elem_of_app, list_elem_of_singleton. tauto.
Qed.

Lemma nanosleep_sys now T sec nsec g k qs :
  sys_inv now g k qs -> now <= T -> 0 <= sec -> 0 <= nsec < 1000000000 -> T + sec * TICKS_PER_S < 2 ^ 63 ->
  exists k' qs', sys_nanosleep k T sec nsec = Ok (k', 0) /\ sys_inv T g k' qs' /\
    asids k' = asids k /\ dom (tasks k') = dom (tasks k) /\ g_current_task k' = g_current_task k /\
    exists t, tasks k !! g_current_task k = Some t /\
      tasks k' = <[g_current_task k := set_task_state (set_readytime t (T + sec * TICKS_PER_S)) TSTATE_TASK_SLEEPING]> (tasks k).
Proof.
  intros [Hki Hqd Hck Hnow] HT Hsec Hns Hfit. unfold sys_nanosleep, get_task. set (c := g_current_task k).
  pose proof (ki_cur _ _ _ Hki) as Hc. fold c in Hc. pose proof Hc as [t Ht]%elem_of_dom. rewrite Ht. cbn [obind].
  rewrite ticks_of_request by lia. set (r := T + sec * TICKS_PER_S) in *.
  assert (Hr : 0 <= r < 2 ^ 63) by (unfold r, TICKS_PER_S, TIMER_CLOCK_HZ in *; lia).
  pose proof (kernel_inv_readytime g k qs c t r Hki Ht) as Hki1. set (k1 := put_task k c (set_readytime t r)) in *.
  destruct (Hqd c Hc) as (i & Hi & (l1 & l2 & HE)%list_elem_of_split).
  destruct (sched_sleep_ok g k1 qs c (set_readytime t r) i l1 l2 Hki1) as (k' & Hk' & Hki' & Htk & Hc' & _ & Ha & _);
    [apply lookup_insert_eq|done|done|].
  rewrite Hk'. cbn [obind]. set (qs1 := upd qs i (l1 ++ l2)) in *. set (qs' := upd qs1 PEND (qs1 PEND ++ [c])) in *.
  cbn in Htk. rewrite insert_insert_eq in Htk.
  assert (Hoth : forall j y, y <> c -> y ∈ qs' j <-> y ∈ qs j).
  { intros j y Hy. unfold qs'. rewrite upd_add_elem by done. by apply (upd_remove_elem qs i l1 c l2). }
  assert (Hcp : c ∈ qs' PEND) by (unfold qs'; rewrite upd_eq, elem_of_app, list_elem_of_singleton; by right).
  assert (Hcr : forall j, 0 <= j < 32 -> c ∉ qs' j).
  { intros j Hj Hcj. pose proof (q_once _ _ (si_queues _ _ _ (ki_sched _ _ _ Hki')) j PEND c (qidx_ready j Hj)
      qidx_pend Hcj Hcp). unfold PEND in *. lia. }
  assert (Hdom : dom (tasks k') = dom (tasks k)).
  { rewrite Htk, dom_insert_L. by apply subseteq_union_1_L, singleton_subseteq_l. }
  exists k', qs'. split; [done|]. split; [|split; [done|]].
  2: { split; [done|]. split; [done|]. by exists t. }
  constructor; [done|..|lia].
  - intros y Hy. rewrite Hdom in Hy. destruct (decide (y = c)) as [->|Hne]; [by exists PEND|].
    destruct (Hqd y Hy) as (j & Hj & Hyj). exists j. split; [done|]. by apply Hoth.
  - intros y w. rewrite Htk. destruct (decide (y = c)) as [->|Hne].
    + rewrite lookup_insert_eq. intros [= <-]. split; [done|].
      intros [(j & Hj & Hcj)|[_ Hrun]]; [by destruct (Hcr j Hj)|done].
    + rewrite lookup_insert_ne by done. intros Hw. destruct (Hck y w Hw) as [H1 H2]. split; [done|].
      intros [(j & Hj & Hyj)|[Hyc _]]; [|by rewrite Hc' in Hyc].
      assert (readytime w < now); [|lia]. apply H2. left. exists j. split; [done|]. by apply Hoth.
Qed.

Lemma step_sys fuel e now t1 g k qs :
  sys_inv now g k qs -> event_ok now t1 e -> now <= t1 -> t1 < 2 ^ 63 ->
  (g + 1) * num_asids (asids k) < 2 ^ 32 -> (size (tasks k) < fuel)%nat ->
  exists k' qs' g', step fuel k e = Ok k' /\ sys_inv t1 g' k' qs' /\ (g' = g \/ g' = g + 1) /\
    num_asids (asids k') = num_asids (asids k) /\ dom (tasks k') = dom (tasks k).
Proof.
  intros Hsys He Hle Ht1 Hroom Hf. destruct e as [time|T sec nsec time]; cbn [step].
  - unfold timer_handler. destruct (schedule_sys fuel time now t1 g k qs) as (k' & qs' & g' & -> & ? & ? & ? & ? & _); try done.
    cbn [obind]. by exists k', qs', g'.
  - destruct He as (H1 & H2 & H3 & H4 & H5).
    destruct (nanosleep_sys now T sec nsec g k qs) as (k1 & qs1 & -> & Hs1 & Ha & Hd & _); try done.
    cbn [obind]. destruct (schedule_sys fuel time T t1 g k1 qs1) as (k' & qs' & g' & -> & ? & ? & ? & ? & _); try done.
    + specialize (H2 O). lia.
    + by rewrite Ha.
    + by rewrite <- (size_dom (D := gset Z)), Hd, size_dom.
    + exists k', qs', g'. rewrite <- Hd, <- Ha. done.
Qed.

Lemma run_sys fuel es : forall now t1 g k qs,
  sys_inv now g k qs -> events_ok now es t1 ->
  (g + Z.of_nat (length es)) * num_asids (asids k) < 2 ^ 32 -> (size (tasks k) < fuel)%nat ->
  exists k' qs' g', run fuel k es = Ok k' /\ sys_inv t1 g' k' qs' /\ dom (tasks k') = dom (tasks k).
Proof.
  induction es as [|e es IH]; intros now t1 g k qs Hsys Hev Hroom Hf; cbn [run].
  - exists k, qs, g. split; [done|]. split; [|done]. destruct Hsys as [? ? Hck ?]. simpl in Hev.
    constructor; [done|done| |lia]. intros x t Ht. destruct (Hck x t Ht) as [? Hlt]. split; [done|].
    intros Hr. specialize (Hlt Hr). lia.
  - destruct Hev as (t & Hle & He & Hev).
    assert (Hmono : forall es t0 t1, events_ok t0 es t1 -> t0 < 2 ^ 63).
    { clear. induction es as [|e es IH]; intros t0 t1 H; simpl in H; [lia|].
      destruct H as (t & ? & _ & H). apply IH in H. lia. }
    destruct (num_asids_bounds g (asids k)) as [Hb _]; [apply (ki_asid _ _ _ (sys_kernel _ _ _ _ Hsys))|].
    destruct (step_sys fuel e now t g k qs) as (k1 & qs1 & g1 & -> & Hs1 & Hg1 & Hna & Hd1); try done.
    { by apply (Hmono es t t1). } { simpl length in Hroom. nia. }
    cbn [obind]. destruct (IH t t1 g1 k1 qs1 Hs1 Hev) as (k' & qs' & g' & -> & ? & Hd).
    + rewrite Hna. simpl length in Hroom. nia.
    + by rewrite <- (size_dom (D := gset Z)), Hd1, size_dom.
    + exists k', qs', g'. by rewrite Hd.
Qed.
End Timer.

(** ** Booting into the first two tasks *)

Section Boot.
Context `{KernelLayout}.

Definition sched_boot (k : sched_state) (idle root : Z) : outcome sched_state :=
  let! k := sched_init k idle in
  sched_attach k root.

Record two_tasks_ok (k : sched_state) (idle root : Z) (ti tr : tcb) (g : Z) : Prop := {
  tt_boot : boot_ok k idle ti;
  tt_tasks : tasks k = <[idle := ti]> {[ root := tr ]};
  tt_ne : idle <> root;
  tt_types : type ti = TASK_TYPE_KERNEL /\ type tr = TASK_TYPE_USER;
  tt_asid : asid_inv g (asids k) (tasks k);
  tt_ready : readytime ti = 0 /\ readytime tr = 0
}.

(** The user task joins the idle task. *)
Lemma second_task k1 idle root ti tr g now :
  let p := sched_priority ti in
  sched_inv (fun _ => False) k1 (only p idle) -> g_current_task k1 = idle ->
  tasks k1 = <[idle := set_task_state ti TSTATE_TASK_READYTORUN]> {[ root := tr ]} -> idle <> root ->
  type ti = TASK_TYPE_KERNEL -> type tr = TASK_TYPE_USER -> asid_inv g (asids k1) (tasks k1) ->
  readytime ti = 0 -> readytime tr = 0 -> 0 < now ->
  exists k' qs, sched_attach k1 root = Ok k' /\ sys_inv now g k' qs /\ g_current_task k' = idle /\ asids k' = asids k1 /\
    tasks k' = <[root := set_task_state tr TSTATE_TASK_READYTORUN]> (tasks k1) /\ dom (tasks k') = {[ idle; root ]}.
Proof.
  intros p Hi1 Hc1 Ht1 Hne Hti Htr Ha Hri Hrr Hnow.
  assert (Hr1 : tasks k1 !! root = Some tr) by (by rewrite Ht1, lookup_insert_ne, lookup_singleton_eq).
  assert (Hp : 0 <= p < 32).
  { apply (si_prio _ _ _ Hi1 idle (set_task_state ti TSTATE_TASK_READYTORUN)). rewrite Ht1. apply lookup_insert_eq. }
  destruct (sched_attach_ok _ k1 (only p idle) root tr Hi1 Hr1) as (k2 & -> & Hi2 & Ht2 & Hc2 & _ & Ha2 & _).
  { intros (i & _ & Hx). unfold only, upd in Hx.
    destruct (i =? p); [by apply list_elem_of_singleton in Hx|by apply not_elem_of_nil in Hx]. }
  set (q := sched_priority tr) in *. set (qs := upd (only p idle) q (only p idle q ++ [root])) in *.
  assert (Hlk : forall x t, tasks k2 !! x = Some t ->
            (x = idle /\ t = set_task_state ti TSTATE_TASK_READYTORUN) \/
            (x = root /\ t = set_task_state tr TSTATE_TASK_READYTORUN)).
  { intros x t. rewrite Ht2, Ht1. intros [[<- <-]|[Hnr Hx]]%lookup_insert_Some; [by right|].
    apply lookup_insert_Some in Hx as [[<- <-]|[_ Hx]]; [by left|]. by apply lookup_singleton_Some in Hx as [<- _]. }
  assert (Hq : 0 <= q < 32) by (apply (si_prio _ _ _ Hi1 root tr Hr1)).
  assert (Hqr : root ∈ qs q) by (unfold qs; rewrite upd_eq, elem_of_app, list_elem_of_singleton; by right).
  assert (Hqi : idle ∈ qs p).
  { unfold qs, upd, only, upd. rewrite Z.eqb_refl. destruct (Z.eqb_spec p q) as [E|].
    - rewrite <- E, Z.eqb_refl, elem_of_app, list_elem_of_singleton. by left.
    - by apply list_elem_of_singleton. }
  assert (Hd2 : dom (tasks k2) = {[ idle; root ]}).
  { rewrite Ht2, Ht1, !dom_insert_L, dom_singleton_L. rewrite (union_comm_L {[idle]}), union_assoc_L.
    by rewrite union_idemp_L, union_comm_L. }
  exists k2, qs. split; [done|]. split; [|split; [congruence|split; [done|split; done]]].
  constructor; [constructor|..|lia].
  - eapply sched_inv_weaken; [|exact Hi2]. by intros i _ [[] _].
  - rewrite Ha2. eapply asid_inv_view; [|exact Ha]. intros x. rewrite Ht2.
    destruct (decide (x = root)) as [->|]; [by rewrite lookup_insert_eq, Hr1|by rewrite lookup_insert_ne].
  - intros x t Hx. destruct (Hlk x t Hx) as [[_ ->]|[_ ->]]; [by right|by left].
  - rewrite Hd2, Hc2, Hc1. apply elem_of_union. left. by apply elem_of_singleton.
  - intros x Hx. rewrite Hd2 in Hx. apply elem_of_union in Hx as [Hx%elem_of_singleton|Hx%elem_of_singleton]; subst x.
    + exists p. split; [by apply qidx_ready|done].
    + exists q. split; [by apply qidx_ready|done].
  - intros x t Hx. destruct (Hlk x t Hx) as [[_ ->]|[_ ->]]; cbn; rewrite ?Hri, ?Hrr; lia.
Qed.

Lemma boot_sys k idle root ti tr g now :
  two_tasks_ok k idle root ti tr g -> 0 < now ->
  exists k' qs, sched_boot k idle root = Ok k' /\ sys_inv now g k' qs /\ g_current_task k' = idle /\
    num_asids (asids k') = num_asids (asids k) /\ dom (tasks k') = {[ idle; root ]}.
Proof.
  intros [Hb Htk Hne [Hti Htr] Ha [Hri Hrr]] Hnow. unfold sched_boot.
  destruct (sched_init_ok k idle ti Hb) as (k1 & -> & Hi1 & Hc1 & Ha1 & _ & _ & Ht1). cbn [obind].
  rewrite Htk, insert_insert_eq in Ht1.
  destruct (second_task k1 idle root ti tr g now) as (k' & qs & -> & Hs & Hc & Ea & _ & Hd); try done.
  - rewrite Ha1. eapply asid_inv_view; [|exact Ha]. intros x. rewrite Ht1, Htk. destruct (decide (x = idle)) as [->|].
    + by rewrite !lookup_insert_eq.
    + by rewrite !lookup_insert_ne.
  - exists k', qs. rewrite Ea, Ha1. done.
Qed.
End Boot.

(** ** A concrete kernel: an idle task and a user task *)

Module Demo.
#[local] Instance layout : KernelLayout := {| g_readytorun := 4096; g_pendingtasks := 8192 |}.

Definition idle : Z := 16384.
Definition root : Z := 32768.

Definition idle_tcb : tcb :=
  MkTcb 0 0 31 31 0 TSTATE_TASK_INACTIVE [] 0 0 0 10 TASK_TYPE_KERNEL [] 0 zero_mm 0.
Definition root_tcb : tcb :=
  MkTcb 1 1 10 10 0 TSTATE_TASK_INACTIVE [] 0 0 0 10 TASK_TYPE_USER [] 0 zero_mm 0.

Definition nodes : list Z := 8192 :: idle :: root :: map (fun i => 4096 + 16 * i) (seqZ 0 32).

Definition start : sched_state :=
  MkSched (list_to_map (map (fun x => (x, MkNode 0 0)) nodes)) (<[idle := idle_tcb]> {[ root := root_tcb ]})
    0 [0; 0; 0; 0] 0 (MkTid [0] (-1)) (MkAsid 8 0x100 [0; 0; 0; 0] 1 false) (MkMmu 0 0).

Definition booted : sched_state :=
  match sched_boot start idle root with Ok k => k | _ => start end.

Lemma boot_ready : two_tasks_ok start idle root idle_tcb root_tcb 1.
Proof.
  assert (Hdom : forall x, x ∈ nodes -> x ∈ dom (links start)).
  { intros x Hx. apply elem_of_dom. apply list_elem_of_In in Hx.
    assert (H : forallb (fun x => bool_decide (is_Some (links start !! x))) nodes = true) by (by vm_compute).
    rewrite forallb_forall in H. exact (bool_decide_eq_true_1 _ (H x Hx)). }
  assert (Hhead : forall x, is_head x -> x <= 8192).
  { intros x (i & Hi & ->). unfold qhead, ready_head, qidx in *. simpl.
    destruct (i =? PEND); lia. }
  assert (Hlk : forall x t, tasks start !! x = Some t -> (x = idle /\ t = idle_tcb) \/ (x = root /\ t = root_tcb)).
  { intros x t Hx. cbn [tasks start] in Hx. apply lookup_insert_Some in Hx as [[<- <-]|[_ Hx]]; [by left|].
    apply lookup_singleton_Some in Hx as [<- <-]. by right. }
  assert (Hnog : forall x t g', tasks start !! x = Some t -> ~ (1 <= g' /\ in_gen (asids start) t g')).
  { intros x t g' Hx [Hg (low & E & Hl)]. change (num_asids (asids start)) with 256 in *.
    assert (asid t = 0) by (by destruct (Hlk x t Hx) as [[_ ->]|[_ ->]]). lia. }
  constructor; [|done|done|done| |done].
  - constructor; [|..|done].
    + intros p Hp. simpl. lia.
    + intros i Hi. apply Hdom. unfold nodes. unfold qhead, ready_head, qidx, PEND in *.
      destruct (Z.eqb_spec i (-1)); [by left|]. do 3 right.
      apply list_elem_of_fmap. exists i. split; [done|]. apply elem_of_seqZ. lia.
    + by vm_compute.
    + intros x Hx. apply elem_of_dom in Hx as [t Hx].
      destruct (Hlk x t Hx) as [[-> ->]|[-> ->]]; (split; [apply Hdom; unfold nodes; rewrite !elem_of_cons; tauto|]);
        (split; [|done]); intros Hh; apply Hhead in Hh; unfold idle, root in *; lia.
    + intros x t Hx. destruct (Hlk x t Hx) as [[-> ->]|[-> ->]]; simpl; lia.
  - constructor.
    + constructor; [by left|done|done|by vm_compute|by repeat (apply Forall_cons; split)|by vm_compute|by vm_compute].
    + intros x t Hx _. left. by destruct (Hlk x t Hx) as [[_ ->]|[_ ->]].
    + intros x t Hx _ Hg. by destruct (Hnog x t 1 Hx).
    + intros x y t u Hx Hy _ _ _ Hg. by destruct (Hnog x t 1 Hx).
Qed.
End Demo.

Module SchedSpec.

(** C8: [schedule] gives the processor to the most urgent ready task.  From any
    state that satisfies the kernel's invariant, in which the running task is
    due, and with fuel for more turns than there are tasks, the call returns:
    the sleepers whose time has come are appended to the ready queues of their
    priorities in order, and the first task other than the current one of the
    first non-empty ready queue becomes the running task and moves to the tail
    of the pending queue; when there is no such task the current one goes on.
    The invariant holds again, and no field of a task but its state and
    address space identifier changes. *)
Theorem schedule_highest_priority `{KernelLayout} fuel time g k qs :
  kernel_inv g k qs -> current_due time k qs -> (g + 1) * num_asids (asids k) < 2 ^ 32 ->
  (size (tasks k) < fuel)%nat ->
  let wake := woken time 0 (tasks k) (qs PEND) in
  exists k' qs' g', schedule fuel time k = Ok k' /\ kernel_inv g' k' qs' /\ (g' = g \/ g' = g + 1) /\
    num_asids (asids k') = num_asids (asids k) /\
    scheduled (g_current_task k) (fun p => qs p ++ of_prio (tasks k) p wake)
      (staying time 0 (tasks k) (qs PEND)) k' qs' /\
    evolves (g_current_task k) (g_current_task k') (tasks k) (tasks k').
Proof. apply schedule_ok. Qed.

#[local] Existing Instance Demo.layout.

(** After boot the user task preempts the idle task. *)
Lemma schedule_highest_priority_witness : exists qs k' qs' g',
  schedule 3 (fun _ => 7) Demo.booted = Ok k' /\ kernel_inv g' k' qs' /\ g_current_task k' = Demo.root /\
  scheduled (g_current_task Demo.booted)
    (fun p => qs p ++ of_prio (tasks Demo.booted) p (woken (fun _ => 7) 0 (tasks Demo.booted) (qs PEND)))
    (staying (fun _ => 7) 0 (tasks Demo.booted) (qs PEND)) k' qs'.
Proof.
  destruct (boot_sys _ _ _ _ _ _ 5 Demo.boot_ready) as (k & qs & Hk & [Hki _ Hck _] & Hc & Hna & Hd); [lia|].
  assert (E : Demo.booted = k) by (unfold Demo.booted; by rewrite Hk). rewrite E.
  destruct (schedule_highest_priority 3 (fun _ => 7) 1 k qs Hki) as (k' & qs' & g' & Hk' & Hki' & _ & _ & Hs & _).
  - intros i (_ & t & Ht & Hrun & _). rewrite <- E in Ht. revert Hrun. rewrite <- E in Hc. rewrite Hc in Ht.
    vm_compute in Ht. injection Ht as <-. done.
  - rewrite Hna. by vm_compute.
  - rewrite <- E. vm_compute. lia.
  - exists qs, k', qs', g'. split; [done|]. split; [done|]. split; [|done].
    rewrite <- E in Hk'. assert (H : obind (schedule 3 (fun _ => 7) Demo.booted) (fun k => Ok (g_current_task k)) = Ok Demo.root)
      by (by vm_compute). rewrite Hk' in H. cbn [obind] in H. congruence.
Defined.

(** C16: the kernel goes on for ever.  Whatever sequence of timer interrupts and
    sleep requests arrives, in any order, as long as the counter grows and the
    address space identifiers last, every call returns (no fault, no failed
    assertion, no endless list walk), every task stays in exactly one queue,
    and the invariants hold again at the end. *)
Theorem no_task_is_lost `{KernelLayout} fuel es now t1 g k qs :
  sys_inv now g k qs -> events_ok now es t1 ->
  (g + Z.of_nat (length es)) * num_asids (asids k) < 2 ^ 32 -> (size (tasks k) < fuel)%nat ->
  exists k' qs' g', run fuel k es = Ok k' /\ sys_inv t1 g' k' qs' /\ dom (tasks k') = dom (tasks k).
Proof. apply run_sys. Qed.

Lemma no_task_is_lost_witness : exists k' qs' g',
  run 3 Demo.booted [Tick (fun _ => 7); Sleep 8 1 500 (fun _ => 9); Tick (fun _ => 62600000)] = Ok k' /\
  sys_inv 62600000 g' k' qs' /\ g_current_task k' = Demo.root.
Proof.
  destruct (boot_sys _ _ _ _ _ _ 5 Demo.boot_ready) as (k & qs & Hk & Hsys & Hc & Hna & Hd); [lia|].
  assert (E : Demo.booted = k) by (unfold Demo.booted; by rewrite Hk). rewrite E.
  set (es := [Tick (fun _ => 7); Sleep 8 1 500 (fun _ => 9); Tick (fun _ => 62600000)]).
  destruct (no_task_is_lost 3 es 5 62600000 1 k qs Hsys) as (k' & qs' & g' & Hk' & Hs & _).
  - simpl. exists 7. split; [lia|]. split; [lia|]. exists 9. unfold TICKS_PER_S, TIMER_CLOCK_HZ.
    split; [lia|]. split; [split_and!; intros; lia|]. exists 62600000. split; [lia|]. split; [intros; lia|lia].
  - rewrite Hna. by vm_compute.
  - rewrite <- E. vm_compute. lia.
  - exists k', qs', g'. split; [done|]. split; [done|].
    rewrite <- E in Hk'. assert (H : obind (run 3 Demo.booted es) (fun k => Ok (g_current_task k)) = Ok Demo.root)
      by (by vm_compute). rewrite Hk' in H. cbn [obind] in H. congruence.
Defined.

(** [sys_nanosleep] puts the calling task to sleep.  The call returns 0;
    the task is marked sleeping, sits in the pending queue only, and its ready
    time is the current tick plus the requested whole seconds (the
    nanoseconds count for nothing); every other task keeps its place. *)
Theorem nanosleep_sleeps `{KernelLayout} now T sec nsec g k qs :
  sys_inv now g k qs -> now <= T -> 0 <= sec -> 0 <= nsec < 1000000000 -> T + sec * TICKS_PER_S < 2 ^ 63 ->
  exists k' qs', sys_nanosleep k T sec nsec = Ok (k', 0) /\ sys_inv T g k' qs' /\
    asids k' = asids k /\ dom (tasks k') = dom (tasks k) /\ g_current_task k' = g_current_task k /\
    exists t, tasks k' !! g_current_task k = Some t /\ task_state t = TSTATE_TASK_SLEEPING /\
      readytime t = T + sec * TICKS_PER_S.
Proof.
  intros. edestruct (nanosleep_sys now T sec nsec g k qs) as (k' & qs' & ? & ? & ? & ? & ? & t & _ & E); try done.
  exists k', qs'. do 5 (split; [done|]). eexists. by rewrite E, lookup_insert_eq.
Qed.

Lemma nanosleep_sleeps_witness : exists k' qs',
  sys_nanosleep Demo.booted 6 2 999999999 = Ok (k', 0) /\ sys_inv 6 1 k' qs' /\
  exists t, tasks k' !! g_current_task Demo.booted = Some t /\ readytime t = 125000006.
Proof.
  destruct (boot_sys _ _ _ _ _ _ 5 Demo.boot_ready) as (k & qs & Hk & Hsys & _); [lia|].
  assert (E : Demo.booted = k) by (unfold Demo.booted; by rewrite Hk). rewrite E.
  destruct (nanosleep_sleeps 5 6 2 999999999 1 k qs Hsys) as (k' & qs' & H1 & H2 & _ & _ & _ & t & Ht & _ & Hr);
    [lia|lia|lia|by vm_compute|].
  exists k', qs'. split; [done|]. split; [done|]. exists t. split; [done|]. by rewrite Hr.
Defined.

(** boot establishes the invariants.  Initialising the scheduler with the
    idle task and attaching the first user task returns, with the idle task
    current and both tasks in the ready queues of their priorities, in a state
    that satisfies every invariant the other theorems start from. *)
Theorem boot_establishes `{KernelLayout} k idle root ti tr g now :
  two_tasks_ok k idle root ti tr g -> 0 < now ->
  exists k' qs, sched_boot k idle root = Ok k' /\ sys_inv now g k' qs /\ g_current_task k' = idle /\
    num_asids (asids k') = num_asids (asids k) /\ dom (tasks k') = {[ idle; root ]}.
Proof. apply boot_sys. Qed.

Lemma boot_establishes_witness : exists k' qs,
  sched_boot Demo.start Demo.idle Demo.root = Ok k' /\ sys_inv 1 1 k' qs /\ g_current_task k' = Demo.idle.
Proof.
  destruct (boot_establishes _ _ _ _ _ _ 1 Demo.boot_ready) as (k' & qs & H1 & H2 & H3 & _); [lia|].
  exists k', qs. split; [exact H1|]. split; [exact H2|exact H3].
Defined.

(** A detached task that is running stays linked in the pending queue, and the
    next call of the scheduler makes it ready again. *)
Example detached_task_revives :
  obind (schedule 3 (fun _ => 7) Demo.booted) (fun k =>
  obind (sched_detach k Demo.root) (fun k =>
  obind (schedule 3 (fun _ => 8) k) (fun k => Ok (g_current_task k))))
  = Ok Demo.root.
Proof. by vm_compute. Qed.

(** The guard on the bitmap index lets index 4 through, one past its end. *)
Example priority_32_faults :
  priority_set Demo.start 32 = Fault /\ priority_set Demo.start 40 = Ok Demo.start.
Proof. by vm_compute. Qed.
End SchedSpec.
