(* ===== verification/SchedFrame.v ===== *)
(** * The frame of the scheduler

    Tasks and memory areas are linked through nodes of one store.  A routine that
    succeeds on a part of the store does the same on the whole of it and leaves
    the rest alone, as in separation logic; so scheduling never disturbs the list
    of areas of a task. *)

From Stdlib Require Import ZArith Lia Bool.
From stdpp Require Import base numbers list gmap.
From S2P Require Import Prelude Board KList Task Sched Timer.
#[local] Open Scope Z_scope.

(** ** List routines *)

(** [f] keeps the nodes of its store and does not look at others. *)
Definition local_op (f : store -> outcome store) : Prop :=
  forall s s' l, f s = Ok s' -> dom s' = dom s /\ f (s ∪ l) = Ok (s' ∪ l).

(** A reader: more nodes do not change what it finds. *)
Definition local_get {A} (f : store -> outcome A) : Prop :=
  forall s v l, f s = Ok v -> f (s ∪ l) = Ok v.

Create HintDb frame discriminated.

Lemma local_get_next p : local_get (fun s => get_next s p).
Proof. intros s v l. unfold get_next. destruct (s !! p) as [n|] eqn:E; [|done]. by rewrite (lookup_union_Some_l _ _ _ _ E). Qed.

Lemma local_get_prev p : local_get (fun s => get_prev s p).
Proof. intros s v l. unfold get_prev. destruct (s !! p) as [n|] eqn:E; [|done]. by rewrite (lookup_union_Some_l _ _ _ _ E). Qed.

Lemma local_list_empty p : local_get (fun s => list_empty s p).
Proof.
  intros s v l. unfold list_empty. destruct (get_next s p) as [n| | |] eqn:E; try done. by rewrite (local_get_next p _ _ l E).
Qed.

Lemma local_set_next p v : local_op (fun s => set_next s p v).
Proof.
  intros s s' l. unfold set_next. destruct (s !! p) as [n|] eqn:E; [|done]. intros [= <-]. rewrite (lookup_union_Some_l _ _ _ _ E).
  split; [apply dom_insert_lookup_L; by exists n|]. by rewrite insert_union_l.
Qed.

Lemma local_set_prev p v : local_op (fun s => set_prev s p v).
Proof.
  intros s s' l. unfold set_prev. destruct (s !! p) as [n|] eqn:E; [|done]. intros [= <-]. rewrite (lookup_union_Some_l _ _ _ _ E).
  split; [apply dom_insert_lookup_L; by exists n|]. by rewrite insert_union_l.
Qed.

Lemma local_bind f (g : store -> outcome store) : local_op f -> local_op g -> local_op (fun s => let! s := f s in g s).
Proof.
  intros Hf Hg s s' l. destruct (f s) as [s1| | |] eqn:E; try done. cbn [obind]. destruct (Hf _ _ l E) as [D1 ->].
  intros E2. destruct (Hg _ _ l E2) as [D2 E3]. split; [congruence|done].
Qed.

Lemma local_bind_get {A} (f : store -> outcome A) (g : A -> store -> outcome store) :
  local_get f -> (forall x, local_op (g x)) -> local_op (fun s => let! x := f s in g x s).
Proof.
  intros Hf Hg s s' l. destruct (f s) as [x| | |] eqn:E; try done. cbn [obind]. rewrite (Hf _ _ l E). apply Hg.
Qed.

#[export] Hint Resolve local_get_next local_get_prev local_list_empty local_set_next local_set_prev local_bind : frame.

Lemma local_init p : local_op (fun s => INIT_LIST_HEAD s p).
Proof. apply local_bind; auto with frame. Qed.

Lemma local_add_nodes new p n : local_op (fun s => __list_add s new p n).
Proof. unfold __list_add. auto 6 with frame. Qed.

Lemma local_add_tail new h : local_op (fun s => list_add_tail s new h).
Proof. apply (local_bind_get (fun s => get_prev s h)); [auto with frame|]. intros p. apply local_add_nodes. Qed.

Lemma local_del_entry p : local_op (fun s => __list_del_entry s p).
Proof.
  apply (local_bind_get (fun s => get_prev s p)); [auto with frame|]. intros a.
  apply (local_bind_get (fun s => get_next s p)); [auto with frame|]. intros b. unfold __list_del. auto with frame.
Qed.

Lemma local_del p : local_op (fun s => list_del s p).
Proof. apply local_bind; [apply local_del_entry|auto with frame]. Qed.

Lemma local_del_init p : local_op (fun s => list_del_init s p).
Proof. apply local_bind; [apply local_del_entry|apply local_init]. Qed.

#[export] Hint Resolve local_add_tail local_del local_del_init : frame.

(** ** Scheduler routines *)

Definition add_links (k : sched_state) (l : store) : sched_state := set_links k (links k ∪ l).

Definition local_sched (f : sched_state -> outcome sched_state) : Prop :=
  forall k k' l, f k = Ok k' -> dom (links k') = dom (links k) /\ f (add_links k l) = Ok (add_links k' l).

(** A binding whose value does not depend on the links: the same on both sides. *)
Ltac same_value :=
  cbv zeta; match goal with |- obind ?x _ = Ok _ -> _ => let E := fresh "E" in destruct x eqn:E; cbn [obind]; [|discriminate..] end.
Section Scheduler.
Context `{KernelLayout}.

Lemma frame_priority_set p : local_sched (fun k => priority_set k p).
Proof.
  intros k k' l. unfold priority_set. cbn [add_links set_links g_priority_group g_priority_bitmap].
  destruct (_ <? _); [by intros [= <-]|]. do 2 same_value. by intros [= <-].
Qed.

Lemma frame_priority_clear p : local_sched (fun k => priority_clear k p).
Proof.
  intros k k' l. unfold priority_clear. destruct (_ <? _); [by intros [= <-]|].
  destruct (list_empty (links k) (ready_head p)) as [e| | |] eqn:E; try done. cbn [add_links set_links links].
  rewrite (local_list_empty _ _ _ l E). cbn [obind]. destruct e; [|by intros [= <-]].
  change (g_priority_bitmap (add_links k l)) with (g_priority_bitmap k). change (g_priority_group (add_links k l)) with (g_priority_group k).
  do 2 same_value. by intros [= <-].
Qed.

Lemma frame_attach p : local_sched (fun k => sched_attach k p).
Proof.
  intros k k' l. unfold sched_attach. destruct (negb _); [|done]. change (get_task (add_links k l) p) with (get_task k p). same_value.
  cbn [put_task set_tasks add_links set_links links].
  destruct (list_add_tail (links k) p (ready_head (sched_priority a))) as [s| | |] eqn:Ea; try done. cbn [obind].
  destruct (local_add_tail _ _ _ _ l Ea) as [D ->]. cbn [obind]. intros E2.
  destruct (frame_priority_set _ _ _ l E2) as [D2 E3]. split; [by rewrite D2, <- D|exact E3].
Qed.

Lemma frame_wake p : local_sched (fun k => sched_wake k p).
Proof.
  intros k k' l. unfold sched_wake. destruct (list_del_init (links k) p) as [s| | |] eqn:Ed; try done. cbn [obind add_links set_links links].
  destruct (local_del_init _ _ _ l Ed) as [D ->]. cbn [obind]. change (get_task (add_links k l) p) with (get_task k p).
  same_value. intros E2.
  destruct (frame_priority_set _ _ _ l E2) as [D2 E3]. split; [by rewrite D2, <- D|exact E3].
Qed.

Lemma frame_sleep p : local_sched (fun k => sched_sleep k p).
Proof.
  intros k k' l. unfold sched_sleep. destruct (negb _); [|done]. destruct (list_del_init (links k) p) as [s| | |] eqn:Ed; try done.
  cbn [obind add_links set_links links]. destruct (local_del_init _ _ _ l Ed) as [D ->]. cbn [obind].
  change (get_task (add_links k l) p) with (get_task k p). same_value. destruct (_ <? _); [by intros [= <-]|].
  set (k1 := put_task (set_links k s) p _).
  destruct (priority_clear k1 (sched_priority a)) as [k2| | |] eqn:Ec; try done. cbn [obind].
  destruct (frame_priority_clear _ _ _ l Ec) as [D2 E3].
  change (add_links k1 l) with (put_task (set_links (add_links k l) (s ∪ l)) p (set_task_state a TSTATE_TASK_SLEEPING)) in E3.
  rewrite E3. cbn [obind]. change (links (add_links k2 l)) with (links k2 ∪ l).
  destruct (list_add_tail (links k2) p g_pendingtasks) as [s2| | |] eqn:Ea; try done. cbn [obind]. intros [= <-].
  destruct (local_add_tail _ _ _ _ l Ea) as [D4 E4]. rewrite E4. cbn [obind]. split; [|done]. cbn [links set_links]. by rewrite D4, D2, <- D.
Qed.

Lemma frame_pending fuel time : forall i pos n, local_sched (fun k => pending_loop fuel time i k pos n).
Proof.
  induction fuel as [|fuel IH]; intros i pos n k k' l; cbn [pending_loop]; [done|]. destruct (pos =? g_pendingtasks); [by intros [= <-]|].
  change (get_task (add_links k l) pos) with (get_task k pos). same_value.
  assert (Hb : local_sched (fun k => if s64 (readytime a - time i) <? 0 then let! k := sched_wake k pos in sched_attach k pos else Ok k)).
  { intros k1 k2 l1. destruct (_ <? 0); [|by intros [= <-]]. destruct (sched_wake k1 pos) as [k3| | |] eqn:Ew; try done. cbn [obind].
    destruct (frame_wake _ _ _ l1 Ew) as [D1 ->]. cbn [obind]. intros Ea. destruct (frame_attach _ _ _ l1 Ea) as [D2 ->]. split; [congruence|done]. }
  match goal with |- obind ?x _ = Ok _ -> _ => destruct x as [k1| | |] eqn:E1; try done end. cbn [obind].
  destruct (Hb _ _ l E1) as [D1 E2]. rewrite E2. cbn [obind].
  destruct (get_next (links k1) n) as [n'| | |] eqn:En; try done. cbn [add_links set_links links obind]. rewrite (local_get_next _ _ _ l En).
  cbn [obind]. intros Er. destruct (IH (S i) n n' _ _ l Er) as [D3 E3]. split; [congruence|exact E3].
Qed.

Lemma frame_pending_check fuel time : local_sched (sched_pending_check fuel time).
Proof.
  intros k k' l. unfold sched_pending_check. cbn [add_links set_links links].
  destruct (get_next (links k) g_pendingtasks) as [pos| | |] eqn:E1; try done. rewrite (local_get_next _ _ _ l E1). cbn [obind].
  destruct (get_next (links k) pos) as [n| | |] eqn:E2; try done. rewrite (local_get_next _ _ _ l E2). cbn [obind]. apply frame_pending.
Qed.

Lemma frame_switch cur pos : local_sched (fun k => schedule_switch k cur pos).
Proof.
  intros k k' l. unfold schedule_switch. change (get_task (add_links k l) pos) with (get_task k pos). same_value.
  cbn [put_task set_tasks set_current add_links set_links links].
  destruct (list_del (links k) pos) as [s| | |] eqn:Ed; try done. cbn [obind]. destruct (local_del _ _ _ l Ed) as [D1 ->]. cbn [obind].
  destruct (list_add_tail s pos g_pendingtasks) as [s2| | |] eqn:Ea; try done. cbn [obind]. destruct (local_add_tail _ _ _ _ l Ea) as [D2 ->]. cbn [obind].
  unfold get_task. cbn [tasks set_links set_current put_task set_tasks add_links].
  set (ts := <[pos := set_task_state a TSTATE_TASK_RUNNING]> (tasks k)). destruct (ts !! cur) as [from|]; [|done]. cbn [obind].
  destruct (ts !! pos) as [to|]; [|done].
  cbn [obind asids hw g_current_task g_priority_bitmap g_priority_group tids set_links set_current put_task set_tasks add_links].
  destruct (task_switch (asids k) (hw k) from to) as [[[x y] z]| | |]; try done. cbn [obind]. intros [= <-].
  split; [cbn [links]; congruence|done].
Qed.

Lemma frame_loop fuel cur head : forall pos n, local_sched (fun k => schedule_loop fuel k cur head pos n).
Proof.
  induction fuel as [|fuel IH]; intros pos n k k' l; cbn [schedule_loop]; [done|]. destruct (pos =? head); [by intros [= <-]|].
  destruct (negb _); [apply frame_switch|]. destruct (get_next (links k) n) as [n'| | |] eqn:En; try done.
  cbn [add_links set_links links obind]. rewrite (local_get_next _ _ _ l En). apply IH.
Qed.

Lemma frame_schedule fuel time : local_sched (schedule fuel time).
Proof.
  intros k k' l. unfold schedule. destruct (sched_pending_check fuel time k) as [k1| | |] eqn:E1; try done. cbn [obind].
  destruct (frame_pending_check _ _ _ _ l E1) as [D1 ->]. cbn [obind]. change (highest_priority (add_links k1 l)) with (highest_priority k1).
  same_value. destruct (get_next (links k1) (ready_head a)) as [pos| | |] eqn:E2; try done. cbn [obind add_links set_links links].
  rewrite (local_get_next _ _ _ l E2). cbn [obind]. destruct (get_next (links k1) pos) as [n| | |] eqn:E3; try done.
  rewrite (local_get_next _ _ _ l E3). cbn [obind]. intros E4. destruct (frame_loop _ _ _ _ _ _ _ l E4) as [D4 E5]. split; [congruence|exact E5].
Qed.

(** ** Nodes of others *)

(** The state without one node. *)
Definition without (k : sched_state) (x : Z) : sched_state := set_links k (delete x (links k)).

Lemma without_add k x v : links k !! x = Some v -> add_links (without k x) {[ x := v ]} = k.
Proof.
  intros Hx. destruct k as [l ts c b g i a h]. unfold add_links, without, set_links. cbn in *. f_equal.
  rewrite <- insert_union_singleton_r by apply lookup_delete_eq. by apply insert_delete_id.
Qed.

Lemma without_sys now g k qs x : sys_inv now g k qs -> x ∉ dom (tasks k) -> ~ is_head x -> sys_inv now g (without k x) qs.
Proof.
  intros Hs Ht Hh. eapply (sys_inv_frame _ _ k); [|done|exact Hs]. constructor; try done.
  - intros i y Hi Hy. apply lookup_delete_ne. intros <-. apply elem_of_cons in Hy as [->|Hy]; [apply Hh; by exists i|].
    apply Ht. by apply (si_tasks _ _ _ (ki_sched _ _ _ (sys_kernel _ _ _ _ Hs)) i).
  - intros y Hy Hd. cbn. rewrite dom_delete_L. apply elem_of_difference. split; [done|]. rewrite elem_of_singleton. by intros ->.
Qed.

(** A routine that works in every such state leaves other nodes alone. *)
Lemma local_keeps f k k0' k' x v : local_sched f -> links k !! x = Some v -> f (without k x) = Ok k0' -> f k = Ok k' -> links k' !! x = Some v.
Proof.
  intros Hf Hx E0 E. destruct (Hf _ _ {[ x := v ]} E0) as [D E1]. rewrite (without_add _ _ _ Hx), E in E1. injection E1 as ->.
  cbn [add_links set_links links]. rewrite lookup_union_r; [apply lookup_singleton_eq|]. apply not_elem_of_dom. rewrite D. cbn.
  rewrite dom_delete_L. apply not_elem_of_difference. right. by apply elem_of_singleton.
Qed.

(** List nodes that are neither tasks nor heads of queues stay as they are. *)
Definition keeps_nodes (k k' : sched_state) : Prop :=
  forall x v, x ∉ dom (tasks k) -> ~ is_head x -> links k !! x = Some v -> links k' !! x = Some v.

Lemma keeps_nodes_refl k : keeps_nodes k k.
Proof. by intros x v _ _ Hv. Qed.

(** Scheduling, and going to sleep. *)
Lemma schedule_links fuel time now t1 g k qs k' :
  sys_inv now g k qs -> (forall i, now <= time i <= t1) -> t1 < 2 ^ 63 -> now <= t1 ->
  (g + 1) * num_asids (asids k) < 2 ^ 32 -> (size (tasks k) < fuel)%nat ->
  schedule fuel time k = Ok k' -> keeps_nodes k k'.
Proof.
  intros Hs Ht H1 H2 H3 H4 E x v Hx Hh Hv. pose proof (without_sys _ _ _ _ x Hs Hx Hh) as Hs0.
  destruct (schedule_sys fuel time now t1 g (without k x) qs) as (k0 & qs0 & g0 & E0 & _); try done.
  by eapply (local_keeps (schedule fuel time)); [apply frame_schedule|..].
Qed.

(** Attaching a task. *)
Lemma without_queues ex k qs x : sched_inv ex k qs -> x ∉ dom (tasks k) -> ~ is_head x -> sched_inv ex (without k x) qs.
Proof.
  intros [HY HQ HN HP HT HR HB Hlost Hstale] Ht Hh. constructor; try done.
  - destruct HQ as [Q1 Q2 Q3]. constructor; [|done..]. intros i Hi. apply (dlist_ext (links k)); [by apply Q1|].
    intros z Hz. apply lookup_delete_ne. intros <-. apply elem_of_cons in Hz as [->|Hz]; [apply Hh; by exists i|by apply Ht, (HT i)].
  - intros z Hz. destruct (HN z Hz) as [H1 H2]. split; [|done]. cbn. rewrite dom_delete_L. apply elem_of_difference. split; [done|].
    rewrite elem_of_singleton. by intros ->.
Qed.

Lemma attach_links ex k qs p t k' :
  sched_inv ex k qs -> tasks k !! p = Some t -> ~ queued qs p -> sched_attach k p = Ok k' -> keeps_nodes k k'.
Proof.
  intros Hs Ht Hq E x v Hx Hh Hv.
  destruct (sched_attach_ok ex (without k x) qs p t) as (k0 & E0 & _); [by apply without_queues|done|done|].
  by eapply (local_keeps (fun k => sched_attach k p)); [apply frame_attach|..].
Qed.

Lemma frame_nanosleep now sec nsec : local_sched (fun k => let! (k, _) := sys_nanosleep k now sec nsec in Ok k).
Proof.
  intros k k' l. unfold sys_nanosleep. change (g_current_task (add_links k l)) with (g_current_task k).
  change (get_task (add_links k l)) with (get_task k). destruct (get_task k (g_current_task k)) as [t| | |]; try done. cbn [obind].
  set (k1 := put_task k _ _). destruct (sched_sleep k1 (g_current_task k)) as [k2| | |] eqn:E; try done. cbn [obind].
  destruct (frame_sleep _ _ _ l E) as [D E2]. change (put_task (add_links k l) _ _) with (add_links k1 l). rewrite E2. cbn [obind].
  by intros [= <-].
Qed.

Lemma nanosleep_links now T sec nsec g k qs k' r :
  sys_inv now g k qs -> now <= T -> 0 <= sec -> 0 <= nsec < 1000000000 -> T + sec * TICKS_PER_S < 2 ^ 63 ->
  sys_nanosleep k T sec nsec = Ok (k', r) -> keeps_nodes k k'.
Proof.
  intros Hs HT H1 H2 H3 E x v Hx Hh Hv. pose proof (without_sys _ _ _ _ x Hs Hx Hh) as Hs0.
  destruct (nanosleep_sys now T sec nsec g (without k x) qs) as (k0 & qs0 & E0 & _); try done.
  eapply (local_keeps (fun k => let! (k, _) := sys_nanosleep k T sec nsec in Ok k)); [apply frame_nanosleep|done|by rewrite E0|by rewrite E].
Qed.
End Scheduler.

#[export] Hint Resolve keeps_nodes_refl : core.
