(* ===== verification/PageTable.v ===== *)
(** * Page tables (os/arch/arm64/pagetable.c)

    Three levels of tables with 512 entries each translate 39-bit addresses;
    ranges that are aligned to 2 MiB become section entries, the others pages.
    The file has two copies of the mapping code: [pt_map] works through the
    kernel's linear map of RAM, [idmap_pt_map] on physical addresses before the
    MMU is on.  They differ in how a table address becomes a descriptor, so the
    model is written once over that conversion (class [TableSpace]) and
    instantiated twice.  Tables come from a page source, an interface
    ([PageSource]) that the granule allocator implements.

    The specification is the architecture's table walk [hw_walk]: the theorem
    says what it returns for every address before and after a call. *)

From Stdlib Require Import ZArith Lia Bool.
From stdpp Require Import base numbers list gmap.
From S2P Require Import Prelude Board.

(** ** Geometry and descriptors *)

Definition PAGE_SHIFT : Z := 12.
Definition PMD_SHIFT : Z := 21.
Definition PGDIR_SHIFT : Z := 30.
Definition VA_BITS : Z := 39.
Definition PTRS_PER_PTE : Z := 512.
Definition PTRS_PER_PMD : Z := 512.
Definition PTRS_PER_PGD : Z := 512.
Definition PAGE_SIZE : Z := 4096.
Definition PMD_SIZE : Z := 0x200000.
Definition PGDIR_SIZE : Z := 0x40000000.
Definition PAGE_MASK : Z := not64 (PAGE_SIZE - 1).
Definition PMD_MASK : Z := not64 (PMD_SIZE - 1).
Definition PGDIR_MASK : Z := not64 (PGDIR_SIZE - 1).
Definition SECTION_MASK : Z := PMD_MASK.
Definition PTE_ADDR_MASK : Z := not64 (PAGE_SIZE - 1).

Definition PMD_TYPE_TABLE : Z := 3.
Definition PMD_TYPE_SECT : Z := 1.
Definition PTE_TYPE_PAGE : Z := 3.
Definition PTE_TABLE_BIT : Z := 2.

Definition ALIGN (size align : Z) : Z := u64 (u64 (u64 (size + align) - 1) / align * align).

(** ** Memory as 64-bit words *)

Abbreviation wmem := (gmap Z Z).

Definition ldw (m : wmem) (a : Z) : outcome Z :=
  match m !! a with Some v => Ok v | None => Fault end.

Definition stw (m : wmem) (a v : Z) : outcome wmem :=
  match m !! a with Some _ => Ok (<[a := v]> m) | None => Fault end.

(** ** What the mapping code is given *)

(** The two conversions between a table's address and its descriptor. *)
Class TableSpace : Type := {
  to_desc : Z -> Z;
  of_desc : Z -> Z;
  tbl_ok : Z -> Prop       (* the addresses at which tables can live *)
}.

(** The [pt_alloc] argument: an allocator of zeroed pages, its state and what
    it still has. *)
Class PageSource (A : Type) : Type := {
  pt_alloc : A -> wmem -> Z -> outcome (A * wmem * Z);
  free_page : A -> Z -> Prop;             (* pages it may hand out *)
  page_ready : wmem -> Z -> Prop;         (* what memory has to hold for such a page *)
  page_supply : A -> nat -> Prop          (* it can hand out so many more *)
}.

(** ** The mapping code *)

Section Mapping.
Context `{TableSpace} {A : Type} `{PageSource A}.

Definition page_desc (paddr attr : Z) : Z :=
  Z.lor (Z.lor (Z.shiftl (Z.shiftr paddr PAGE_SHIFT) PAGE_SHIFT) PTE_TYPE_PAGE) attr.

Definition sect_desc (paddr attr : Z) : Z :=
  Z.lor (Z.lor (Z.shiftl (Z.shiftr paddr PMD_SHIFT) PMD_SHIFT) PMD_TYPE_SECT)
    (Z.land attr (not64 PTE_TABLE_BIT)).

(** The end of the entry that holds [vaddr], cut at [end_]. *)
Definition next_of (size mask vaddr end_ : Z) : Z :=
  let next := Z.land (u64 (vaddr + size)) mask in
  if next <? end_ then next else end_.

(** The table behind the entry at [slot], allocated if the entry is empty. *)
Definition table_of (a : A) (m : wmem) (slot : Z) : outcome (A * wmem * Z) :=
  let! d := ldw m slot in
  if d =? 0 then
    let! (a, m, p) := pt_alloc a m PAGE_SIZE in
    assert! (negb (p =? 0)) in
    let! m := stw m slot (to_desc (Z.lor p PMD_TYPE_TABLE)) in
    Ok (a, m, p)
  else Ok (a, m, of_desc (Z.land d PTE_ADDR_MASK)).

(** In the loops of the source [next] equals [vaddr] at the head of each turn. *)
Fixpoint pte_loop (fuel : nat) (m : wmem) (pte vaddr end_ paddr attr : Z) : outcome wmem :=
  match fuel with
  | O => Diverge
  | S fuel =>
      if vaddr =? end_ then Ok m
      else
        let next := next_of PAGE_SIZE PAGE_MASK vaddr end_ in
        let! m := stw m pte (page_desc paddr attr) in
        pte_loop fuel m (pte + 8) next end_ (u64 (paddr + (next - vaddr))) attr
  end.

(** One table has 512 entries, and one more turn sees the end of the range. *)
Definition LOOP_FUEL : nat := 514.

Definition pte_map_with (a : A) (m : wmem) (pmd vaddr end_ paddr attr : Z) : outcome (A * wmem) :=
  let! (a, m, pte) := table_of a m pmd in
  let idx := Z.land (Z.shiftr vaddr PAGE_SHIFT) (PTRS_PER_PTE - 1) in
  let! m := pte_loop LOOP_FUEL m (pte + 8 * idx) vaddr end_ paddr attr in
  Ok (a, m).

Fixpoint pmd_loop (fuel : nat) (a : A) (m : wmem) (pmd vaddr end_ paddr attr : Z) : outcome (A * wmem) :=
  match fuel with
  | O => Diverge
  | S fuel =>
      if vaddr =? end_ then Ok (a, m)
      else
        let next := next_of PMD_SIZE PMD_MASK vaddr end_ in
        let! (a, m) :=
          (if negb (Z.land (Z.lor (Z.lor vaddr next) paddr) (not64 SECTION_MASK) =? 0)
           then pte_map_with a m pmd vaddr next paddr attr
           else let! m := stw m pmd (sect_desc paddr attr) in Ok (a, m)) in
        pmd_loop fuel a m (pmd + 8) next end_ (u64 (paddr + (next - vaddr))) attr
  end.

Definition pmd_map_with (a : A) (m : wmem) (pud vaddr end_ paddr attr : Z) : outcome (A * wmem) :=
  let! (a, m, pmd) := table_of a m pud in
  let idx := Z.land (Z.shiftr vaddr PMD_SHIFT) (PTRS_PER_PMD - 1) in
  pmd_loop LOOP_FUEL a m (pmd + 8 * idx) vaddr end_ paddr attr.

Fixpoint pgd_loop (fuel : nat) (a : A) (m : wmem) (pgd vaddr end_ paddr attr : Z) : outcome (A * wmem) :=
  match fuel with
  | O => Diverge
  | S fuel =>
      if vaddr =? end_ then Ok (a, m)
      else
        let next := next_of PGDIR_SIZE PGDIR_MASK vaddr end_ in
        let! (a, m) := pmd_map_with a m pgd vaddr next paddr attr in
        pgd_loop fuel a m (pgd + 8) next end_ (u64 (paddr + (next - vaddr))) attr
  end.

Definition pt_map_with (a : A) (m : wmem) (pgd vaddr paddr size attr : Z) : outcome (A * wmem * Z) :=
  assert! (negb (pgd =? 0)) in
  assert! (Z.land vaddr (Z.ones PAGE_SHIFT) =? 0) in
  assert! (Z.land paddr (Z.ones PAGE_SHIFT) =? 0) in
  assert! (negb (size =? 0)) in
  assert! (size <=? Z.shiftl 1 VA_BITS) in
  let idx := Z.land (Z.shiftr vaddr PGDIR_SHIFT) (PTRS_PER_PGD - 1) in
  let end_ := ALIGN (u64 (vaddr + size)) PAGE_SIZE in
  let! (a, m) := pgd_loop LOOP_FUEL a m (pgd + 8 * idx) vaddr end_ paddr attr in
  Ok (a, m, 0).
End Mapping.

(** ** The two instances *)

Definition kernel_space : TableSpace := {|
  to_desc := vbase_to_pbase;
  of_desc := pbase_to_vbase;
  tbl_ok p := p mod 4096 = 0 /\ RAM_VBASE <= p < RAM_VBASE + RAM_SIZE
|}.
#[export] Existing Instance kernel_space.

Definition idmap_space : TableSpace := {|
  to_desc p := p;
  of_desc p := p;
  tbl_ok p := p mod 4096 = 0 /\ RAM_PBASE <= p < RAM_PBASE + RAM_SIZE
|}.

Section Instances.
Context {A : Type} `{PageSource A}.

Definition pte_map := pte_map_with (H := kernel_space) (A := A).
Definition pmd_map := pmd_map_with (H := kernel_space) (A := A).
Definition pt_map := pt_map_with (H := kernel_space) (A := A).
Definition idmap_pte_map := pte_map_with (H := idmap_space) (A := A).
Definition idmap_pmd_map := pmd_map_with (H := idmap_space) (A := A).
Definition idmap_pt_map := pt_map_with (H := idmap_space) (A := A).
End Instances.

(** ** The architecture's table walk *)

Definition ix1 (va : Z) : Z := va / 0x40000000 mod 512.
Definition ix2 (va : Z) : Z := va / 0x200000 mod 512.
Definition ix3 (va : Z) : Z := va / 0x1000 mod 512.

(** Bits 47..12 of a table descriptor are the address of the next table. *)
Definition HW_ADDR_MASK : Z := 0xfffffffff000.

Inductive leaf : Type :=
| LNone
| LSect (d : Z)
| LPage (d : Z).

Section Walk.
Context `{TableSpace}.

Definition last_walk (m : wmem) (u va : Z) : leaf :=
  match m !! (u + 8 * ix3 va) with
  | Some d => if Z.land d 3 =? 3 then LPage d else LNone
  | None => LNone
  end.

Definition mid_walk (m : wmem) (t va : Z) : leaf :=
  match m !! (t + 8 * ix2 va) with
  | Some d => if Z.land d 3 =? 1 then LSect d
              else if Z.land d 3 =? 3 then last_walk m (of_desc (Z.land d HW_ADDR_MASK)) va else LNone
  | None => LNone
  end.

Definition hw_walk (m : wmem) (root va : Z) : leaf :=
  match m !! (root + 8 * ix1 va) with
  | Some d => if Z.land d 3 =? 3 then mid_walk m (of_desc (Z.land d HW_ADDR_MASK)) va else LNone
  | None => LNone
  end.
End Walk.

(** The address and the attributes a leaf gives to [va]. *)
Definition translate (va : Z) (l : leaf) : option (Z * Z) :=
  match l with
  | LNone => None
  | LSect d => Some (Z.land d 0xffffffe00000 + va mod 0x200000, Z.ldiff d 0xffffffe00000)
  | LPage d => Some (Z.land d HW_ADDR_MASK + va mod 0x1000, Z.ldiff d HW_ADDR_MASK)
  end.

(** ** Laws of the interfaces *)

Class TableSpaceLaws `{TableSpace} : Prop := {
  ts_page : forall p, tbl_ok p -> p mod 4096 = 0 /\ p <> 0;
  ts_desc : forall p, tbl_ok p -> let d := to_desc (Z.lor p 3) in
    Z.land d 3 = 3 /\ of_desc (Z.land d PTE_ADDR_MASK) = p /\ of_desc (Z.land d HW_ADDR_MASK) = p
}.

(** [m'] is [m] with page [p] zeroed. *)
Definition zeroed (m m' : wmem) (p : Z) : Prop :=
  (forall k, 0 <= k < 512 -> m' !! (p + 8 * k) = Some 0) /\
  (forall x, (forall k, 0 <= k < 512 -> x <> p + 8 * k) -> m' !! x = m !! x).

Definition mapped_page (m : wmem) (p : Z) : Prop := forall k, 0 <= k < 512 -> is_Some (m !! (p + 8 * k)).

Class PageSourceLaws (A : Type) `{TableSpace} `{PageSource A} : Prop := {
  supply_less : forall a n, page_supply a (S n) -> page_supply a n;
  ready_mapped : forall m p, page_ready m p -> mapped_page m p;
  ready_frame : forall m m' p, page_ready m p ->
    (forall k, 0 <= k < 512 -> m' !! (p + 8 * k) = m !! (p + 8 * k)) -> page_ready m' p;
  supply_ok : forall a m n, page_supply a (S n) ->
    (forall p, free_page a p -> tbl_ok p /\ page_ready m p) ->
    exists a' m' p, pt_alloc a m PAGE_SIZE = Ok (a', m', p) /\ page_supply a' n /\ free_page a p /\
      (forall q, free_page a' q <-> free_page a q /\ q <> p) /\ zeroed m m' p
}.

(** ** Arithmetic of the tables *)

Lemma mask_down x s : 0 <= x < 2 ^ 64 -> 0 <= s < 64 -> Z.land x (not64 (2 ^ s - 1)) = x / 2 ^ s * 2 ^ s.
Proof.
  intros Hx Hs. unfold not64. replace (2 ^ s - 1) with (Z.ones s) by (rewrite Z.ones_equiv; lia).
  rewrite <- Z.shiftr_div_pow2, <- Z.shiftl_mul_pow2 by lia. rewrite <- Z.ldiff_ones_r by lia.
  apply Z.bits_inj'. intros i Hi. rewrite Z.land_spec, !Z.ldiff_spec, !Z.testbit_ones by lia.
  destruct (Z.ltb_spec i 64); [by decide_cmp|]. rewrite (testbit_high 64) by lia. done.
Qed.

Lemma index_of va s : 0 <= s -> Z.land (Z.shiftr va s) (512 - 1) = va / 2 ^ s mod 512.
Proof. intros. change (512 - 1) with (Z.ones 9). rewrite Z.land_ones, Z.shiftr_div_pow2 by lia. done. Qed.

Lemma low_bits x s : 0 <= s -> Z.land x (Z.ones s) = x mod 2 ^ s.
Proof. intros. by rewrite Z.land_ones. Qed.

(** The end of the entry is a multiple of its size, unless it is cut. *)
Lemma next_of_ok s v e : 0 <= s <= 30 -> 0 <= v < e -> e < 2 ^ 64 - 2 ^ 30 ->
  next_of (2 ^ s) (not64 (2 ^ s - 1)) v e = Z.min ((v / 2 ^ s + 1) * 2 ^ s) e.
Proof.
  intros Hs Hv He. unfold next_of. pose proof (pow2_pos s ltac:(lia)).
  assert (2 ^ s <= 2 ^ 30) by (apply Z.pow_le_mono_r; lia).
  rewrite u64_id by lia. rewrite mask_down by lia.
  replace ((v + 2 ^ s) / 2 ^ s) with (v / 2 ^ s + 1)
    by (rewrite <- (Z.mul_1_l (2 ^ s)) at 2; rewrite Z.div_add by lia; lia).
  destruct (Z.ltb_spec ((v / 2 ^ s + 1) * 2 ^ s) e); lia.
Qed.

Lemma section_test v n p :
  (Z.land (Z.lor (Z.lor v n) p) (not64 SECTION_MASK) =? 0) = true <->
  v mod 0x200000 = 0 /\ n mod 0x200000 = 0 /\ p mod 0x200000 = 0.
Proof.
  rewrite Z.eqb_eq. change (not64 SECTION_MASK) with (Z.ones 21).
  rewrite !Z.land_lor_distr_l, !Z.lor_eq_0_iff, !low_bits by lia. change (2 ^ 21) with 0x200000. tauto.
Qed.

Lemma page_word p q i j :
  p mod 4096 = 0 -> q mod 4096 = 0 -> 0 <= i < 512 -> 0 <= j < 512 -> p + 8 * i = q + 8 * j -> p = q /\ i = j.
Proof. intros. Z.div_mod_to_equations. lia. Qed.

Lemma ix_range va : 0 <= ix1 va < 512 /\ 0 <= ix2 va < 512 /\ 0 <= ix3 va < 512.
Proof. unfold ix1, ix2, ix3. repeat split; apply Z.mod_pos_bound; lia. Qed.

Lemma shifted_low x y : 2 <= y -> Z.land (Z.shiftl x y) 3 = 0.
Proof.
  intros. change 3 with (Z.ones 2). rewrite low_bits, Z.shiftl_mul_pow2 by lia.
  replace y with (2 + (y - 2)) by lia. rewrite Z.pow_add_r, Z.mul_assoc, (Z.mul_comm x), <- Z.mul_assoc by lia.
  rewrite (Z.mul_comm (2 ^ 2)). apply Z.mod_mul. lia.
Qed.

Lemma land3_cases e : Z.land e 3 = 0 \/ Z.land e 3 = 1 \/ Z.land e 3 = 2 \/ Z.land e 3 = 3.
Proof. change 3 with (Z.ones 2) at 1 2 3 4. rewrite low_bits by lia. pose proof (Z.mod_pos_bound e (2 ^ 2)). lia. Qed.

Lemma page_desc_type p attr : Z.land (page_desc p attr) 3 = 3.
Proof.
  unfold page_desc. rewrite !Z.land_lor_distr_l, shifted_low by (unfold PAGE_SHIFT; lia).
  by destruct (land3_cases attr) as [->|[->|[->| ->]]].
Qed.

Lemma sect_desc_type p attr : Z.land (sect_desc p attr) 3 = 1.
Proof.
  unfold sect_desc. rewrite !Z.land_lor_distr_l, shifted_low by (unfold PMD_SHIFT; lia).
  rewrite <- Z.land_assoc, (Z.land_comm (not64 _)), Z.land_assoc.
  by destruct (land3_cases attr) as [->|[->|[->| ->]]].
Qed.

(** ** Well-formed tables

    [R] gives each table page its place in the tree; a page has one place, so
    two entries never share a table. *)

Inductive role : Type :=
| Root
| Mid (i : Z)
| Last (i j : Z).

Section Tables.
Context `{TableSpace} {TL : TableSpaceLaws}.

Definition tdesc (t : Z) : Z := to_desc (Z.lor t 3).

Record wf (m : wmem) (R : gmap Z role) (root : Z) : Prop := {
  wf_root : R !! root = Some Root;
  wf_pages : forall p r, R !! p = Some r -> tbl_ok p /\ mapped_page m p;
  wf_top : forall i d, 0 <= i < 512 -> m !! (root + 8 * i) = Some d ->
    d = 0 \/ exists t, d = tdesc t /\ R !! t = Some (Mid i);
  wf_mid : forall t i j d, R !! t = Some (Mid i) -> 0 <= j < 512 -> m !! (t + 8 * j) = Some d ->
    d = 0 \/ Z.land d 3 = 1 \/ exists u, d = tdesc u /\ R !! u = Some (Last i j);
  wf_one_root : forall p, R !! p = Some Root -> p = root
}.

(** Does the walk of [va] read entry [k] of a table with this role? *)
Definition reads (r : role) (k va : Z) : Prop :=
  match r with
  | Root => k = ix1 va
  | Mid i => i = ix1 va /\ k = ix2 va
  | Last i j => i = ix1 va /\ j = ix2 va /\ k = ix3 va
  end.

Lemma tdesc_facts R m root p r : wf m R root -> R !! p = Some r ->
  Z.land (tdesc p) 3 = 3 /\ of_desc (Z.land (tdesc p) PTE_ADDR_MASK) = p /\
  of_desc (Z.land (tdesc p) HW_ADDR_MASK) = p /\ tdesc p <> 0 /\ p mod 4096 = 0 /\ p <> 0.
Proof.
  intros Hwf Hp. destruct (wf_pages _ _ _ Hwf p r Hp) as [Hok _].
  destruct (ts_desc p Hok) as (H1 & H2 & H3), (ts_page p Hok) as [H4 H5]. fold (tdesc p) in *.
  split_and!; try done. intros E. rewrite E in H1. done.
Qed.

Lemma wf_word m R root p r k : wf m R root -> R !! p = Some r -> 0 <= k < 512 -> exists d, m !! (p + 8 * k) = Some d.
Proof. intros Hwf Hp Hk. by destruct (wf_pages _ _ _ Hwf p r Hp) as [_ Hm]; destruct (Hm k Hk); eauto. Qed.

(** The walk depends on the entries it reads only. *)
Lemma walk_frame m m' R root va :
  wf m R root ->
  (forall p r k, R !! p = Some r -> 0 <= k < 512 -> reads r k va -> m' !! (p + 8 * k) = m !! (p + 8 * k)) ->
  hw_walk m' root va = hw_walk m root va.
Proof.
  intros Hwf Hsame. destruct (ix_range va) as (H1 & H2 & H3). unfold hw_walk.
  rewrite (Hsame root Root) by (done || apply Hwf).
  destruct (wf_word m R root root Root (ix1 va)) as [d1 E1]; [done|apply Hwf|done|]. rewrite E1.
  destruct (wf_top _ _ _ Hwf _ _ H1 E1) as [->|(t & -> & Ht)]; [done|].
  destruct (tdesc_facts _ _ _ _ _ Hwf Ht) as (-> & _ & -> & _). simpl (3 =? 3). cbv iota. unfold mid_walk.
  rewrite (Hsame t (Mid (ix1 va))) by done.
  destruct (wf_word m R root t (Mid (ix1 va)) (ix2 va)) as [d2 E2]; [done..|]. rewrite E2.
  destruct (wf_mid _ _ _ Hwf _ _ _ _ Ht H2 E2) as [->|[->|(u & -> & Hu)]]; [done|done|].
  destruct (tdesc_facts _ _ _ _ _ Hwf Hu) as (-> & _ & -> & _). simpl (3 =? 1). simpl (3 =? 3). cbv iota.
  unfold last_walk. by rewrite (Hsame u (Last (ix1 va) (ix2 va))) by done.
Qed.

(** A word of a table is a word of no other table. *)
Lemma other_word m R root p q r s k l :
  wf m R root -> R !! p = Some r -> R !! q = Some s -> 0 <= k < 512 -> 0 <= l < 512 ->
  p + 8 * k = q + 8 * l -> p = q /\ k = l.
Proof.
  intros Hwf Hp Hq Hk Hl E. destruct (tdesc_facts _ _ _ _ _ Hwf Hp) as (_ & _ & _ & _ & Hp4 & _).
  destruct (tdesc_facts _ _ _ _ _ Hwf Hq) as (_ & _ & _ & _ & Hq4 & _). by apply page_word.
Qed.

(** Writing an entry changes the walks that read it only. *)
Lemma store_frame m R root p r k e va :
  wf m R root -> R !! p = Some r -> 0 <= k < 512 -> ~ reads r k va ->
  hw_walk (<[p + 8 * k := e]> m) root va = hw_walk m root va.
Proof.
  intros Hwf Hp Hk Hnr. apply (walk_frame m _ R); [done|]. intros q s l Hq Hl Hr.
  apply lookup_insert_ne. intros E. destruct (other_word m R root p q r s k l) as [-> ->]; try done.
  rewrite Hp in Hq. injection Hq as <-. done.
Qed.

(** An entry that fits its place keeps the tables well formed. *)
Definition fits (R : gmap Z role) (r : role) (k e : Z) : Prop :=
  match r with
  | Root => e = 0 \/ exists t, e = tdesc t /\ R !! t = Some (Mid k)
  | Mid i => e = 0 \/ Z.land e 3 = 1 \/ exists u, e = tdesc u /\ R !! u = Some (Last i k)
  | Last _ _ => True
  end.

Lemma store_wf m R root p r k e :
  wf m R root -> R !! p = Some r -> 0 <= k < 512 -> fits R r k e -> wf (<[p + 8 * k := e]> m) R root.
Proof.
  intros Hwf Hp Hk Hf. pose proof Hwf as [Hr Hpg Ht Hm Ho]. constructor; try done.
  - intros q s Hq. destruct (Hpg q s Hq) as [? Hq2]. split; [done|]. intros l Hl.
    destruct (decide (p + 8 * k = q + 8 * l)) as [->|]; [by rewrite lookup_insert_eq|].
    rewrite lookup_insert_ne by done. by apply Hq2.
  - intros i d Hi. destruct (decide (p + 8 * k = root + 8 * i)) as [E|]; [|rewrite lookup_insert_ne by done; by apply Ht].
    destruct (other_word m R root p root r Root k i) as [-> ->]; try done. rewrite lookup_insert_eq. intros [= <-].
    rewrite Hr in Hp. injection Hp as <-. exact Hf.
  - intros t i j d Hti Hj.
    destruct (decide (p + 8 * k = t + 8 * j)) as [E|]; [|rewrite lookup_insert_ne by done; by apply Hm].
    destruct (other_word m R root p t r (Mid i) k j) as [-> ->]; try done. rewrite lookup_insert_eq. intros [= <-].
    rewrite Hti in Hp. injection Hp as <-. exact Hf.
Qed.

(** The chain of tables the walk of [va] goes through. *)
Definition chain2 (m : wmem) (root t i : Z) : Prop := m !! (root + 8 * i) = Some (tdesc t).
Definition chain3 (m : wmem) (root t u i j : Z) : Prop := chain2 m root t i /\ m !! (t + 8 * j) = Some (tdesc u).

Lemma walk_chain2 m R root t va :
  wf m R root -> chain2 m root t (ix1 va) -> R !! t = Some (Mid (ix1 va)) -> hw_walk m root va = mid_walk m t va.
Proof.
  intros Hwf Hc Ht. unfold hw_walk. rewrite Hc.
  by destruct (tdesc_facts _ _ _ _ _ Hwf Ht) as (-> & _ & -> & _).
Qed.

Lemma walk_chain3 m R root t u va :
  wf m R root -> chain3 m root t u (ix1 va) (ix2 va) -> R !! t = Some (Mid (ix1 va)) ->
  R !! u = Some (Last (ix1 va) (ix2 va)) -> hw_walk m root va = last_walk m u va.
Proof.
  intros Hwf [Hc Hc2] Ht Hu. rewrite (walk_chain2 m R root t va) by done. unfold mid_walk. rewrite Hc2.
  by destruct (tdesc_facts _ _ _ _ _ Hwf Hu) as (-> & _ & -> & _).
Qed.
End Tables.

(** ** Ranges of addresses *)

(** [x] belongs to the 512 GiB window that starts at [W]. *)
Definition window (W x : Z) : Prop := W mod 0x8000000000 = 0 /\ W <= x < W + 0x8000000000.

Lemma same_last W x b k : window W x -> window W b -> b mod 0x200000 = 0 -> 0 <= k < 512 ->
  (ix1 b = ix1 x /\ ix2 b = ix2 x /\ k = ix3 x) <-> b + 4096 * k <= x < b + 4096 * (k + 1).
Proof. intros [HW Hx] [_ Hb] Hb2 Hk. unfold ix1, ix2, ix3. Z.div_mod_to_equations. lia. Qed.

Lemma same_mid W x g k : window W x -> window W g -> g mod 0x40000000 = 0 -> 0 <= k < 512 ->
  (ix1 g = ix1 x /\ k = ix2 x) <-> g + 0x200000 * k <= x < g + 0x200000 * (k + 1).
Proof. intros [HW Hx] [_ Hb] Hb2 Hk. unfold ix1, ix2. Z.div_mod_to_equations. lia. Qed.

Lemma same_top W x k : window W x -> 0 <= k < 512 ->
  k = ix1 x <-> W + 0x40000000 * k <= x < W + 0x40000000 * (k + 1).
Proof. intros [HW Hx] Hk. unfold ix1. Z.div_mod_to_equations. lia. Qed.

(** A leaf that sends [x] to [pa]. *)
Definition maps (l : leaf) (x pa attr : Z) : Prop :=
  match l with
  | LPage d => d = page_desc (pa - x mod 0x1000) attr /\ (pa - x mod 0x1000) mod 0x1000 = 0
  | LSect d => d = sect_desc (pa - x mod 0x200000) attr /\ (pa - x mod 0x200000) mod 0x200000 = 0
  | LNone => False
  end.

Section Ranges.
Context `{TableSpace} {TL : TableSpaceLaws}.
Variables (W root : Z).

(** Between [m] and [m'] the addresses in [lo, hi) were mapped to consecutive
    addresses from [pa] on, and no other address of the window changed. *)
Definition mapped (m m' : wmem) (lo hi pa attr : Z) : Prop :=
  forall x, window W x ->
    (lo <= x < hi -> maps (hw_walk m' root x) x (pa + (x - lo)) attr) /\
    (~ (lo <= x < hi) -> hw_walk m' root x = hw_walk m root x).

Lemma mapped_nil m lo pa attr : mapped m m lo lo pa attr.
Proof. intros x _. split; [lia|done]. Qed.

Lemma mapped_app m m1 m2 lo mid hi pa pa' attr :
  lo <= mid <= hi -> pa' = pa + (mid - lo) ->
  mapped m m1 lo mid pa attr -> mapped m1 m2 mid hi pa' attr -> mapped m m2 lo hi pa attr.
Proof.
  intros Hm -> H1 H2 x Hx. destruct (H1 x Hx) as [H1a H1b], (H2 x Hx) as [H2a H2b]. split.
  - intros Hr. destruct (Z.lt_ge_cases x mid).
    + rewrite H2b by lia. apply H1a. lia.
    + replace (pa + (x - lo)) with (pa + (mid - lo) + (x - mid)) by lia. apply H2a. lia.
  - intros Hr. rewrite H2b, H1b by lia. done.
Qed.

Lemma mapped_same m m1 m2 lo hi pa attr :
  (forall x, window W x -> hw_walk m1 root x = hw_walk m root x) ->
  mapped m1 m2 lo hi pa attr -> mapped m m2 lo hi pa attr.
Proof. intros He Hm x Hx. destruct (Hm x Hx) as [Ha Hb]. split; [done|]. intros Hr. by rewrite Hb, He. Qed.

(** ** The last level *)

Variable (R : gmap Z role).

(** The memory outside the tables stays as it is. *)
Definition tables_only (m m' : wmem) : Prop :=
  dom m' = dom m /\
  forall x, (forall p r k, R !! p = Some r -> 0 <= k < 512 -> x <> p + 8 * k) -> m' !! x = m !! x.

Lemma tables_only_store m p r k e d :
  R !! p = Some r -> 0 <= k < 512 -> m !! (p + 8 * k) = Some d -> tables_only m (<[p + 8 * k := e]> m).
Proof.
  intros Hp Hk Hd. split.
  - rewrite dom_insert_L. apply subseteq_union_1_L, singleton_subseteq_l, elem_of_dom. by exists d.
  - intros x Hx. apply lookup_insert_ne. intros E. by apply (Hx p r k).
Qed.

Lemma tables_only_trans m1 m2 m3 : tables_only m1 m2 -> tables_only m2 m3 -> tables_only m1 m3.
Proof. intros [D1 T1] [D2 T2]. split; [congruence|]. intros x Hx. by rewrite T2, T1. Qed.

(** Which tables hold the block at [b]. *)
Definition at_block (m : wmem) (t u b : Z) : Prop :=
  R !! t = Some (Mid (ix1 b)) /\ R !! u = Some (Last (ix1 b) (ix2 b)) /\ chain3 m root t u (ix1 b) (ix2 b).

Lemma at_block_store m t u b k e :
  wf m R root -> at_block m t u b -> 0 <= k < 512 -> at_block (<[u + 8 * k := e]> m) t u b.
Proof.
  intros Hwf (Ht & Hu & Hc1 & Hc2) Hk. destruct (ix_range b) as (I1 & I2 & _). split_and!; try done. split.
  - unfold chain2. rewrite lookup_insert_ne; [done|]. intros E.
    destruct (other_word m R root u root _ Root k (ix1 b) Hwf Hu) as [E2 _]; [apply Hwf|done..|].
    rewrite E2 in Hu. rewrite (wf_root _ _ _ Hwf) in Hu. done.
  - rewrite lookup_insert_ne; [done|]. intros E.
    destruct (other_word m R root u t _ _ k (ix2 b) Hwf Hu Ht) as [E2 _]; [done..|].
    rewrite E2 in Hu. rewrite Ht in Hu. done.
Qed.

Lemma page_store m t u b k pa attr :
  wf m R root -> at_block m t u b -> window W b -> b mod 0x200000 = 0 -> 0 <= k < 512 -> pa mod 4096 = 0 ->
  mapped m (<[u + 8 * k := page_desc pa attr]> m) (b + 4096 * k) (b + 4096 * (k + 1)) pa attr.
Proof.
  intros Hwf Hat HW Hb Hk Hpa x Hx. pose proof (same_last W x b k Hx HW Hb Hk) as Hs.
  pose proof (at_block_store m t u b k (page_desc pa attr) Hwf Hat Hk) as Hat'.
  pose proof Hat as (Ht & Hu & Hc). destruct Hat' as (_ & _ & Hc').
  assert (Hwf' : wf (<[u + 8 * k := page_desc pa attr]> m) R root) by (by eapply store_wf).
  split; intros Hr.
  - apply Hs in Hr as (E1 & E2 & E3). rewrite E1, E2 in *.
    rewrite (walk_chain3 _ R root t u x) by done. unfold last_walk. rewrite <- E3, lookup_insert_eq, page_desc_type.
    simpl. assert (x mod 4096 = x - (b + 4096 * k)) as ->.
    { unfold ix3 in E3. destruct HW, Hx. unfold ix1, ix2 in *. Z.div_mod_to_equations. lia. }
    replace (pa + (x - (b + 4096 * k)) - (x - (b + 4096 * k))) with pa by lia. done.
  - eapply store_frame; [done|exact Hu|done|]. simpl. intros Hr2. apply Hr, Hs. tauto.
Qed.

Lemma pte_loop_ok t u b attr n : forall fuel m k pa,
  wf m R root -> at_block m t u b -> window W b -> b mod 0x200000 = 0 -> 0 <= W -> b + 0x200000 < 2 ^ 64 - 2 ^ 30 ->
  0 <= k -> k + Z.of_nat n <= 512 -> (n < fuel)%nat ->
  0 <= pa -> pa mod 4096 = 0 -> pa + 4096 * Z.of_nat n < 2 ^ 64 ->
  exists m', pte_loop fuel m (u + 8 * k) (b + 4096 * k) (b + 4096 * (k + Z.of_nat n)) pa attr = Ok m' /\
    wf m' R root /\ at_block m' t u b /\ tables_only m m' /\
    mapped m m' (b + 4096 * k) (b + 4096 * (k + Z.of_nat n)) pa attr.
Proof.
  induction n as [|n IH]; intros fuel m k pa Hwf Hat HW Hb HW0 Htop Hk Hkn Hf Hpa Hpa4 Hpn;
    (destruct fuel as [|fuel]; [lia|]); cbn [pte_loop].
  { rewrite Z.add_0_r, Z.eqb_refl. exists m. do 3 (split; [done|]). split; [done|]. apply mapped_nil. }
  assert (HbW := proj2 HW). rewrite (proj2 (Z.eqb_neq _ _)) by lia.
  change PAGE_SIZE with (2 ^ 12). change PAGE_MASK with (not64 (2 ^ 12 - 1)). rewrite next_of_ok by lia.
  assert (Hnext : Z.min (((b + 4096 * k) / 2 ^ 12 + 1) * 2 ^ 12) (b + 4096 * (k + Z.of_nat (S n)))
            = b + 4096 * (k + 1)).
  { assert ((b + 4096 * k) / 2 ^ 12 * 2 ^ 12 = b + 4096 * k) by (Z.div_mod_to_equations; lia). lia. }
  rewrite Hnext. pose proof Hat as (_ & Hu & _).
  destruct (wf_word m R root u _ k Hwf Hu) as [d Hd]; [lia|]. unfold stw. rewrite Hd. cbn [obind].
  replace (u + 8 * k + 8) with (u + 8 * (k + 1)) by lia.
  rewrite u64_id by lia. replace (pa + (b + 4096 * (k + 1) - (b + 4096 * k))) with (pa + 4096) by lia.
  set (m1 := <[u + 8 * k := page_desc pa attr]> m).
  destruct (IH fuel m1 (k + 1) (pa + 4096)) as (m' & Hm' & Hwf' & Hat' & Hto & Hmap); try done; try lia.
  - eapply store_wf; [done|exact Hu|lia|done].
  - apply at_block_store; [done|done|lia].
  - Z.div_mod_to_equations; lia.
  - replace (k + 1 + Z.of_nat n) with (k + Z.of_nat (S n)) in * by lia.
    exists m'. split; [exact Hm'|]. split; [done|]. split; [done|]. split.
    + eapply tables_only_trans; [|exact Hto]. eapply tables_only_store; [exact Hu|lia|exact Hd].
    + eapply mapped_app; [| |apply (page_store m t u b k pa attr); done || lia|exact Hmap]; lia.
Qed.
End Ranges.

(** ** Descending a level *)

Section Descend.
Context `{TableSpace} {TL : TableSpaceLaws} {A : Type} `{PageSource A} {PL : PageSourceLaws A}.
Variables (W root : Z).

Record pt_inv (a : A) (m : wmem) (R : gmap Z role) : Prop := {
  pt_wf : wf m R root;
  pt_free_ready : forall p, free_page a p -> tbl_ok p /\ page_ready m p;
  pt_free_unused : forall p, free_page a p -> R !! p = None
}.

(** The tree grew by pages of the source, and only tables were written. *)
Record grown (a : A) (m : wmem) (R : gmap Z role) (a' : A) (m' : wmem) (R' : gmap Z role) : Prop := {
  gr_roles : R ⊆ R';
  gr_new : forall p r, R' !! p = Some r -> R !! p = Some r \/ free_page a p;
  gr_free : forall p, free_page a' p -> free_page a p;
  gr_mem : tables_only R' m m'
}.

Lemma grown_refl a m R : grown a m R a m R.
Proof. constructor; [done|by left|done|by split]. Qed.

Lemma grown_trans a1 m1 R1 a2 m2 R2 a3 m3 R3 :
  grown a1 m1 R1 a2 m2 R2 -> grown a2 m2 R2 a3 m3 R3 -> grown a1 m1 R1 a3 m3 R3.
Proof.
  intros [G1 N1 F1 [D1 M1]] [G2 N2 F2 [D2 M2]]. constructor; [by etrans| | |split; [congruence|]]; auto.
  - intros p r Hp. destruct (N2 p r Hp) as [Hp2|Hp2]; [by apply N1|right; by apply F1].
  - intros x Hx. rewrite M2 by done. apply M1. intros p r k Hp. apply (Hx p r). by eapply lookup_weaken.
Qed.

Lemma grown_mem a m R m' : tables_only R m m' -> grown a m R a m' R.
Proof. intros. constructor; [done|by left|done|done]. Qed.

(** A word of a page that holds no table is a word of no table. *)
Lemma free_word m R p q r k l :
  wf m R root -> tbl_ok p -> R !! p = None -> R !! q = Some r -> 0 <= k < 512 -> 0 <= l < 512 ->
  p + 8 * k <> q + 8 * l.
Proof.
  intros Hwf Hok Hp Hq Hk Hl E. destruct (ts_page p Hok) as [Hp4 _].
  destruct (tdesc_facts _ _ _ _ _ Hwf Hq) as (_ & _ & _ & _ & Hq4 & _).
  destruct (page_word p q k l) as [-> _]; try done. congruence.
Qed.

Lemma pt_inv_mem a m R m' : pt_inv a m R -> wf m' R root -> tables_only R m m' -> pt_inv a m' R.
Proof.
  intros [Hwf Hm Hu] Hwf' [_ Hto]. constructor; [done| |done]. intros p Hp.
  destruct (Hm p Hp) as [Hok Hr]. split; [done|]. eapply ready_frame; [exact Hr|]. intros k Hk.
  apply Hto. intros q r l Hq Hl. by apply (free_word m R p q r k l); try done; apply Hu.
Qed.

(** The place of a table behind entry [k]. *)
Definition child (r : role) (k : Z) : option role :=
  match r with Root => Some (Mid k) | Mid i => Some (Last i k) | Last _ _ => None end.

(** The walk really goes through this table. *)
Definition live (m : wmem) (p : Z) (r : role) : Prop :=
  match r with Root => p = root | Mid i => 0 <= i < 512 /\ chain2 m root p i | Last _ _ => False end.

Lemma zeroed_tables m m' R q p r k :
  wf m R root -> tbl_ok q -> R !! q = None -> zeroed m m' q -> R !! p = Some r -> 0 <= k < 512 ->
  m' !! (p + 8 * k) = m !! (p + 8 * k).
Proof.
  intros Hwf Hok Hq [_ Hz] Hp Hk. apply Hz. intros l Hl E.
  destruct (ts_page q Hok) as [Hq4 _], (tdesc_facts _ _ _ _ _ Hwf Hp) as (_ & _ & _ & _ & Hp4 & _).
  destruct (page_word p q k l) as [-> _]; try done. congruence.
Qed.

Lemma zeroed_dom (m m' : wmem) q : mapped_page m q -> zeroed m m' q -> dom m' = dom m.
Proof.
  intros Hm [Hz Hs]. apply set_eq. intros x. rewrite !elem_of_dom.
  destruct (decide ((x - q) mod 8 = 0 /\ 0 <= (x - q) / 8 < 512)) as [[H8 Hr]|Hn].
  - assert (x = q + 8 * ((x - q) / 8)) as -> by (Z.div_mod_to_equations; lia).
    rewrite Hz by done. split; [intros _; by apply Hm|by eexists].
  - rewrite Hs; [done|]. intros k Hk ->. apply Hn. replace (q + 8 * k - q) with (k * 8) by lia.
    by rewrite Z.mod_mul, Z.div_mul.
Qed.

Lemma zeroed_wf m m' R q r :
  wf m R root -> tbl_ok q -> R !! q = None -> zeroed m m' q -> r <> Root -> wf m' (<[q := r]> R) root.
Proof.
  intros Hwf Hok Hq Hz Hr. pose proof (zeroed_tables m m' R q) as Hsame. pose proof Hwf as [Hrt Hpg Ht Hm Ho].
  assert (Hsub : forall p s, R !! p = Some s -> <[q := r]> R !! p = Some s).
  { intros p s Hp. rewrite lookup_insert_ne; [done|]. intros ->. congruence. }
  constructor.
  - by apply Hsub.
  - intros p s Hp. destruct (decide (p = q)) as [->|Hne].
    + split; [done|]. intros k Hk. rewrite (proj1 Hz k Hk). by eexists.
    + rewrite lookup_insert_ne in Hp by done. destruct (Hpg p s Hp) as [? Hmp]. split; [done|].
      intros k Hk. rewrite (Hsame p s k) by done. by apply Hmp.
  - intros i d Hi. rewrite (Hsame root Root i) by done. intros Hd.
    destruct (Ht i d Hi Hd) as [?|(t & ? & ?)]; [by left|right]. exists t. split; [done|by apply Hsub].
  - intros t i j d Hti Hj. destruct (decide (t = q)) as [->|Hne].
    + rewrite (proj1 Hz j Hj). intros [= <-]. by left.
    + rewrite lookup_insert_ne in Hti by done. rewrite (Hsame t (Mid i) j) by done. intros Hd.
      destruct (Hm t i j d Hti Hj Hd) as [?|[?|(u & ? & ?)]]; [by left|right; by left|right; right].
      exists u. split; [done|by apply Hsub].
  - intros p Hp. destruct (decide (p = q)) as [->|Hne].
    + rewrite lookup_insert_eq in Hp. congruence.
    + rewrite lookup_insert_ne in Hp by done. by apply Ho.
Qed.

(** An empty entry and a fresh, empty table behind it walk alike. *)
Lemma empty_table_walk m m2 R p r k q x :
  wf m R root -> wf m2 R root -> R !! p = Some r -> 0 <= k < 512 -> live m2 p r ->
  m !! (p + 8 * k) = Some 0 -> m2 !! (p + 8 * k) = Some (tdesc q) -> live m p r ->
  child r k = R !! q -> (forall l, 0 <= l < 512 -> m2 !! (q + 8 * l) = Some 0) -> reads r k x ->
  hw_walk m2 root x = hw_walk m root x.
Proof.
  intros Hwf Hwf2 Hp Hk Hl2 Hd Hd2 Hl Hq Hz Hr. destruct (ix_range x) as (I1 & I2 & I3).
  destruct r as [|i|]; [| |done]; simpl in *.
  - subst k p. unfold hw_walk. rewrite Hd, Hd2.
    destruct (tdesc_facts _ _ _ _ _ Hwf2 (eq_sym Hq)) as (-> & _ & -> & _). simpl. unfold mid_walk. by rewrite Hz.
  - destruct Hr as [-> ->], Hl as [_ Hl], Hl2 as [_ Hl2].
    rewrite (walk_chain2 m R root p x), (walk_chain2 m2 R root p x) by done.
    unfold mid_walk. rewrite Hd, Hd2.
    destruct (tdesc_facts _ _ _ _ _ Hwf2 (eq_sym Hq)) as (-> & _ & -> & _). simpl. unfold last_walk. by rewrite Hz.
Qed.

(** A page of the source becomes a table. *)
Lemma fresh_table_inv a m R a1 m2 q r' : pt_inv a m R -> free_page a q -> (forall p, free_page a1 p -> free_page a p /\ p <> q) ->
  let R1 := <[q := r']> R in wf m2 R1 root -> tables_only R1 m m2 -> pt_inv a1 m2 R1 /\ grown a m R a1 m2 R1.
Proof.
  intros [Hwf Hfm Hfu] Hfq Hfree R1 Hwf2 Hto. split; constructor; try done.
  - intros p' Hp'. apply Hfree in Hp' as [Hp' Hne]. destruct (Hfm p' Hp') as [Hok' Hr'']. split; [done|].
    eapply ready_frame; [exact Hr''|]. intros l Hl. apply Hto. intros q' s l' Hq' Hl'.
    apply (free_word m2 R1 p' q' s l l'); try done. unfold R1. rewrite lookup_insert_ne by done. by apply Hfu.
  - intros p' Hp'. apply Hfree in Hp' as [Hp' Hne]. unfold R1. rewrite lookup_insert_ne by done. by apply Hfu.
  - apply insert_subseteq. by apply Hfu.
  - intros p' s Hp'. destruct (decide (p' = q)) as [->|]; [by right|left]. by unfold R1 in Hp'; rewrite lookup_insert_ne in Hp'.
  - intros p' Hp'. by apply Hfree in Hp' as [? _].
Qed.

Lemma table_of_ok a m R p r k r' n :
  pt_inv a m R -> R !! p = Some r -> 0 <= k < 512 -> live m p r -> child r k = Some r' ->
  (forall d, m !! (p + 8 * k) = Some d -> Z.land d 3 <> 1) -> page_supply a (S n) ->
  exists a' m' R' q, table_of a m (p + 8 * k) = Ok (a', m', q) /\ pt_inv a' m' R' /\ grown a m R a' m' R' /\
    R' !! q = Some r' /\ m' !! (p + 8 * k) = Some (tdesc q) /\ page_supply a' n /\
    (forall x, hw_walk m' root x = hw_walk m root x) /\
    (forall p' r'' l, R !! p' = Some r'' -> 0 <= l < 512 -> p' + 8 * l <> p + 8 * k -> m' !! (p' + 8 * l) = m !! (p' + 8 * l)).
Proof.
  intros Hinv Hp Hk Hlive Hch Hns Hsup. pose proof Hinv as [Hwf Hfm Hfu].
  destruct (wf_word m R root p r k Hwf Hp Hk) as [d Hd]. unfold table_of, ldw. rewrite Hd. cbn [obind].
  assert (Hcase : d = 0 \/ exists q, d = tdesc q /\ R !! q = Some r').
  { destruct r as [|i|]; simpl in Hch; [| |done]; injection Hch as <-.
    - simpl in Hlive. subst p. by apply (wf_top _ _ _ Hwf).
    - destruct (wf_mid _ _ _ Hwf p i k d Hp Hk Hd) as [?|[?|?]]; [by left| |by right]. by destruct (Hns d Hd). }
  destruct Hcase as [->|(q & -> & Hq)].
  2: { destruct (tdesc_facts _ _ _ _ _ Hwf Hq) as (_ & -> & _ & Hne & _). rewrite (proj2 (Z.eqb_neq _ _)) by done.
       exists a, m, R, q. do 2 (split; [done|]). split; [apply grown_refl|]. do 2 (split; [done|]).
       split; [by apply supply_less|done]. }
  destruct (supply_ok a m n Hsup Hfm) as (a1 & m1 & q & Ha & Hsup' & Hfq & Hfree & Hz).
  destruct (Hfm q Hfq) as [Hok Hrdy].
  simpl (0 =? 0). cbv iota. rewrite Ha. cbn [obind]. destruct (ts_page q Hok) as [Hq4 Hq0].
  rewrite (proj2 (Z.eqb_neq q 0)) by done. cbn [negb]. change (to_desc (Z.lor q PMD_TYPE_TABLE)) with (tdesc q).
  pose proof (Hfu q Hfq) as HqR. pose proof (zeroed_tables m m1 R q) as Hsame.
  assert (Hm1 : m1 !! (p + 8 * k) = Some 0) by (by rewrite (Hsame p r k)).
  unfold stw. rewrite Hm1. cbn [obind]. set (R1 := <[q := r']> R). set (m2 := <[p + 8 * k := tdesc q]> m1).
  assert (Hr' : r' <> Root) by (intros ->; by destruct r).
  pose proof (zeroed_wf m m1 R q r' Hwf Hok HqR Hz Hr') as Hwf1. fold R1 in Hwf1.
  assert (Hp1 : R1 !! p = Some r) by (unfold R1; rewrite lookup_insert_ne; [done|intros ->; congruence]).
  assert (Hq1 : R1 !! q = Some r') by (apply lookup_insert_eq).
  assert (Hwf2 : wf m2 R1 root).
  { eapply store_wf; [exact Hwf1|exact Hp1|done|]. destruct r as [|i|]; simpl in Hch; [| |done]; injection Hch as <-.
    - right. by exists q. - right. right. by exists q. }
  assert (Hqw : forall l, 0 <= l < 512 -> m2 !! (q + 8 * l) = Some 0).
  { intros l Hl. unfold m2. rewrite lookup_insert_ne; [by apply Hz|]. intros E.
    destruct (page_word p q k l) as [-> _]; try done; [|congruence]. by apply (tdesc_facts _ _ _ _ _ Hwf Hp). }
  assert (Hkeep : forall p' s l, R !! p' = Some s -> 0 <= l < 512 -> p' + 8 * l <> p + 8 * k ->
            m2 !! (p' + 8 * l) = m !! (p' + 8 * l)).
  { intros p' s l Hp' Hl Hne. unfold m2. rewrite lookup_insert_ne by done. by apply (Hsame p' s). }
  assert (Hlive1 : live m1 p r).
  { destruct r as [|i|]; simpl in *; [done| |done]. destruct Hlive as [Hi Hc]. split; [done|]. unfold chain2.
    by rewrite (Hsame root Root i) by (done || apply Hwf). }
  assert (Hlive2 : live m2 p r).
  { destruct r as [|i|]; simpl in *; [done| |done]. destruct Hlive as [Hi Hc]. split; [done|]. unfold chain2.
    rewrite (Hkeep root Root i); [done|apply Hwf|done|]. intros E.
    destruct (other_word m R root root p Root (Mid i) i k) as [E2 _]; try done; [apply Hwf|].
    rewrite <- E2, (wf_root _ _ _ Hwf) in Hp. done. }
  pose proof (zeroed_dom m m1 q (ready_mapped _ _ Hrdy) Hz) as Hdom1.
  assert (Hto : tables_only R1 m m2).
  { apply (tables_only_trans R1 m m1 m2); [|eapply tables_only_store; [exact Hp1|done|exact Hm1]].
    split; [done|]. intros x Hx. apply Hz. intros l Hl. by apply (Hx q r'). }
  exists a1, m2, R1, q. split; [done|].
  destruct (fresh_table_inv a m R a1 m2 q r' Hinv Hfq (fun p' => proj1 (Hfree p')) Hwf2 Hto) as [Hi2 Hg2]. do 2 (split; [done|]).
  split; [apply lookup_insert_eq|]. split; [apply lookup_insert_eq|]. split; [done|]. split; [|done].
  intros x. transitivity (hw_walk m1 root x).
  - assert (Hrd : reads r k x \/ ~ reads r k x) by (destruct r; simpl; lia). destruct Hrd as [Hrd|Hrd].
    + apply (empty_table_walk m1 m2 R1 p r k q x); try done; [apply lookup_insert_eq|by rewrite Hq1].
    + by apply (store_frame m1 R1 root p r k).
  - apply (walk_frame m m1 R); [done|]. intros p' s l Hp' Hl _. by apply (Hsame p' s l).
Qed.

(** ** Mapping at the three levels *)

Definition no_section (m : wmem) (lo hi : Z) : Prop :=
  forall x, window W x -> lo <= x < hi -> forall d, hw_walk m root x <> LSect d.

(** The result of mapping [lo, hi) and what is left of the supply. *)
Definition map_result (a : A) (m : wmem) (R : gmap Z role) (a' : A) (m' : wmem) (R' : gmap Z role)
    (lo hi pa attr : Z) (rest : nat) : Prop :=
  pt_inv a' m' R' /\ grown a m R a' m' R' /\ mapped W root m m' lo hi pa attr /\ page_supply a' rest.

Lemma map_result_app a m R a1 m1 R1 a2 m2 R2 lo mid hi pa pa' attr n n' :
  lo <= mid <= hi -> pa' = pa + (mid - lo) ->
  map_result a m R a1 m1 R1 lo mid pa attr n -> map_result a1 m1 R1 a2 m2 R2 mid hi pa' attr n' ->
  map_result a m R a2 m2 R2 lo hi pa attr n'.
Proof.
  intros Hm Hpa (_ & G1 & M1 & _) (I2 & G2 & M2 & S2). split; [done|]. split; [by eapply grown_trans|].
  split; [by eapply mapped_app|done].
Qed.

Lemma no_section_rest m m' lo mid hi pa attr :
  lo <= mid -> no_section m lo hi -> mapped W root m m' lo mid pa attr -> no_section m' mid hi.
Proof. intros Hm Hn Hmap x Hx Hr d. rewrite (proj2 (Hmap x Hx)) by lia. apply Hn; [done|lia]. Qed.

(** The middle table [t] serves the gigabyte at [g]. *)
Definition at_giga (m : wmem) (R : gmap Z role) (t g : Z) : Prop :=
  R !! t = Some (Mid (ix1 g)) /\ chain2 m root t (ix1 g).

Lemma block_in_giga g v :
  g mod 0x40000000 = 0 -> g <= v < g + 0x40000000 -> 0 <= g ->
  let b := v / 0x200000 * 0x200000 in
  ix1 v = ix1 g /\ ix1 b = ix1 g /\ ix2 b = ix2 v /\ b mod 0x200000 = 0 /\ g <= b <= v /\
  b + 0x200000 <= g + 0x40000000.
Proof.
  intros Hg Hv Hpos b.
  assert (E : v / 0x40000000 = g / 0x40000000) by (Z.div_mod_to_equations; lia).
  assert (Hb : b mod 0x200000 = 0 /\ g <= b <= v /\ b + 0x200000 <= g + 0x40000000 /\ v < b + 0x200000).
  { unfold b. split; [apply Z.mod_mul; lia|]. Z.div_mod_to_equations. lia. }
  assert (E2 : b / 0x40000000 = g / 0x40000000) by (Z.div_mod_to_equations; lia).
  assert (E3 : b / 0x200000 = v / 0x200000) by (unfold b; apply Z.div_mul; lia).
  unfold ix1, ix2. rewrite E, E2, E3. tauto.
Qed.

Lemma giga_window W' g v :
  window W' g -> g mod 0x40000000 = 0 -> g <= v < g + 0x40000000 -> window W' v.
Proof. intros [HW Hg] Hm Hv. split; [done|]. Z.div_mod_to_equations. lia. Qed.

Lemma pte_map_ok a m R t g v e pa attr rest :
  pt_inv a m R -> at_giga m R t g -> window W g -> g mod 0x40000000 = 0 -> 0 <= W ->
  g + 0x40000000 < 2 ^ 64 - 2 ^ 30 ->
  g <= v -> v < e <= (v / 0x200000 + 1) * 0x200000 -> e <= g + 0x40000000 ->
  v mod 4096 = 0 -> e mod 4096 = 0 -> 0 <= pa -> pa mod 4096 = 0 -> pa + (e - v) < 2 ^ 64 ->
  no_section m v e -> page_supply a (S rest) ->
  exists a' m' R', pte_map_with a m (t + 8 * ix2 v) v e pa attr = Ok (a', m') /\
    map_result a m R a' m' R' v e pa attr rest /\ at_giga m' R' t g.
Proof.
  intros Hinv [Ht Hc] HWg Hg HW0 Htop Hgv Hve He Hv4 He4 Hpa Hpa4 Hpe Hns Hsup.
  assert (Hg0 : 0 <= g) by (destruct HWg as [_ ?]; lia).
  destruct (block_in_giga g v Hg ltac:(lia) Hg0) as (Ev & Eb & E2 & Hb & Hbv & Hbg).
  set (b := v / 0x200000 * 0x200000) in *. destruct (ix_range v) as (_ & I2 & _), (ix_range g) as (I1 & _ & _).
  assert (Hwv : window W v) by (apply (giga_window W g); done || lia).
  unfold pte_map_with.
  destruct (table_of_ok a m R t (Mid (ix1 g)) (ix2 v) (Last (ix1 g) (ix2 v)) rest)
    as (a1 & m1 & R1 & u & -> & Hinv1 & Hgr & Hu & Hslot & Hsup1 & Hwalk & Hkeep); try done.
  { intros d Hd E. apply (Hns v Hwv ltac:(lia) d).
    rewrite (walk_chain2 m R root t v) by (rewrite ?Ev; done || apply Hinv). unfold mid_walk. by rewrite Hd, E. }
  cbn [obind]. change PAGE_SHIFT with 12. change PTRS_PER_PTE with 512. rewrite index_of by lia.
  change (v / 2 ^ 12 mod 512) with (ix3 v). set (k := ix3 v).
  assert (Hk : v = b + 4096 * k /\ 0 <= k < 512).
  { unfold k, ix3, b. Z.div_mod_to_equations. lia. }
  set (n := Z.to_nat ((e - v) / 4096)).
  assert (Hn : e = b + 4096 * (k + Z.of_nat n) /\ k + Z.of_nat n <= 512).
  { unfold n. rewrite Z2Nat.id by (apply Z.div_pos; lia). Z.div_mod_to_equations. lia. }
  assert (Ht1 : R1 !! t = Some (Mid (ix1 g))) by (eapply lookup_weaken; [exact Ht|apply Hgr]).
  assert (Hc1 : chain2 m1 root t (ix1 g)).
  { unfold chain2. rewrite (Hkeep root Root); [done|apply Hinv|done|]. intros E.
    destruct (other_word m R root root t Root (Mid (ix1 g)) (ix1 g) (ix2 v)) as [E3 _]; try done; [apply Hinv|apply Hinv|].
    rewrite <- E3, (wf_root _ _ _ (pt_wf _ _ _ Hinv)) in Ht. done. }
  destruct (pte_loop_ok W root R1 t u b attr n LOOP_FUEL m1 k pa) as (m2 & Hm2 & Hwf2 & Hat2 & Hto2 & Hmap2).
  - apply Hinv1.
  - unfold at_block. rewrite Eb, E2. by split_and!.
  - apply (giga_window W g); done || lia.
  - done.
  - done.
  - lia.
  - lia.
  - lia.
  - unfold LOOP_FUEL, n. assert ((e - v) / 4096 <= 512) by (apply Z.div_le_upper_bound; lia). lia.
  - done.
  - done.
  - destruct Hn as [Hn _], Hk as [Hk _]. lia.
  - destruct Hk as [Hk _], Hn as [Hn _]. rewrite <- Hk, <- Hn in Hm2, Hmap2. rewrite Hm2. cbn [obind].
    exists a1, m2, R1. split; [done|]. split.
    + split; [by eapply pt_inv_mem|]. split; [eapply grown_trans; [exact Hgr|by apply grown_mem]|].
      split; [|done]. eapply mapped_same; [|exact Hmap2]. done.
    + destruct Hat2 as (_ & _ & Hc2 & _). rewrite Eb in Hc2. by split.
Qed.

(** A section entry. *)
Lemma sect_ok a m R t g v pa attr rest :
  pt_inv a m R -> at_giga m R t g -> window W g -> g mod 0x40000000 = 0 -> 0 <= W ->
  g <= v -> v + 0x200000 <= g + 0x40000000 -> v mod 0x200000 = 0 -> pa mod 0x200000 = 0 -> page_supply a rest ->
  exists m', stw m (t + 8 * ix2 v) (sect_desc pa attr) = Ok m' /\
    map_result a m R a m' R v (v + 0x200000) pa attr rest /\ at_giga m' R t g.
Proof.
  intros Hinv [Ht Hc] HWg Hg HW0 Hgv Hvg Hv Hpa2 Hsup. pose proof Hinv as [Hwf _ _].
  destruct (ix_range v) as (_ & I2 & _), (ix_range g) as (I1 & _ & _).
  destruct (wf_word m R root t _ (ix2 v) Hwf Ht I2) as [d Hd]. unfold stw. rewrite Hd.
  set (m' := <[t + 8 * ix2 v := sect_desc pa attr]> m). exists m'. split; [done|].
  assert (Hwf' : wf m' R root).
  { eapply store_wf; [done|exact Ht|done|]. right. left. apply sect_desc_type. }
  assert (Hto : tables_only R m m') by (eapply tables_only_store; [exact Ht|done|exact Hd]).
  assert (Hc' : chain2 m' root t (ix1 g)).
  { unfold chain2, m'. rewrite lookup_insert_ne; [done|]. intros E.
    destruct (other_word m R root t root (Mid (ix1 g)) Root (ix2 v) (ix1 g)) as [E3 _]; try done; [apply Hwf|].
    rewrite E3, (wf_root _ _ _ Hwf) in Ht. done. }
  split; [|by split]. split; [by eapply pt_inv_mem|]. split; [by apply grown_mem|]. split; [|done].
  assert (Hvk : v = g + 0x200000 * ix2 v).
  { unfold ix2. Z.div_mod_to_equations. lia. }
  intros x Hx. pose proof (same_mid W x g (ix2 v) Hx HWg Hg I2) as Hs.
  replace (g + 0x200000 * (ix2 v + 1)) with (v + 0x200000) in Hs by lia. rewrite <- Hvk in Hs. split; intros Hr.
  - apply Hs in Hr as [E1 E2]. rewrite (walk_chain2 m' R root t x) by (rewrite <- ?E1; done).
    unfold mid_walk. rewrite <- E2. unfold m'. rewrite lookup_insert_eq, sect_desc_type. simpl.
    assert (x mod 0x200000 = x - v) as ->.
    { unfold ix2, ix1 in *. destruct Hx, HWg. Z.div_mod_to_equations. lia. }
    replace (pa + (x - v) - (x - v)) with pa by lia. done.
  - eapply store_frame; [done|exact Ht|done|]. simpl. intros Hr2. apply Hr, Hs. tauto.
Qed.

Lemma supply_le a n k : (n <= k)%nat -> page_supply a k -> page_supply a n.
Proof. induction 1 as [|k Hk IH]; [done|]. intros Hs. apply IH. by apply supply_less. Qed.

(** The 2 MiB entries that [v, e) touches. *)
Definition blocks (v e : Z) : nat := Z.to_nat ((e - 1) / 0x200000 - v / 0x200000 + 1).

Lemma blocks_split v n e :
  0 <= v < n -> n < e -> n mod 0x200000 = 0 -> (blocks v e = blocks v n + blocks n e)%nat.
Proof.
  intros Hv Hn Hm. unfold blocks.
  assert ((n - 1) / 0x200000 = n / 0x200000 - 1) as -> by (Z.div_mod_to_equations; lia).
  assert (v / 0x200000 <= n / 0x200000 - 1) by (Z.div_mod_to_equations; lia).
  assert (n / 0x200000 <= (e - 1) / 0x200000) by (apply Z.div_le_mono; lia).
  rewrite <- Z2Nat.inj_add by lia. f_equal. lia.
Qed.

(** The tables of pages that a range can need: the blocks at its two ends when
    the two addresses agree modulo 2 MiB, and every block otherwise. *)
Definition need (v e pa : Z) : nat :=
  if decide ((v - pa) mod 0x200000 = 0)
  then (if decide (v mod 0x200000 = 0) then 0 else 1) + (if decide (e mod 0x200000 = 0) then 0 else 1)
  else blocks v e.

Lemma need_split v n e pa : 0 <= v < n -> n < e -> n mod 0x200000 = 0 ->
  (need v e pa = need v n pa + need n e (pa + (n - v)))%nat.
Proof.
  intros Hv Hn Hm. unfold need. replace (n - (pa + (n - v))) with (v - pa) by lia. rewrite Hm.
  destruct (decide ((v - pa) mod 0x200000 = 0)); [|by apply blocks_split].
  rewrite (decide_True _ _ eq_refl). lia.
Qed.

(** A block that is not a section takes one table. *)
Lemma need_page v n pa : 0 <= v < n -> n <= (v / 0x200000 + 1) * 0x200000 ->
  ~ (v mod 0x200000 = 0 /\ n mod 0x200000 = 0 /\ pa mod 0x200000 = 0) -> (1 <= need v n pa)%nat.
Proof.
  intros Hv Hn Hns. unfold need. destruct (decide ((v - pa) mod 0x200000 = 0)).
  - destruct (decide (v mod 0x200000 = 0)), (decide (n mod 0x200000 = 0)); try lia.
    exfalso. apply Hns. split_and!; try done. Z.div_mod_to_equations. lia.
  - unfold blocks. assert (v / 0x200000 <= (n - 1) / 0x200000) by (apply Z.div_le_mono; lia). lia.
Qed.

(** [n] entries of the middle table are enough for the range. *)
Lemma pmd_loop_ok t g e attr n : forall fuel a m R pmd v pa rest,
  pt_inv a m R -> at_giga m R t g -> window W g -> g mod 0x40000000 = 0 -> 0 <= W ->
  g + 0x40000000 < 2 ^ 64 - 2 ^ 30 -> g <= v <= e -> e <= g + 0x40000000 -> v mod 4096 = 0 -> e mod 4096 = 0 ->
  0 <= pa -> pa mod 4096 = 0 -> pa + (e - v) < 2 ^ 64 ->
  (v = e \/ (pmd = t + 8 * ix2 v /\ e <= (v / 0x200000 + Z.of_nat n) * 0x200000)) ->
  (n < fuel)%nat -> no_section m v e -> page_supply a (need v e pa + rest) ->
  exists a' m' R', pmd_loop fuel a m pmd v e pa attr = Ok (a', m') /\
    map_result a m R a' m' R' v e pa attr rest /\ at_giga m' R' t g.
Proof.
  induction n as [|n IH]; intros fuel a m R pmd v pa rest Hinv Hat HWg Hg HW0 Htop Hv He Hv4 He4 Hpa Hpa4 Hpe Hn Hf Hns Hsup;
    (destruct fuel as [|fuel]; [lia|]); cbn [pmd_loop].
  { assert (v = e) as -> by (destruct Hn as [|[_ Hn]]; [done|]; Z.div_mod_to_equations; lia).
    rewrite Z.eqb_refl. exists a, m, R. split; [done|]. split; [|done].
    split; [done|]. split; [apply grown_refl|]. split; [apply mapped_nil|]. eapply supply_le; [|exact Hsup]. lia. }
  destruct (Z.eqb_spec v e) as [->|Hne].
  { exists a, m, R. split; [done|]. split; [|done]. split; [done|]. split; [apply grown_refl|].
    split; [apply mapped_nil|]. eapply supply_le; [|exact Hsup]. lia. }
  destruct Hn as [|[-> Hn]]; [done|]. assert (Hgw := proj2 HWg).
  change PMD_SIZE with (2 ^ 21). change PMD_MASK with (not64 (2 ^ 21 - 1)). rewrite next_of_ok by lia.
  change (2 ^ 21) with 0x200000. set (next := Z.min ((v / 0x200000 + 1) * 0x200000) e).
  assert (Hnx : v < next <= e /\ next mod 4096 = 0 /\ next <= (v / 0x200000 + 1) * 0x200000).
  { unfold next. destruct (Z.min_spec ((v / 0x200000 + 1) * 0x200000) e) as [[? ->]|[? ->]];
      Z.div_mod_to_equations; lia. }
  assert (Hstep : exists a1 m1 R1,
    (if negb (Z.land (Z.lor (Z.lor v next) pa) (not64 SECTION_MASK) =? 0)
     then pte_map_with a m (t + 8 * ix2 v) v next pa attr
     else let! m := stw m (t + 8 * ix2 v) (sect_desc pa attr) in Ok (a, m)) = Ok (a1, m1) /\
    map_result a m R a1 m1 R1 v next pa attr
      ((if decide (next = e) then 0 else need next e (pa + (next - v))) + rest) /\ at_giga m1 R1 t g).
  { assert (Hsplit : (need v e pa = need v next pa + (if decide (next = e) then 0 else need next e (pa + (next - v))))%nat).
    { destruct (decide (next = e)) as [->|Hd]; [lia|]. apply need_split; [lia|lia|].
      assert (next = (v / 0x200000 + 1) * 0x200000) as -> by (unfold next in *; lia). apply Z.mod_mul. lia. }
    rewrite Hsplit in Hsup. destruct (Z.land _ _ =? 0) eqn:Es; cbn [negb].
    - apply section_test in Es as (Hsv & Hsn & Hsp).
      assert (Hnv : next = v + 0x200000) by (Z.div_mod_to_equations; lia).
      destruct (sect_ok a m R t g v pa attr ((if decide (next = e) then 0 else need next e (pa + (next - v))) + rest))
        as (m1 & -> & Hr & Ha1); try done; try lia.
      { eapply supply_le; [|exact Hsup]. lia. }
      cbn [obind]. exists a, m1, R. rewrite Hnv in *. done.
    - apply (pte_map_ok a m R t g v next pa attr); try done; try lia.
      + intros x Hx Hr. apply Hns; [done|lia].
      + eapply supply_le; [|exact Hsup]. assert (1 <= need v next pa)%nat; [|lia].
        apply need_page; [lia|lia|]. intros Hc. apply section_test in Hc. congruence. }
  destruct Hstep as (a1 & m1 & R1 & -> & Hr1 & Hat1). cbn [obind]. rewrite u64_id by lia.
  pose proof Hr1 as (Hi1 & _ & Hm1 & Hs1). destruct (decide (next = e)) as [E|Ene].
  { rewrite E in *. destruct fuel as [|fuel]; [lia|]. cbn [pmd_loop]. rewrite Z.eqb_refl. by exists a1, m1, R1. }
  destruct (IH fuel a1 m1 R1 (t + 8 * ix2 v + 8) next (pa + (next - v)) rest)
    as (a2 & m2 & R2 & -> & Hr2 & Hat2); try done; try lia.
  - Z.div_mod_to_equations; lia.
  - right.
    assert (Hb : next = (v / 0x200000 + 1) * 0x200000) by (unfold next in *; lia).
    assert (Hq : next / 0x200000 = v / 0x200000 + 1) by (rewrite Hb; apply Z.div_mul; lia).
    split; [|rewrite Hq; lia]. unfold ix2. rewrite Hq.
    assert ((v / 0x200000 + 1) mod 512 = v / 0x200000 mod 512 + 1); [|lia]. Z.div_mod_to_equations; lia.
  - eapply no_section_rest; [|exact Hns|exact Hm1]. lia.
  - exists a2, m2, R2. split; [done|]. split; [|done]. eapply map_result_app; [| |exact Hr1|exact Hr2]; lia.
Qed.

Lemma pmd_map_ok a m R g v e pa attr rest :
  pt_inv a m R -> window W g -> g mod 0x40000000 = 0 -> 0 <= W -> g + 0x40000000 < 2 ^ 64 - 2 ^ 30 ->
  g <= v < e -> e <= g + 0x40000000 -> v mod 4096 = 0 -> e mod 4096 = 0 ->
  0 <= pa -> pa mod 4096 = 0 -> pa + (e - v) < 2 ^ 64 -> no_section m v e -> page_supply a (S (need v e pa + rest)) ->
  exists a' m' R', pmd_map_with a m (root + 8 * ix1 g) v e pa attr = Ok (a', m') /\
    map_result a m R a' m' R' v e pa attr rest.
Proof.
  intros Hinv HWg Hg HW0 Htop Hv He Hv4 He4 Hpa Hpa4 Hpe Hns Hsup. pose proof Hinv as [Hwf _ _].
  destruct (ix_range g) as (I1 & _ & _). unfold pmd_map_with.
  destruct (table_of_ok a m R root Root (ix1 g) (Mid (ix1 g)) (need v e pa + rest))
    as (a1 & m1 & R1 & t & -> & Hinv1 & Hgr & Ht & Hslot & Hsup1 & Hwalk & _); try done; [apply Hwf| |].
  { intros d Hd E. destruct (wf_top _ _ _ Hwf _ _ I1 Hd) as [->|(t & -> & Ht)]; [done|].
    destruct (tdesc_facts _ _ _ _ _ Hwf Ht) as (E3 & _). rewrite E3 in E. done. }
  cbn [obind]. change PMD_SHIFT with 21. change PTRS_PER_PMD with 512. rewrite index_of by lia.
  change (v / 2 ^ 21 mod 512) with (ix2 v).
  assert (Hg0 : 0 <= g) by (destruct HWg as [_ ?]; lia).
  assert (Hbl : Z.of_nat (blocks v e) = (e - 1) / 0x200000 - v / 0x200000 + 1 /\ (blocks v e < LOOP_FUEL)%nat).
  { assert (Hq : 0 <= (e - 1) / 0x200000 - v / 0x200000 <= 512) by (Z.div_mod_to_equations; lia).
    unfold blocks, LOOP_FUEL. lia. }
  destruct Hbl as [Hbl Hfuel].
  destruct (pmd_loop_ok t g e attr (blocks v e) LOOP_FUEL a1 m1 R1 (t + 8 * ix2 v) v pa rest)
    as (a2 & m2 & R2 & Hres & (Hi2 & Hg2 & Hm2 & Hs2) & _); try done; try lia.
  - right. split; [done|]. rewrite Hbl. Z.div_mod_to_equations; lia.
  - intros x Hx Hr d. rewrite Hwalk. by apply Hns.
  - exists a2, m2, R2. split; [exact Hres|]. split; [done|]. split; [by eapply grown_trans|].
    split; [|done]. eapply mapped_same; [|exact Hm2]. done.
Qed.

(** The 1 GiB entries that [v, e) touches. *)
Definition gigas (v e : Z) : nat := Z.to_nat ((e - 1) / 0x40000000 - v / 0x40000000 + 1).

Lemma pgd_loop_ok e attr n : forall fuel a m R pgd v pa rest,
  pt_inv a m R -> W mod 0x8000000000 = 0 -> 0 <= W -> e < 2 ^ 64 - 2 ^ 31 ->
  W <= v <= e -> e <= W + 0x8000000000 -> v mod 4096 = 0 -> e mod 4096 = 0 ->
  0 <= pa -> pa mod 4096 = 0 -> pa + (e - v) < 2 ^ 64 ->
  (v = e \/ (pgd = root + 8 * ix1 v /\ e <= (v / 0x40000000 + Z.of_nat n) * 0x40000000)) ->
  (n < fuel)%nat -> no_section m v e -> page_supply a (n + (need v e pa + rest)) ->
  exists a' m' R', pgd_loop fuel a m pgd v e pa attr = Ok (a', m') /\ map_result a m R a' m' R' v e pa attr rest.
Proof.
  induction n as [|n IH]; intros fuel a m R pgd v pa rest Hinv HWm HW0 Htop Hv He Hv4 He4 Hpa Hpa4 Hpe Hn Hf Hns Hsup;
    (destruct fuel as [|fuel]; [lia|]); cbn [pgd_loop];
    (destruct (Z.eqb_spec v e) as [->|Hne];
     [exists a, m, R; split; [done|]; split; [done|]; split; [apply grown_refl|]; split; [apply mapped_nil|];
      eapply supply_le; [|exact Hsup]; lia|]);
    (destruct Hn as [|[-> Hn]]; [done|]); [Z.div_mod_to_equations; lia|].
  change PGDIR_SIZE with (2 ^ 30). change PGDIR_MASK with (not64 (2 ^ 30 - 1)). rewrite next_of_ok by lia.
  change (2 ^ 30) with 0x40000000. set (g := v / 0x40000000 * 0x40000000).
  set (next := Z.min ((v / 0x40000000 + 1) * 0x40000000) e).
  assert (Hg : g mod 0x40000000 = 0 /\ g <= v < g + 0x40000000 /\ ix1 g = ix1 v /\ window W g).
  { unfold g. split; [apply Z.mod_mul; lia|]. split; [Z.div_mod_to_equations; lia|].
    split; [unfold ix1; by rewrite Z.div_mul by lia|]. split; [done|]. Z.div_mod_to_equations. lia. }
  destruct Hg as (Hg & Hgv & Hig & HWg).
  assert (Hnx : v < next <= e /\ next mod 4096 = 0 /\ next <= g + 0x40000000 /\
            (next < e -> next = g + 0x40000000)).
  { unfold next, g. destruct (Z.min_spec ((v / 0x40000000 + 1) * 0x40000000) e) as [[? ->]|[? ->]];
      Z.div_mod_to_equations; lia. }
  destruct Hnx as (Hnx1 & Hnx2 & Hnx3 & Hnx4).
  assert (Hblk : (need v e pa = need v next pa + (if decide (next = e) then 0 else need next e (pa + (next - v))))%nat).
  { destruct (decide (next = e)) as [->|Hd]; [lia|]. apply need_split; [lia|lia|].
    rewrite Hnx4 by lia. Z.div_mod_to_equations. lia. }
  destruct (pmd_map_ok a m R g v next pa attr (n + ((if decide (next = e) then 0 else need next e (pa + (next - v))) + rest)))
    as (a1 & m1 & R1 & Hpm & Hr1); try done; try lia.
  { intros x Hx Hr. apply Hns; [done|lia]. }
  { eapply supply_le; [|exact Hsup]. lia. }
  rewrite <- Hig, Hpm. cbn [obind]. rewrite u64_id by lia. pose proof Hr1 as (Hi1 & _ & Hm1 & Hs1).
  destruct (decide (next = e)) as [E|Ene].
  - rewrite E in *. destruct fuel as [|fuel]; [lia|]. cbn [pgd_loop]. rewrite Z.eqb_refl.
    exists a1, m1, R1. split; [done|]. destruct Hr1 as (? & ? & ? & ?). split_and!; try done.
    eapply supply_le; [|exact Hs1]. lia.
  - destruct (IH fuel a1 m1 R1 (root + 8 * ix1 g + 8) next (pa + (next - v)) rest)
      as (a2 & m2 & R2 & -> & Hr2); try done; try lia.
    + Z.div_mod_to_equations; lia.
    + right. rewrite Hig.
      assert (Hq : next / 0x40000000 = v / 0x40000000 + 1) by (rewrite Hnx4 by lia; unfold g; Z.div_mod_to_equations; lia).
      split; [|rewrite Hq; lia]. unfold ix1. rewrite Hq.
      assert ((v / 0x40000000 + 1) mod 512 = v / 0x40000000 mod 512 + 1); [|lia]. Z.div_mod_to_equations; lia.
    + eapply no_section_rest; [|exact Hns|exact Hm1]. lia.
    + exists a2, m2, R2. split; [done|]. eapply map_result_app; [| |exact Hr1|exact Hr2]; lia.
Qed.

(** ** The whole call *)

Lemma align_page x : 0 <= x < 2 ^ 64 - 2 ^ 13 -> ALIGN x PAGE_SIZE = (x + 4095) / 4096 * 4096.
Proof.
  intros Hx. unfold ALIGN, PAGE_SIZE. rewrite (u64_id (x + 4096)) by lia.
  rewrite (u64_id (x + 4096 - 1)) by lia. replace (x + 4096 - 1) with (x + 4095) by lia.
  apply u64_id. Z.div_mod_to_equations. lia.
Qed.

(** The supply that any request is content with. *)
Definition pages_needed (v e pa : Z) : nat := gigas v e + need v e pa.

Lemma pt_map_with_ok a m R v pa size attr rest :
  pt_inv a m R -> W mod 0x8000000000 = 0 -> 0 <= W ->
  let e := (v + size + 4095) / 4096 * 4096 in
  0 < size -> W <= v -> e <= W + 0x8000000000 -> e < 2 ^ 64 - 2 ^ 31 ->
  v mod 4096 = 0 -> 0 <= pa -> pa mod 4096 = 0 -> pa + size + 4096 < 2 ^ 64 ->
  no_section m v e -> page_supply a (pages_needed v e pa + rest) ->
  exists a' m' R', pt_map_with a m root v pa size attr = Ok (a', m', 0) /\ map_result a m R a' m' R' v e pa attr rest.
Proof.
  intros Hinv HWm HW0 e Hs Hv HeW Htop Hv4 Hpa Hpa4 Hps Hns Hsup. unfold pt_map_with.
  destruct (tdesc_facts _ _ _ _ _ (pt_wf _ _ _ Hinv) (wf_root _ _ _ (pt_wf _ _ _ Hinv))) as (_ & _ & _ & _ & _ & Hr0).
  assert (He : v + size <= e < v + size + 4096 /\ e mod 4096 = 0).
  { unfold e. split; [Z.div_mod_to_equations; lia|apply Z.mod_mul; lia]. }
  rewrite (proj2 (Z.eqb_neq root 0)) by done. cbn [negb]. change PAGE_SHIFT with 12.
  rewrite !low_bits by lia. change (2 ^ 12) with 4096. rewrite Hv4, Hpa4. change (0 =? 0) with true. cbv iota.
  rewrite (proj2 (Z.eqb_neq size 0)) by lia. cbn [negb]. change (Z.shiftl 1 VA_BITS) with 0x8000000000.
  rewrite (proj2 (Z.leb_le size _)) by lia.
  rewrite (u64_id (v + size)) by lia. rewrite align_page by lia. fold e.
  change PTRS_PER_PGD with 512. change PGDIR_SHIFT with 30. rewrite index_of by lia.
  change (v / 2 ^ 30 mod 512) with (ix1 v).
  assert (Hgi : Z.of_nat (gigas v e) = (e - 1) / 0x40000000 - v / 0x40000000 + 1 /\ (gigas v e < LOOP_FUEL)%nat).
  { assert (Hq : 0 <= (e - 1) / 0x40000000 - v / 0x40000000 <= 512) by (Z.div_mod_to_equations; lia).
    unfold gigas, LOOP_FUEL. lia. }
  destruct Hgi as [Hgi Hfuel].
  destruct (pgd_loop_ok e attr (gigas v e) LOOP_FUEL a m R (root + 8 * ix1 v) v pa rest)
    as (a' & m' & R' & -> & Hr); try done; try lia.
  - right. split; [done|]. rewrite Hgi. Z.div_mod_to_equations; lia.
  - eapply supply_le; [|exact Hsup]. unfold pages_needed. lia.
  - cbn [obind]. by exists a', m', R'.
Qed.
End Descend.

(** ** What the hardware makes of the descriptors *)

Definition attr_ok (attr : Z) : Prop := 0 <= attr < 2 ^ 64 /\ Z.land attr HW_ADDR_MASK = 0.

Lemma hw_mask_bit i : 0 <= i -> Z.testbit HW_ADDR_MASK i = (12 <=? i) && (i <? 48).
Proof.
  intros. change HW_ADDR_MASK with (Z.shiftl (Z.ones 36) 12).
  rewrite Z.shiftl_spec, Z.testbit_ones by lia. repeat (decide_cmp; try lia); done.
Qed.

Lemma sect_mask_bit i : 0 <= i -> Z.testbit 0xffffffe00000 i = (21 <=? i) && (i <? 48).
Proof.
  intros. change 0xffffffe00000 with (Z.shiftl (Z.ones 27) 21).
  rewrite Z.shiftl_spec, Z.testbit_ones by lia. repeat (decide_cmp; try lia); done.
Qed.

Lemma attr_bit attr i : attr_ok attr -> 12 <= i < 48 -> Z.testbit attr i = false.
Proof.
  intros [_ Ha] Hi. assert (E : Z.testbit (Z.land attr HW_ADDR_MASK) i = false) by (rewrite Ha; apply Z.bits_0).
  rewrite Z.land_spec, hw_mask_bit in E by lia. revert E. decide_cmp; try lia. simpl. by rewrite andb_true_r.
Qed.

Lemma aligned_bit p s i : 0 <= p < 2 ^ 48 -> 0 <= s -> p mod 2 ^ s = 0 -> (i < s \/ 48 <= i) -> Z.testbit p i = false.
Proof.
  intros Hp Hs Hm Hi. destruct (Z.lt_ge_cases i 0); [by apply Z.testbit_neg_r|].
  destruct Hi as [Hi|Hi]; [|by apply (testbit_high 48); lia].
  rewrite <- (Z.mod_pow2_bits_low p s i) by lia. rewrite Hm. apply Z.bits_0.
Qed.

Lemma unshift p s : 0 <= s -> p mod 2 ^ s = 0 -> Z.shiftl (Z.shiftr p s) s = p.
Proof.
  intros Hs Hm. rewrite Z.shiftr_div_pow2, Z.shiftl_mul_pow2 by lia.
  pose proof (Z.div_mod p (2 ^ s)). pose proof (pow2_pos s Hs). lia.
Qed.

Lemma bit3 i : 0 <= i -> Z.testbit 3 i = (i <? 2).
Proof. intros. change 3 with (Z.ones 2). rewrite Z.testbit_ones by lia. by decide_cmp. Qed.

Lemma page_desc_fields p attr :
  attr_ok attr -> 0 <= p < 2 ^ 48 -> p mod 4096 = 0 ->
  Z.land (page_desc p attr) HW_ADDR_MASK = p /\ Z.ldiff (Z.ldiff (page_desc p attr) HW_ADDR_MASK) 3 = Z.ldiff attr 3.
Proof.
  intros Ha Hp Hm. unfold page_desc, PAGE_SHIFT, PTE_TYPE_PAGE. rewrite unshift by (done || lia).
  split; apply Z.bits_inj'; intros i Hi;
    rewrite ?Z.land_spec, ?Z.ldiff_spec, ?Z.lor_spec, hw_mask_bit, ?bit3 by lia;
    destruct (Z.le_gt_cases 12 i) as [H1|H1], (Z.lt_ge_cases i 48) as [H2|H2];
    rewrite ?(aligned_bit p 12 i) by (done || lia); rewrite ?(attr_bit attr i) by (done || lia);
    repeat (decide_cmp; try lia); rewrite ?orb_false_r, ?andb_true_r, ?andb_false_r, ?orb_true_r; done.
Qed.

Lemma sect_desc_fields p attr :
  attr_ok attr -> 0 <= p < 2 ^ 48 -> p mod 0x200000 = 0 ->
  Z.land (sect_desc p attr) 0xffffffe00000 = p /\
  Z.ldiff (Z.ldiff (sect_desc p attr) 0xffffffe00000) 3 = Z.ldiff attr 3.
Proof.
  intros Ha Hp Hm. unfold sect_desc, PMD_SHIFT, PMD_TYPE_SECT. rewrite unshift by (done || lia).
  assert (H1b : forall i, 0 <= i -> Z.testbit 1 i = (i =? 0)).
  { intros i Hi. change 1 with (2 ^ 0). rewrite Z.pow2_bits_eqb by lia. apply Z.eqb_sym. }
  assert (Hn : forall i, 0 <= i -> Z.testbit (not64 PTE_TABLE_BIT) i = (i <? 64) && negb (i =? 1)).
  { intros i Hi. unfold not64, PTE_TABLE_BIT. change 2 with (2 ^ 1).
    rewrite Z.ldiff_spec, Z.testbit_ones, Z.pow2_bits_eqb, (Z.eqb_sym 1 i) by lia. by decide_cmp. }
  destruct Ha as [Hr Ha0]. assert (Ha : attr_ok attr) by done.
  split; apply Z.bits_inj'; intros i Hi;
    rewrite ?Z.land_spec, ?Z.ldiff_spec, ?Z.lor_spec, ?Z.land_spec, sect_mask_bit, ?bit3, Hn, H1b by lia;
    (destruct (Z.lt_ge_cases i 21) as [H1|H1]; [rewrite (aligned_bit p 21 i) by (done || lia)|]);
    (destruct (Z.lt_ge_cases i 48) as [H2|H2]; [|rewrite ?(aligned_bit p 21 i) by (done || lia)]);
    (destruct (Z.le_gt_cases 12 i) as [H3|H3]; [try rewrite (attr_bit attr i) by (done || lia)|]);
    (destruct (Z.lt_ge_cases i 64) as [H4|H4]; [|rewrite ?(testbit_high 64 attr i) by lia]);
    repeat (decide_cmp; try lia); simpl;
    rewrite ?orb_false_r, ?andb_true_r, ?andb_false_r, ?orb_true_r; done.
Qed.

Lemma maps_translate l x pa attr :
  maps l x pa attr -> attr_ok attr -> 0 <= pa < 2 ^ 48 ->
  exists at_, translate x l = Some (pa, at_) /\ Z.ldiff at_ 3 = Z.ldiff attr 3.
Proof.
  intros Hm Ha Hpa. destruct l as [|d|d]; simpl in *; [done|..]; destruct Hm as [-> Hm].
  - pose proof (Z.mod_pos_bound x 0x200000 ltac:(lia)).
    destruct (sect_desc_fields (pa - x mod 0x200000) attr Ha) as [-> H3]; [Z.div_mod_to_equations; lia|done|].
    eexists. split; [|exact H3]. f_equal. f_equal. lia.
  - pose proof (Z.mod_pos_bound x 0x1000 ltac:(lia)).
    destruct (page_desc_fields (pa - x mod 0x1000) attr Ha) as [-> H3]; [Z.div_mod_to_equations; lia|done|].
    eexists. split; [|exact H3]. f_equal. f_equal. lia.
Qed.

(** ** The instances satisfy the laws *)

Lemma lor3 p : p mod 4096 = 0 -> Z.lor p 3 = p + 3.
Proof.
  intros Hp. symmetry. rewrite <- Z.lxor_lor; [apply Z.add_nocarry_lxor|];
    (apply Z.bits_inj'; intros i Hi; rewrite Z.land_spec, bit3, Z.bits_0 by lia;
     destruct (Z.ltb_spec i 2); [|apply andb_false_r];
     rewrite <- (Z.mod_pow2_bits_low p 12 i) by lia; change (2 ^ 12) with 4096; by rewrite Hp, Z.bits_0).
Qed.

Lemma table_desc q : q mod 4096 = 0 -> 0 <= q < 2 ^ 48 ->
  Z.land (q + 3) 3 = 3 /\ Z.land (q + 3) PTE_ADDR_MASK = q /\ Z.land (q + 3) HW_ADDR_MASK = q.
Proof.
  intros Hq Hb. rewrite <- lor3 by done.
  assert (Hl : forall i, 0 <= i < 12 -> Z.testbit q i = false).
  { intros i Hi. apply (aligned_bit q 12 i); done || lia. }
  split_and!; apply Z.bits_inj'; intros i Hi; rewrite Z.land_spec, Z.lor_spec, bit3 by lia.
  - destruct (Z.ltb_spec i 2); by rewrite ?orb_true_r, ?andb_false_r.
  - unfold PTE_ADDR_MASK, not64, PAGE_SIZE. change (4096 - 1) with (Z.ones 12).
    rewrite Z.ldiff_spec, !Z.testbit_ones by lia. destruct (Z.lt_ge_cases i 12).
    + rewrite Hl by lia. decide_cmp; try lia; by rewrite ?andb_false_r.
    + destruct (Z.lt_ge_cases i 64); [|rewrite (testbit_high 48 q i) by lia]; repeat (decide_cmp; try lia);
        by rewrite ?orb_false_r, ?andb_true_r.
  - rewrite hw_mask_bit by lia. destruct (Z.lt_ge_cases i 12); [rewrite Hl by lia|];
      destruct (Z.lt_ge_cases i 48); try rewrite (testbit_high 48 q i) by lia; repeat (decide_cmp; try lia);
        by rewrite ?orb_false_r, ?andb_true_r, ?andb_false_r.
Qed.

#[export] Instance kernel_space_laws : TableSpaceLaws (H := kernel_space).
Proof.
  constructor; cbn; intros p [Hp Hr]; unfold RAM_VBASE, RAM_SIZE in Hr; [lia|].
  rewrite lor3 by done. assert (Hr2 : p + 3 < RAM_VBASE + RAM_SIZE).
  { unfold RAM_VBASE, RAM_SIZE. Z.div_mod_to_equations. lia. }
  rewrite vbase_ram by (unfold RAM_VBASE, RAM_SIZE in *; lia).
  set (q := p - RAM_VBASE + RAM_PBASE).
  assert (Hq : q mod 4096 = 0 /\ RAM_PBASE <= q < RAM_PBASE + RAM_SIZE).
  { unfold q, RAM_VBASE, RAM_PBASE, RAM_SIZE. Z.div_mod_to_equations. lia. }
  replace (p + 3 - RAM_VBASE + RAM_PBASE) with (q + 3) by (unfold q; lia).
  destruct (table_desc q) as (-> & -> & ->); [tauto|unfold RAM_PBASE, RAM_SIZE in *; lia|].
  rewrite pbase_ram by tauto. unfold q. split; [done|]. split; lia.
Qed.

#[export] Instance idmap_space_laws : TableSpaceLaws (H := idmap_space).
Proof.
  constructor; cbn; intros p [Hp Hr]; unfold RAM_PBASE, RAM_SIZE in Hr; [lia|].
  rewrite lor3 by done. by destruct (table_desc p) as (-> & -> & ->); [done|lia|].
Qed.
