(* ===== verification/AddrSpace.v ===== *)
(** * Address spaces (os/core/mm/addrspace.c)

    [as_map] and [region_map] put regions into a page table, taking the tables
    from the kernel heap; [as_initialize] builds the kernel's own table.  The
    file shows that the heap is a page source in the sense of [PageTable], and
    states what the hardware sees afterwards: addresses and permissions. *)

From Stdlib Require Import ZArith Lia Bool.
From stdpp Require Import base numbers list gmap.
From S2P Require Import Prelude Board Gran PageTable.

(** ** Pages from the heap *)

Fixpoint zero_words (n : nat) (m : wmem) (p : Z) : outcome wmem :=
  match n with
  | O => Ok m
  | S n => let! m := stw m p 0 in zero_words n m (p + 8)
  end.

(** [k_memset] on the new page, word by word; a [NULL] page is not mapped. *)
Definition pt_calloc (g : mm_gran) (m : wmem) (size : Z) : outcome (mm_gran * wmem * Z) :=
  let! (g, v_page) := gran_alloc g size in
  let! m := zero_words (Z.to_nat (size / 8)) m v_page in
  Ok (g, m, v_page).

#[export] Instance heap_source : PageSource mm_gran := {|
  pt_alloc := pt_calloc;
  free_page g p := exists i, 0 <= i < ngranules g /\ granule g i = false /\ p = granaddr g i;
  page_ready m p := mapped_page m p;
  page_supply g n := gran_wf g /\ log2gran g = 12 /\
    exists l, NoDup l /\ length l = n /\ Forall (fun i => 0 <= i < ngranules g /\ granule g i = false) l
|}.

Lemma zero_words_ok n : forall m p,
  (forall k, 0 <= k < Z.of_nat n -> is_Some (m !! (p + 8 * k))) ->
  exists m', zero_words n m p = Ok m' /\
    (forall k, 0 <= k < Z.of_nat n -> m' !! (p + 8 * k) = Some 0) /\
    (forall x, (forall k, 0 <= k < Z.of_nat n -> x <> p + 8 * k) -> m' !! x = m !! x).
Proof.
  induction n as [|n IH]; intros m p Hm; cbn [zero_words].
  { exists m. split; [done|]. split; [lia|done]. }
  destruct (Hm 0) as [d Hd]; [lia|]. rewrite Z.add_0_r in Hd. unfold stw. rewrite Hd. cbn [obind].
  destruct (IH (<[p := 0]> m) (p + 8)) as (m' & -> & Hz & Hs).
  { intros k Hk. rewrite lookup_insert_ne by lia. replace (p + 8 + 8 * k) with (p + 8 * (k + 1)) by lia. apply Hm. lia. }
  exists m'. split; [done|]. split.
  - intros k Hk. destruct (decide (k = 0)) as [->|].
    + rewrite Hs by lia. rewrite Z.add_0_r. apply lookup_insert_eq.
    + replace (p + 8 * k) with (p + 8 + 8 * (k - 1)) by lia. apply Hz. lia.
  - intros x Hx. rewrite Hs.
    + apply lookup_insert_ne. intros ->. apply (Hx 0); lia.
    + intros k Hk ->. apply (Hx (k + 1)); lia.
Qed.

Lemma granaddr_inj g i j : granaddr g i = granaddr g j -> 0 <= log2gran g -> i = j.
Proof. unfold granaddr. intros E Hl. pose proof (pow2_pos _ Hl). nia. Qed.

(** One page of a heap with 4 KiB granules. *)
Lemma page_alloc_ok g : gran_wf g -> log2gran g = 12 -> (exists i, 0 <= i < ngranules g /\ granule g i = false) ->
  exists i t', gran_alloc g 4096 = Ok (set_gat g t', granaddr g i) /\ 0 <= i < ngranules g /\ granule g i = false /\
    gran_wf (set_gat g t') /\ forall j, 0 <= j -> granule (set_gat g t') j = (j =? i) || granule g j.
Proof.
  intros W H12 (i0 & Hi0 & Hf0). assert (Hn : granules_of g 4096 = 1) by (unfold granules_of; by rewrite H12).
  destruct (gran_alloc_cases g 4096 W) as [(i & t' & He & Hf & _ & Hu)|[_ Hno]].
  - rewrite H12. lia.
  - rewrite Hn in *. destruct Hf as (Hi & Hend & Hfree).
    exists i, t'. split; [done|]. split; [lia|]. split; [apply Hfree; lia|]. split; [by eapply wf_set_gat|].
    intros j Hj. destruct Hu as (_ & _ & Hu). unfold granule at 1. cbn [gat set_gat]. rewrite (Hu j Hj).
    destruct (Z.eqb_spec j i) as [->|]; repeat (decide_cmp; try lia); done.
  - exfalso. apply (Hno i0). rewrite Hn. split; [lia|]. split; [lia|]. intros j Hj.
    by replace j with i0 by lia.
Qed.

#[export] Instance heap_source_laws `{TableSpace} : PageSourceLaws mm_gran.
Proof.
  constructor; cbn.
  - intros g n (W & H12 & l & Hnd & Hl & Hfr). split; [done|]. split; [done|]. destruct l as [|x l]; [done|].
    exists l. apply NoDup_cons in Hnd as [_ Hnd]. apply Forall_cons in Hfr as [_ Hfr]. simpl in Hl. split_and!; done || lia.
  - done.
  - intros m m' p Hp Hs k Hk. rewrite Hs by done. by apply Hp.
  - intros g m n (W & H12 & l & Hnd & Hl & Hfr) Hready.
    destruct (page_alloc_ok g W H12) as (i & t' & Ha & Hi & Hf & W' & Hbits).
    { destruct l as [|x l]; [done|]. apply Forall_cons in Hfr as [Hx _]. by exists x. }
    assert (Hfp : exists j, 0 <= j < ngranules g /\ granule g j = false /\ granaddr g i = granaddr g j) by (by exists i).
    destruct (Hready _ Hfp) as [_ Hmp].
    unfold pt_calloc, PAGE_SIZE. rewrite Ha. cbn [obind].
    destruct (zero_words_ok (Z.to_nat (4096 / 8)) m (granaddr g i)) as (m' & -> & Hz & Hs); [exact Hmp|].
    cbn [obind]. eexists _, m', _. split; [done|]. split; [|split; [done|split; [|by split]]].
    + split; [done|]. split; [done|]. destruct (nodup_drop l i n Hnd Hl) as (l' & Hnd' & Hl' & Hi' & Hsub).
      exists l'. split; [done|]. split; [done|]. apply Forall_forall. intros j Hj. rewrite Forall_forall in Hfr.
      destruct (Hfr j (Hsub j Hj)) as [Hjr Hjf]. split; [done|]. rewrite Hbits by lia. rewrite Hjf.
      rewrite (proj2 (Z.eqb_neq j i)); [done|]. intros ->. done.
    + intros q. split.
      * intros (j & Hj & Hjf & ->). cbn in Hj. rewrite Hbits in Hjf by lia. apply orb_false_iff in Hjf as [Hne Hjf].
        apply Z.eqb_neq in Hne. split; [by exists j|]. intros E. apply Hne. apply (granaddr_inj g); [done|lia].
      * intros [(j & Hj & Hjf & ->) Hne]. exists j. split; [done|]. split; [|done]. rewrite Hbits by lia.
        rewrite Hjf, (proj2 (Z.eqb_neq j i)); [done|]. intros ->. done.
Qed.

(** ** Permissions (pgtable-hwdef.h, pgtable-prot.h) *)

Definition PTE_USER : Z := Z.shiftl 1 6.
Definition PTE_RDONLY : Z := Z.shiftl 1 7.
Definition PTE_SHARED : Z := Z.shiftl 3 8.
Definition PTE_AF : Z := Z.shiftl 1 10.
Definition PTE_NG : Z := Z.shiftl 1 11.
Definition PTE_WRITE : Z := Z.shiftl 1 51.
Definition PTE_PXN : Z := Z.shiftl 1 53.
Definition PTE_UXN : Z := Z.shiftl 1 54.
Definition PTE_ATTRINDX (t : Z) : Z := Z.shiftl t 2.
Definition MT_DEVICE_nGnRE : Z := 1.
Definition MT_NORMAL : Z := 4.

Definition PROT_DEFAULT : Z := Z.lor (Z.lor (Z.lor PTE_TYPE_PAGE PTE_AF) PTE_SHARED) PTE_NG.
Definition PROT_SECT_DEFAULT : Z := Z.lor (Z.lor (Z.lor PMD_TYPE_SECT PTE_AF) PTE_SHARED) PTE_NG.
Definition PROT_NORMAL : Z :=
  Z.lor (Z.lor (Z.lor (Z.lor PROT_DEFAULT PTE_PXN) PTE_UXN) PTE_WRITE) (PTE_ATTRINDX MT_NORMAL).
Definition PAGE_KERNEL : Z := PROT_NORMAL.
Definition PAGE_KERNEL_RO : Z := Z.lor (Z.land PROT_NORMAL (not64 PTE_WRITE)) PTE_RDONLY.
Definition PAGE_KERNEL_ROX : Z :=
  Z.lor (Z.land PROT_NORMAL (not64 (Z.lor PTE_WRITE PTE_PXN))) PTE_RDONLY.
Definition PAGE_KERNEL_EXEC : Z := Z.land PROT_NORMAL (not64 PTE_PXN).
Definition PROT_SECT_DEVICE_nGnRE : Z :=
  Z.lor (Z.lor (Z.lor PROT_SECT_DEFAULT PTE_PXN) PTE_UXN) (PTE_ATTRINDX MT_DEVICE_nGnRE).

Definition PROT_READ : Z := 1.
Definition PROT_WRITE : Z := 2.
Definition PROT_EXEC : Z := 4.

(** ** Mapping regions *)

Record mem_region : Type := MkRegion { pbase : Z; vbase : Z; rsize : Z }.

Inductive RAM_TYPE_e : Type := RAM_NORMAL | RAM_DEVICE.

Record image_region : Type := MkImage {
  code : mem_region; rodata : mem_region; data : mem_region; bss : mem_region
}.

(** Heap and memory thread through every call; [pg] is the table's address. *)
Definition region_map (g : mm_gran) (m : wmem) (pg : Z) (r : mem_region) (prot : Z) : outcome (mm_gran * wmem * Z) :=
  pt_map g m pg (vbase r) (pbase r) (rsize r) prot.

Definition as_attr (prot : Z) (type : RAM_TYPE_e) : Z :=
  let attr := Z.lor (Z.lor (Z.lor (Z.lor PROT_DEFAULT PTE_USER) PTE_WRITE) PTE_PXN) PTE_UXN in
  let attr := if negb (Z.land prot PROT_READ =? 0) then Z.lor attr PTE_RDONLY else attr in
  let attr := if negb (Z.land prot PROT_EXEC =? 0) then Z.land attr (not64 PTE_UXN) else attr in
  let attr := if negb (Z.land prot PROT_WRITE =? 0) then Z.land attr (not64 PTE_RDONLY) else attr in
  match type with
  | RAM_NORMAL => Z.lor attr (PTE_ATTRINDX MT_NORMAL)
  | RAM_DEVICE => Z.lor attr (PTE_ATTRINDX MT_DEVICE_nGnRE)
  end.

Definition as_map (g : mm_gran) (m : wmem) (as_ : Z) (r : mem_region) (prot : Z) (type : RAM_TYPE_e)
    : outcome (mm_gran * wmem * Z) :=
  pt_map g m as_ (vbase r) (pbase r) (rsize r) (as_attr prot type).

(** ** The kernel's address space *)

Definition kernel_as_image_mapping (g : mm_gran) (m : wmem) (pg : Z) (image : image_region)
    : outcome (mm_gran * wmem * Z) :=
  let! (g, m, _) := region_map g m pg (code image) PAGE_KERNEL_ROX in
  let! (g, m, _) := region_map g m pg (rodata image) PAGE_KERNEL_RO in
  let! (g, m, _) := region_map g m pg (data image) PAGE_KERNEL in
  region_map g m pg (bss image) PAGE_KERNEL.

(** The table of device regions ends with an entry of size 0. *)
Fixpoint kernel_as_dev_mapping (g : mm_gran) (m : wmem) (pg : Z) (rs : list mem_region) : outcome (mm_gran * wmem) :=
  match rs with
  | [] => Fault
  | r :: rs =>
      if rsize r =? 0 then Ok (g, m)
      else
        let! (g, m, _) := region_map g m pg r PROT_SECT_DEVICE_nGnRE in
        kernel_as_dev_mapping g m pg rs
  end.

Definition kernel_as_ram_mapping (g : mm_gran) (m : wmem) (pg : Z) (r : mem_region) : outcome (mm_gran * wmem * Z) :=
  region_map g m pg r PAGE_KERNEL.

(** The value loaded into [TTBR1_EL1]. *)
Definition kernel_as_switch (pg : Z) : Z := vbase_to_pbase pg.

Definition as_initialize (g : mm_gran) (m : wmem) (pg : Z) (image : image_region)
    (user_elf_region kernel_heap_region : mem_region) (kernel_dev_ram : list mem_region)
    : outcome (mm_gran * wmem * Z) :=
  let! (g, m, _) := kernel_as_image_mapping g m pg image in
  let! (g, m, _) := kernel_as_ram_mapping g m pg user_elf_region in
  let! (g, m, _) := kernel_as_ram_mapping g m pg kernel_heap_region in
  let! (g, m) := kernel_as_dev_mapping g m pg kernel_dev_ram in
  Ok (g, m, kernel_as_switch pg).

(** ** What the hardware sees of a region *)

Definition region_end (r : mem_region) : Z := (vbase r + rsize r + 4095) / 4096 * 4096.

Definition in_region (r : mem_region) (x : Z) : Prop := vbase r <= x < region_end r.

(** A request that the assertions of [pt_map] accept and that stays inside the
    window [W] and the physical address space. *)
Record region_ok (W : Z) (r : mem_region) : Prop := {
  ro_size : 0 < rsize r;
  ro_low : W <= vbase r;
  ro_high : region_end r <= W + 0x8000000000 /\ region_end r < 2 ^ 64 - 2 ^ 31;
  ro_valign : vbase r mod 4096 = 0;
  ro_phys : 0 <= pbase r /\ pbase r + (region_end r - vbase r) <= 2 ^ 48;
  ro_palign : pbase r mod 4096 = 0
}.

(** The window of user space and that of the kernel. *)
Definition window_ok (W : Z) : Prop := 0 <= W /\ W mod 0x8000000000 = 0.

(** Every address of [r] translates, with the attributes [attr] up to the
    descriptor type. *)
Definition sees `{TableSpace} (m : wmem) (root : Z) (r : mem_region) (attr : Z) : Prop :=
  forall x, in_region r x -> exists at_,
    translate x (hw_walk m root x) = Some (pbase r + (x - vbase r), at_) /\ Z.ldiff at_ 3 = Z.ldiff attr 3.

Section Regions.
Context `{TableSpace} {TL : TableSpaceLaws} {A : Type} `{PageSource A} {PL : PageSourceLaws A}.
Variables (W root : Z).
Hypothesis HW : window_ok W.

Lemma region_window r x : region_ok W r -> in_region r x -> window W x.
Proof. intros [_ Hl [Hh _] _ _ _] [Hx1 Hx2]. destruct HW. split; [done|]. lia. Qed.

Lemma region_map_ok a m R r attr rest :
  pt_inv root a m R -> region_ok W r -> attr_ok attr -> no_section W root m (vbase r) (region_end r) ->
  page_supply a (pages_needed (vbase r) (region_end r) (pbase r) + rest) ->
  exists a' m' R', pt_map_with a m root (vbase r) (pbase r) (rsize r) attr = Ok (a', m', 0) /\
    pt_inv root a' m' R' /\ grown a m R a' m' R' /\ page_supply a' rest /\ sees m' root r attr /\
    (forall x, window W x -> ~ in_region r x -> hw_walk m' root x = hw_walk m root x).
Proof.
  intros Hinv Hro Hat Hns Hsup. pose proof Hro as [Hs Hl [Hh1 Hh2] Hva [Hp1 Hp2] Hpa]. destruct HW as [HW0 HWm].
  assert (He : vbase r + rsize r <= region_end r) by (unfold region_end; Z.div_mod_to_equations; lia).
  destruct (pt_map_with_ok W root a m R (vbase r) (pbase r) (rsize r) attr rest)
    as (a' & m' & R' & Hm & Hi & Hg & Hmap & Hs'); try done; try lia.
  exists a', m', R'. do 4 (split; [done|]). split.
  - intros x Hx. apply maps_translate; [|done|].
    + apply (Hmap x); [by apply (region_window r)|exact Hx].
    + destruct Hx. lia.
  - intros x Hx Hn. apply (Hmap x Hx). exact Hn.
Qed.

(** A list of regions, each with its attributes. *)
Fixpoint map_all (a : A) (m : wmem) (rs : list (mem_region * Z)) : outcome (A * wmem) :=
  match rs with
  | [] => Ok (a, m)
  | (r, attr) :: rs =>
      let! (a, m, _) := pt_map_with a m root (vbase r) (pbase r) (rsize r) attr in
      map_all a m rs
  end.

Fixpoint disjoint_regions (rs : list (mem_region * Z)) : Prop :=
  match rs with
  | [] => True
  | (r, _) :: rs => (forall r' attr, (r', attr) ∈ rs -> forall x, in_region r x -> ~ in_region r' x) /\ disjoint_regions rs
  end.

Definition supply_for (rs : list (mem_region * Z)) : nat :=
  sum_list_with (fun ra => pages_needed (vbase (fst ra)) (region_end (fst ra)) (pbase (fst ra))) rs.

Lemma sees_frame m m' r attr :
  sees m root r attr -> (forall x, in_region r x -> hw_walk m' root x = hw_walk m root x) -> sees m' root r attr.
Proof. intros Hs He x Hx. rewrite He by done. by apply Hs. Qed.

Lemma map_all_ok rs : forall a m R rest,
  pt_inv root a m R -> (forall r attr, (r, attr) ∈ rs -> region_ok W r /\ attr_ok attr) -> disjoint_regions rs ->
  (forall r attr, (r, attr) ∈ rs -> no_section W root m (vbase r) (region_end r)) ->
  page_supply a (supply_for rs + rest) ->
  exists a' m' R', map_all a m rs = Ok (a', m') /\ pt_inv root a' m' R' /\ grown a m R a' m' R' /\ page_supply a' rest /\
    (forall r attr, (r, attr) ∈ rs -> sees m' root r attr) /\
    (forall x, window W x -> (forall r attr, (r, attr) ∈ rs -> ~ in_region r x) -> hw_walk m' root x = hw_walk m root x).
Proof.
  induction rs as [|[r attr] rs IH]; intros a m R rest Hinv Hok Hdis Hns Hsup; cbn [map_all].
  { exists a, m, R. do 2 (split; [done|]). split; [apply grown_refl|]. split; [done|]. split; [|done].
    by intros ? ? ?%not_elem_of_nil. }
  destruct Hdis as [Hd Hdis]. destruct (Hok r attr) as [Hr Ha]; [by left|].
  destruct (region_map_ok a m R r attr (supply_for rs + rest)) as (a1 & m1 & R1 & -> & Hi1 & Hg1 & Hs1 & Hsee & Hfr); try done.
  { by apply (Hns r attr); left. } { unfold supply_for in *. simpl in Hsup. by rewrite Nat.add_assoc. }
  cbn [obind]. destruct (IH a1 m1 R1 rest) as (a2 & m2 & R2 & -> & Hi2 & Hg2 & Hs2 & Hsee2 & Hfr2); try done.
  - intros r' attr' Hin. apply Hok. by right.
  - intros r' attr' Hin x Hx Hin2 d. rewrite Hfr; [|done|].
    + apply (Hns r' attr'); [by right|done|done].
    + intros Hxr. by apply (Hd r' attr' Hin x Hxr).
  - exists a2, m2, R2. do 2 (split; [done|]). split; [by eapply grown_trans|]. split; [done|]. split.
    + intros r' attr' [E|Hin]%elem_of_cons; [|by apply Hsee2]. injection E as -> ->.
      eapply sees_frame; [exact Hsee|]. intros x Hx. apply Hfr2; [by apply (region_window r)|].
      intros r2 attr2 Hin. by apply (Hd r2 attr2).
    + intros x Hx Hn. rewrite Hfr2, Hfr; try done; [apply (Hn r attr); by left|].
      intros r' attr' Hin. apply (Hn r' attr'). by right.
Qed.
End Regions.

(** ** Permissions as the hardware reads them *)

Definition user_access (at_ : Z) : bool := Z.testbit at_ 6.
Definition writable (at_ : Z) : bool := negb (Z.testbit at_ 7).
Definition user_exec (at_ : Z) : bool := negb (Z.testbit at_ 54).
Definition kernel_exec (at_ : Z) : bool := negb (Z.testbit at_ 53).
Definition memory_type (at_ : Z) : Z := Z.land (Z.shiftr at_ 2) 7.

(** Attributes that agree up to the type bits give the same permissions. *)
Lemma attr_same at_ attr i : Z.ldiff at_ 3 = Z.ldiff attr 3 -> 2 <= i -> Z.testbit at_ i = Z.testbit attr i.
Proof.
  intros E Hi. assert (E2 : Z.testbit (Z.ldiff at_ 3) i = Z.testbit (Z.ldiff attr 3) i) by (by rewrite E).
  rewrite !Z.ldiff_spec, bit3 in E2 by lia. rewrite (proj2 (Z.ltb_ge i 2)), !andb_true_r in E2 by lia. done.
Qed.

Lemma memory_type_same at_ attr : Z.ldiff at_ 3 = Z.ldiff attr 3 -> memory_type at_ = memory_type attr.
Proof.
  intros E. unfold memory_type. f_equal. apply Z.bits_inj'. intros i Hi.
  rewrite !Z.shiftr_spec by lia. apply attr_same; [done|lia].
Qed.

(** The attributes that [as_map] computes depend on three bits of [prot]. *)
Lemma as_attr_low prot type : as_attr prot type = as_attr (Z.land prot 7) type.
Proof. unfold as_attr. by rewrite <- !Z.land_assoc. Qed.

Lemma low7 prot : Z.land prot 7 ∈ seqZ 0 8.
Proof. change 7 with (Z.ones 3). rewrite low_bits by lia. apply elem_of_seqZ. pose proof (Z.mod_pos_bound prot (2 ^ 3)). lia. Qed.

(** The eight values of [prot], by evaluation. *)
Lemma as_attr_spec prot type :
  let attr := as_attr prot type in
  let has b := negb (Z.land prot b =? 0) in
  attr_ok attr /\ user_access attr = true /\ kernel_exec attr = false /\
  user_exec attr = has PROT_EXEC /\ writable attr = negb (has PROT_READ) || has PROT_WRITE /\
  memory_type attr = match type with RAM_NORMAL => MT_NORMAL | RAM_DEVICE => MT_DEVICE_nGnRE end.
Proof.
  cbv zeta. rewrite as_attr_low.
  replace (Z.land prot PROT_EXEC) with (Z.land (Z.land prot 7) PROT_EXEC) by (by rewrite <- Z.land_assoc).
  replace (Z.land prot PROT_READ) with (Z.land (Z.land prot 7) PROT_READ) by (by rewrite <- Z.land_assoc).
  replace (Z.land prot PROT_WRITE) with (Z.land (Z.land prot 7) PROT_WRITE) by (by rewrite <- Z.land_assoc).
  pose proof (low7 prot) as Hin. generalize dependent (Z.land prot 7). intros q Hin.
  apply elem_of_seqZ in Hin. unfold attr_ok.
  assert (q = 0 \/ q = 1 \/ q = 2 \/ q = 3 \/ q = 4 \/ q = 5 \/ q = 6 \/ q = 7) as Hq by lia.
  destruct type; repeat (destruct Hq as [->|Hq]; [by vm_compute|]); subst q; by vm_compute.
Qed.

(** ** The kernel table, as one list of regions *)

Definition kernel_regions (image : image_region) (user heap : mem_region) (devs : list mem_region)
    : list (mem_region * Z) :=
  [(code image, PAGE_KERNEL_ROX); (rodata image, PAGE_KERNEL_RO); (data image, PAGE_KERNEL);
   (bss image, PAGE_KERNEL); (user, PAGE_KERNEL); (heap, PAGE_KERNEL)] ++
  map (fun r => (r, PROT_SECT_DEVICE_nGnRE)) devs.

Lemma kernel_attrs : attr_ok PAGE_KERNEL_ROX /\ attr_ok PAGE_KERNEL_RO /\ attr_ok PAGE_KERNEL /\ attr_ok PROT_SECT_DEVICE_nGnRE.
Proof. unfold attr_ok. by vm_compute. Qed.

Lemma kernel_regions_attr image user heap devs r attr :
  (r, attr) ∈ kernel_regions image user heap devs -> attr_ok attr.
Proof.
  destruct kernel_attrs as (A1 & A2 & A3 & A4). intros [Hin|Hin]%elem_of_app.
  - repeat (apply elem_of_cons in Hin as [E|Hin]; [injection E as _ ->; assumption|]). by apply not_elem_of_nil in Hin.
  - apply list_elem_of_fmap in Hin as (r' & E & _). by injection E as _ ->.
Qed.

Lemma dev_mapping_all pg devs stop : Forall (fun r => rsize r <> 0) devs -> rsize stop = 0 -> forall g m,
  kernel_as_dev_mapping g m pg (devs ++ [stop]) =
  map_all pg g m (map (fun r => (r, PROT_SECT_DEVICE_nGnRE)) devs).
Proof.
  intros Hd Hst. induction devs as [|r devs IH]; intros g m; cbn [app kernel_as_dev_mapping map map_all].
  - by rewrite Hst.
  - apply Forall_cons in Hd as [Hr Hd]. rewrite (proj2 (Z.eqb_neq _ _)) by done.
    unfold region_map, pt_map. destruct (pt_map_with _ _ _ _ _ _ _) as [[[g1 m1] z]| | |]; try done.
    cbn [obind]. by apply IH.
Qed.

Lemma map_all_app {A} `{TableSpace} `{PageSource A} pg rs1 rs2 : forall (a : A) m,
  map_all pg a m (rs1 ++ rs2) = let! (a, m) := map_all pg a m rs1 in map_all pg a m rs2.
Proof.
  induction rs1 as [|[r attr] rs1 IH]; intros a m; [done|]. cbn [app map_all]. rewrite obind_assoc.
  destruct (pt_map_with _ _ _ _ _ _ _) as [[[a1 m1] z]| | |]; try done. cbn [obind]. apply IH.
Qed.

Lemma as_initialize_all g m pg image user heap devs stop :
  Forall (fun r => rsize r <> 0) devs -> rsize stop = 0 ->
  as_initialize g m pg image user heap (devs ++ [stop]) =
  let! (g, m) := map_all pg g m (kernel_regions image user heap devs) in Ok (g, m, kernel_as_switch pg).
Proof.
  intros Hd Hst. unfold as_initialize, kernel_regions. rewrite map_all_app, obind_assoc.
  unfold kernel_as_image_mapping, kernel_as_ram_mapping, region_map, pt_map. cbn [map_all].
  rewrite !obind_assoc.
  repeat (match goal with |- obind ?o _ = _ => destruct o as [[[? ?] ?]| | |] end; [|done..]; cbn [obind];
          rewrite ?obind_assoc).
  rewrite (dev_mapping_all pg devs stop Hd Hst). by destruct (map_all _ _ _ _) as [[? ?]| | |].
Qed.

(** ** A concrete kernel: forty free pages and an empty top table *)

Module Sample.
Definition page_words (p : Z) : list (Z * Z) := map (fun k => (p + 8 * k, 0)) (seqZ 0 512).

Definition zero_mem (ps : list Z) : wmem := list_to_map (flat_map page_words ps).

Lemma zero_mem_zero ps x d : zero_mem ps !! x = Some d -> d = 0.
Proof.
  intros Hx. apply elem_of_list_to_map_2 in Hx. apply list_elem_of_In, in_flat_map in Hx as (p & _ & Hx).
  apply in_map_iff in Hx as (k & E & _). by injection E as _ <-.
Qed.

Lemma zero_mem_mapped ps p : p ∈ ps -> mapped_page (zero_mem ps) p.
Proof.
  intros Hp k Hk. destruct (zero_mem ps !! (p + 8 * k)) as [d|] eqn:E; [by eexists|]. exfalso.
  apply not_elem_of_list_to_map in E. apply E. apply list_elem_of_fmap. exists (p + 8 * k, 0). split; [done|].
  apply list_elem_of_In, in_flat_map. exists p. split; [by apply list_elem_of_In|].
  apply in_map_iff. exists k. split; [done|]. apply list_elem_of_In, elem_of_seqZ. lia.
Qed.

Definition root : Z := RAM_VBASE + 0x80000.
Definition heap : mm_gran := MkGran 12 40 (RAM_VBASE + 0x100000) [0; 0; 0].
Definition pages : list Z := map (granaddr heap) (seqZ 0 40).
Definition memory : wmem := zero_mem (root :: pages).

Lemma memory_zero x d : memory !! x = Some d -> d = 0.
Proof. apply zero_mem_zero. Qed.

Lemma memory_mapped p : p ∈ root :: pages -> mapped_page memory p.
Proof. apply zero_mem_mapped. Qed.

#[global] Opaque memory.

Lemma heap_wf : gran_wf heap.
Proof. constructor; [by vm_compute..|]. by repeat (apply Forall_cons; split). Qed.

Lemma heap_free j : 0 <= j < 40 -> granule heap j = false.
Proof.
  intros Hj. unfold granule, tbit. simpl gat.
  assert (j / 32 < 2) by (apply Z.div_lt_upper_bound; lia). assert (0 <= j / 32) by (apply Z.div_pos; lia).
  assert (j / 32 = 0 \/ j / 32 = 1) as [-> | ->] by lia; apply Z.bits_0.
Qed.

Lemma supply : page_supply heap 40.
Proof.
  split; [apply heap_wf|]. split; [done|]. exists (seqZ 0 40). split; [apply NoDup_seqZ|]. split; [done|].
  apply Forall_forall. intros j Hj. apply elem_of_seqZ in Hj. split; [simpl; lia|]. apply heap_free. lia.
Qed.

Lemma inv : pt_inv root heap memory {[ root := Root ]}.
Proof.
  assert (Hok : tbl_ok root) by (split; [by vm_compute|unfold root, RAM_VBASE, RAM_SIZE; lia]).
  constructor.
  - constructor.
    + apply lookup_singleton_eq.
    + intros p r Hp. apply lookup_singleton_Some in Hp as [<- _]. split; [done|]. apply memory_mapped. by left.
    + intros i d Hi Hd. left. by apply memory_zero in Hd.
    + intros t i j d Ht. apply lookup_singleton_Some in Ht as [_ Ht]. discriminate Ht.
    + intros p Hp. by apply lookup_singleton_Some in Hp as [-> _].
  - intros p (i & Hi & _ & ->). split.
    + unfold granaddr. simpl in *. unfold RAM_VBASE, RAM_SIZE. split; [|lia]. Z.div_mod_to_equations. lia.
    + apply memory_mapped. right. apply list_elem_of_fmap. exists i. split; [done|]. apply elem_of_seqZ. simpl in Hi. lia.
  - intros p (i & Hi & _ & ->). apply lookup_singleton_None. unfold root, granaddr. simpl in *. lia.
Qed.

Lemma no_sections W lo hi : no_section W root memory lo hi.
Proof.
  intros x _ _ d. unfold hw_walk. destruct (memory !! _) as [d1|] eqn:E; [|discriminate].
  apply memory_zero in E as ->. change (Z.land 0 3 =? 3) with false. discriminate.
Qed.

Lemma kernel_window : window_ok RAM_VBASE.
Proof. split; by vm_compute. Qed.

Lemma user_window : window_ok 0.
Proof. split; by vm_compute. Qed.
End Sample.

Module AddrSpaceSpec.

(** C9: [pt_map] builds exactly the translation it was asked for.  For any page
    source that keeps its promises, from well-formed tables in which the range
    holds no section entry, the call returns 0 without a failed assertion or a
    stray access: the architecture's walk then sends every address of the
    page-rounded range to the physical address at the same offset, with the
    attributes given, whether pages or sections were used; every other address
    of the 512 GiB window translates as before; the tables stay well formed. *)
Theorem pt_map_translates {A} `{PageSource A} {PL : PageSourceLaws A (H := kernel_space)} W root (a : A) m R r attr rest :
  window_ok W -> pt_inv root a m R -> region_ok W r -> attr_ok attr ->
  no_section W root m (vbase r) (region_end r) ->
  page_supply a (pages_needed (vbase r) (region_end r) (pbase r) + rest) ->
  exists a' m' R', pt_map a m root (vbase r) (pbase r) (rsize r) attr = Ok (a', m', 0) /\
    pt_inv root a' m' R' /\ page_supply a' rest /\ sees m' root r attr /\
    (forall x, window W x -> ~ in_region r x -> hw_walk m' root x = hw_walk m root x).
Proof.
  intros HW Hi Hr Ha Hn Hs.
  destruct (region_map_ok W root HW a m R r attr rest Hi Hr Ha Hn Hs) as (a' & m' & R' & ? & ? & _ & ? & ? & ?).
  exists a', m', R'. done.
Qed.

(** 3 MiB at a 2 MiB boundary: a section entry and 256 pages. *)
Definition big : mem_region := MkRegion 0x50000000 (RAM_VBASE + 0x10000000) 0x300000.

Lemma pt_map_translates_witness : exists a' m' R',
  pt_map Sample.heap Sample.memory Sample.root (vbase big) (pbase big) (rsize big) PAGE_KERNEL = Ok (a', m', 0) /\
  pt_inv Sample.root a' m' R' /\ sees m' Sample.root big PAGE_KERNEL.
Proof.
  destruct (pt_map_translates RAM_VBASE Sample.root Sample.heap Sample.memory {[ Sample.root := Root ]} big PAGE_KERNEL 38)
    as (a' & m' & R' & H1 & H2 & _ & H3 & _).
  - apply Sample.kernel_window.
  - apply Sample.inv.
  - constructor; by vm_compute.
  - split; by vm_compute.
  - apply Sample.no_sections.
  - apply Sample.supply.
  - exists a', m', R'. exact (conj H1 (conj H2 H3)).
Defined.

(** C32: mapping writes to page tables only.  A call changes no word of memory
    outside the table pages; the pages it adds to the tree were free in the
    heap before, and the ones already in the tree keep their places. *)
Theorem pt_map_memory_safe W root g m R r attr rest :
  window_ok W -> pt_inv root g m R -> region_ok W r -> attr_ok attr ->
  no_section W root m (vbase r) (region_end r) ->
  page_supply g (pages_needed (vbase r) (region_end r) (pbase r) + rest) ->
  exists g' m' R', region_map g m root r attr = Ok (g', m', 0) /\ R ⊆ R' /\ dom m' = dom m /\
    (forall p s, R' !! p = Some s -> R !! p = Some s \/ free_page g p) /\
    (forall x, (forall p s k, R' !! p = Some s -> 0 <= k < 512 -> x <> p + 8 * k) -> m' !! x = m !! x).
Proof.
  intros HW Hi Hr Ha Hn Hs.
  destruct (region_map_ok W root HW g m R r attr rest Hi Hr Ha Hn Hs) as (g' & m' & R' & H1 & _ & [G1 G2 _ [G3 G4]] & _).
  exists g', m', R'. done.
Qed.

Lemma pt_map_memory_safe_witness : exists g' m' (R' : gmap Z role),
  region_map Sample.heap Sample.memory Sample.root big PAGE_KERNEL = Ok (g', m', 0) /\
  dom m' = dom Sample.memory /\ R' !! Sample.root = Some Root.
Proof.
  destruct (pt_map_memory_safe RAM_VBASE Sample.root Sample.heap Sample.memory {[ Sample.root := Root ]} big PAGE_KERNEL 38)
    as (g' & m' & R' & H1 & H2 & H3 & _).
  - apply Sample.kernel_window.
  - apply Sample.inv.
  - constructor; by vm_compute.
  - split; by vm_compute.
  - apply Sample.no_sections.
  - apply Sample.supply.
  - exists g', m', R'. split; [exact H1|]. split; [exact H3|].
    eapply lookup_weaken; [apply lookup_singleton_eq|exact H2].
Defined.

(** C33: [as_map] gives a user region the permissions that its protection bits
    ask for: user code can access it and the kernel never executes it; it is
    executable for user code exactly with [PROT_EXEC]; it is writable with
    [PROT_WRITE], and also when [PROT_READ] is missing; its memory type is the
    one asked for. *)
Theorem as_map_permissions root g m R r prot type rest :
  pt_inv root g m R -> region_ok 0 r -> no_section 0 root m (vbase r) (region_end r) ->
  page_supply g (pages_needed (vbase r) (region_end r) (pbase r) + rest) ->
  let has b := negb (Z.land prot b =? 0) in
  exists g' m' R', as_map g m root r prot type = Ok (g', m', 0) /\ pt_inv root g' m' R' /\ page_supply g' rest /\
    forall x, in_region r x -> exists at_,
      translate x (hw_walk m' root x) = Some (pbase r + (x - vbase r), at_) /\
      user_access at_ = true /\ kernel_exec at_ = false /\ user_exec at_ = has PROT_EXEC /\
      writable at_ = negb (has PROT_READ) || has PROT_WRITE /\
      memory_type at_ = match type with RAM_NORMAL => MT_NORMAL | RAM_DEVICE => MT_DEVICE_nGnRE end.
Proof.
  intros Hi Hr Hn Hs has. destruct (as_attr_spec prot type) as (Ha & P1 & P2 & P3 & P4 & P5).
  destruct (region_map_ok 0 root Sample.user_window g m R r (as_attr prot type) rest Hi Hr Ha Hn Hs)
    as (g' & m' & R' & H1 & H2 & _ & H3 & Hsee & _).
  exists g', m', R'. do 3 (split; [done|]). intros x Hx. destruct (Hsee x Hx) as (at_ & Ht & E).
  exists at_. split; [done|]. rewrite (memory_type_same _ _ E).
  unfold user_access, kernel_exec, user_exec, writable in *. rewrite !(attr_same _ _ _ E) by lia. done.
Qed.

Definition stack_region : mem_region := MkRegion 0x48000000 0x7fffffe000 0x2000.

Lemma as_map_permissions_witness : exists g' m',
  as_map Sample.heap Sample.memory Sample.root stack_region 6 RAM_NORMAL = Ok (g', m', 0) /\
  exists at_, translate 0x7ffffff008 (hw_walk m' Sample.root 0x7ffffff008) = Some (0x48001008, at_) /\
    writable at_ = true /\ user_exec at_ = true.
Proof.
  destruct (as_map_permissions Sample.root Sample.heap Sample.memory {[ Sample.root := Root ]} stack_region 6 RAM_NORMAL 38)
    as (g' & m' & R' & H1 & _ & _ & H2).
  - apply Sample.inv.
  - constructor; by vm_compute.
  - apply Sample.no_sections.
  - apply Sample.supply.
  - exists g', m'. split; [exact H1|]. destruct (H2 0x7ffffff008) as (at_ & E & _ & _ & Hx & Hw & _); [split; vm_compute; congruence|].
    exists at_. split; [exact E|]. split; [rewrite Hw|rewrite Hx]; reflexivity.
Defined.

(** The kernel's own address space.  [as_initialize] returns, and the new
    table maps the kernel code read-only and executable, the constants
    read-only, and data, heap and user image writable but not executable, all
    out of reach of user code; devices are mapped as device memory. *)
Theorem as_initialize_maps root g m R image user heap devs stop rest :
  pt_inv root g m R ->
  (forall r attr, (r, attr) ∈ kernel_regions image user heap devs ->
     region_ok RAM_VBASE r /\ no_section RAM_VBASE root m (vbase r) (region_end r)) ->
  disjoint_regions (kernel_regions image user heap devs) -> rsize stop = 0 ->
  page_supply g (supply_for (kernel_regions image user heap devs) + rest) ->
  exists g' m' R', as_initialize g m root image user heap (devs ++ [stop]) = Ok (g', m', vbase_to_pbase root) /\
    pt_inv root g' m' R' /\ page_supply g' rest /\
    sees m' root (code image) PAGE_KERNEL_ROX /\ sees m' root (rodata image) PAGE_KERNEL_RO /\
    (forall r, r ∈ [data image; bss image; user; heap] -> sees m' root r PAGE_KERNEL) /\
    (forall r, r ∈ devs -> sees m' root r PROT_SECT_DEVICE_nGnRE).
Proof.
  intros Hi Hok Hdis Hst Hs. rewrite as_initialize_all; [|apply Forall_forall|done].
  2: { intros r Hr. destruct (Hok r PROT_SECT_DEVICE_nGnRE) as [[? _ _ _ _ _] _]; [|lia].
       apply elem_of_app. right. apply list_elem_of_fmap. by exists r. }
  destruct (map_all_ok RAM_VBASE root Sample.kernel_window (kernel_regions image user heap devs) g m R rest Hi)
    as (g' & m' & R' & -> & Hi' & _ & Hs' & Hsee & _).
  - intros r attr Hin. split; [by apply (Hok r attr)|by eapply kernel_regions_attr].
  - exact Hdis.
  - intros r attr Hin. exact (proj2 (Hok r attr Hin)).
  - exact Hs.
  - cbn [obind]. exists g', m', R'. split; [reflexivity|]. split; [exact Hi'|]. split; [exact Hs'|]. unfold kernel_regions in Hsee.
    split; [apply Hsee; by left|]. split; [apply Hsee; right; by left|]. split.
    + intros r Hr. apply Hsee. apply elem_of_app. left. rewrite !elem_of_cons in *.
      destruct Hr as [->|[->|[->|[->|Hr]]]]; [do 2 right|do 3 right|do 4 right|do 5 right|by apply not_elem_of_nil in Hr];
        left; reflexivity.
    + intros r Hr. apply Hsee. apply elem_of_app. right. apply list_elem_of_fmap. by exists r.
Qed.

Definition demo_region (off size : Z) : mem_region := MkRegion (RAM_PBASE + off) (RAM_VBASE + off) size.

Definition demo_image : image_region :=
  MkImage (demo_region 0x10000 0x8000) (demo_region 0x18000 0x2000) (demo_region 0x1a000 0x3000) (demo_region 0x1d000 0x1000).

Definition demo_user : mem_region := demo_region 0x20000 0x10000.
Definition demo_heap : mem_region := demo_region 0x100000 0x28000.
Definition demo_uart : mem_region := MkRegion 0x9000000 0xffffff8f09000000 0x1000.

Lemma demo_regions_ok r attr :
  (r, attr) ∈ kernel_regions demo_image demo_user demo_heap [demo_uart] -> region_ok RAM_VBASE r.
Proof.
  intros Hin. repeat (apply elem_of_cons in Hin as [E|Hin]; [injection E as -> _; constructor; vm_compute; intuition congruence|]).
  by apply not_elem_of_nil in Hin.
Qed.

Lemma demo_disjoint : disjoint_regions (kernel_regions demo_image demo_user demo_heap [demo_uart]).
Proof.
  cbn [kernel_regions map app disjoint_regions]. split_and!; [..|done]; intros r' attr Hin x Hx Hx';
    repeat (apply elem_of_cons in Hin as [E|Hin];
            [injection E as -> _; unfold in_region in *;
             match goal with H1 : ?a <= _ < ?b, H2 : ?c <= _ < ?d |- _ =>
               let a' := eval vm_compute in a in let b' := eval vm_compute in b in
               let c' := eval vm_compute in c in let d' := eval vm_compute in d in
               change (a' <= x < b') in H1; change (c' <= x < d') in H2; lia end|]);
    by apply not_elem_of_nil in Hin.
Qed.

Lemma as_initialize_maps_witness : exists g' m',
  as_initialize Sample.heap Sample.memory Sample.root demo_image demo_user demo_heap [demo_uart; MkRegion 0 0 0]
    = Ok (g', m', vbase_to_pbase Sample.root) /\
  sees m' Sample.root (code demo_image) PAGE_KERNEL_ROX.
Proof.
  destruct (as_initialize_maps Sample.root Sample.heap Sample.memory {[ Sample.root := Root ]}
              demo_image demo_user demo_heap [demo_uart] (MkRegion 0 0 0) 20)
    as (g' & m' & R' & H1 & _ & _ & H2 & _).
  - apply Sample.inv.
  - intros r attr Hin. split; [by eapply demo_regions_ok|apply Sample.no_sections].
  - apply demo_disjoint.
  - reflexivity.
  - apply Sample.supply.
  - exists g', m'. exact (conj H1 H2).
Defined.

(** A page inside a region that a section already maps: the section entry is
    taken for a table, and the kernel faults on the address made from it. *)
Example section_is_not_split :
  obind (pt_map Sample.heap Sample.memory Sample.root (RAM_VBASE + 0x40000000) (RAM_PBASE + 0x1000000) 0x200000 PAGE_KERNEL)
    (fun '(g, m, _) => pt_map g m Sample.root (RAM_VBASE + 0x40000000) 0x5000000 0x1000 PAGE_KERNEL) = Fault.
Proof. vm_compute. reflexivity. Qed.
End AddrSpaceSpec.
