(* ===== verification/Boot.v ===== *)
(** * The first page tables (os/arch/arm64/setup.c)

    Before the MMU is on, the boot code builds two tables with the identity
    variant of the mapping code: one that maps the boot image to itself, and
    one that maps RAM and the devices at their kernel addresses.  Their tables
    come from a static pool of 1024 pages, a second implementation of the page
    source of [PageTable]. *)

From Stdlib Require Import ZArith Lia Bool.
From stdpp Require Import base numbers list gmap.
From S2P Require Import Prelude Board PageTable AddrSpace.

Definition EARLY_PGTABLE_NR_PAGES : Z := 1024.
Definition SECTION_SIZE : Z := 0x200000.
Definition MMIO_PBASE : Z := 0.
Definition MMIO_VBASE : Z := 0xffffff8f00000000.
Definition MMIO_SIZE : Z := 0x40000000.

Definition kernel_normal_ram : list mem_region := [MkRegion RAM_PBASE RAM_VBASE RAM_SIZE; MkRegion 0 0 0].
Definition kernel_dev_ram : list mem_region := [MkRegion MMIO_PBASE MMIO_VBASE MMIO_SIZE; MkRegion 0 0 0].

(** ** The pool of early tables *)

Record early : Type := MkEarly {
  idmap_pt_space : Z;        (* address of the pool *)
  idmap_pt_mm : list Z       (* one byte per page: in use? *)
}.

(** The first free entry at or after [i]. *)
Fixpoint early_find (mm : list Z) (i : Z) : option Z :=
  match mm with
  | [] => None
  | b :: mm => if b =? 0 then Some i else early_find mm (i + 1)
  end.

Definition early_pgtable_alloc (e : early) (m : wmem) (size : Z) : outcome (early * wmem * Z) :=
  match early_find (idmap_pt_mm e) 0 with
  | Some i =>
      let! mm := aset (idmap_pt_mm e) i 1 in
      Ok (MkEarly (idmap_pt_space e) mm, m, idmap_pt_space e + i * PAGE_SIZE)
  | None => Ok (e, m, 0)
  end.

Definition idmap_pt_info (e : early) : Z :=
  Z.of_nat (length (filter (fun b => b = 0) (idmap_pt_mm e))).

#[export] Instance early_source : PageSource early := {|
  pt_alloc := early_pgtable_alloc;
  free_page e p := exists i : nat, idmap_pt_mm e !! i = Some 0 /\ p = idmap_pt_space e + Z.of_nat i * 4096;
  page_ready m p := forall k, 0 <= k < 512 -> m !! (p + 8 * k) = Some 0;
  page_supply e n := exists l : list nat, NoDup l /\ length l = n /\ Forall (fun i => idmap_pt_mm e !! i = Some 0) l
|}.

(** ** The boot code *)

Record boot_regs : Type := MkRegs { r_mair : Z; r_tcr : Z; r_ttbr0 : Z; r_ttbr1 : Z }.

(** Where the linker puts the boot objects, at their physical addresses. *)
Record boot_symbols : Type := MkSyms {
  identifymap_pt : Z; bootkernelmap_pt : Z; pt_space : Z; boot_physic_start : Z; boot_end : Z
}.

Definition boot_pt_init (m : wmem) (s : boot_symbols) : outcome (early * wmem) :=
  let! m := zero_words 512 m (identifymap_pt s) in
  let! m := zero_words 512 m (bootkernelmap_pt s) in
  let! m := zero_words (Z.to_nat (EARLY_PGTABLE_NR_PAGES * 512)) m (pt_space s) in
  Ok (MkEarly (pt_space s) (replicate (Z.to_nat EARLY_PGTABLE_NR_PAGES) 0), m).

Definition boot_identify_region (s : boot_symbols) : mem_region :=
  MkRegion (boot_physic_start s) (boot_physic_start s)
    (ALIGN (u64 (boot_end s - boot_physic_start s)) SECTION_SIZE).

Definition boot_identify_mapping (e : early) (m : wmem) (s : boot_symbols) : outcome (early * wmem) :=
  let r := boot_identify_region s in
  let! (e, m, _) := idmap_pt_map e m (identifymap_pt s) (vbase r) (pbase r) (rsize r) PAGE_KERNEL_EXEC in
  Ok (e, m).

(** [kernel_normal_ram[0]], [kernel_dev_ram[0]] with their sizes rounded up. *)
Definition first_region (rs : list mem_region) : outcome mem_region :=
  let! r := aget rs 0 in
  Ok (MkRegion (pbase r) (vbase r) (ALIGN (rsize r) SECTION_SIZE)).

Definition boot_kernel_mapping (e : early) (m : wmem) (s : boot_symbols) : outcome (early * wmem * Z * Z) :=
  let! r := first_region kernel_normal_ram in
  let! (e, m, _) := idmap_pt_map e m (bootkernelmap_pt s) (vbase r) (pbase r) (rsize r) PAGE_KERNEL_EXEC in
  let! r := first_region kernel_dev_ram in
  let! (e, m, _) := idmap_pt_map e m (bootkernelmap_pt s) (vbase r) (pbase r) (rsize r) PROT_SECT_DEVICE_nGnRE in
  Ok (e, m, identifymap_pt s, bootkernelmap_pt s).

(** The memory attributes that the attribute index of a descriptor selects. *)
Definition MAIR_EL1_SET : Z :=
  Z.lor (Z.lor (Z.lor (Z.lor (Z.lor (Z.shiftl 0x00 0) (Z.shiftl 0x04 8)) (Z.shiftl 0x0c 16))
    (Z.shiftl 0x44 24)) (Z.shiftl 0xff 32)) (Z.shiftl 0xbb 40).

Definition TCR_T0SZ (x : Z) : Z := 64 - x.
Definition TCR_T1SZ (x : Z) : Z := Z.shiftl (64 - x) 16.

Definition tcr_value (pa_range : Z) : Z :=
  Z.lor (Z.lor (Z.lor (Z.lor (Z.lor (Z.lor (Z.lor (Z.lor (Z.lor (Z.lor
    (u64 (Z.shiftl pa_range 32)) (TCR_T0SZ VA_BITS)) (TCR_T1SZ VA_BITS))
    (Z.shiftl 0 14)) (Z.shiftl 2 30)) (Z.shiftl 3 12)) (Z.shiftl 3 28))
    (Z.shiftl 1 10)) (Z.shiftl 1 26)) (Z.shiftl 1 8)) (Z.shiftl 1 24).

(** [mmfr0] is the value of [ID_AA64MMFR0_EL1]. *)
Definition boot_setup_mmu (m : wmem) (s : boot_symbols) (mmfr0 : Z) : outcome (early * wmem * boot_regs) :=
  let pa_range := Z.land mmfr0 15 in
  let! (e, m) := boot_pt_init m s in
  let! (e, m) := boot_identify_mapping e m s in
  let! (e, m, ttbr0, ttbr1) := boot_kernel_mapping e m s in
  Ok (e, m, MkRegs MAIR_EL1_SET (tcr_value pa_range) ttbr0 ttbr1).

(** ** The pool is a page source *)

Lemma early_find_spec mm : forall i, 0 <= i ->
  match early_find mm i with
  | Some j => exists k, j = i + Z.of_nat k /\ mm !! k = Some 0
  | None => forall k, mm !! k <> Some 0
  end.
Proof.
  induction mm as [|b mm IH]; intros i Hi; simpl; [intros k; by rewrite lookup_nil|].
  destruct (Z.eqb_spec b 0) as [->|Hb]; [exists 0%nat; split; [lia|done]|].
  specialize (IH (i + 1) ltac:(lia)). destruct (early_find mm (i + 1)) as [j|].
  - destruct IH as (k & -> & Hk). exists (S k). split; [lia|done].
  - intros [|k]; simpl; [congruence|apply IH].
Qed.

#[export] Instance early_source_laws `{TableSpace} : PageSourceLaws early.
Proof.
  constructor; cbn.
  - intros e n (l & Hnd & Hl & Hf). destruct l as [|x l]; [done|]. apply NoDup_cons in Hnd as [_ Hnd].
    apply Forall_cons in Hf as [_ Hf]. exists l. simpl in Hl. split_and!; done || lia.
  - intros m p Hp k Hk. rewrite Hp by done. by eexists.
  - intros m m' p Hp Hs k Hk. rewrite Hs by done. by apply Hp.
  - intros e m n (l & Hnd & Hl & Hf) Hready. unfold early_pgtable_alloc.
    pose proof (early_find_spec (idmap_pt_mm e) 0 ltac:(lia)) as Hfind.
    destruct (early_find (idmap_pt_mm e) 0) as [j|].
    2: { destruct l as [|x l]; [done|]. apply Forall_cons in Hf as [Hx _]. by destruct (Hfind x). }
    destruct Hfind as (k & -> & Hk). rewrite Z.add_0_l. apply lookup_lt_Some in Hk as Hkl.
    rewrite aset_ok by lia. rewrite Nat2Z.id. cbn [obind]. unfold PAGE_SIZE.
    assert (Hfree : exists i, idmap_pt_mm e !! i = Some 0 /\
              idmap_pt_space e + Z.of_nat k * 4096 = idmap_pt_space e + Z.of_nat i * 4096) by (by exists k).
    destruct (Hready _ Hfree) as [_ Hz]. eexists _, m, _. split; [done|].
    split; [|split; [done|split; [|by split]]].
    + destruct (nodup_drop l k n Hnd Hl) as (l' & Hnd' & Hl' & Hk' & Hsub). exists l'.
      split; [done|]. split; [done|]. apply Forall_forall. intros j Hj. cbn. rewrite list_lookup_insert_ne by congruence.
      rewrite Forall_forall in Hf. by apply Hf, Hsub.
    + intros q. cbn. split.
      * intros (j & Hj & ->). destruct (decide (j = k)) as [->|Hne].
        -- rewrite list_lookup_insert_eq in Hj by done. done.
        -- rewrite list_lookup_insert_ne in Hj by done. split; [by exists j|]. lia.
      * intros [(j & Hj & ->) Hne]. exists j. split; [|done]. rewrite list_lookup_insert_ne; [done|]. intros ->. done.
Qed.

(** ** Clearing the pool *)

Lemma zero_words_keep n : forall m p m' x, zero_words n m p = Ok m' ->
  (m !! x = Some 0 -> m' !! x = Some 0) /\ (is_Some (m !! x) -> is_Some (m' !! x)).
Proof.
  induction n as [|n IH]; intros m p m' x; cbn [zero_words]; [intros; by simplify_eq|].
  unfold stw. destruct (m !! p) as [d|] eqn:Ed; [|done]. cbn [obind]. intros E.
  destruct (IH _ _ _ x E) as [H1 H2]. destruct (decide (x = p)) as [->|Hne].
  - rewrite lookup_insert_eq in *. split; intros _; [by apply H1|apply H2; by eexists].
  - rewrite lookup_insert_ne in * by done. done.
Qed.

(** The linker's promise: tables and pool are page-aligned RAM apart from each
    other, and the boot image starts at a section boundary. *)
Record symbols_ok (m : wmem) (s : boot_symbols) : Prop := {
  so_id : tbl_ok (TableSpace := idmap_space) (identifymap_pt s) /\ mapped_page m (identifymap_pt s);
  so_bk : tbl_ok (TableSpace := idmap_space) (bootkernelmap_pt s) /\ mapped_page m (bootkernelmap_pt s);
  so_ne : identifymap_pt s <> bootkernelmap_pt s;
  so_space : pt_space s mod 4096 = 0 /\ RAM_PBASE <= pt_space s /\ pt_space s + 1024 * 4096 <= RAM_PBASE + RAM_SIZE;
  so_pool : forall k, 0 <= k < 1024 * 512 -> is_Some (m !! (pt_space s + 8 * k));
  so_apart : forall p, p = identifymap_pt s \/ p = bootkernelmap_pt s ->
    p < pt_space s \/ pt_space s + 1024 * 4096 <= p;
  so_image : boot_physic_start s mod 0x200000 = 0 /\ RAM_PBASE <= boot_physic_start s < boot_end s /\
    boot_end s <= RAM_PBASE + RAM_SIZE
}.

Lemma boot_pt_init_ok m s : symbols_ok m s ->
  exists e m', boot_pt_init m s = Ok (e, m') /\ idmap_pt_space e = pt_space s /\
    idmap_pt_mm e = replicate 1024 0 /\
    (forall k, 0 <= k < 512 -> m' !! (identifymap_pt s + 8 * k) = Some 0 /\ m' !! (bootkernelmap_pt s + 8 * k) = Some 0) /\
    (forall k, 0 <= k < 1024 * 512 -> m' !! (pt_space s + 8 * k) = Some 0).
Proof.
  intros [[_ Hid] [_ Hbk] _ _ Hpool _ _]. unfold boot_pt_init.
  destruct (zero_words_ok 512 m (identifymap_pt s)) as (m1 & E1 & Z1 & _); [exact Hid|].
  rewrite E1. cbn [obind]. pose proof (fun x => zero_words_keep _ _ _ _ x E1) as K1.
  destruct (zero_words_ok 512 m1 (bootkernelmap_pt s)) as (m2 & E2 & Z2 & _); [intros k Hk; apply K1, Hbk, Hk|].
  rewrite E2. cbn [obind]. pose proof (fun x => zero_words_keep _ _ _ _ x E2) as K2.
  assert (En : Z.of_nat (Z.to_nat (EARLY_PGTABLE_NR_PAGES * 512)) = 1024 * 512) by (by rewrite Z2Nat.id).
  destruct (zero_words_ok (Z.to_nat (EARLY_PGTABLE_NR_PAGES * 512)) m2 (pt_space s)) as (m3 & E3 & Z3 & _).
  { rewrite En. intros k Hk. apply K2, K1, Hpool, Hk. }
  rewrite E3. cbn [obind]. pose proof (fun x => zero_words_keep _ _ _ _ x E3) as K3. rewrite En in Z3.
  eexists _, m3. split; [done|]. split; [done|]. split; [done|]. split; [|exact Z3].
  intros k Hk. split; apply K3; [apply K2, Z1, Hk|apply Z2, Hk].
Qed.

(** ** An empty top table *)

Section Empty.
Context `{TableSpace} {TL : TableSpaceLaws} {A : Type} `{PageSource A} {PL : PageSourceLaws A}.

Definition empty_top (m : wmem) (root : Z) : Prop := forall k, 0 <= k < 512 -> m !! (root + 8 * k) = Some 0.

Lemma empty_inv a m root :
  tbl_ok root -> empty_top m root -> (forall p, free_page a p -> tbl_ok p /\ page_ready m p /\ p <> root) ->
  pt_inv root a m {[ root := Root ]}.
Proof.
  intros Hok Hz Hf. constructor.
  - constructor.
    + apply lookup_singleton_eq.
    + intros p r Hp. apply lookup_singleton_Some in Hp as [<- _]. split; [done|].
      intros k Hk. rewrite Hz by done. by eexists.
    + intros i d Hi Hd. left. rewrite Hz in Hd by done. by injection Hd as <-.
    + intros t i j d Ht. by apply lookup_singleton_Some in Ht as [_ Ht].
    + intros p Hp. by apply lookup_singleton_Some in Hp as [-> _].
  - intros p Hp. split; by apply Hf.
  - intros p Hp. apply lookup_singleton_None. intros ->. by apply (Hf p Hp).
Qed.

Lemma empty_walk m root x : empty_top m root -> hw_walk m root x = LNone.
Proof. intros Hz. destruct (ix_range x) as (I1 & _). unfold hw_walk. by rewrite Hz by done. Qed.

Lemma empty_no_section W m root lo hi : empty_top m root -> no_section W root m lo hi.
Proof. intros Hz x _ _ d. by rewrite empty_walk. Qed.

(** The tree of one root is untouched by what grows under another. *)
Lemma other_root_word a m R root p r k root2 R2 a' m' R2' :
  pt_inv root a m R -> wf m' R2' root2 -> grown a m R2 a' m' R2' -> (forall q s, R2 !! q = Some s -> R !! q = None) ->
  R !! p = Some r -> 0 <= k < 512 -> m' !! (p + 8 * k) = m !! (p + 8 * k).
Proof.
  intros [Hwf _ Hu] Hwf2 [_ Hnew _ [_ Hto]] Hsep Hp Hk. apply Hto. intros q s l Hq Hl E.
  destruct (tdesc_facts _ _ _ _ _ Hwf Hp) as (_ & _ & _ & _ & Hp4 & _).
  destruct (tdesc_facts _ _ _ _ _ Hwf2 Hq) as (_ & _ & _ & _ & Hq4 & _).
  destruct (page_word p q k l) as [-> _]; try done.
  destruct (Hnew q s Hq) as [Hq2|Hq2]; [apply Hsep in Hq2|apply Hu in Hq2]; congruence.
Qed.
End Empty.

(** ** The boot mapping *)

#[local] Existing Instance idmap_space.
#[local] Existing Instance idmap_space_laws.

Definition ram_region : mem_region := MkRegion RAM_PBASE RAM_VBASE RAM_SIZE.
Definition mmio_region : mem_region := MkRegion MMIO_PBASE MMIO_VBASE MMIO_SIZE.
Definition boot_regions : list (mem_region * Z) :=
  [(ram_region, PAGE_KERNEL_EXEC); (mmio_region, PROT_SECT_DEVICE_nGnRE)].

Lemma exec_attr : attr_ok PAGE_KERNEL_EXEC /\ attr_ok PROT_SECT_DEVICE_nGnRE.
Proof. unfold attr_ok. by vm_compute. Qed.

Lemma boot_regions_ok r attr : (r, attr) ∈ boot_regions -> region_ok RAM_VBASE r /\ attr_ok attr.
Proof.
  destruct exec_attr. intros Hin.
  repeat (apply elem_of_cons in Hin as [E|Hin]; [injection E as -> ->; split; [|done]; constructor; by vm_compute|]).
  by apply not_elem_of_nil in Hin.
Qed.

Lemma boot_regions_disjoint : disjoint_regions boot_regions.
Proof.
  split; [|split; [|done]]; intros r' attr Hin x Hx Hx'.
  - apply elem_of_cons in Hin as [E|Hin]; [|by apply not_elem_of_nil in Hin]. injection E as -> _.
    unfold in_region in *. change (region_end ram_region) with (RAM_VBASE + RAM_SIZE) in Hx.
    cbn in *. unfold MMIO_VBASE, RAM_VBASE, RAM_SIZE in *. lia.
  - by apply not_elem_of_nil in Hin.
Qed.

Lemma section_align x : 0 <= x < 2 ^ 63 ->
  ALIGN x SECTION_SIZE = (x + 0x1fffff) / 0x200000 * 0x200000.
Proof.
  intros Hx. unfold ALIGN, SECTION_SIZE. rewrite (u64_id (x + 0x200000)) by lia.
  rewrite (u64_id (x + 0x200000 - 1)) by lia. replace (x + 0x200000 - 1) with (x + 0x1fffff) by lia.
  apply u64_id. Z.div_mod_to_equations. lia.
Qed.

Lemma identify_region_ok m s : symbols_ok m s ->
  region_ok 0 (boot_identify_region s) /\ (pages_needed (vbase (boot_identify_region s))
    (region_end (boot_identify_region s)) (pbase (boot_identify_region s)) <= 4)%nat.
Proof.
  intros [_ _ _ _ _ _ (Ha & Hr & He)]. unfold RAM_PBASE, RAM_SIZE in *.
  assert (Hs : rsize (boot_identify_region s) = (boot_end s - boot_physic_start s + 0x1fffff) / 0x200000 * 0x200000).
  { cbn. rewrite u64_id by lia. by rewrite section_align by lia. }
  assert (Hend : region_end (boot_identify_region s) = boot_physic_start s + rsize (boot_identify_region s)).
  { unfold region_end. rewrite Hs. cbn [vbase boot_identify_region]. Z.div_mod_to_equations. lia. }
  assert (Hb : 0 < rsize (boot_identify_region s) <= 0x80000000) by (rewrite Hs; Z.div_mod_to_equations; lia).
  assert (Hm : rsize (boot_identify_region s) mod 0x200000 = 0) by (rewrite Hs; apply Z.mod_mul; lia).
  set (r := boot_identify_region s) in *. split.
  - constructor; rewrite ?Hend; cbn [vbase pbase r boot_identify_region] in *; try lia; Z.div_mod_to_equations; lia.
  - unfold pages_needed, need. rewrite Hend. cbn [vbase pbase r boot_identify_region].
    rewrite Z.sub_diag. rewrite decide_True by done. rewrite decide_True by done.
    rewrite decide_True by (Z.div_mod_to_equations; lia). unfold gigas.
    assert ((boot_physic_start s + rsize r - 1) / 0x40000000 - boot_physic_start s / 0x40000000 <= 3)
      by (Z.div_mod_to_equations; lia). lia.
Qed.

Lemma early_pool m s e m1 :
  symbols_ok m s -> idmap_pt_space e = pt_space s -> idmap_pt_mm e = replicate 1024 0 ->
  (forall k, 0 <= k < 1024 * 512 -> m1 !! (pt_space s + 8 * k) = Some 0) ->
  page_supply e 1024 /\
  forall p, free_page e p -> tbl_ok p /\ page_ready m1 p /\ p <> identifymap_pt s /\ p <> bootkernelmap_pt s.
Proof.
  intros [_ _ _ (Hs4 & Hs1 & Hs2) _ Hap _] Hsp Hmm Hz. split.
  - exists (seq 0 1024). split; [apply NoDup_seq|]. split; [apply length_seq|]. apply Forall_forall. intros i Hi.
    apply elem_of_seq in Hi. rewrite Hmm. apply lookup_replicate_2. lia.
  - intros p (i & Hi & ->). rewrite Hmm in Hi. apply lookup_replicate in Hi as [_ Hi]. rewrite Hsp.
    assert (Hr : pt_space s <= pt_space s + Z.of_nat i * 4096 < pt_space s + 1024 * 4096) by lia.
    split; [split; [Z.div_mod_to_equations; lia|lia]|]. split; [|split; intros E].
    + intros k Hk. replace (pt_space s + Z.of_nat i * 4096 + 8 * k) with (pt_space s + 8 * (512 * Z.of_nat i + k)) by lia.
      apply Hz. lia.
    + destruct (Hap (identifymap_pt s)); [by left|lia|lia].
    + destruct (Hap (bootkernelmap_pt s)); [by right|lia|lia].
Qed.

Lemma kernel_mapping_all e m s :
  boot_kernel_mapping e m s =
  let! (e, m) := map_all (bootkernelmap_pt s) e m boot_regions in Ok (e, m, identifymap_pt s, bootkernelmap_pt s).
Proof.
  unfold boot_kernel_mapping.
  assert (first_region kernel_normal_ram = Ok ram_region) as -> by (by vm_compute).
  assert (first_region kernel_dev_ram = Ok mmio_region) as -> by (by vm_compute). cbn [obind map_all boot_regions].
  unfold idmap_pt_map. rewrite !obind_assoc. destruct (pt_map_with _ _ _ _ _ _ _) as [[[e1 m1] z]| | |]; try done.
  cbn [obind]. destruct (pt_map_with _ _ _ (vbase mmio_region) _ _ _) as [[[e2 m2] z2]| | |]; done.
Qed.

Lemma boot_maps m s mmfr0 : symbols_ok m s ->
  exists e' m', boot_setup_mmu m s mmfr0 =
      Ok (e', m', MkRegs MAIR_EL1_SET (tcr_value (Z.land mmfr0 15)) (identifymap_pt s) (bootkernelmap_pt s)) /\
    sees m' (identifymap_pt s) (boot_identify_region s) PAGE_KERNEL_EXEC /\
    sees m' (bootkernelmap_pt s) ram_region PAGE_KERNEL_EXEC /\
    sees m' (bootkernelmap_pt s) mmio_region PROT_SECT_DEVICE_nGnRE.
Proof.
  intros Hs. pose proof Hs as [[Hid _] [Hbk _] Hne _ _ _ _]. unfold boot_setup_mmu.
  destruct (boot_pt_init_ok m s Hs) as (e & m0 & -> & Hsp & Hmm & Hzt & Hzp). cbn [obind].
  destruct (early_pool m s e m0 Hs Hsp Hmm Hzp) as [Hsup Hfree].
  set (idr := identifymap_pt s) in *. set (bkr := bootkernelmap_pt s) in *.
  assert (Hi0 : pt_inv idr e m0 {[ idr := Root ]}).
  { apply empty_inv; [done|intros k Hk; by apply Hzt|]. intros p Hp. destruct (Hfree p Hp) as (? & ? & ? & ?). done. }
  destruct (identify_region_ok m s Hs) as [Hro Hpn]. set (r := boot_identify_region s) in *.
  destruct (region_map_ok 0 idr Sample.user_window e m0 {[ idr := Root ]} r PAGE_KERNEL_EXEC 1020 Hi0 Hro (proj1 exec_attr))
    as (e1 & m1 & R1 & Hm1 & Hi1 & Hg1 & Hs1 & Hsee1 & _).
  { apply empty_no_section. intros k Hk. by apply Hzt. }
  { eapply supply_le; [|exact Hsup]. lia. }
  unfold boot_identify_mapping, idmap_pt_map. fold r. fold idr. rewrite Hm1. cbn [obind].
  assert (Hbk1 : R1 !! bkr = None).
  { destruct (R1 !! bkr) as [q|] eqn:E; [|done]. destruct (gr_new _ _ _ _ _ _ Hg1 bkr q E) as [E2|E2].
    - by apply lookup_singleton_Some in E2 as [E2 _]. - by destruct (Hfree bkr E2) as (_ & _ & _ & ?). }
  assert (Hz1 : empty_top m1 bkr).
  { intros k Hk. rewrite (proj2 (gr_mem _ _ _ _ _ _ Hg1)); [by apply Hzt|]. intros p q l Hp Hl.
    by apply (free_word idr m1 R1 bkr p q k l); [apply Hi1|..]. }
  assert (Hi2 : pt_inv bkr e1 m1 {[ bkr := Root ]}).
  { apply empty_inv; [done|done|]. intros p Hp. destruct (pt_free_ready _ _ _ _ Hi1 p Hp) as [? ?].
    split; [done|]. split; [done|]. by apply Hfree, (gr_free _ _ _ _ _ _ Hg1). }
  rewrite kernel_mapping_all. fold bkr idr.
  destruct (map_all_ok RAM_VBASE bkr Sample.kernel_window boot_regions e1 m1 {[ bkr := Root ]} 1000 Hi2 boot_regions_ok
              boot_regions_disjoint) as (e2 & m2 & R2 & -> & Hi2' & Hg2 & _ & Hsee2 & _).
  { intros r' attr _. by apply empty_no_section. }
  { eapply supply_le; [|exact Hs1]. vm_compute. lia. }
  cbn [obind]. exists e2, m2. split; [done|]. split; [|split; [apply Hsee2; by left|apply Hsee2; right; by left]].
  eapply sees_frame; [exact Hsee1|]. intros x _. apply (walk_frame m1 m2 R1); [apply Hi1|].
  intros p q k Hp Hk _. eapply (other_root_word e1 m1 R1 idr); [exact Hi1|apply Hi2'|exact Hg2| |exact Hp|done].
  intros p' q' Hp'. by apply lookup_singleton_Some in Hp' as [<- _].
Qed.

Module BootSpec.

(** C34: the boot tables are right when the MMU is switched on.  Wherever the linker puts
    the two tables, the pool of 1024 pages and the boot image, as long as tables and
    pool are page-aligned memory apart from each other and the boot image starts
    at a 2 MiB boundary, the code returns with the two table bases in the registers;
    the first table maps the boot image to itself and the second maps all of RAM and
    the device window at their kernel addresses, although both draw on one pool. *)
Theorem boot_setup_mmu_maps m s mmfr0 : symbols_ok m s ->
  exists e' m', boot_setup_mmu m s mmfr0 =
      Ok (e', m', MkRegs MAIR_EL1_SET (tcr_value (Z.land mmfr0 15)) (identifymap_pt s) (bootkernelmap_pt s)) /\
    sees m' (identifymap_pt s) (boot_identify_region s) PAGE_KERNEL_EXEC /\
    sees m' (bootkernelmap_pt s) ram_region PAGE_KERNEL_EXEC /\
    sees m' (bootkernelmap_pt s) mmio_region PROT_SECT_DEVICE_nGnRE.
Proof. apply boot_maps. Qed.

Definition demo_symbols : boot_symbols := MkSyms 0x40010000 0x40011000 0x40012000 0x40000000 0x40412000.

(** All pages from the first table to the end of the pool. *)
Definition demo_memory : wmem := Sample.zero_mem (map (fun i => 0x40010000 + i * 4096) (seqZ 0 1026)).

Lemma demo_page i : 0 <= i < 1026 -> mapped_page demo_memory (0x40010000 + i * 4096).
Proof.
  intros Hi. apply Sample.zero_mem_mapped. apply list_elem_of_fmap. exists i. split; [done|]. apply elem_of_seqZ. lia.
Qed.

Lemma demo_symbols_ok : symbols_ok demo_memory demo_symbols.
Proof.
  constructor; cbn [identifymap_pt bootkernelmap_pt pt_space boot_physic_start boot_end demo_symbols].
  - split; [split; [by vm_compute|unfold RAM_PBASE, RAM_SIZE; lia]|]. exact (demo_page 0 ltac:(lia)).
  - split; [split; [by vm_compute|unfold RAM_PBASE, RAM_SIZE; lia]|]. exact (demo_page 1 ltac:(lia)).
  - lia.
  - unfold RAM_PBASE, RAM_SIZE. split; [by vm_compute|lia].
  - intros k Hk.
    replace (0x40012000 + 8 * k) with (0x40010000 + (2 + k / 512) * 4096 + 8 * (k mod 512)) by (Z.div_mod_to_equations; lia).
    apply demo_page; Z.div_mod_to_equations; lia.
  - lia.
  - unfold RAM_PBASE, RAM_SIZE. split; [by vm_compute|lia].
Qed.

Lemma boot_setup_mmu_maps_witness : exists e' m',
  boot_setup_mmu demo_memory demo_symbols 5 =
    Ok (e', m', MkRegs MAIR_EL1_SET (tcr_value 5) 0x40010000 0x40011000) /\
  sees m' 0x40011000 ram_region PAGE_KERNEL_EXEC.
Proof.
  destruct (boot_setup_mmu_maps demo_memory demo_symbols 5 demo_symbols_ok) as (e' & m' & H1 & _ & H2 & _).
  exists e', m'. exact (conj H1 H2).
Defined.
End BootSpec.
