(* ===== verification/Entry.v ===== *)
(** * The boot assembly (os/arch/arm64/entry.S) and the floating point unit (fpu.c, fpu.h)

    The first instructions of the kernel, run by a small machine: exception
    levels, the system registers that the code touches, and instruction fetch
    through the page tables once the MMU is on.  The two C functions that the
    code calls are [fpu_init] and the [boot_setup_mmu] of [Boot]. *)

From Stdlib Require Import ZArith Lia Bool.
From stdpp Require Import base numbers list gmap.
From S2P Require Import Prelude Board PageTable AddrSpace Boot.
#[local] Open Scope Z_scope.

(** ** The floating point unit *)

Definition CPACR_EL1_FPEN : Z := 20.

Definition enable_trapfpu (cptr : Z) : Z := Z.lor cptr (Z.lor (Z.shiftl 1 10) (Z.shiftl 1 31)).
Definition disable_trapfpu (cptr : Z) : Z := Z.land cptr (not64 (Z.lor (Z.shiftl 1 10) (Z.shiftl 1 31))).
Definition enable_fpu_EL01 (cpacr : Z) : Z := Z.lor cpacr (Z.shiftl 3 CPACR_EL1_FPEN).
Definition disable_fpu_EL0 (cpacr : Z) : Z :=
  let cpacr := Z.land cpacr (not64 (Z.shiftl 3 CPACR_EL1_FPEN)) in
  Z.lor cpacr (Z.shiftl 1 CPACR_EL1_FPEN).

(** What the field says: 1 lets EL1 use the unit, 3 lets EL0 and EL1. *)
Definition FPEN (cpacr : Z) : Z := Z.land (Z.shiftr cpacr CPACR_EL1_FPEN) 3.

(** [fp_simd_init] enables the unit and reports success. *)
Definition fp_simd_init (cpacr : Z) : Z * bool := (enable_fpu_EL01 cpacr, true).
Definition fpu_init (cpacr : Z) : Z := (fp_simd_init cpacr).1.

(** Setting the field to 3 and to 1. *)
Lemma FPEN_enable c : FPEN (enable_fpu_EL01 c) = 3.
Proof.
  unfold FPEN, enable_fpu_EL01, CPACR_EL1_FPEN. rewrite Z.shiftr_lor, Z.land_lor_distr_l.
  change (Z.land (Z.shiftr (Z.shiftl 3 20) 20) 3) with 3. rewrite (Z.land_ones _ 2) by lia.
  pose proof (Z.mod_pos_bound (Z.shiftr c 20) (2 ^ 2) ltac:(lia)) as Hb.
  assert (Hc : Z.shiftr c 20 mod 2 ^ 2 ∈ seqZ 0 4) by (apply elem_of_seqZ; lia).
  assert (Hall : Forall (fun x => Z.lor x 3 = 3) (seqZ 0 4)) by (repeat constructor).
  rewrite Forall_forall in Hall. by apply Hall.
Qed.

Lemma FPEN_disable c : FPEN (disable_fpu_EL0 c) = 1.
Proof.
  unfold FPEN, disable_fpu_EL0, CPACR_EL1_FPEN. rewrite Z.shiftr_lor, Z.land_lor_distr_l, Z.shiftr_land, <- Z.land_assoc.
  change (Z.land (Z.shiftr (not64 (Z.shiftl 3 20)) 20) 3) with 0. by rewrite Z.land_0_r.
Qed.

Module Asm.

(** ** Constants of system.h *)

Definition SCTLR_ELx_I : Z := Z.shiftl 1 12.
Definition SCTLR_ELx_C : Z := Z.shiftl 1 2.
Definition SCTLR_ELx_M : Z := Z.shiftl 1 0.
Definition SPSR_EL_DEBUG_MASK : Z := Z.shiftl 1 9.
Definition SPSR_EL_SERR_MASK : Z := Z.shiftl 1 8.
Definition SPSR_EL_IRQ_MASK : Z := Z.shiftl 1 7.
Definition SPSR_EL_FIQ_MASK : Z := Z.shiftl 1 6.
Definition SPSR_EL_M_AARCH64 : Z := Z.shiftl 0 4.
Definition SPSR_EL_M_EL1H : Z := 5.
Definition SPSR_EL_M_EL2H : Z := 9.
Definition HCR_EL2_RW_AARCH64 : Z := Z.shiftl 1 31.
Definition HCR_EL2_HCD_DIS : Z := Z.shiftl 1 29.

(** ** Instructions *)

(** The registers of the code; [tmp] is [x16]. *)
Inductive xreg : Type := x0 | x1 | x2 | tmp.

Inductive sysname : Type :=
| CurrentEL | sctlr_el1 | sctlr_el2 | sctlr_el3 | spsr_el2 | spsr_el3 | elr_el2 | elr_el3 | hcr_el2 | scr_el3.

Inductive label : Type :=
| _start | switch_to_el2_from_el3 | switch_to_el1_from_el2 | el1_entry | cache_disable_done | mmu_enabled
| boot_stack | idle_stack | init_kernel.

#[export] Instance label_eq_dec : EqDecision label.
Proof. solve_decision. Defined.

(** The C functions that are called. *)
Inductive cfun : Type := C_fpu_init | C_boot_setup_mmu.

(** The operand of [ldr x, =...]: a number or the link address of a label. *)
Inductive operand : Type := Num (n : Z) | Link (l : label).

Inductive instr : Type :=
| Mrs (d : xreg) (r : sysname) | Msr (r : sysname) (s : xreg)
| And (d s : xreg) (imm : Z) | Bic (d s : xreg) (imm : Z) | Orr (d s : xreg) (imm : Z)
| Cmp (s : xreg) (imm : Z) | Beq (l : label) | B (l : label) | Br (s : xreg) | Bl (f : cfun)
| Ldr (d : xreg) (v : operand) | Adr (d : xreg) (l : label) | Add (d a b : xreg) | MovSp (s : xreg)
| Dsb | Isb | Eret.

Inductive line : Type := Lab (l : label) | Ins (i : instr).

Definition caches_and_mmu_off (sctlr : sysname) : list line :=
  [Ins (Mrs tmp sctlr); Ins (Bic tmp tmp SCTLR_ELx_I); Ins (Bic tmp tmp SCTLR_ELx_C);
   Ins (Bic tmp tmp SCTLR_ELx_M); Ins (Msr sctlr tmp)].

Definition spsr_masked (mode : Z) : Z :=
  Z.lor (Z.lor (Z.lor (Z.lor (Z.lor SPSR_EL_DEBUG_MASK SPSR_EL_SERR_MASK) SPSR_EL_IRQ_MASK) SPSR_EL_FIQ_MASK)
    SPSR_EL_M_AARCH64) mode.

Definition entry : list line :=
  [Lab _start;
   Ins (Mrs tmp CurrentEL); Ins (And tmp tmp 12);
   Ins (Cmp tmp (Z.shiftl 1 2)); Ins (Beq el1_entry);
   Ins (Cmp tmp (Z.shiftl 2 2)); Ins (Beq switch_to_el1_from_el2);
   Ins (Cmp tmp (Z.shiftl 3 2)); Ins (Beq switch_to_el2_from_el3);
   Lab switch_to_el2_from_el3] ++ caches_and_mmu_off sctlr_el3 ++
  [Ins (Ldr tmp (Num (spsr_masked SPSR_EL_M_EL2H))); Ins (Msr spsr_el3 tmp);
   Ins (Adr tmp switch_to_el1_from_el2); Ins (Msr elr_el3 tmp); Ins Eret;
   Lab switch_to_el1_from_el2] ++ caches_and_mmu_off sctlr_el2 ++
  [Ins (Ldr tmp (Num (Z.lor HCR_EL2_RW_AARCH64 HCR_EL2_HCD_DIS))); Ins (Msr hcr_el2 tmp);
   Ins (Ldr tmp (Num (spsr_masked SPSR_EL_M_EL1H))); Ins (Msr spsr_el2 tmp);
   Ins (Adr tmp el1_entry); Ins (Msr elr_el2 tmp); Ins Eret;
   Lab el1_entry] ++ caches_and_mmu_off sctlr_el1 ++
  [Lab cache_disable_done; Ins Dsb; Ins Isb;
   Ins (Adr x1 boot_stack); Ins (MovSp x1);
   Ins (Bl C_fpu_init); Ins (Bl C_boot_setup_mmu);
   Ins (Mrs tmp sctlr_el1); Ins (Orr tmp tmp SCTLR_ELx_M); Ins (Msr sctlr_el1 tmp);
   Ins (Ldr x0 (Link idle_stack)); Ins (Ldr x1 (Num CONFIG_IDLE_TASK_STACKSIZE)); Ins (Add x0 x0 x1); Ins (MovSp x0);
   Ins (Ldr x2 (Link mmu_enabled)); Ins (Br x2);
   Lab mmu_enabled; Ins (B init_kernel)].

(** The instructions, four bytes each, and the offset of a label among them. *)
Definition code : list instr := omap (fun x => match x with Ins i => Some i | Lab _ => None end) entry.

Fixpoint offset_in (ls : list line) (l : label) : option Z :=
  match ls with
  | [] => None
  | Lab l' :: ls => if decide (l' = l) then Some 0 else offset_in ls l
  | Ins _ :: ls => option_map (Z.add 4) (offset_in ls l)
  end.

(** ** The machine *)

Record sysregs : Type := MkSys {
  r_sctlr1 : Z; r_sctlr2 : Z; r_sctlr3 : Z; r_spsr2 : Z; r_spsr3 : Z; r_elr2 : Z; r_elr3 : Z; r_hcr : Z; r_scr : Z
}.

(** [pstate]: the level, the stack pointer in use (1: that of the level) and the
    four masks of [DAIF]. *)
Record pstate : Type := MkPs { el : Z; spsel : Z; daif : Z }.

Record machine : Type := MkMach {
  pc : Z; ps : pstate; zero : bool; sp : Z;
  v0 : Z; v1 : Z; v2 : Z; v16 : Z;
  sys : sysregs; cpacr : Z; boot : boot_regs;
  mem : wmem; pool : early;
  calls : list (cfun * Z)      (* the C functions called, with the stack they got *)
}.

Definition getx (s : machine) (r : xreg) : Z :=
  match r with x0 => v0 s | x1 => v1 s | x2 => v2 s | tmp => v16 s end.

Definition setx (s : machine) (r : xreg) (v : Z) : machine :=
  let '(MkMach p q z t a b c d y f g m e l) := s in
  match r with
  | x0 => MkMach p q z t v b c d y f g m e l
  | x1 => MkMach p q z t a v c d y f g m e l
  | x2 => MkMach p q z t a b v d y f g m e l
  | tmp => MkMach p q z t a b c v y f g m e l
  end.

Definition set_pc (s : machine) (p : Z) : machine :=
  MkMach p (ps s) (zero s) (sp s) (v0 s) (v1 s) (v2 s) (v16 s) (sys s) (cpacr s) (boot s) (mem s) (pool s) (calls s).
Definition set_sys (s : machine) (y : sysregs) : machine :=
  MkMach (pc s) (ps s) (zero s) (sp s) (v0 s) (v1 s) (v2 s) (v16 s) y (cpacr s) (boot s) (mem s) (pool s) (calls s).
Definition set_flag (s : machine) (z : bool) : machine :=
  MkMach (pc s) (ps s) z (sp s) (v0 s) (v1 s) (v2 s) (v16 s) (sys s) (cpacr s) (boot s) (mem s) (pool s) (calls s).
Definition set_sp (s : machine) (v : Z) : machine :=
  MkMach (pc s) (ps s) (zero s) v (v0 s) (v1 s) (v2 s) (v16 s) (sys s) (cpacr s) (boot s) (mem s) (pool s) (calls s).

(** The lowest level that may use a register. *)
Definition level_of (r : sysname) : Z :=
  match r with
  | CurrentEL | sctlr_el1 => 1
  | sctlr_el2 | spsr_el2 | elr_el2 | hcr_el2 => 2
  | sctlr_el3 | spsr_el3 | elr_el3 | scr_el3 => 3
  end.

Definition read_sys (s : machine) (r : sysname) : outcome Z :=
  if el (ps s) <? level_of r then Fault else
  let y := sys s in
  Ok match r with
     | CurrentEL => Z.shiftl (el (ps s)) 2
     | sctlr_el1 => r_sctlr1 y | sctlr_el2 => r_sctlr2 y | sctlr_el3 => r_sctlr3 y
     | spsr_el2 => r_spsr2 y | spsr_el3 => r_spsr3 y | elr_el2 => r_elr2 y | elr_el3 => r_elr3 y
     | hcr_el2 => r_hcr y | scr_el3 => r_scr y
     end.

Definition write_sys (s : machine) (r : sysname) (v : Z) : outcome machine :=
  if el (ps s) <? level_of r then Fault else
  let '(MkSys a b c d e f g h i) := sys s in
  match r with
  | CurrentEL => Fault
  | sctlr_el1 => Ok (set_sys s (MkSys v b c d e f g h i))
  | sctlr_el2 => Ok (set_sys s (MkSys a v c d e f g h i))
  | sctlr_el3 => Ok (set_sys s (MkSys a b v d e f g h i))
  | spsr_el2 => Ok (set_sys s (MkSys a b c v e f g h i))
  | spsr_el3 => Ok (set_sys s (MkSys a b c d v f g h i))
  | elr_el2 => Ok (set_sys s (MkSys a b c d e v g h i))
  | elr_el3 => Ok (set_sys s (MkSys a b c d e f v h i))
  | hcr_el2 => Ok (set_sys s (MkSys a b c d e f g v i))
  | scr_el3 => Ok (set_sys s (MkSys a b c d e f g h v))
  end.

(** The bits of [HCR_EL2] and [SCR_EL3] that let a lower level run in AArch64. *)
Definition HCR_RW : Z := 31.
Definition SCR_NS : Z := 0.
Definition SCR_RW : Z := 10.

(** [eret]: the address and the state that were put in the registers of the
    level.  A return to a level that is not AArch64 is an illegal one. *)
Definition eret (s : machine) : outcome machine :=
  let from := el (ps s) in
  let (spsr, elr) := if from =? 3 then (r_spsr3 (sys s), r_elr3 (sys s)) else (r_spsr2 (sys s), r_elr2 (sys s)) in
  let to := Z.land (Z.shiftr spsr 2) 3 in
  let legal :=
    if (from =? 3) && (to =? 2) then Z.testbit (r_scr (sys s)) SCR_RW && Z.testbit (r_scr (sys s)) SCR_NS
    else if (from =? 2) && (to =? 1) then Z.testbit (r_hcr (sys s)) HCR_RW else false in
  if legal && negb (Z.testbit spsr 4) && negb (Z.testbit spsr 1) then
    Ok (MkMach elr (MkPs to (Z.land spsr 1) (Z.land (Z.shiftr spsr 6) 15)) (Z.testbit spsr 30) (sp s)
          (v0 s) (v1 s) (v2 s) (v16 s) (sys s) (cpacr s) (boot s) (mem s) (pool s) (calls s))
  else Fault.

(** Translation at EL1: the two halves of the address space that [TCR_EL1] gives
    to the two table registers. *)
Definition mmu_at (s : machine) (va : Z) : option (Z * Z) :=
  let tcr := r_tcr (boot s) in
  if va <? 2 ^ (64 - Z.land tcr 63) then translate va (hw_walk (H := idmap_space) (mem s) (r_ttbr0 (boot s)) va)
  else if 2 ^ 64 - 2 ^ (64 - Z.land (Z.shiftr tcr 16) 63) <=? va then translate va (hw_walk (H := idmap_space) (mem s) (r_ttbr1 (boot s)) va)
  else None.

(** The physical address that the next instruction is fetched from.  The code
    brings no tables for EL2 and EL3. *)
Definition fetched (s : machine) : outcome Z :=
  let e := el (ps s) in
  let on r := Z.testbit r 0 in
  if e =? 1 then
    if on (r_sctlr1 (sys s)) then
      match mmu_at s (pc s) with Some (pa, at_) => if kernel_exec at_ then Ok pa else Fault | None => Fault end
    else Ok (pc s)
  else if on (if e =? 2 then r_sctlr2 (sys s) else r_sctlr3 (sys s)) then Fault else Ok (pc s).

Section Machine.
(** Link addresses of the labels outside the code. *)
Variables (boot_stack_link idle_stack_link init_kernel_link : Z).
Variable syms : boot_symbols.
(** The identification register, and what a C function leaves in the registers
    that it may change. *)
Variable mmfr0 : Z.
Variable scratch : cfun -> xreg -> Z.

(** The image is linked at [RAM_VBASE]. *)
Definition link (l : label) : Z :=
  match l with
  | boot_stack => boot_stack_link
  | idle_stack => idle_stack_link
  | init_kernel => init_kernel_link
  | _ => match offset_in entry l with Some o => RAM_VBASE + o | None => 0 end
  end.

(** A label relative to the instruction at offset [off]. *)
Definition near (p off : Z) (l : label) : Z := p + (link l - (RAM_VBASE + off)).

Definition call (s : machine) (f : cfun) : outcome machine :=
  let s := MkMach (pc s) (ps s) (zero s) (sp s) (scratch f x0) (scratch f x1) (scratch f x2) (scratch f tmp)
             (sys s) (cpacr s) (boot s) (mem s) (pool s) (calls s ++ [(f, sp s)]) in
  match f with
  | C_fpu_init =>
      Ok (MkMach (pc s) (ps s) (zero s) (sp s) (v0 s) (v1 s) (v2 s) (v16 s) (sys s) (fpu_init (cpacr s))
            (boot s) (mem s) (pool s) (calls s))
  | C_boot_setup_mmu =>
      let! (e, m, b) := boot_setup_mmu (mem s) syms mmfr0 in
      Ok (MkMach (pc s) (ps s) (zero s) (sp s) (v0 s) (v1 s) (v2 s) (v16 s) (sys s) (cpacr s) b m e (calls s))
  end.

Definition exec (i : instr) (off : Z) (s : machine) : outcome machine :=
  let next s := Ok (set_pc s (pc s + 4)) in
  match i with
  | Mrs d r => let! v := read_sys s r in next (setx s d v)
  | Msr r x => let! s := write_sys s r (getx s x) in next s
  | And d x imm => next (setx s d (Z.land (getx s x) imm))
  | Bic d x imm => next (setx s d (Z.ldiff (getx s x) imm))
  | Orr d x imm => next (setx s d (Z.lor (getx s x) imm))
  | Cmp x imm => next (set_flag s (getx s x =? imm))
  | Beq l => if zero s then Ok (set_pc s (near (pc s) off l)) else next s
  | B l => Ok (set_pc s (near (pc s) off l))
  | Br x => Ok (set_pc s (getx s x))
  | Bl f => let! s := call s f in next s
  | Ldr d (Num n) => next (setx s d n)
  | Ldr d (Link l) => next (setx s d (link l))
  | Adr d l => next (setx s d (near (pc s) off l))
  | Add d a b => next (setx s d (u64 (getx s a + getx s b)))
  | MovSp x => next (set_sp s (getx s x))
  | Dsb | Isb => next s
  | Eret => eret s
  end.

(** One instruction; the image is loaded at [RAM_PBASE]. *)
Definition step (s : machine) : outcome machine :=
  let! pa := fetched s in
  let off := pa - RAM_PBASE in
  let! i := aget code (off / 4) in
  exec i off s.

(** Run until the first instruction of [init_kernel]. *)
Fixpoint run (fuel : nat) (s : machine) : outcome machine :=
  if pc s =? init_kernel_link then Ok s else
  match fuel with O => Diverge | S fuel => let! s := step s in run fuel s end.

(** ** Running it *)

Lemma run_step n s s' : pc s <> init_kernel_link -> step s = Ok s' -> run (S n) s = run n s'.
Proof. intros Hp Hs. cbn [run]. rewrite (proj2 (Z.eqb_neq _ _) Hp), Hs. done. Qed.

(** More fuel changes nothing. *)
Lemma run_more n : forall k s s', run n s = Ok s' -> (n <= k)%nat -> run k s = Ok s'.
Proof.
  induction n as [|n IH]; intros [|k] s s'; cbn [run]; destruct (pc s =? init_kernel_link); try done; [lia|].
  destruct (step s) as [s1| | |]; cbn [obind]; try done. intros Hr Hk. apply IH; [done|lia].
Qed.

Lemma step_at s off i : fetched s = Ok (RAM_PBASE + off) -> aget code (off / 4) = Ok i -> step s = exec i off s.
Proof. intros Hf Hi. unfold step. rewrite Hf. cbn [obind]. replace (RAM_PBASE + off - RAM_PBASE) with off by lia. by rewrite Hi. Qed.

(** With the MMU off an instruction is fetched from where it is. *)
Definition mmu_is_off (s : machine) : Prop :=
  Z.testbit (if el (ps s) =? 1 then r_sctlr1 (sys s) else if el (ps s) =? 2 then r_sctlr2 (sys s) else r_sctlr3 (sys s)) 0 = false.

Lemma fetch_off s : mmu_is_off s -> fetched s = Ok (pc s).
Proof. unfold mmu_is_off, fetched. destruct (el (ps s) =? 1); [by intros ->|]. by intros ->. Qed.

Hypothesis Hlink : RAM_VBASE <= init_kernel_link.

Lemma run_off n s off i s' :
  mmu_is_off s -> pc s = RAM_PBASE + off -> off < 4096 -> aget code (off / 4) = Ok i -> exec i off s = Ok s' ->
  run (S n) s = run n s'.
Proof.
  intros Hm Hp Hi Ha He. apply run_step; [unfold RAM_PBASE, RAM_VBASE in *; lia|].
  rewrite (step_at s off i); [done| |done]. by rewrite fetch_off, Hp.
Qed.

(** Off and clear: the two cache bits and the MMU's. *)
Definition switched_off (sctlr : Z) : Z := Z.ldiff (Z.ldiff (Z.ldiff sctlr SCTLR_ELx_I) SCTLR_ELx_C) SCTLR_ELx_M.

Lemma switched_off_mmu x : Z.testbit (switched_off x) 0 = false.
Proof. unfold switched_off. rewrite !Z.ldiff_spec. change (Z.testbit SCTLR_ELx_M 0) with true. apply andb_false_r. Qed.

(** One instruction at offset [off]: fetch it, run it, and show the new state. *)
Ltac eval_flag :=
  repeat match goal with |- context [?x =? ?y] => let v := eval vm_compute in (x =? y) in
    lazymatch v with true => idtac | false => idtac end; change (x =? y) with v end.

Ltac show_state :=
  cbv [exec read_sys write_sys setx getx set_pc set_sys set_flag set_sp level_of call obind Z.ltb Z.compare Pos.compare Pos.compare_cont
       pc ps zero sp v0 v1 v2 v16 sys cpacr boot mem pool calls el spsel daif
       r_sctlr1 r_sctlr2 r_sctlr3 r_spsr2 r_spsr3 r_elr2 r_elr3 r_hcr r_scr]; eval_flag.

Ltac go off :=
  erewrite (run_off _ _ off); [|first [done|apply switched_off_mmu]|vm_compute; reflexivity|
    lia|vm_compute; reflexivity|show_state; reflexivity].

Section Blocks.
Variables (z : bool) (t a b c d : Z) (f : Z) (g : boot_regs) (m : wmem) (e : early) (l : list (cfun * Z)).
Variables (s1 s2 s3 p2 p3 l2 l3 hc sc : Z).

(** The three starts. *)
Lemma dispatch_el1 n q : el q = 1 -> Z.testbit s1 0 = false -> exists z' d',
  run (4 + n) (MkMach RAM_PBASE q z t a b c d (MkSys s1 s2 s3 p2 p3 l2 l3 hc sc) f g m e l) =
  run n (MkMach (RAM_PBASE + 120) q z' t a b c d' (MkSys s1 s2 s3 p2 p3 l2 l3 hc sc) f g m e l).
Proof. destruct q as [lv sq dq]. cbn [el]. intros -> H1. cbn [Nat.add]. do 2 eexists. go 0. go 4. go 8. go 12. reflexivity. Qed.

Lemma dispatch_el2 n q : el q = 2 -> Z.testbit s2 0 = false -> exists z' d',
  run (6 + n) (MkMach RAM_PBASE q z t a b c d (MkSys s1 s2 s3 p2 p3 l2 l3 hc sc) f g m e l) =
  run n (MkMach (RAM_PBASE + 72) q z' t a b c d' (MkSys s1 s2 s3 p2 p3 l2 l3 hc sc) f g m e l).
Proof.
  destruct q as [lv sq dq]. cbn [el]. intros -> H1. cbn [Nat.add]. do 2 eexists. go 0. go 4. go 8. go 12. go 16. go 20. reflexivity.
Qed.

Lemma from_el3 n q : el q = 3 -> Z.testbit s3 0 = false -> Z.testbit sc SCR_RW = true -> Z.testbit sc SCR_NS = true -> exists z' d',
  run (18 + n) (MkMach RAM_PBASE q z t a b c d (MkSys s1 s2 s3 p2 p3 l2 l3 hc sc) f g m e l) =
  run n (MkMach (RAM_PBASE + 72) (MkPs 2 1 15) z' t a b c d'
    (MkSys s1 s2 (switched_off s3) p2 (spsr_masked SPSR_EL_M_EL2H) l2 (RAM_PBASE + 72) hc sc) f g m e l).
Proof.
  destruct q as [lv sq dq]. cbn [el]. intros -> H3 Hr Hn. cbn [Nat.add]. do 2 eexists.
  go 0. go 4. go 8. go 12. go 16. go 20. go 24. go 28. go 32. go 36. go 40. go 44. go 48. go 52. go 56. go 60. go 64.
  erewrite (run_off _ _ 68); [|apply switched_off_mmu|vm_compute; reflexivity|lia|vm_compute; reflexivity|].
  2: { cbn -[Z.testbit near]. rewrite Hr, Hn. cbn -[near]. reflexivity. }
  reflexivity.
Qed.

Lemma from_el2 n q : el q = 2 -> Z.testbit s2 0 = false -> exists z' d',
  run (12 + n) (MkMach (RAM_PBASE + 72) q z t a b c d (MkSys s1 s2 s3 p2 p3 l2 l3 hc sc) f g m e l) =
  run n (MkMach (RAM_PBASE + 120) (MkPs 1 1 15) z' t a b c d'
    (MkSys s1 (switched_off s2) s3 (spsr_masked SPSR_EL_M_EL1H) p3 (RAM_PBASE + 120) l3
       (Z.lor HCR_EL2_RW_AARCH64 HCR_EL2_HCD_DIS) sc) f g m e l).
Proof.
  destruct q as [lv sq dq]. cbn [el]. intros -> H2. cbn [Nat.add]. do 2 eexists.
  go 72. go 76. go 80. go 84. go 88. go 92. go 96. go 100. go 104. go 108. go 112.
  erewrite (run_off _ _ 116); [|apply switched_off_mmu|vm_compute; reflexivity|lia|vm_compute; reflexivity|cbn -[near]; reflexivity].
  reflexivity.
Qed.

(** The code at EL1 up to the switch: two calls on the boot stack at its physical address. *)
Definition boot_stack_phys : Z := boot_stack_link - RAM_VBASE + RAM_PBASE.

Lemma at_el1 n q e' m' r : el q = 1 -> Z.testbit s1 0 = false -> boot_setup_mmu m syms mmfr0 = Ok (e', m', r) -> exists z' d',
  run (14 + n) (MkMach (RAM_PBASE + 120) q z t a b c d (MkSys s1 s2 s3 p2 p3 l2 l3 hc sc) f g m e l) =
  run n (MkMach (RAM_PBASE + 176) q z' boot_stack_phys (scratch C_boot_setup_mmu x0) (scratch C_boot_setup_mmu x1)
    (scratch C_boot_setup_mmu x2) d' (MkSys (Z.lor (switched_off s1) SCTLR_ELx_M) s2 s3 p2 p3 l2 l3 hc sc) (fpu_init f) r m' e'
    (l ++ [(C_fpu_init, boot_stack_phys); (C_boot_setup_mmu, boot_stack_phys)])).
Proof.
  destruct q as [lv sq dq]. cbn [el]. intros -> H1 Hb. cbn [Nat.add]. do 2 eexists.
  go 120. go 124. go 128. go 132. go 136. go 140. go 144. go 148. go 152. go 156.
  erewrite (run_off _ _ 160); [|apply switched_off_mmu|vm_compute; reflexivity|lia|vm_compute; reflexivity|].
  2: { cbv [exec call]. cbn [mem]. rewrite Hb. show_state. reflexivity. }
  go 164. go 168. go 172.
  replace (near (RAM_PBASE + 120 + 4 + 4 + 4 + 4 + 4 + 4 + 4) 148 boot_stack) with boot_stack_phys
    by (unfold boot_stack_phys, near; cbn [link]; unfold RAM_PBASE, RAM_VBASE; lia).
  rewrite <- app_assoc. reflexivity.
Qed.
End Blocks.

(** ** With the MMU on *)

Lemma tcr_halves p : 0 <= p < 16 -> Z.land (tcr_value p) 63 = 25 /\ Z.land (Z.shiftr (tcr_value p) 16) 63 = 25.
Proof.
  intros Hp. assert (Hin : p ∈ seqZ 0 16) by (apply elem_of_seqZ; lia).
  assert (Hall : Forall (fun p => Z.land (tcr_value p) 63 = 25 /\ Z.land (Z.shiftr (tcr_value p) 16) 63 = 25) (seqZ 0 16))
    by (repeat constructor).
  rewrite Forall_forall in Hall. by apply Hall.
Qed.

(** The registers and tables that [boot_setup_mmu] leaves. *)
Definition tables_ready (s : machine) : Prop :=
  boot s = MkRegs MAIR_EL1_SET (tcr_value (Z.land mmfr0 15)) (identifymap_pt syms) (bootkernelmap_pt syms) /\
  sees (H := idmap_space) (mem s) (identifymap_pt syms) (boot_identify_region syms) PAGE_KERNEL_EXEC /\
  sees (H := idmap_space) (mem s) (bootkernelmap_pt syms) ram_region PAGE_KERNEL_EXEC.

Definition mmu_is_on (s : machine) : Prop := el (ps s) = 1 /\ Z.testbit (r_sctlr1 (sys s)) 0 = true.

Lemma exec_allowed at_ : Z.ldiff at_ 3 = Z.ldiff PAGE_KERNEL_EXEC 3 -> kernel_exec at_ = true.
Proof. intros E. unfold kernel_exec. by rewrite (attr_same _ _ 53 E). Qed.

Lemma low4 x : 0 <= Z.land x 15 < 16.
Proof. change 15 with (Z.ones 4). rewrite Z.land_ones by lia. apply Z.mod_pos_bound. lia. Qed.

(** The image is fetched through the first table at its physical addresses and
    through the second at its link addresses. *)
Lemma image_in_identity off : (exists m, symbols_ok m syms) -> boot_physic_start syms = RAM_PBASE -> 0 <= off < 4096 ->
  in_region (boot_identify_region syms) (RAM_PBASE + off).
Proof.
  intros [m [_ _ _ _ _ _ (_ & [_ Hr] & He)]] Hb Ho. rewrite Hb in Hr. unfold in_region, region_end, boot_identify_region.
  cbn [vbase rsize]. rewrite Hb. unfold RAM_PBASE, RAM_SIZE in *. rewrite u64_id, section_align by lia. Z.div_mod_to_equations. lia.
Qed.

Lemma fetch_low s off : mmu_is_on s -> tables_ready s -> (exists m, symbols_ok m syms) -> boot_physic_start syms = RAM_PBASE ->
  pc s = RAM_PBASE + off -> 0 <= off < 4096 -> fetched s = Ok (RAM_PBASE + off).
Proof.
  intros [He Hm] (Hb & Hi & _) Hs HB Hp Ho. unfold fetched. rewrite He, Hm, Hp. cbn [Z.eqb Pos.eqb]. unfold mmu_at. rewrite Hb. cbn [r_tcr r_ttbr0].
  destruct (tcr_halves _ (low4 mmfr0)) as [-> _]. change (64 - 25) with 39.
  rewrite (proj2 (Z.ltb_lt _ _)) by (unfold RAM_PBASE; lia).
  destruct (Hi (RAM_PBASE + off)) as (at_ & -> & E); [by apply image_in_identity|].
  rewrite (exec_allowed _ E). cbn [pbase vbase boot_identify_region]. rewrite HB. f_equal. lia.
Qed.

Lemma fetch_high s off : mmu_is_on s -> tables_ready s -> pc s = RAM_VBASE + off -> 0 <= off < 4096 ->
  fetched s = Ok (RAM_PBASE + off).
Proof.
  intros [He Hm] (Hb & _ & Hk) Hp Ho. unfold fetched. rewrite He, Hm, Hp. cbn [Z.eqb Pos.eqb]. unfold mmu_at. rewrite Hb. cbn [r_tcr r_ttbr1].
  destruct (tcr_halves _ (low4 mmfr0)) as [-> ->]. change (64 - 25) with 39.
  rewrite (proj2 (Z.ltb_ge _ _)), (proj2 (Z.leb_le _ _)) by (unfold RAM_VBASE; lia).
  destruct (Hk (RAM_VBASE + off)) as (at_ & -> & E).
  { unfold in_region. change (region_end ram_region) with (RAM_VBASE + RAM_SIZE). cbn [vbase ram_region]. unfold RAM_SIZE. lia. }
  rewrite (exec_allowed _ E). cbn [pbase vbase ram_region]. f_equal. lia.
Qed.

Lemma run_fetched n s off i s' : fetched s = Ok (RAM_PBASE + off) -> pc s <> init_kernel_link -> aget code (off / 4) = Ok i ->
  exec i off s = Ok s' -> run (S n) s = run n s'.
Proof. intros Hf Hp Ha He. apply run_step; [done|]. by rewrite (step_at s off i). Qed.

Hypothesis Hafter : RAM_VBASE + 204 <= init_kernel_link.
Hypothesis Hidle : 0 <= idle_stack_link /\ idle_stack_link + CONFIG_IDLE_TASK_STACKSIZE < 2 ^ 64.
Hypothesis Hsyms : exists m, symbols_ok m syms.
Hypothesis Hbase : boot_physic_start syms = RAM_PBASE.

Ltac go_low off :=
  erewrite (run_fetched _ _ off); [|apply fetch_low; [done|done|done|done|vm_compute; reflexivity|lia]|
    cbn [pc]; unfold RAM_PBASE, RAM_VBASE in *; lia|vm_compute; reflexivity|show_state; reflexivity].

(** From the switch to [init_kernel]: the rest of the image is fetched through
    the identity table, then the jump goes to the link addresses. *)
Lemma after_switch q z t a b c d y f r m e l : el q = 1 -> Z.testbit (r_sctlr1 y) 0 = true ->
  tables_ready (MkMach (RAM_PBASE + 176) q z t a b c d y f r m e l) -> exists s',
  run 7 (MkMach (RAM_PBASE + 176) q z t a b c d y f r m e l) = Ok s' /\ pc s' = init_kernel_link /\ ps s' = q /\
  sp s' = idle_stack_link + CONFIG_IDLE_TASK_STACKSIZE /\ sys s' = y /\ cpacr s' = f /\ boot s' = r /\ mem s' = m /\ calls s' = l.
Proof.
  intros Hq Hy Ht. eexists. go_low 176. go_low 180. go_low 184. go_low 188. go_low 192. go_low 196.
  erewrite (run_fetched _ _ 200); [|apply fetch_high; [done|done|vm_compute; reflexivity|lia]| |vm_compute; reflexivity|show_state; reflexivity].
  2: { change (link mmu_enabled) with (RAM_VBASE + 200). cbn [pc]. lia. }
  assert (E : near (link mmu_enabled) 200 init_kernel = init_kernel_link).
  { change (link mmu_enabled) with (RAM_VBASE + 200). unfold near. cbn [link]. lia. }
  rewrite E. cbn [run pc]. rewrite Z.eqb_refl. split; [reflexivity|]. cbn [pc ps sp sys cpacr boot mem calls].
  rewrite u64_id by (unfold CONFIG_IDLE_TASK_STACKSIZE in *; cbn [link]; lia). done.
Qed.

(** ** From reset to the kernel *)

(** How the loader enters the image: at its first instruction, at EL1, EL2 or
    EL3, with the MMU off; from EL3 the lower levels must be set to AArch64 and
    non-secure, which the code does not do itself. *)
Record entered (s : machine) : Prop := {
  en_pc : pc s = RAM_PBASE;
  en_el : 1 <= el (ps s) <= 3;
  en_mmu1 : Z.testbit (r_sctlr1 (sys s)) 0 = false;
  en_mmu2 : 2 <= el (ps s) -> Z.testbit (r_sctlr2 (sys s)) 0 = false;
  en_mmu3 : el (ps s) = 3 -> Z.testbit (r_sctlr3 (sys s)) 0 = false;
  en_scr : el (ps s) = 3 -> Z.testbit (r_scr (sys s)) SCR_RW = true /\ Z.testbit (r_scr (sys s)) SCR_NS = true
}.

(** The state of the processor at the first instruction of [init_kernel]. *)
Record at_kernel (s s' : machine) : Prop := {
  ak_pc : pc s' = init_kernel_link;
  ak_ps : ps s' = if el (ps s) =? 1 then ps s else MkPs 1 1 15;
  ak_sp : sp s' = idle_stack_link + CONFIG_IDLE_TASK_STACKSIZE;
  ak_sctlr : r_sctlr1 (sys s') = Z.lor (switched_off (r_sctlr1 (sys s))) SCTLR_ELx_M;
  ak_cpacr : cpacr s' = fpu_init (cpacr s);
  ak_tables : tables_ready s';
  ak_devices : sees (H := idmap_space) (mem s') (bootkernelmap_pt syms) mmio_region PROT_SECT_DEVICE_nGnRE;
  ak_calls : calls s' = calls s ++ [(C_fpu_init, boot_stack_phys); (C_boot_setup_mmu, boot_stack_phys)]
}.

Lemma switched_on x : Z.testbit (Z.lor x SCTLR_ELx_M) 0 = true.
Proof. rewrite Z.lor_spec. apply orb_true_r. Qed.

(** The part that every start shares. *)
Record at_el1_entry (s0 s : machine) : Prop := {
  ae_pc : pc s = RAM_PBASE + 120;
  ae_el : el (ps s) = 1;
  ae_ps : ps s = if el (ps s0) =? 1 then ps s0 else MkPs 1 1 15;
  ae_sctlr : r_sctlr1 (sys s) = r_sctlr1 (sys s0);
  ae_rest : cpacr s = cpacr s0 /\ mem s = mem s0 /\ calls s = calls s0
}.

Lemma el1_ok n s0 s : run n s0 = run 21 s -> at_el1_entry s0 s -> Z.testbit (r_sctlr1 (sys s0)) 0 = false -> symbols_ok (mem s0) syms ->
  exists s', run n s0 = Ok s' /\ at_kernel s0 s'.
Proof.
  intros Hn [Hp Hq Eq E1 (Ef & Em & El)] H1 Hs. rewrite <- E1 in H1. rewrite <- Em in Hs.
  destruct (boot_maps (mem s) syms mmfr0 Hs) as (e' & m' & Hb & T1 & T2 & T3). rewrite Hn. clear Hn.
  destruct s as [p q z t a b c d [s1 s2 s3 p2 p3 l2 l3 hc sc] f g m e l]. cbn in Hp, Hq, Eq, E1, Ef, Em, El, H1, Hb, Hs. subst p.
  destruct (at_el1 z t a b c d f g m e l s1 s2 s3 p2 p3 l2 l3 hc sc 7 q e' m' _ Hq H1 Hb) as (z' & d' & R1).
  edestruct (after_switch q) as (s' & Hr & K1 & K2 & K3 & K4 & K5 & K6 & K7 & K8); [exact Hq| | |exists s'; split; [etransitivity; [exact R1|exact Hr]|]].
  - cbn [r_sctlr1]. apply switched_on.
  - done.
  - constructor; rewrite ?K2, ?K3, ?K4, ?K5, ?K7, ?K8, <- ?E1, <- ?Ef, <- ?El; try done. unfold tables_ready. by rewrite K6, K7.
Qed.

Lemma entry_runs s : entered s -> symbols_ok (mem s) syms -> exists n s', (n <= 51)%nat /\ run n s = Ok s' /\ at_kernel s s'.
Proof.
  destruct s as [p q z t a b c d [s1 s2 s3 p2 p3 l2 l3 hc sc] f g m e l]. intros [Hp He M1 M2 M3 Msc] Hs.
  cbn [pc ps sys r_sctlr1 r_sctlr2 r_sctlr3 r_scr] in *. subst p.
  assert (Hc : el q = 1 \/ el q = 2 \/ el q = 3) by lia. destruct Hc as [E|[E|E]].
  - destruct (dispatch_el1 z t a b c d f g m e l s1 s2 s3 p2 p3 l2 l3 hc sc 21%nat q E M1) as (z' & d' & R1).
    destruct (el1_ok _ _ _ R1) as (s' & R & K); [|done|done|eexists _, s'; split; [|split; [exact R|exact K]]; lia].
    constructor; cbn [pc ps sys cpacr mem calls r_sctlr1 el]; rewrite ?E; first [reflexivity|exact E|repeat split].
  - destruct (dispatch_el2 z t a b c d f g m e l s1 s2 s3 p2 p3 l2 l3 hc sc (12 + 21)%nat q E (M2 ltac:(lia))) as (z' & d' & R1).
    edestruct (from_el2 z') with (n := 21%nat) as (z2 & d2 & R2); [exact E|apply M2; lia|]. pose proof (eq_trans R1 R2) as R3.
    destruct (el1_ok _ _ _ R3) as (s' & R & K); [|done|done|eexists _, s'; split; [|split; [exact R|exact K]]; lia].
    constructor; cbn [pc ps sys cpacr mem calls r_sctlr1 el]; rewrite ?E; first [reflexivity|exact E|repeat split].
  - destruct (Msc E) as [S1 S2].
    destruct (from_el3 z t a b c d f g m e l s1 s2 s3 p2 p3 l2 l3 hc sc (12 + 21)%nat q E (M3 E) S1 S2) as (z' & d' & R1).
    edestruct (from_el2 z') with (n := 21%nat) (q := MkPs 2 1 15) as (z2 & d2 & R2); [reflexivity|apply M2; lia|]. pose proof (eq_trans R1 R2) as R3.
    destruct (el1_ok _ _ _ R3) as (s' & R & K); [|done|done|eexists _, s'; split; [|split; [exact R|exact K]]; lia].
    constructor; cbn [pc ps sys cpacr mem calls r_sctlr1 el]; rewrite ?E; first [reflexivity|exact E|repeat split].
Qed.
End Machine.
End Asm.

Module EntrySpec.
Import Asm.

(** The bits of [SCTLR_EL1] when the kernel starts: the MMU is on, the caches
    are off, and everything else is as it was. *)
Lemma sctlr_bits x i : 0 <= i ->
  Z.testbit (Z.lor (switched_off x) SCTLR_ELx_M) i = if i =? 0 then true else if (i =? 2) || (i =? 12) then false else Z.testbit x i.
Proof.
  intros Hi. unfold switched_off. rewrite Z.lor_spec, !Z.ldiff_spec.
  assert (P : forall k, 0 <= k -> Z.testbit (Z.shiftl 1 k) i = (i =? k)).
  { intros k Hk. rewrite Z.shiftl_1_l, Z.pow2_bits_eqb by lia. apply Z.eqb_sym. }
  unfold SCTLR_ELx_I, SCTLR_ELx_C, SCTLR_ELx_M. rewrite !P by lia.
  destruct (Z.eqb_spec i 0), (Z.eqb_spec i 2), (Z.eqb_spec i 12), (Z.testbit x i); done || lia.
Qed.

(** C12: the boot code brings the processor from reset to the kernel.  Entered at
    its first instruction with the MMU off, at EL1, at EL2, or at EL3 with RW and NS
    of SCR_EL3 already set (the code sets neither), it runs at most 51 instructions and
    no instruction fetch fails, not even between the one that switches the MMU on and
    the jump to the link addresses.  At [init_kernel] the processor is at EL1, on the
    idle stack at its link address; when it came from EL2 or EL3 interrupts are
    masked, when it came at EL1 the mask is the one it came with; the MMU is on with the
    tables of [boot_setup_mmu], the caches are off, the floating point unit is open,
    and the C functions ran on the boot stack at its physical address. *)
Theorem entry_starts_kernel boot_stack_link idle_stack_link init_kernel_link syms mmfr0 scratch s :
  entered s -> symbols_ok (mem s) syms -> boot_physic_start syms = RAM_PBASE ->
  RAM_VBASE + 4 * Z.of_nat (length code) <= init_kernel_link ->
  0 <= idle_stack_link -> idle_stack_link + CONFIG_IDLE_TASK_STACKSIZE < 2 ^ 64 ->
  exists s', run boot_stack_link idle_stack_link init_kernel_link syms mmfr0 scratch 51 s = Ok s' /\
    at_kernel boot_stack_link idle_stack_link init_kernel_link syms mmfr0 s s' /\ FPEN (cpacr s') = 3 /\
    forall i, 0 <= i -> Z.testbit (r_sctlr1 (sys s')) i =
      if i =? 0 then true else if (i =? 2) || (i =? 12) then false else Z.testbit (r_sctlr1 (sys s)) i.
Proof.
  intros He Hs Hb Hi H1 H2. change (4 * Z.of_nat (length code)) with 204 in Hi.
  destruct (entry_runs boot_stack_link idle_stack_link init_kernel_link syms mmfr0 scratch) with (s := s) as (n & s' & Hn & Hr & K); try done;
    [lia|by exists (mem s)|].
  exists s'. split; [by eapply run_more|]. split; [done|]. split.
  - rewrite (ak_cpacr _ _ _ _ _ _ _ K). apply FPEN_enable.
  - intros i H0. rewrite (ak_sctlr _ _ _ _ _ _ _ K). by apply sctlr_bits.
Qed.

(** The sample image, entered at EL2 with all bits of the registers at 0 but the reserved ones. *)
Definition at_reset (level scr : Z) : machine :=
  MkMach RAM_PBASE (MkPs level 1 15) false 0 0 0 0 0 (MkSys 0x30d00800 0x30c50830 0x30c50830 0 0 0 0 0 scr) 0 (MkRegs 0 0 0 0)
    BootSpec.demo_memory (MkEarly 0 []) [].

Lemma entry_starts_kernel_witness : exists s',
  run (RAM_VBASE + 0x2000) (RAM_VBASE + 0x500000) (RAM_VBASE + 0x420000) BootSpec.demo_symbols 5 (fun _ _ => 7) 51 (at_reset 2 0) = Ok s' /\
  pc s' = RAM_VBASE + 0x420000 /\ ps s' = MkPs 1 1 15 /\ sp s' = RAM_VBASE + 0x500400 /\
  calls s' = [(C_fpu_init, 0x40002000); (C_boot_setup_mmu, 0x40002000)].
Proof.
  destruct (entry_starts_kernel (RAM_VBASE + 0x2000) (RAM_VBASE + 0x500000) (RAM_VBASE + 0x420000) BootSpec.demo_symbols 5 (fun _ _ => 7)
    (at_reset 2 0)) as (s' & Hr & K & _).
  - constructor; cbn [pc ps el sys at_reset]; first [reflexivity|lia].
  - exact BootSpec.demo_symbols_ok.
  - reflexivity.
  - unfold RAM_VBASE. cbn. lia.
  - unfold RAM_VBASE. lia.
  - unfold RAM_VBASE, CONFIG_IDLE_TASK_STACKSIZE. lia.
  - exists s'. split; [exact Hr|]. destruct K as [K1 K2 K3 _ _ _ _ K4]. split; [exact K1|]. split; [exact K2|]. split; [exact K3|exact K4].
Defined.

(** From EL3 the code relies on [SCR_EL3]: with the register at 0 the first return is an illegal one. *)
Lemma el3_needs_scr : run (RAM_VBASE + 0x2000) (RAM_VBASE + 0x500000) (RAM_VBASE + 0x420000) BootSpec.demo_symbols 5 (fun _ _ => 7) 51
  (MkMach RAM_PBASE (MkPs 3 1 15) false 0 0 0 0 0 (MkSys 0 0 0 0 0 0 0 0 0) 0 (MkRegs 0 0 0 0) ∅ (MkEarly 0 []) []) = Fault.
Proof. vm_compute. reflexivity. Qed.
End EntrySpec.
