(* ===== verification/Bytes.v ===== *)
(** * Bytes of the word memory

    The page tables view memory as 64-bit words; the loader and the callers of
    [k_memset] and [k_memcpy] view the same memory as bytes.  A byte is eight
    bits of the (little-endian) word around it.  The two loops write one byte
    per turn, which is what the routines of the C library amount to (the
    theorems on [k_memset] and [k_memcpy] in [Libc]). *)

From Stdlib Require Import ZArith Lia Bool.
From stdpp Require Import base numbers list gmap.
From S2P Require Import Prelude Board Gran PageTable AddrSpace.
#[local] Open Scope Z_scope.

Definition word (a : Z) : Z := a / 8 * 8.

Definition byte_in (w a : Z) : Z := Z.land (Z.shiftr w (8 * (a mod 8))) 255.

Definition put_byte (w a v : Z) : Z :=
  let o := 8 * (a mod 8) in Z.lor (Z.ldiff w (Z.shiftl 255 o)) (Z.shiftl (Z.land v 255) o).

(** What memory holds at byte address [a]. *)
Definition byte (m : wmem) (a : Z) : option Z := (fun w => byte_in w a) <$> m !! word a.

Definition ldb (m : wmem) (a : Z) : outcome Z := let! w := ldw m (word a) in Ok (byte_in w a).

Definition stb (m : wmem) (a v : Z) : outcome wmem := let! w := ldw m (word a) in stw m (word a) (put_byte w a v).

Fixpoint mem_fill (n : nat) (m : wmem) (a c : Z) : outcome wmem :=
  match n with
  | O => Ok m
  | S n => let! m := stb m a c in mem_fill n m (a + 1) c
  end.

Fixpoint mem_copy (n : nat) (m : wmem) (dst src : Z) : outcome wmem :=
  match n with
  | O => Ok m
  | S n => let! c := ldb m src in let! m := stb m dst c in mem_copy n m (dst + 1) (src + 1)
  end.

Definition in_range (lo n x : Z) : bool := (lo <=? x) && (x <? lo + n).

Definition range_mapped (m : wmem) (lo n : Z) : Prop := forall x, lo <= x < lo + n -> is_Some (m !! word x).

Lemma ff_bit i : 0 <= i -> Z.testbit 255 i = (i <? 8).
Proof. intros Hi. change 255 with (Z.ones 8). rewrite Z.testbit_ones by lia. decide_cmp; done. Qed.

Lemma put_byte_same w a v : byte_in (put_byte w a v) a = Z.land v 255.
Proof.
  unfold byte_in, put_byte. set (o := 8 * (a mod 8)). assert (0 <= o) by (unfold o; Z.div_mod_to_equations; lia).
  apply Z.bits_inj'. intros i Hi. autorewrite with bits.
  rewrite Z.add_simpl_r, !ff_bit by lia. destruct (Z.ltb_spec i 8); simpl; by rewrite ?andb_false_r, ?andb_true_r.
Qed.

Lemma put_byte_other w a b v : a mod 8 <> b mod 8 -> byte_in (put_byte w a v) b = byte_in w b.
Proof.
  intros Hne. unfold byte_in, put_byte. set (o := 8 * (a mod 8)). set (p := 8 * (b mod 8)).
  assert (0 <= o /\ 0 <= p /\ (o + 8 <= p \/ p + 8 <= o)) as (Ho & Hp & Hd).
  { unfold o, p. pose proof (Z.mod_pos_bound a 8). pose proof (Z.mod_pos_bound b 8). lia. }
  apply Z.bits_inj'. intros i Hi. autorewrite with bits. rewrite (ff_bit i) by lia.
  destruct (Z.ltb_spec i 8); [|by rewrite !andb_false_r]. rewrite !andb_true_r.
  destruct Hd as [Hd|Hd].
  - rewrite ff_bit, (proj2 (Z.ltb_ge (i + p - o) 8)) by lia. by rewrite andb_false_r, orb_false_r, andb_true_r.
  - rewrite !(Z.testbit_neg_r _ (i + p - o)) by lia. by rewrite orb_false_r, andb_true_r.
Qed.

(** Two bytes of one word differ in their offset. *)
Lemma word_same a b : word a = word b -> a mod 8 = b mod 8 -> a = b.
Proof. unfold word. intros. Z.div_mod_to_equations. lia. Qed.

Lemma stb_ok m a v : is_Some (m !! word a) ->
  exists m', stb m a v = Ok m' /\ dom m' = dom m /\
    (forall x, byte m' x = if x =? a then Some (Z.land v 255) else byte m x) /\
    (forall p, p <> word a -> m' !! p = m !! p).
Proof.
  intros [w Hw]. unfold stb, ldw, stw. rewrite Hw. cbn [obind]. eexists. split; [done|]. split; [|split].
  - apply dom_insert_lookup_L. by exists w.
  - intros x. unfold byte. destruct (Z.eqb_spec x a) as [->|Hx].
    + rewrite lookup_insert_eq. cbn. by rewrite put_byte_same.
    + destruct (decide (word x = word a)) as [E|E]; [|by rewrite lookup_insert_ne].
      rewrite E, lookup_insert_eq, Hw. cbn. rewrite put_byte_other; [done|]. intros Hm. apply Hx. by apply word_same.
  - intros p Hp. by apply lookup_insert_ne.
Qed.

Lemma range_mapped_dom m m' lo n : dom m' = dom m -> range_mapped m lo n -> range_mapped m' lo n.
Proof. intros Hd Hr x Hx. apply elem_of_dom. rewrite Hd. apply elem_of_dom. by apply Hr. Qed.

(** [m'] is [m] with the bytes of a range replaced. *)
Record bytes_written (m m' : wmem) (lo n : Z) (f : Z -> option Z) : Prop := {
  bw_dom : dom m' = dom m;
  bw_byte : forall x, byte m' x = if in_range lo n x then f x else byte m x;
  bw_word : forall p, (forall x, lo <= x < lo + n -> p <> word x) -> m' !! p = m !! p
}.

Lemma mem_fill_ok c n : forall m a, range_mapped m a (Z.of_nat n) ->
  exists m', mem_fill n m a c = Ok m' /\ bytes_written m m' a (Z.of_nat n) (fun _ => Some (Z.land c 255)).
Proof.
  induction n as [|n IH]; intros m a Hr; cbn [mem_fill].
  { exists m. split; [done|]. constructor; [done| |done]. intros x. unfold in_range. decide_cmp; done || lia. }
  destruct (stb_ok m a c) as (m1 & -> & D1 & B1 & W1); [apply Hr; lia|]. cbn [obind].
  destruct (IH m1 (a + 1)) as (m2 & -> & [D2 B2 W2]).
  { apply (range_mapped_dom m); [done|]. intros x Hx. apply Hr. lia. }
  exists m2. split; [done|]. constructor; [congruence| |].
  - intros x. rewrite B2, B1. unfold in_range. decide_cmp; simpl; done || lia.
  - intros p Hp. rewrite W2, W1; [done|apply Hp; lia|]. intros x Hx. apply Hp. lia.
Qed.

Lemma ldb_byte m a c : byte m a = Some c -> ldb m a = Ok c.
Proof. unfold byte, ldb, ldw. destruct (m !! word a) as [w|]; [|done]. cbn. by intros [= ->]. Qed.

Lemma byte_range m a c : byte m a = Some c -> Z.land c 255 = c.
Proof.
  unfold byte. destruct (m !! word a) as [w|]; [|done]. cbn. intros [= <-]. unfold byte_in. by rewrite <- Z.land_assoc.
Qed.

Lemma mem_copy_ok n : forall m dst src,
  range_mapped m dst (Z.of_nat n) -> range_mapped m src (Z.of_nat n) ->
  (dst + Z.of_nat n <= src \/ src + Z.of_nat n <= dst) ->
  exists m', mem_copy n m dst src = Ok m' /\ bytes_written m m' dst (Z.of_nat n) (fun x => byte m (src + (x - dst))).
Proof.
  induction n as [|n IH]; intros m dst src Hd Hs Hdis; cbn [mem_copy].
  { exists m. split; [done|]. constructor; [done| |done]. intros x. unfold in_range. decide_cmp; done || lia. }
  destruct (byte m src) as [c|] eqn:Ec.
  2: { exfalso. destruct (Hs src) as [w Hw]; [lia|]. unfold byte in Ec. by rewrite Hw in Ec. }
  rewrite (ldb_byte _ _ _ Ec). cbn [obind].
  destruct (stb_ok m dst c) as (m1 & -> & D1 & B1 & W1); [apply Hd; lia|]. cbn [obind].
  destruct (IH m1 (dst + 1) (src + 1)) as (m2 & -> & [D2 B2 W2]).
  { apply (range_mapped_dom m); [done|]. intros x Hx. apply Hd. lia. }
  { apply (range_mapped_dom m); [done|]. intros x Hx. apply Hs. lia. }
  { lia. }
  exists m2. split; [done|]. constructor; [congruence| |].
  - intros x. rewrite B2, !B1. rewrite (byte_range _ _ _ Ec), <- Ec. unfold in_range. decide_cmp; simpl; try lia; try done;
      f_equal; lia.
  - intros p Hp. rewrite W2, W1; [done|apply Hp; lia|]. intros x Hx. apply Hp. lia.
Qed.

(** ** Zeroed blocks of the kernel heap *)

(** The static [mmap_calloc] and [elf_calloc] are this function; a [NULL] block
    is not mapped, so clearing it faults. *)
Definition heap_calloc (g : mm_gran) (m : wmem) (size : Z) : outcome (mm_gran * wmem * Z) :=
  let! (g, p) := gran_alloc g size in
  let! m := mem_fill (Z.to_nat size) m p 0 in
  Ok (g, m, p).

Definition page_of (p n q : Z) : Prop := exists k, 0 <= k < n /\ q = p + 4096 * k.

(** [g'] is the heap [g] less the [n] pages from [p]. *)
Record block_taken (g g' : mm_gran) (p n : Z) : Prop := {
  bt_wf : gran_wf g';
  bt_log : log2gran g' = 12;
  bt_was : forall q, page_of p n q -> free_page g q;
  bt_free : forall q, free_page g' q <-> free_page g q /\ ~ page_of p n q
}.

Definition pages_of (size : Z) : Z := (size + 4095) / 4096.

Lemma block_alloc g size g' p :
  gran_wf g -> log2gran g = 12 -> 0 < size <= 0x20000 -> gran_alloc g size = Ok (g', p) -> p <> 0 ->
  block_taken g g' p (pages_of size).
Proof.
  intros W H12 Hs Ha Hp. assert (Hn : granules_of g size = pages_of size).
  { unfold granules_of, pages_of. rewrite H12. change (2 ^ 12) with 4096. f_equal. lia. }
  destruct (gran_alloc_cases g size W) as [(i & t' & He & (Hi & Hend & Hfr) & _ & Hu)|[He _]];
    [rewrite H12; lia| |congruence].
  rewrite He in Ha. injection Ha as <- <-. rewrite Hn in *.
  assert (Hpg : forall q, page_of (granaddr g i) (pages_of size) q <-> exists j, i <= j < i + pages_of size /\ q = granaddr g j).
  { intros q. unfold page_of, granaddr. rewrite H12. change (2 ^ 12) with 4096. split.
    - intros (k & Hk & ->). exists (i + k). lia.
    - intros (j & Hj & ->). exists (j - i). lia. }
  constructor; [by eapply wf_set_gat|done| |].
  - intros q (j & Hj & ->)%Hpg. exists j. split; [lia|]. split; [by apply Hfr|done].
  - destruct Hu as (_ & _ & Hu). assert (Hbit : forall j, 0 <= j ->
      granule (set_gat g t') j = if (i <=? j) && (j <? i + pages_of size) then true else granule g j) by exact Hu.
    intros q. rewrite Hpg. split.
    + intros (j & Hj & Hf & ->). rewrite Hbit in Hf by lia. destr_if; [done|]. split; [by exists j|].
      intros (j' & Hj' & E'). change (granaddr (set_gat g t') j) with (granaddr g j) in E'.
      apply granaddr_inj in E'; [|lia]. subst j'. apply andb_false_iff in E as [E|E]; breflect; lia.
    + intros [(j & Hj & Hf & ->) Hno]. exists j. split; [done|]. split; [|done]. rewrite Hbit by lia.
      destr_if; [|done]. exfalso. apply Hno. exists j. breflect. split; [lia|done].
Qed.

Lemma pages_of_pages n : pages_of (4096 * n) = n.
Proof. unfold pages_of. Z.div_mod_to_equations. lia. Qed.

(** A page of the block around every byte of it. *)
Lemma block_page p size x : p mod 4096 = 0 -> 0 < size -> p <= x < p + size ->
  exists q k, page_of p (pages_of size) q /\ 0 <= k < 512 /\ word x = q + 8 * k.
Proof.
  intros Hp Hs Hx. exists (p + 4096 * ((x - p) / 4096)), ((x - p) mod 4096 / 8).
  unfold page_of, pages_of, word. split; [eexists; split; [|reflexivity]|]; Z.div_mod_to_equations; lia.
Qed.

Lemma wf_frame `{TableSpace} m m' R root :
  wf m R root -> (forall p r k, R !! p = Some r -> 0 <= k < 512 -> m' !! (p + 8 * k) = m !! (p + 8 * k)) -> wf m' R root.
Proof.
  intros [W1 W2 W3 W4 W5] Hs. constructor; [done| | | |done].
  - intros p r Hp. destruct (W2 p r Hp) as [Hok Hm]. split; [done|]. intros k Hk. rewrite (Hs p r k) by done. by apply Hm.
  - intros i d Hi. rewrite (Hs root Root i) by done. by apply W3.
  - intros t i j d Ht Hj. rewrite (Hs t (Mid i) j) by done. by apply W4.
Qed.

(** Writes to pages that are free, or no tables in any other way, leave the
    trees alone. *)
Lemma outside_tables root g m R g' m' lo size f :
  pt_inv root g m R -> bytes_written m m' lo size f ->
  (forall x p r k, lo <= x < lo + size -> R !! p = Some r -> 0 <= k < 512 -> p + 8 * k <> word x) ->
  (forall q, free_page g' q -> free_page g q) ->
  pt_inv root g' m' R /\ forall x, hw_walk m' root x = hw_walk m root x.
Proof.
  intros [Hwf Hrd Hun] [Hd _ Hw] Hno Hfree.
  assert (Hs : forall p r k, R !! p = Some r -> 0 <= k < 512 -> m' !! (p + 8 * k) = m !! (p + 8 * k)).
  { intros p r k Hp Hk. apply Hw. intros x Hx. by eapply Hno. }
  split; [constructor|].
  - by eapply wf_frame.
  - intros q Hq. destruct (Hrd q (Hfree q Hq)) as [Hok Hm]. split; [done|]. intros k Hk.
    apply elem_of_dom. rewrite Hd. apply elem_of_dom. by apply Hm.
  - intros q Hq. by apply Hun, Hfree.
  - intros x. apply (walk_frame m m' R); [done|]. intros p r k Hp Hk _. by eapply Hs.
Qed.

(** The virtual address of a block and its physical one. *)
Lemma block_ram root g m R g' p n :
  pt_inv root g m R -> block_taken g g' p n -> 0 < n ->
  p mod 4096 = 0 /\ RAM_VBASE <= p /\ p + 4096 * n <= RAM_VBASE + RAM_SIZE /\
  vbase_to_pbase p = p - RAM_VBASE + RAM_PBASE.
Proof.
  intros [_ Hrd _] [_ _ Hwas _] Hn.
  destruct (Hrd p) as [[Hp1 Hp2] _]; [apply Hwas; exists 0; lia|].
  destruct (Hrd (p + 4096 * (n - 1))) as [[Hq1 Hq2] _]; [apply Hwas; exists (n - 1); lia|].
  split; [done|]. split; [lia|]. split; [|by apply vbase_ram].
  unfold RAM_VBASE, RAM_SIZE in *. Z.div_mod_to_equations. lia.
Qed.

Lemma calloc_ok root g m R size g' p :
  pt_inv root g m R -> gran_wf g -> log2gran g = 12 -> 0 < size <= 0x20000 -> gran_alloc g size = Ok (g', p) -> p <> 0 ->
  exists m', heap_calloc g m size = Ok (g', m', p) /\ bytes_written m m' p size (fun _ => Some 0) /\
    block_taken g g' p (pages_of size) /\ pt_inv root g' m' R /\ (forall x, hw_walk m' root x = hw_walk m root x).
Proof.
  intros Hinv W H12 Hs Ha Hp. pose proof (block_alloc g size g' p W H12 Hs Ha Hp) as Hb.
  destruct (block_ram root g m R g' p (pages_of size) Hinv Hb) as (Hp4 & _).
  { unfold pages_of. Z.div_mod_to_equations. lia. }
  assert (Hpage : forall x, p <= x < p + size -> exists q k, free_page g q /\ 0 <= k < 512 /\ word x = q + 8 * k).
  { intros x Hx. destruct (block_page p size x) as (q & k & Hq & Hk & E); [done|lia|done|].
    exists q, k. split; [by apply Hb|done]. }
  destruct (mem_fill_ok 0 (Z.to_nat size) m p) as (m' & Hf & Hw).
  { intros x Hx. destruct (Hpage x) as (q & k & Hq & Hk & ->); [lia|]. by apply (pt_free_ready _ _ _ _ Hinv q Hq). }
  rewrite Z2Nat.id in Hw by lia. exists m'. unfold heap_calloc. rewrite Ha. cbn [obind]. rewrite Hf. split; [done|].
  split; [exact Hw|]. split; [done|]. apply (outside_tables root g m R g' m' p size (fun _ => Some 0)); [done|exact Hw| |].
  - intros x t r k Hx Ht Hk E. destruct (Hpage x Hx) as (q & l & Hq & Hl & E2). rewrite E2 in E.
    symmetry in E. revert E. apply (free_word root m R q t r l k); try done; [apply Hinv|by apply (pt_free_ready _ _ _ _ Hinv q Hq)|by apply Hinv].
  - intros q Hq. by apply (bt_free _ _ _ _ Hb).
Qed.

(** ** A zeroed block, mapped for user code *)

Definition has_perms (prot at_ : Z) : Prop :=
  let has b := negb (Z.land prot b =? 0) in
  user_access at_ = true /\ kernel_exec at_ = false /\ user_exec at_ = has PROT_EXEC /\
  writable at_ = negb (has PROT_READ) || has PROT_WRITE /\ memory_type at_ = MT_NORMAL.

(** The range of [r] shows the user the block at kernel address [q], whose first
    [rsize r] bytes are clear; the rest of its last page is what the heap held
    there.  Nothing else in the address space moved, and no word outside the block
    and the tables was written. *)
Record fresh_mapping (root : Z) (g : mm_gran) (m : wmem) (R : gmap Z role) (g' : mm_gran) (m' : wmem) (R' : gmap Z role)
    (r : mem_region) (q prot : Z) : Prop := {
  fm_inv : pt_inv root g' m' R';
  fm_sees : forall x, in_region r x -> exists at_,
    translate x (hw_walk m' root x) = Some (vbase_to_pbase q + (x - vbase r), at_) /\ has_perms prot at_;
  fm_rest : forall x, window 0 x -> ~ in_region r x -> hw_walk m' root x = hw_walk m root x;
  fm_zero : forall x, q <= x < q + rsize r -> byte m' x = Some 0;
  fm_page : forall k, page_of q (pages_of (rsize r)) k -> free_page g k /\ R' !! k = None /\ ~ free_page g' k;
  fm_free : forall k, free_page g' k -> free_page g k;
  fm_tables : forall p s, R' !! p = Some s -> R !! p = Some s \/ free_page g p;
  fm_dom : dom m' = dom m;
  fm_frame : forall w, (forall x, q <= x < q + rsize r -> w <> word x) ->
    (forall p s k, R' !! p = Some s -> 0 <= k < 512 -> w <> p + 8 * k) -> m' !! w = m !! w;
  fm_tail : forall x, q + rsize r <= x < q + 4096 * pages_of (rsize r) -> byte m' x = byte m x
}.

(** From the block and the mapping of it to what the user sees. *)
Lemma fresh_of_region root g m R r prot g1 q m1 g' m' R' :
  pt_inv root g m R -> 0 < rsize r -> pbase r = vbase_to_pbase q ->
  bytes_written m m1 q (rsize r) (fun _ => Some 0) -> block_taken g g1 q (pages_of (rsize r)) ->
  (forall x, hw_walk m1 root x = hw_walk m root x) ->
  pt_inv root g' m' R' -> grown g1 m1 R g' m' R' -> sees m' root r (as_attr prot RAM_NORMAL) ->
  (forall x, window 0 x -> ~ in_region r x -> hw_walk m' root x = hw_walk m1 root x) ->
  fresh_mapping root g m R g' m' R' r q prot.
Proof.
  intros Hinv Hpos Hpb [Hd Hby Hwd] Hb Hwalk Hi2 [G1 G2 G3 [G4 G5]] Hsee Hfr.
  destruct (as_attr_spec prot RAM_NORMAL) as (Hat & P1 & P2 & P3 & P4 & P5).
  assert (Hpg : forall k, page_of q (pages_of (rsize r)) k -> free_page g k /\ R' !! k = None /\ ~ free_page g' k).
  { intros k Hk. pose proof (bt_was _ _ _ _ Hb k Hk) as Hf. split; [done|].
    assert (~ free_page g1 k) by (rewrite (bt_free _ _ _ _ Hb); by intros []). split; [|by intros ?%G3].
    destruct (R' !! k) as [s|] eqn:E; [|done]. exfalso. destruct (G2 k s E) as [E2|]; [|done].
    by rewrite (pt_free_unused _ _ _ _ Hinv k Hf) in E2. }
  destruct (block_ram root g m R g1 q (pages_of (rsize r)) Hinv Hb) as (Hq4 & _).
  { unfold pages_of. Z.div_mod_to_equations. lia. }
  assert (Hkept : forall x, q <= x < q + 4096 * pages_of (rsize r) -> byte m' x = byte m1 x).
  { intros x Hx. destruct (block_page q (4096 * pages_of (rsize r)) x) as (k & j & Hk & Hj & E); [done|lia|done|].
    rewrite pages_of_pages in Hk. unfold byte. rewrite G5; [done|]. intros p s l Hp Hl. rewrite E. destruct (Hpg k Hk) as (Hf & Hn & _).
    apply (free_word root m' R' k p s j l); try done; [apply Hi2|by apply (pt_free_ready _ _ _ _ Hinv k Hf)]. }
  assert (Hfit : rsize r <= 4096 * pages_of (rsize r)) by (unfold pages_of; Z.div_mod_to_equations; lia).
  constructor; [done| | | |done| | |congruence| |].
  - intros x Hx. destruct (Hsee x Hx) as (at_ & Ht & E). exists at_. rewrite <- Hpb. split; [done|].
    unfold has_perms. rewrite (memory_type_same _ _ E).
    unfold user_access, kernel_exec, user_exec, writable in *. rewrite !(attr_same _ _ _ E) by lia. done.
  - intros x Hx Hn. rewrite Hfr by done. apply Hwalk.
  - intros x Hx. rewrite Hkept, Hby by lia. unfold in_range. decide_cmp; done || lia.
  - intros k Hk. by apply (bt_free _ _ _ _ Hb), G3.
  - intros p s Hp. destruct (G2 p s Hp) as [|Hf]; [by left|right]. by apply (bt_free _ _ _ _ Hb).
  - intros w Hx Ht. rewrite G5 by done. by apply Hwd.
  - intros x Hx. rewrite Hkept, Hby by lia. unfold in_range. decide_cmp; done || lia.
Qed.

Lemma as_map_fresh root g m R r prot rest g1 q :
  pt_inv root g m R -> gran_wf g -> log2gran g = 12 -> rsize r <= 0x20000 ->
  gran_alloc g (rsize r) = Ok (g1, q) -> q <> 0 -> pbase r = vbase_to_pbase q -> region_ok 0 r ->
  no_section 0 root m (vbase r) (region_end r) ->
  page_supply g1 (pages_needed (vbase r) (region_end r) (pbase r) + rest) ->
  exists m1 g' m' R', heap_calloc g m (rsize r) = Ok (g1, m1, q) /\
    as_map g1 m1 root r prot RAM_NORMAL = Ok (g', m', 0) /\ page_supply g' rest /\
    fresh_mapping root g m R g' m' R' r q prot.
Proof.
  intros Hinv W H12 Hsz Ha Hq Hpb Hro Hns Hsup. pose proof Hro as [Hpos _ _ _ _ _].
  destruct (calloc_ok root g m R (rsize r) g1 q) as (m1 & Hc & Hw & Hb & Hi1 & Hwalk); try done.
  destruct (as_attr_spec prot RAM_NORMAL) as (Hat & _).
  destruct (region_map_ok 0 root Sample.user_window g1 m1 R r (as_attr prot RAM_NORMAL) rest)
    as (g' & m' & R' & Hm & Hi2 & Hgr & Hs' & Hsee & Hfr); try done.
  { intros x Hx Hr d. rewrite Hwalk. by apply Hns. }
  exists m1, g', m', R'. do 3 (split; [done|]). by eapply fresh_of_region.
Qed.
