(* ===== verification/Space.v ===== *)
(** * Address spaces of programs

    What the tables of a program show of RAM, and the property that makes it the
    program's own: the memory behind its addresses is in use, belongs to no table
    and is shown once.  The file says which steps keep it: taking pages from the
    heap, giving back pages that are not shown, writing to what is shown, and
    showing a block that was free. *)

From Stdlib Require Import ZArith Lia Bool.
From stdpp Require Import base numbers list gmap.
From S2P Require Import Prelude Board Gran KList Task PageTable AddrSpace Bytes.
#[local] Open Scope Z_scope.

Lemma same_params_trans g1 g2 g3 : same_params g1 g2 -> same_params g2 g3 -> same_params g1 g3.
Proof. unfold same_params. intros (? & ? & ?) (? & ? & ?). split_and!; congruence. Qed.

(** ** Words in use

    A word is in use when it is neither in a free page nor in a page table.
    What the kernel does for a program keeps such words, their contents included. *)

Definition solid (g : mm_gran) (R : gmap Z role) (w : Z) : Prop :=
  (forall p k, free_page g p -> 0 <= k < 512 -> w <> p + 8 * k) /\
  (forall p r k, R !! p = Some r -> 0 <= k < 512 -> w <> p + 8 * k).

Record keeps (g : mm_gran) (m : wmem) (R : gmap Z role) (g' : mm_gran) (m' : wmem) (R' : gmap Z role) : Prop := {
  kp_shape : same_params g g';
  kp_dom : dom m' = dom m;
  kp_solid : forall w, solid g R w -> m' !! w = m !! w /\ solid g' R' w
}.

Lemma keeps_refl g m R : keeps g m R g m R.
Proof. constructor; [done|done|]. by split. Qed.

Lemma keeps_trans g1 m1 R1 g2 m2 R2 g3 m3 R3 :
  keeps g1 m1 R1 g2 m2 R2 -> keeps g2 m2 R2 g3 m3 R3 -> keeps g1 m1 R1 g3 m3 R3.
Proof.
  intros [S1 D1 K1] [S2 D2 K2]. constructor; [by eapply same_params_trans|congruence|].
  intros w Hw. destruct (K1 w Hw) as [E1 Hw2]. destruct (K2 w Hw2) as [E2 Hw3]. split; [congruence|done].
Qed.

(** Pages that are neither free nor tables. *)
Lemma page_solid root g m R q k : pt_inv root g m R -> q mod 4096 = 0 -> ~ free_page g q -> R !! q = None -> 0 <= k < 512 ->
  solid g R (q + 8 * k).
Proof.
  intros Hi Hq Hf HR Hk. split.
  - intros p l Hp Hl E. destruct (pt_free_ready _ _ _ _ Hi p Hp) as [[Hp4 _] _].
    destruct (page_word q p k l) as [-> _]; done.
  - intros p r l Hp Hl E. destruct (wf_pages _ _ _ (pt_wf _ _ _ _ Hi) p r Hp) as [[Hp4 _] _].
    destruct (page_word q p k l) as [-> _]; try done. congruence.
Qed.

(** The words of a block that a step takes from the heap are not in use. *)
Lemma solid_not_block g g1 R q size w x :
  block_taken g g1 q (pages_of size) -> q mod 4096 = 0 -> 0 < size -> q <= x < q + size -> solid g R w -> w <> word x.
Proof.
  intros Hb Hq Hs Hx [Hf _] ->. destruct (block_page q size x) as (p & k & Hp & Hk & E); try done.
  apply (Hf p k); [by apply Hb|done|done].
Qed.

Lemma calloc_keeps root g m R g1 m1 q size :
  pt_inv root g m R -> 0 < size -> block_taken g g1 q (pages_of size) -> q mod 4096 = 0 -> same_params g g1 ->
  bytes_written m m1 q size (fun _ => Some 0) -> keeps g m R g1 m1 R.
Proof.
  intros Hi Hs Hb Hq Hp [Hd _ Hw]. constructor; [done|done|]. intros w Hsol. split.
  - apply Hw. intros x Hx. by eapply solid_not_block.
  - destruct Hsol as [H1 H2]. split; [|done]. intros p k Hf. apply H1. by apply (bt_free _ _ _ _ Hb).
Qed.

Lemma fresh_keeps root g m R g1 g' m' R' r q prot :
  fresh_mapping root g m R g' m' R' r q prot -> block_taken g g1 q (pages_of (rsize r)) -> q mod 4096 = 0 -> 0 < rsize r ->
  same_params g g' -> (forall p s, R' !! p = Some s -> R !! p = Some s \/ free_page g p) -> keeps g m R g' m' R'.
Proof.
  intros [F1 F2 F3 F4 F5 F6 _ F7 F8 _] Hb Hq Hs Hp Hnew. constructor; [done|done|]. intros w Hsol.
  assert (Hnt : forall p s k, R' !! p = Some s -> 0 <= k < 512 -> w <> p + 8 * k).
  { intros p s k Hps Hk. destruct Hsol as [H1 H2]. destruct (Hnew p s Hps); [by eapply H2|by eapply H1]. }
  split; [|split; [|done]].
  - apply F8; [|done]. intros x Hx. by eapply solid_not_block.
  - intros p k Hf. by apply Hsol, F6.
Qed.

(** ** What a table shows *)

(** Is it RAM?  Behind the device page of a program there is none. *)
Definition in_ram (pa : Z) : bool := (RAM_PBASE <=? pa) && (pa <? RAM_PBASE + RAM_SIZE).

(** The RAM address and the attributes behind a user address. *)
Definition ram_at (m : wmem) (root x : Z) : option (Z * Z) :=
  if (0 <=? x) && (x <? 0x8000000000) then
    match translate x (hw_walk m root x) with
    | Some (pa, at_) => if in_ram pa then Some (pa, at_) else None
    | None => None
    end
  else None.

(** The byte there. *)
Definition byte_at (m : wmem) (root x : Z) : option Z :=
  match ram_at m root x with Some (pa, _) => byte m (pbase_to_vbase pa) | None => None end.

Lemma in_window x : (0 <=? x) && (x <? 0x8000000000) = true <-> window 0 x.
Proof. unfold window. rewrite andb_true_iff, Z.leb_le, Z.ltb_lt. split; [intros; split; [done|lia]|lia]. Qed.

Lemma in_ram_iff pa : in_ram pa = true <-> RAM_PBASE <= pa < RAM_PBASE + RAM_SIZE.
Proof. unfold in_ram. rewrite andb_true_iff, Z.leb_le, Z.ltb_lt. done. Qed.

Lemma ram_at_some m root x pa at_ : ram_at m root x = Some (pa, at_) <->
  window 0 x /\ translate x (hw_walk m root x) = Some (pa, at_) /\ RAM_PBASE <= pa < RAM_PBASE + RAM_SIZE.
Proof.
  unfold ram_at. rewrite <- in_ram_iff. destruct ((0 <=? x) && (x <? 0x8000000000)) eqn:E.
  - apply in_window in E. destruct (translate _ _) as [[pb b]|]; [|split; [done|by intros (_ & ? & _)]].
    destruct (in_ram pb) eqn:Er; (split; [first [by intros [= <- <-]|done]|]); intros (_ & [= <- <-] & Hr); congruence.
  - split; [done|]. intros [Hw%in_window _]. congruence.
Qed.

Lemma ram_at_same m m' root x : (window 0 x -> hw_walk m' root x = hw_walk m root x) -> ram_at m' root x = ram_at m root x.
Proof. intros Hw. unfold ram_at. destruct (_ && _) eqn:E; [|done]. apply in_window in E. by rewrite Hw. Qed.

Lemma ram_at_unmapped m root x : hw_walk m root x = LNone -> ram_at m root x = None.
Proof. intros E. unfold ram_at. rewrite E. by destruct (_ && _). Qed.

(** ** Memory of one's own *)

(** [xs] are pages of the kernel that are not shown either. *)
Record private (root : Z) (g : mm_gran) (m : wmem) (R : gmap Z role) (xs : list Z) : Prop := {
  pv_confined : forall x pa at_, ram_at m root x = Some (pa, at_) ->
    solid g R (word (pbase_to_vbase pa)) /\ is_Some (m !! word (pbase_to_vbase pa)) /\
    forall p k, p ∈ xs -> 0 <= k < 512 -> word (pbase_to_vbase pa) <> p + 8 * k;
  pv_exclusive : forall x y pa a b, ram_at m root x = Some (pa, a) -> ram_at m root y = Some (pa, b) -> x = y;
  pv_pages : no_section 0 root m 0 0x8000000000
}.

(** A space without a page. *)
Lemma private_empty root g m R xs : (forall x, hw_walk m root x = LNone) -> private root g m R xs.
Proof.
  intros Hz. constructor.
  - intros x pa at_. by rewrite ram_at_unmapped.
  - intros x y pa a b. by rewrite ram_at_unmapped.
  - intros x _ _ d. by rewrite Hz.
Qed.

(** Steps that show the same and leave what is shown in use. *)
Lemma private_same root g m R xs g' m' R' xs' : private root g m R xs ->
  (forall x, window 0 x -> hw_walk m' root x = hw_walk m root x) -> dom m' = dom m ->
  (forall w, solid g R w -> (forall p k, p ∈ xs -> 0 <= k < 512 -> w <> p + 8 * k) ->
     solid g' R' w /\ forall p k, p ∈ xs' -> 0 <= k < 512 -> w <> p + 8 * k) ->
  private root g' m' R' xs'.
Proof.
  intros [P1 P2 P3] Hw Hd Hs. assert (Hat : forall x, ram_at m' root x = ram_at m root x) by (intros x; by apply ram_at_same, Hw).
  constructor.
  - intros x pa at_. rewrite Hat. intros Hx. destruct (P1 x pa at_ Hx) as (H1 & H2 & H3). destruct (Hs _ H1 H3) as [H4 H5].
    split; [done|]. split; [|done]. apply elem_of_dom. rewrite Hd. by apply elem_of_dom.
  - intros x y pa a b. rewrite !Hat. apply P2.
  - intros x Hx Hr d. rewrite Hw by done. by apply P3.
Qed.

(** ** Sections stay away *)

(** A section covers its 2 MiB block. *)
Lemma section_block m root x y d : x / 0x200000 = y / 0x200000 -> hw_walk m root x = LSect d -> hw_walk m root y = LSect d.
Proof.
  intros E. assert (E1 : ix1 y = ix1 x) by (unfold ix1; Z.div_mod_to_equations; lia).
  assert (E2 : ix2 y = ix2 x) by (unfold ix2; by rewrite E). unfold hw_walk. rewrite E1.
  destruct (m !! (root + 8 * ix1 x)) as [d1|]; [|done]. destruct (Z.land d1 3 =? 3); [|done]. unfold mid_walk. rewrite E2.
  destruct (m !! (of_desc (Z.land d1 HW_ADDR_MASK) + 8 * ix2 x)) as [d2|]; [|done]. destruct (Z.land d2 3 =? 1); [done|].
  destruct (Z.land d2 3 =? 3); [|done]. unfold last_walk. destruct (m !! _) as [d3|]; [|done]. by destruct (Z.land d3 3 =? 3).
Qed.

(** A range of less than 1 MiB is mapped by pages: some address of the block
    lies outside it and kept its walk. *)
Lemma no_section_grow root m m' lo hi top : hi <= lo + 0x100000 ->
  (forall x, window 0 x -> ~ (lo <= x < hi) -> hw_walk m' root x = hw_walk m root x) ->
  no_section 0 root m 0 top -> no_section 0 root m' 0 top.
Proof.
  intros Hn Hrest Hns x Hx Hr d Hd. set (b := x / 0x200000 * 0x200000).
  assert (Hy : exists y, y / 0x200000 = x / 0x200000 /\ window 0 y /\ ~ (lo <= y < hi)).
  { destruct Hx as [_ Hx]. destruct (decide (lo <= b < hi)).
    - exists (b + 0x100000). unfold window, b in *. split; [Z.div_mod_to_equations; lia|]. split; [|lia].
      split; [done|]. Z.div_mod_to_equations. lia.
    - exists b. unfold window, b in *. split; [Z.div_mod_to_equations; lia|]. split; [|lia]. split; [done|]. Z.div_mod_to_equations. lia. }
  destruct Hy as (y & Eb & Wy & Hny). apply (section_block _ _ x y) in Hd; [|done].
  rewrite (Hrest y Wy Hny) in Hd. apply (section_block _ _ y x) in Hd; [|done]. by apply (Hns x Hx Hr d).
Qed.

(** ** A new range *)

(** [n] pages of the heap at [q], of which the first [size] bytes are clear, are
    shown from address [lo]. *)
Record extends (root : Z) (g : mm_gran) (m : wmem) (R : gmap Z role) (g' : mm_gran) (m' : wmem) (R' : gmap Z role)
    (lo n size q : Z) : Prop := {
  ex_inv : pt_inv root g' m' R';
  ex_range : 0 <= lo /\ lo + 4096 * n <= 0x8000000000 /\ 0 <= size <= 4096 * n;
  ex_new : forall x, lo <= x < lo + 4096 * n -> exists at_, translate x (hw_walk m' root x) = Some (vbase_to_pbase q + (x - lo), at_);
  ex_rest : forall x, window 0 x -> ~ (lo <= x < lo + 4096 * n) -> hw_walk m' root x = hw_walk m root x;
  ex_zero : forall i, 0 <= i < size -> byte m' (q + i) = Some 0;
  ex_page : forall k, page_of q n k -> free_page g k /\ R' !! k = None /\ ~ free_page g' k;
  ex_dom : dom m' = dom m;
  ex_solid : forall w, solid g R w -> m' !! w = m !! w /\ solid g' R' w
}.

Lemma solid_frame (g : mm_gran) (m : wmem) R (g' : mm_gran) (m' : wmem) R' :
  (forall k, free_page g' k -> free_page g k) -> (forall t r, R' !! t = Some r -> R !! t = Some r \/ free_page g t) ->
  (forall w, (forall k j, free_page g k -> 0 <= j < 512 -> w <> k + 8 * j) ->
     (forall t r k, R' !! t = Some r -> 0 <= k < 512 -> w <> t + 8 * k) -> m' !! w = m !! w) ->
  forall w, solid g R w -> m' !! w = m !! w /\ solid g' R' w.
Proof.
  intros Hf Ht Hm w [H1 H2].
  assert (H3 : forall t r k, R' !! t = Some r -> 0 <= k < 512 -> w <> t + 8 * k).
  { intros t r k Hr Hk. destruct (Ht t r Hr); [by eapply H2|by eapply H1]. }
  split; [by apply Hm|]. split; [|done]. intros k j Hk. by apply H1, Hf.
Qed.

(** A fresh mapping is one. *)
Lemma fresh_extends root g m R g' m' R' r q prot :
  pt_inv root g m R -> fresh_mapping root g m R g' m' R' r q prot -> 0 <= vbase r -> vbase r mod 4096 = 0 -> 0 < rsize r ->
  region_end r <= 0x8000000000 -> extends root g m R g' m' R' (vbase r) (pages_of (rsize r)) (rsize r) q.
Proof.
  intros HI [F1 F2 F3 F4 F5 F6 F7 F8 F9 _] H0 Ha4 Hs Hre. set (n := pages_of (rsize r)).
  assert (Hn : region_end r = vbase r + 4096 * n /\ rsize r <= 4096 * n /\ 0 < n).
  { unfold region_end, n, pages_of. Z.div_mod_to_equations. lia. }
  destruct Hn as (Hn1 & Hn2 & Hn3).
  assert (Hin : forall x, in_region r x <-> vbase r <= x < vbase r + 4096 * n) by (intros x; unfold in_region; by rewrite Hn1).
  assert (Hq4 : forall k, free_page g k -> k mod 4096 = 0).
  { intros k Hk. by destruct (pt_free_ready _ _ _ _ HI k Hk) as [[? _] _]. }
  constructor; try done.
  - lia.
  - intros x Hx. destruct (F2 x) as (at_ & Ht & _); [by apply Hin|]. by exists at_.
  - intros x Hx Hnx. apply F3; [done|]. by rewrite Hin.
  - intros i Hi. apply F4. lia.
  - apply solid_frame; [done|done|]. intros w Hw Ht. apply F9; [|done]. intros x Hx ->.
    assert (Hpq : page_of q n q) by (exists 0; lia).
    destruct (block_page q (rsize r) x) as (k & j & Hk & Hj & E); [apply Hq4, (F5 q Hpq)|done|done|].
    by apply (Hw k j (proj1 (F5 k Hk)) Hj).
Qed.

Section Extends.
Context {root : Z} {g g' : mm_gran} {m m' : wmem} {R R' : gmap Z role} {lo n size q : Z} {xs : list Z}.
Hypothesis HI : pt_inv root g m R.
Hypothesis HE : extends root g m R g' m' R' lo n size q.

(** The bytes of the block, their pages and their addresses. *)
Lemma block_byte i : 0 <= i < 4096 * n ->
  let pa := vbase_to_pbase q + i in
  pbase_to_vbase pa = q + i /\ RAM_PBASE <= pa < RAM_PBASE + RAM_SIZE /\
  exists k j, page_of q n k /\ 0 <= j < 512 /\ k mod 4096 = 0 /\ word (q + i) = k + 8 * j.
Proof.
  intros Hi pa. set (k := q + 4096 * (i / 4096)).
  assert (Hk : page_of q n k) by (exists (i / 4096); split; [Z.div_mod_to_equations; lia|done]).
  assert (H0 : page_of q n q) by (exists 0; split; [Z.div_mod_to_equations; lia|lia]).
  destruct (ex_page _ _ _ _ _ _ _ _ _ _ _ HE k Hk) as (Hf & _). destruct (ex_page _ _ _ _ _ _ _ _ _ _ _ HE q H0) as (Hf0 & _).
  destruct (pt_free_ready _ _ _ _ HI k Hf) as [[Hk4 Hkr] _]. destruct (pt_free_ready _ _ _ _ HI q Hf0) as [[Hq4 Hqr] _].
  assert (Hr : RAM_VBASE <= q + i < RAM_VBASE + RAM_SIZE).
  { unfold k, RAM_VBASE, RAM_SIZE in *. Z.div_mod_to_equations. lia. }
  assert (Epa : pa = q + i - RAM_VBASE + RAM_PBASE) by (unfold pa; rewrite vbase_ram by done; lia).
  assert (Hp : RAM_PBASE <= pa < RAM_PBASE + RAM_SIZE) by lia.
  split; [rewrite pbase_ram by done; lia|]. split; [done|]. exists k, (i mod 4096 / 8). split; [done|].
  split; [Z.div_mod_to_equations; lia|]. split; [done|]. unfold word, k. Z.div_mod_to_equations. lia.
Qed.

Lemma ram_at_new x : lo <= x < lo + 4096 * n -> exists at_, ram_at m' root x = Some (vbase_to_pbase q + (x - lo), at_).
Proof.
  intros Hx. destruct (ex_new _ _ _ _ _ _ _ _ _ _ _ HE x Hx) as (at_ & Ht). exists at_. apply ram_at_some.
  split; [|split; [done|apply (block_byte (x - lo)); lia]]. destruct (ex_range _ _ _ _ _ _ _ _ _ _ _ HE). split; [done|lia].
Qed.

Lemma ram_at_old x : ~ (lo <= x < lo + 4096 * n) -> ram_at m' root x = ram_at m root x.
Proof. intros Hx. apply ram_at_same. intros Hw. by apply (ex_rest _ _ _ _ _ _ _ _ _ _ _ HE). Qed.

Lemma in_new x : {lo <= x < lo + 4096 * n} + {~ (lo <= x < lo + 4096 * n)}.
Proof. destruct (decide (lo <= x)), (decide (x < lo + 4096 * n)); [left; lia|right; lia..]. Qed.

Hypothesis HP : private root g m R xs.

(** The block was free, so no old address leads to it. *)
Lemma new_not_old x y pa a b : lo <= x < lo + 4096 * n -> ~ (lo <= y < lo + 4096 * n) ->
  ram_at m' root x = Some (pa, a) -> ram_at m' root y = Some (pa, b) -> False.
Proof.
  intros Hx Hy Ex Ey. destruct (ram_at_new x Hx) as (c & E). rewrite E in Ex. injection Ex as <- _.
  rewrite ram_at_old in Ey by done. destruct (pv_confined _ _ _ _ _ HP _ _ _ Ey) as ([Hs _] & _).
  destruct (block_byte (x - lo)) as (Ek & _ & k & j & Hk & Hj & _ & Ew); [lia|]. rewrite Ek, Ew in Hs.
  destruct (ex_page _ _ _ _ _ _ _ _ _ _ _ HE k Hk) as (Hf & _). by apply (Hs k j).
Qed.

(** The pages [xs] are in use. *)
Hypothesis Hxs : forall p k, p ∈ xs -> 0 <= k < 512 -> solid g R (p + 8 * k).

Lemma extends_private : n <= 32 -> private root g' m' R' xs.
Proof.
  intros Hn. constructor.
  - intros x pa at_ Hx. destruct (in_new x) as [Hx1|Hx1].
    + destruct (ram_at_new x Hx1) as (b & E). rewrite E in Hx. injection Hx as <- _.
      destruct (block_byte (x - lo)) as (-> & Hr & k & j & Hk & Hj & Hk4 & Ew); [lia|]. rewrite Ew.
      destruct (ex_page _ _ _ _ _ _ _ _ _ _ _ HE k Hk) as (Hf & HR & Hnf). split; [|split].
      * eapply page_solid; [apply (ex_inv _ _ _ _ _ _ _ _ _ _ _ HE)|done..].
      * apply elem_of_dom. rewrite (ex_dom _ _ _ _ _ _ _ _ _ _ _ HE). apply elem_of_dom. by apply (pt_free_ready _ _ _ _ HI k Hf).
      * intros p l Hp Hl E2. destruct (Hxs p l Hp Hl) as [Hs _]. by apply (Hs k j).
    + rewrite ram_at_old in Hx by done. destruct (pv_confined _ _ _ _ _ HP x pa at_ Hx) as (Hs & Hm & Hno).
      destruct (ex_solid _ _ _ _ _ _ _ _ _ _ _ HE _ Hs) as [-> Hs']. done.
  - intros x y pa a b Ex Ey. destruct (in_new x) as [Hx|Hx], (in_new y) as [Hy|Hy].
    + destruct (ram_at_new x Hx) as (c & E). rewrite E in Ex. injection Ex as E1 _.
      destruct (ram_at_new y Hy) as (d & E'). rewrite E' in Ey. injection Ey as E2 _. lia.
    + exfalso. by eapply (new_not_old x y).
    + exfalso. by eapply (new_not_old y x).
    + rewrite ram_at_old in Ex, Ey by done. by eapply (pv_exclusive _ _ _ _ _ HP).
  - apply (no_section_grow root m m' lo (lo + 4096 * n)); [lia|apply (ex_rest _ _ _ _ _ _ _ _ _ _ _ HE)|apply HP].
Qed.

(** What the program sees of it: cleared bytes, then what [stale] says of the
    rest of the block. *)
Lemma extends_view stale : (forall i, size <= i < 4096 * n -> byte m' (q + i) = stale i) ->
  (forall x, lo <= x < lo + size -> byte_at m' root x = Some 0) /\
  (forall x, lo + size <= x < lo + 4096 * n -> byte_at m' root x = stale (x - lo) /\ is_Some (byte_at m' root x)) /\
  forall x, ~ (lo <= x < lo + 4096 * n) -> byte_at m' root x = byte_at m root x.
Proof.
  intros Hst. assert (Hnew : forall x, lo <= x < lo + 4096 * n -> byte_at m' root x = byte m' (q + (x - lo))).
  { intros x Hx. unfold byte_at. destruct (ram_at_new x Hx) as (c & ->). by rewrite (proj1 (block_byte (x - lo) ltac:(lia))). }
  destruct (ex_range _ _ _ _ _ _ _ _ _ _ _ HE) as (_ & _ & Hsz). split; [|split].
  - intros x Hx. rewrite Hnew by lia. apply (ex_zero _ _ _ _ _ _ _ _ _ _ _ HE). lia.
  - intros x Hx. rewrite Hnew by lia. split; [apply Hst; lia|]. destruct (block_byte (x - lo)) as (_ & _ & k & j & Hk & Hj & _ & Ew); [lia|].
    destruct (pt_free_ready _ _ _ _ HI k (proj1 (ex_page _ _ _ _ _ _ _ _ _ _ _ HE k Hk))) as [_ Hm].
    assert (Hw : is_Some (m' !! (k + 8 * j))).
    { apply elem_of_dom. rewrite (ex_dom _ _ _ _ _ _ _ _ _ _ _ HE). apply elem_of_dom. by apply Hm. }
    unfold byte. rewrite Ew. destruct Hw as [w ->]. by eexists.
  - intros x Hx. unfold byte_at. rewrite ram_at_old by done. destruct (ram_at m root x) as [[pa at_]|] eqn:E; [|done].
    destruct (pv_confined _ _ _ _ _ HP _ _ _ E) as (Hs & _). unfold byte. by rewrite (proj1 (ex_solid _ _ _ _ _ _ _ _ _ _ _ HE _ Hs)).
Qed.
End Extends.

(** A mapping of something that is not RAM. *)
Lemma private_device root g m R g' m' R' xs r attr :
  private root g m R xs -> region_end r <= vbase r + 0x100000 -> pbase r + (region_end r - vbase r) <= RAM_PBASE ->
  sees m' root r attr -> (forall x, window 0 x -> ~ in_region r x -> hw_walk m' root x = hw_walk m root x) -> dom m' = dom m ->
  (forall w, solid g R w -> solid g' R' w) -> private root g' m' R' xs.
Proof.
  intros [P1 P2 P3] Hr Hp Hsee Hrest Hd Hs.
  assert (Hat : forall x pa at_, ram_at m' root x = Some (pa, at_) -> ram_at m root x = Some (pa, at_)).
  { intros x pa at_ Hx. destruct (decide (vbase r <= x)) as [H1|H1], (decide (x < region_end r)) as [H2|H2].
    1: { apply ram_at_some in Hx as (_ & Ht & Hram). destruct (Hsee x) as (b & Ht2 & _); [done|]. rewrite Ht2 in Ht. injection Ht as <- _. lia. }
    all: rewrite <- Hx; symmetry; apply ram_at_same; intros Hw; apply Hrest; [done|unfold in_region; lia]. }
  constructor.
  - intros x pa at_ Hx%Hat. destruct (P1 x pa at_ Hx) as (H1 & H2 & H3). split; [by apply Hs|]. split; [|done].
    apply elem_of_dom. rewrite Hd. by apply elem_of_dom.
  - intros x y pa a b Hx%Hat Hy%Hat. by eapply P2.
  - by apply (no_section_grow root m m' (vbase r) (region_end r)).
Qed.
