(* ===== verification/Mmap.v ===== *)
(** * The program break and anonymous mappings (os/core/mm/mmap.c)

    [sys_brk] and [sys_mmap] give the running task zeroed memory from the
    kernel heap.  Each mapping is recorded in a list of areas that hangs off
    the task; areas that the kernel places itself stack up downwards from
    [mmap_base]. *)

From Stdlib Require Import ZArith Lia Bool String.
From stdpp Require Import base numbers list gmap.
From S2P Require Import Prelude Board Gran KList Task PageTable AddrSpace Bytes.
#[local] Open Scope Z_scope.

Definition MAP_SHARED : Z := 0x01.
Definition MAP_PRIVATE : Z := 0x02.
Definition MAP_FIXED : Z := 0x10.
Definition MAP_ANONYMOUS : Z := 0x20.
Definition EINVAL : Z := 22.
Definition ENOMEM : Z := 12.
Definition MAX_ERRNO : Z := 4096.

(** [-EINVAL] as an [unsigned long]. *)
Definition neg (e : Z) : Z := u64 (- e).

Definition IS_ERR_VALUE (x : Z) : bool := u64 (- MAX_ERRNO) <=? x.

Definition PAGE_ALIGN (x : Z) : Z := ALIGN x 4096.

Record vm_area : Type := MkVma {
  vm_start : Z; vm_end : Z; vm_prot : Z; vm_flags : Z; vm_name : string
}.

Definition SIZEOF_VM_AREA : Z := 136.

(** What the calls change: heap, memory, list links, areas and the task. *)
Record mm_state : Type := MkMM {
  mm_heap : mm_gran;
  mm_mem : wmem;
  mm_links : store;
  mm_vmas : gmap Z vm_area;
  mm_task : tcb;
  mm_self : Z                (* address of the running task's control block *)
}.

Definition set_heap_mem (s : mm_state) (g : mm_gran) (m : wmem) : mm_state :=
  MkMM g m (mm_links s) (mm_vmas s) (mm_task s) (mm_self s).

Definition set_area_list (s : mm_state) (l : store) (vs : gmap Z vm_area) : mm_state :=
  MkMM (mm_heap s) (mm_mem s) l vs (mm_task s) (mm_self s).

Definition set_brk (s : mm_state) (b : Z) : mm_state :=
  let t := mm_task s in let a := mm t in
  MkMM (mm_heap s) (mm_mem s) (mm_links s) (mm_vmas s)
    (set_mm t (MkMm (mmap_base a) (start_brk a) b (start_stack a) (end_stack a) (start_code a) (end_code a)
                 (start_data a) (end_data a) (start_bss a) (end_bss a))) (mm_self s).

(** [&current->mm.link_head] *)
Definition area_head (s : mm_state) : Z := mm_self s + MM_LINK_OFFSET.

Definition mmap_calloc (s : mm_state) (size : Z) : outcome (mm_state * Z) :=
  let! (g, m, p) := heap_calloc (mm_heap s) (mm_mem s) size in
  Ok (set_heap_mem s g m, p).

Definition sys_brk (s : mm_state) (b : Z) : outcome (mm_state * Z) :=
  let a := mm (mm_task s) in
  if b <? start_brk a then Ok (s, brk a)
  else
    let heap_size := s32 (b - brk a) in
    let! s :=
      (if 0 <? heap_size then
         let! (s, vaddr) := mmap_calloc s heap_size in
         let region := MkRegion (vbase_to_pbase vaddr) (brk a) heap_size in
         let! (g, m, _) := as_map (mm_heap s) (mm_mem s) (addrspace (mm_task s)) region
                             (Z.lor PROT_READ PROT_WRITE) RAM_NORMAL in
         Ok (set_heap_mem s g m)
       else Ok s) in
    Ok (set_brk s b, b).

(** The first area of the list decides; the loop of the source returns in its
    first turn. *)
Definition find_free_vma (s : mm_state) (len : Z) : outcome (Z * Z) :=
  let! e := list_empty (mm_links s) (area_head s) in
  if e then
    let base := mmap_base (mm (mm_task s)) in
    Ok (u64 (base - len), base)
  else
    let! first := get_next (mm_links s) (area_head s) in
    match mm_vmas s !! first with
    | Some v => Ok (u64 (vm_start v - len), vm_start v)
    | None => Fault
    end.

Definition mmap_region (s : mm_state) (addr len prot : Z) : outcome (mm_state * Z) :=
  let! (s, vaddr) := mmap_calloc s len in
  let region := MkRegion (vbase_to_pbase vaddr) addr len in
  let! (g, m, ret) := as_map (mm_heap s) (mm_mem s) (addrspace (mm_task s)) region prot RAM_NORMAL in
  Ok (set_heap_mem s g m, if ret =? 0 then addr else u64 ret).

Definition area_name (flags : Z) : string :=
  if flags =? MAP_PRIVATE then "MAP_PRIVATE"
  else if flags =? Z.lor MAP_PRIVATE MAP_ANONYMOUS then "MAP_PRIVATE | MAP_ANONYMOUS"
  else if flags =? Z.lor (Z.lor MAP_PRIVATE MAP_ANONYMOUS) MAP_FIXED then "MAP_PRIVATE | MAP_ANONYMOUS | MAP_FIXED"
  else if flags =? MAP_SHARED then "MAP_SHARED"
  else if flags =? Z.lor MAP_SHARED MAP_ANONYMOUS then "MAP_SHARED | MAP_ANONYMOUS"
  else if flags =? Z.lor (Z.lor MAP_SHARED MAP_ANONYMOUS) MAP_FIXED then "MAP_SHARED | MAP_ANONYMOUS | MAP_FIXED"
  else "UNKNOWN".

(** The areas that [sys_dumpvma] prints; it ends when the walk over the list
    is back at the head. *)
Definition sys_dumpvma (s : mm_state) : outcome (list (option vm_area)) :=
  let! first := get_next (mm_links s) (area_head s) in
  let! l := list_walk (S (size (dom (mm_links s)))) (mm_links s) first (area_head s) in
  Ok (map (fun p => mm_vmas s !! p) l).

(** The new area's list node appears with its block; its fields are kept in
    [mm_vmas]. *)
Definition do_mmap (s : mm_state) (addr len prot flags : Z) : outcome (mm_state * Z) :=
  let! (s, p) := mmap_calloc s SIZEOF_VM_AREA in
  let! l := INIT_LIST_HEAD (<[p := MkNode 0 0]> (mm_links s)) p in
  let s := set_area_list s l (mm_vmas s) in
  let! (start, end_) := (if addr =? 0 then find_free_vma s len else Ok (addr, u64 (addr + len))) in
  let! l := list_add (mm_links s) p (area_head s) in
  let s := set_area_list s l (<[p := MkVma start end_ prot flags (area_name flags)]> (mm_vmas s)) in
  let! _ := sys_dumpvma s in
  mmap_region s start len prot.

Definition sys_mmap (s : mm_state) (start len prot flags fd off : Z) : outcome (mm_state * Z) :=
  if (negb (Z.land flags MAP_PRIVATE =? 0)) || (negb (Z.land flags MAP_SHARED =? 0)) then
    if len =? 0 then Ok (s, neg EINVAL)
    else
      let! (s, ret) := do_mmap s (PAGE_ALIGN start) (PAGE_ALIGN len) prot flags in
      if IS_ERR_VALUE ret then Ok (s, neg ENOMEM) else Ok (s, ret)
  else Ok (s, neg EINVAL).

Definition sys_munmap (s : mm_state) (addr len : Z) : outcome (mm_state * Z) := Ok (s, 0).

(** ** The areas of a task *)

(** Where the next area will end. *)
Definition lowest (vs : gmap Z vm_area) (base : Z) (xs : list Z) : Z :=
  match xs with
  | [] => base
  | p :: _ => match vs !! p with Some v => vm_start v | None => 0 end
  end.

(** Every area ends where the one made before it starts. *)
Fixpoint stacked (vs : gmap Z vm_area) (base : Z) (xs : list Z) : Prop :=
  match xs with
  | [] => True
  | p :: xs =>
      (exists v, vs !! p = Some v /\ 0 <= vm_start v < vm_end v /\ vm_end v = lowest vs base xs /\ vm_start v mod 4096 = 0) /\
      stacked vs base xs
  end.

Record areas (s : mm_state) (R : gmap Z role) (xs : list Z) : Prop := {
  ar_pt : pt_inv (addrspace (mm_task s)) (mm_heap s) (mm_mem s) R;
  ar_wf : gran_wf (mm_heap s);
  ar_log : log2gran (mm_heap s) = 12;
  ar_list : dlist (mm_links s) (area_head s) xs;
  ar_nodes : forall x, x ∈ area_head s :: xs -> ~ free_page (mm_heap s) x;
  ar_stack : stacked (mm_vmas s) (mmap_base (mm (mm_task s))) xs;
  ar_base : 0 <= mmap_base (mm (mm_task s)) <= 0x8000000000 /\ mmap_base (mm (mm_task s)) mod 4096 = 0;
  ar_low : no_section 0 (addrspace (mm_task s)) (mm_mem s) 0 (lowest (mm_vmas s) (mmap_base (mm (mm_task s))) xs)
}.

Lemma lowest_bounds vs base xs : stacked vs base xs -> 0 <= base <= 0x8000000000 -> base mod 4096 = 0 ->
  0 <= lowest vs base xs <= base /\ lowest vs base xs mod 4096 = 0.
Proof.
  intros Hs Hb Hm. induction xs as [|p xs IH]; cbn [lowest]; [lia|].
  destruct Hs as [(v & -> & Hv & He & Ha) Hs]. specialize (IH Hs). lia.
Qed.

Lemma stacked_new vs base p v xs : p ∉ xs -> stacked vs base xs ->
  stacked (<[p := v]> vs) base xs /\ lowest (<[p := v]> vs) base xs = lowest vs base xs.
Proof.
  induction xs as [|q xs IH]; intros Hp Hs; [done|]. apply not_elem_of_cons in Hp as [Hne Hp].
  destruct Hs as [(w & Hw & H1 & H2 & H3) Hs]. destruct (IH Hp Hs) as [IH1 IH2].
  cbn [stacked lowest]. rewrite lookup_insert_ne by done. split; [|done]. split; [|done].
  exists w. by rewrite IH2.
Qed.

(** Areas of a stack do not overlap. *)
Lemma stacked_disjoint vs base xs : stacked vs base xs -> forall i j p q v w,
  (i < j)%nat -> xs !! i = Some p -> xs !! j = Some q -> vs !! p = Some v -> vs !! q = Some w -> vm_end v <= vm_start w.
Proof.
  assert (Hle : forall ys j q w, stacked vs base ys -> ys !! j = Some q -> vs !! q = Some w -> lowest vs base ys <= vm_start w).
  { induction ys as [|y ys IH]; intros j q w Hs Hj Hw; [done|]. destruct Hs as [(u & Hu & Hu1 & Hu2 & _) Hs].
    cbn [lowest]. rewrite Hu. destruct j as [|j]; simpl in Hj; [injection Hj as ->; rewrite Hu in Hw; injection Hw as ->; lia|].
    specialize (IH j q w Hs Hj Hw). lia. }
  induction xs as [|x xs IH]; intros Hs i j p q v w Hij Hi Hj Hv Hw; [done|].
  destruct Hs as [(u & Hu & _ & Hu2 & _) Hs]. destruct j as [|j]; [lia|]. simpl in Hj.
  destruct i as [|i]; simpl in Hi; simplify_eq; [|by apply (IH Hs i j p q v w); [lia|..]].
  rewrite Hu2. by apply (Hle xs j q w).
Qed.

(** ** The steps of [do_mmap] *)

Lemma find_free_vma_ok s xs len : dlist (mm_links s) (area_head s) xs ->
  stacked (mm_vmas s) (mmap_base (mm (mm_task s))) xs ->
  let low := lowest (mm_vmas s) (mmap_base (mm (mm_task s))) xs in
  0 <= len <= low -> low <= 0x8000000000 -> find_free_vma s len = Ok (low - len, low).
Proof.
  intros Hd Hs low Hl Hb. unfold find_free_vma. rewrite (list_empty_ok _ _ _ Hd). cbn [obind].
  destruct xs as [|p xs]; [by rewrite bool_decide_eq_true_2, u64_id by (done || (simpl in low; lia))|].
  rewrite bool_decide_eq_false_2 by done. destruct (dlist_head_next _ _ _ Hd) as (q & Hq & Hn).
  simpl in Hq. simplify_eq. rewrite (get_next_ok _ _ _ Hn). cbn [obind].
  destruct Hs as [(v & Hv & _) _]. unfold low in *. cbn [lowest] in *. rewrite Hv in *. by rewrite u64_id by lia.
Qed.

Lemma dumpvma_ok s xs : dlist (mm_links s) (area_head s) xs ->
  sys_dumpvma s = Ok (map (fun p => mm_vmas s !! p) xs).
Proof.
  intros Hd. unfold sys_dumpvma. destruct (dlist_head_next _ _ _ Hd) as (q & Hq & Hn).
  rewrite (get_next_ok _ _ _ Hn). cbn [obind]. rewrite (list_walk_ok _ _ [] xs); [done|done|done|].
  pose proof Hd as [Hnd _]. apply NoDup_cons in Hnd as [_ Hnd]. apply Nat.lt_succ_r.
  rewrite <- (size_list_to_set (C := gset Z) xs) by done. apply subseteq_size. intros x Hx.
  apply elem_of_list_to_set in Hx. apply (dlist_dom _ _ _ _ Hd). by right.
Qed.

(** The list with a node at the new block [p]. *)
Lemma area_link_ok (l : store) h xs p : dlist l h xs -> p ∉ h :: xs ->
  exists l1 l2, INIT_LIST_HEAD (<[p := MkNode 0 0]> l) p = Ok l1 /\ dlist l1 h xs /\
    list_add l1 p h = Ok l2 /\ dlist l2 h (p :: xs) /\ dom l ⊆ dom l2 /\
    forall x, x ∉ p :: h :: xs -> l2 !! x = l !! x.
Proof.
  intros Hd Hp. destruct (INIT_LIST_HEAD_ok (<[p := MkNode 0 0]> l) p) as (l1 & H1 & D1 & T1).
  { rewrite dom_insert_L. set_solver. }
  assert (Hd1 : dlist l1 h xs).
  { apply (dlist_frame (<[p := MkNode 0 0]> l) l1 h xs [p]); [|done|by intros x Hx ->%list_elem_of_singleton].
    apply (dlist_ext l); [done|]. intros x Hx. apply lookup_insert_ne. by intros ->. }
  destruct (list_add_ok l1 h xs p) as (l2 & H2 & D2 & T2); [done| |done|].
  - apply (dlist_dom _ _ _ _ D1). by left.
  - exists l1, l2. split; [done|]. split; [done|]. split; [done|]. split; [done|]. split.
    + rewrite (proj1 T2), (proj1 T1), dom_insert_L. set_solver.
    + intros x Hx. rewrite (proj2 T2) by done. rewrite (proj2 T1) by (rewrite list_elem_of_singleton; set_solver).
      apply lookup_insert_ne. set_solver.
Qed.

(** The heap grants a block for the area and one for its [len] bytes, and has
    [n] more pages. *)
Definition grants (g : mm_gran) (len : Z) (n : nat) (p q : Z) : Prop :=
  exists g1 g2, gran_alloc g SIZEOF_VM_AREA = Ok (g1, p) /\ p <> 0 /\ gran_alloc g1 len = Ok (g2, q) /\ q <> 0 /\
    page_supply g2 n.

(** The region of an area: page-aligned, at most 128 KiB, below 512 GiB. *)
Definition area_region (q addr len : Z) : mem_region := MkRegion (vbase_to_pbase q) addr len.

Lemma area_region_ok root g m R g1 q addr len :
  pt_inv root g m R -> block_taken g g1 q (pages_of len) -> 0 < len <= 0x20000 ->
  addr mod 4096 = 0 -> 0 <= addr -> (addr + len + 4095) / 4096 * 4096 <= 0x8000000000 ->
  region_ok 0 (area_region q addr len).
Proof.
  intros Hi Hb Hl Ha1 Ha2 Ha3.
  destruct (block_ram root g m R g1 q (pages_of len) Hi Hb) as (Hq & Hq1 & Hq2 & E).
  { unfold pages_of. Z.div_mod_to_equations. lia. }
  unfold area_region, RAM_VBASE, RAM_PBASE, RAM_SIZE in *.
  constructor; unfold region_end in *; cbn [pbase vbase rsize]; rewrite ?E; try lia; unfold pages_of in *;
    Z.div_mod_to_equations; lia.
Qed.

Lemma mmap_region_ok s R addr len prot rest g1 q :
  pt_inv (addrspace (mm_task s)) (mm_heap s) (mm_mem s) R -> gran_wf (mm_heap s) -> log2gran (mm_heap s) = 12 ->
  0 < len <= 0x20000 -> len mod 4096 = 0 -> addr mod 4096 = 0 -> 0 <= addr -> addr + len <= 0x8000000000 ->
  gran_alloc (mm_heap s) len = Ok (g1, q) -> q <> 0 ->
  no_section 0 (addrspace (mm_task s)) (mm_mem s) addr (addr + len) ->
  page_supply g1 (pages_needed addr (addr + len) (vbase_to_pbase q) + rest) ->
  exists g' m' R', mmap_region s addr len prot = Ok (set_heap_mem s g' m', addr) /\ page_supply g' rest /\
    fresh_mapping (addrspace (mm_task s)) (mm_heap s) (mm_mem s) R g' m' R' (area_region q addr len) q prot.
Proof.
  intros Hi W H12 Hl Hl4 Ha4 Ha0 Hend Hg Hq Hns Hsup.
  assert (Hre : region_end (area_region q addr len) = addr + len)
    by (unfold region_end; cbn; Z.div_mod_to_equations; lia).
  destruct (as_map_fresh (addrspace (mm_task s)) (mm_heap s) (mm_mem s) R (area_region q addr len) prot rest g1 q)
    as (m1 & g' & m' & R' & Hc & Hm & Hs' & Hf); rewrite ?Hre; try done; [cbn; lia| |].
  { eapply area_region_ok; try done; [eapply block_alloc; done || lia|]. Z.div_mod_to_equations. lia. }
  exists g', m', R'. split; [|done]. unfold mmap_region, mmap_calloc. cbn [rsize area_region] in Hc. rewrite Hc. cbn [obind].
  unfold area_region in Hm. cbn [mm_heap mm_mem mm_task set_heap_mem]. by rewrite Hm.
Qed.

(** The area's own block: everything else of the task stays as it was. *)
Lemma area_block_ok s R xs g1 p : areas s R xs -> gran_alloc (mm_heap s) SIZEOF_VM_AREA = Ok (g1, p) -> p <> 0 ->
  exists m1, mmap_calloc s SIZEOF_VM_AREA = Ok (set_heap_mem s g1 m1, p) /\
    bytes_written (mm_mem s) m1 p SIZEOF_VM_AREA (fun _ => Some 0) /\ areas (set_heap_mem s g1 m1) R xs /\
    (p ∉ area_head s :: xs) /\ free_page (mm_heap s) p /\ ~ free_page g1 p /\ (forall q, free_page g1 q -> free_page (mm_heap s) q) /\
    forall x, hw_walk m1 (addrspace (mm_task s)) x = hw_walk (mm_mem s) (addrspace (mm_task s)) x.
Proof.
  intros [A1 A2 A3 A4 A5 A6 A7 A8] Ha Hp.
  destruct (calloc_ok _ _ _ R SIZEOF_VM_AREA g1 p A1 A2 A3) as (m1 & Hc & Hw & [B1 B2 B3 B4] & Hi & Hwalk);
    [by vm_compute|done|done|].
  assert (Hpage : page_of p (pages_of SIZEOF_VM_AREA) p) by (exists 0; split; [by vm_compute|lia]).
  exists m1. unfold mmap_calloc. rewrite Hc. do 2 (split; [done|]). split; [|split; [|split; [by apply B3|split; [|split]]]].
  - constructor; cbn; try done.
    + intros x Hx Hf. apply (A5 x Hx). by apply B4.
    + intros x Hx Hr d. rewrite Hwalk. by apply A8.
  - intros Hx. apply (A5 p Hx). by apply B3.
  - rewrite B4. by intros [].
  - intros q Hq. by apply B4.
  - done.
Qed.

(** The state after a kernel-placed mapping of [len] bytes with area [p] and
    block [q]. *)
Record mmapped (s : mm_state) (R : gmap Z role) (xs : list Z) (len prot flags p q : Z) (rest : nat) (s' : mm_state) (R' : gmap Z role) : Prop := {
  mp_areas : areas s' R' (p :: xs);
  mp_task : mm_task s' = mm_task s;
  mp_self : mm_self s' = mm_self s;
  mp_supply : page_supply (mm_heap s') rest;
  mp_links : dom (mm_links s) ⊆ dom (mm_links s') /\
    forall x, x ∉ p :: area_head s :: xs -> mm_links s' !! x = mm_links s !! x;
  mp_node : free_page (mm_heap s) p;
  mp_vmas : let low := lowest (mm_vmas s) (mmap_base (mm (mm_task s))) xs in
    mm_vmas s' = <[p := MkVma (low - len) low prot flags (area_name flags)]> (mm_vmas s);
  mp_sees : forall x, let low := lowest (mm_vmas s) (mmap_base (mm (mm_task s))) xs in
    low - len <= x < low -> exists at_,
    translate x (hw_walk (mm_mem s') (addrspace (mm_task s)) x) = Some (vbase_to_pbase q + (x - (low - len)), at_) /\
    has_perms prot at_ /\ byte (mm_mem s') (q + (x - (low - len))) = Some 0;
  mp_rest : forall x, let low := lowest (mm_vmas s) (mmap_base (mm (mm_task s))) xs in
    window 0 x -> ~ (low - len <= x < low) ->
    hw_walk (mm_mem s') (addrspace (mm_task s)) x = hw_walk (mm_mem s) (addrspace (mm_task s)) x;
  mp_fresh : forall k, page_of q (pages_of len) k -> free_page (mm_heap s) k /\ R' !! k = None /\ ~ free_page (mm_heap s') k;
  mp_free : forall k, free_page (mm_heap s') k -> free_page (mm_heap s) k;
  mp_tables : forall t r, R' !! t = Some r -> R !! t = Some r \/ free_page (mm_heap s) t;
  mp_dom : dom (mm_mem s') = dom (mm_mem s);
  mp_frame : forall w, (forall x, p <= x < p + SIZEOF_VM_AREA -> w <> word x) -> (forall x, q <= x < q + len -> w <> word x) ->
    (forall t r k, R' !! t = Some r -> 0 <= k < 512 -> w <> t + 8 * k) -> mm_mem s' !! w = mm_mem s !! w
}.

Lemma do_mmap_ok s R xs len prot flags p q rest :
  areas s R xs -> 0 < len <= 0x20000 -> len mod 4096 = 0 ->
  let low := lowest (mm_vmas s) (mmap_base (mm (mm_task s))) xs in
  len <= low -> grants (mm_heap s) len (pages_needed (low - len) low (vbase_to_pbase q) + rest) p q ->
  exists s' R', do_mmap s 0 len prot flags = Ok (s', low - len) /\ mmapped s R xs len prot flags p q rest s' R'.
Proof.
  intros HA Hl Hl4 low Hlow (g1 & g2 & Hg1 & Hp & Hg2 & Hq & Hsup).
  destruct (area_block_ok s R xs g1 p HA Hg1 Hp) as (m1 & Hc & [Wd _ Ww] & [A1 A2 A3 A4 A5 A6 A7 A8] & Hnew & Hfp & Hpf & Hsub & Hwalk).
  cbn [set_heap_mem mm_heap mm_mem mm_links mm_vmas mm_task mm_self] in *. change (area_head (set_heap_mem s g1 m1)) with (area_head s) in *.
  destruct (lowest_bounds _ _ _ A6 (proj1 A7) (proj2 A7)) as [Hb Hb4]. fold low in Hb, Hb4, A8.
  destruct (area_link_ok (mm_links s) (area_head s) xs p A4 Hnew) as (l1 & l2 & Hl1 & D1 & Hl2 & D2 & L1 & L2).
  unfold do_mmap. rewrite Hc. cbn [obind mm_links set_heap_mem set_area_list]. rewrite Hl1. cbn [obind].
  rewrite Z.eqb_refl. rewrite (find_free_vma_ok _ xs) by (done || (cbn; fold low; lia)). cbn [obind].
  cbn [mm_links mm_vmas mm_task set_area_list set_heap_mem]. change (area_head _) with (area_head s). rewrite Hl2. cbn [obind]. fold low.
  set (s2 := set_area_list _ l2 _). rewrite (dumpvma_ok s2 (p :: xs)) by done. cbn [obind].
  destruct (mmap_region_ok s2 R (low - len) len prot rest g2 q) as (g' & m' & R' & Hr & Hs' & [F1 F2 F3 F4 F5 F6 F7 F8 F9 _]);
    try done; try lia; cbn [s2 set_area_list set_heap_mem mm_heap mm_mem mm_links mm_vmas mm_task mm_self] in *.
  { Z.div_mod_to_equations. lia. }
  { intros x Hx Hr. apply A8; [done|lia]. } { by replace (low - len + len) with low by lia. }
  assert (Hin : forall x, in_region (area_region q (low - len) len) x <-> low - len <= x < low).
  { intros x. unfold in_region, region_end. cbn. split; intros; Z.div_mod_to_equations; lia. }
  rewrite Hr. eexists _, R'. split; [done|].
  destruct (stacked_new (mm_vmas s) (mmap_base (mm (mm_task s))) p (MkVma (low - len) low prot flags (area_name flags)) xs)
    as [S1 S2]; [by intros ?; apply Hnew; right|done|].
  constructor; cbn; [|done|done|done|done|done|done| | | | | |congruence|].
  - constructor; cbn; [done|apply Hs'|apply Hs'|done| | |done|].
    + intros x Hx Hf. apply F6 in Hf. apply elem_of_cons in Hx as [->|Hx]; [by apply (A5 (area_head s)); [left|]|].
      apply elem_of_cons in Hx as [->|Hx]; [done|]. by apply (A5 x); [right|].
    + split; [|done]. exists (MkVma (low - len) low prot flags (area_name flags)). rewrite lookup_insert_eq, S2. cbn.
      split; [done|]. split; [lia|]. split; [done|]. Z.div_mod_to_equations. lia.
    + rewrite lookup_insert_eq. intros x Hx Hr2 d. cbn [vm_start] in Hr2. rewrite F3; [|done|rewrite Hin; lia].
      apply A8; [done|lia].
  - intros x Hx. destruct (F2 x) as (at_ & Ht & Hpm); [by apply Hin|]. exists at_. split; [done|]. split; [done|].
    apply F4. cbn. fold low. lia.
  - intros x Hx Hn. fold low in Hn. rewrite F3; [apply Hwalk|done|by rewrite Hin].
  - intros k Hk. destruct (F5 k Hk) as (H1 & H2). split; [by apply Hsub|done].
  - intros k Hk. by apply Hsub, F6.
  - intros k r Hk. destruct (F7 k r Hk) as [|Hf]; [by left|right]. by apply Hsub.
  - intros w H1 H2 H3. rewrite F9 by done. by apply Ww.
Qed.

Lemma page_align_ok len : 0 < len <= 0x20000 -> PAGE_ALIGN len = 4096 * pages_of len.
Proof. intros Hl. unfold PAGE_ALIGN, pages_of. change 4096 with PAGE_SIZE at 1. rewrite align_page by lia. lia. Qed.

(** [sys_mmap] without an address. *)
Lemma sys_mmap_ok s R xs len prot flags fd off p q rest :
  areas s R xs -> Z.land flags MAP_PRIVATE <> 0 \/ Z.land flags MAP_SHARED <> 0 -> 0 < len <= 0x20000 ->
  let low := lowest (mm_vmas s) (mmap_base (mm (mm_task s))) xs in
  let size := 4096 * pages_of len in
  size <= low -> grants (mm_heap s) size (pages_needed (low - size) low (vbase_to_pbase q) + rest) p q ->
  exists s' R', sys_mmap s 0 len prot flags fd off = Ok (s', low - size) /\ mmapped s R xs size prot flags p q rest s' R' /\
    forall a v, a ∈ xs -> mm_vmas s !! a = Some v -> low <= vm_start v.
Proof.
  intros HA Hf Hl low size Hlow Hg.
  assert (Hsz : 0 < size <= 0x20000 /\ size mod 4096 = 0) by (unfold size, pages_of; Z.div_mod_to_equations; lia).
  destruct (do_mmap_ok s R xs size prot flags p q rest HA) as (s' & R' & Hm & Hmp); try done; try lia.
  exists s', R'. split; [|split; [done|]].
  - unfold sys_mmap. rewrite (page_align_ok len) by done. change (PAGE_ALIGN 0) with 0. fold size. rewrite Hm. cbn [obind].
    destruct HA as [_ _ _ _ _ A6 A7 _]. destruct (lowest_bounds _ _ _ A6 (proj1 A7) (proj2 A7)) as [Hb _]. fold low in Hb, Hm |- *.
    unfold IS_ERR_VALUE. change (u64 (- MAX_ERRNO)) with 0xfffffffffffff000. rewrite (proj2 (Z.leb_gt _ _)) by lia.
    rewrite (proj2 (Z.eqb_neq len 0)) by lia. destruct Hf as [Hf|Hf]; rewrite (proj2 (Z.eqb_neq _ _) Hf); [done|].
    by rewrite orb_true_r.
  - intros a v Ha Hv. apply (mp_areas _ _ _ _ _ _ _ _ _ _ _) in Hmp as Har. destruct Har as [_ _ _ A4 _ A6 _ _].
    apply list_elem_of_lookup in Ha as [j Hj].
    apply (stacked_disjoint _ _ _ A6 0 (S j) p a (MkVma (low - size) low prot flags (area_name flags)) v);
      [lia|done|done|rewrite (mp_vmas _ _ _ _ _ _ _ _ _ _ _ Hmp); apply lookup_insert_eq|].
    rewrite (mp_vmas _ _ _ _ _ _ _ _ _ _ _ Hmp). rewrite lookup_insert_ne; [done|]. intros ->.
    destruct A4 as [Hnd _]. apply NoDup_cons in Hnd as [_ Hnd]. apply NoDup_cons in Hnd as [Hno _].
    apply Hno. by apply list_elem_of_lookup_2 in Hj.
Qed.

(** A user program's address space with nothing mapped yet. *)
Module Program.
Definition self : Z := 0x5000.
Definition area : mm_area := MkMm 0x7fffffe000 0x420000 0x420000 0x7fffffe000 0x8000000000 0 0 0 0 0 0.
Definition task : tcb := MkTcb 1 1 10 10 0 TSTATE_TASK_INACTIVE [] 0 0 0 10 TASK_TYPE_USER [] Sample.root area 0.
Definition start : mm_state :=
  MkMM Sample.heap Sample.memory {[ self + MM_LINK_OFFSET := MkNode (self + MM_LINK_OFFSET) (self + MM_LINK_OFFSET) ]}
    ∅ task self.

Lemma start_areas : areas start {[ Sample.root := Root ]} [].
Proof.
  constructor.
  - apply Sample.inv.
  - apply Sample.heap_wf.
  - reflexivity.
  - split; [apply NoDup_singleton|]. cbn. split; [split; reflexivity|exact I].
  - intros x Hx (i & Hi & _ & ->). apply list_elem_of_singleton in Hx.
    unfold granaddr, area_head, MM_LINK_OFFSET in Hx. cbn in Hx. unfold self, RAM_VBASE in Hx. simpl in Hi. lia.
  - exact I.
  - split; vm_compute; [split; congruence|reflexivity].
  - apply Sample.no_sections.
Qed.

(** The sample heap less its first [k] pages. *)
Lemma supply_from (g : mm_gran) (k : Z) (n : nat) : gran_wf g -> log2gran g = 12 ->
  bool_decide (Forall (fun i => 0 <= i < ngranules g /\ granule g i = false) (seqZ k (Z.of_nat n))) = true ->
  page_supply g n.
Proof.
  intros W H12 Hf. split; [exact W|]. split; [exact H12|]. exists (seqZ k (Z.of_nat n)).
  split; [apply NoDup_seqZ|]. split; [by rewrite length_seqZ, Nat2Z.id|]. by apply bool_decide_eq_true in Hf.
Qed.

Lemma start_grants : grants Sample.heap 0x3000 (2 + 34) (granaddr Sample.heap 0) (granaddr Sample.heap 1).
Proof.
  destruct (gran_alloc Sample.heap SIZEOF_VM_AREA) as [[g1 p]| | |] eqn:E1; try (vm_compute in E1; discriminate E1).
  destruct (gran_alloc g1 0x3000) as [[g2 q]| | |] eqn:E2; try (vm_compute in E1; injection E1 as <- <-; vm_compute in E2; discriminate E2).
  pose proof (gran_alloc_wf _ _ _ _ Sample.heap_wf E1) as [W1 _]. pose proof (gran_alloc_wf _ _ _ _ W1 E2) as [W2 _].
  vm_compute in E1. injection E1 as <- <-. vm_compute in E2. injection E2 as <- <-.
  eexists _, _. split; [vm_compute; reflexivity|]. split; [vm_compute; discriminate|]. split; [vm_compute; reflexivity|].
  split; [vm_compute; discriminate|]. apply (supply_from _ 4); [exact W2|reflexivity|vm_compute; reflexivity].
Qed.
End Program.

(** [sys_brk].  Below the start of the heap the request is refused and the
    old break returned; a break at or below the current one is recorded and
    nothing is unmapped.  Growing by at most 128 KiB from a page-aligned break
    maps zeroed, writable, non-executable memory over the new range in whole
    pages, moves no other address and returns the new break. *)
Lemma sys_brk_ok s R b :
  let a := mm (mm_task s) in let root := addrspace (mm_task s) in
  pt_inv root (mm_heap s) (mm_mem s) R -> gran_wf (mm_heap s) -> log2gran (mm_heap s) = 12 ->
  0 <= start_brk a <= brk a -> brk a < 2 ^ 31 ->
  (b < start_brk a -> sys_brk s b = Ok (s, brk a)) /\
  (start_brk a <= b <= brk a -> sys_brk s b = Ok (set_brk s b, b)) /\
  (forall g1 q rest, let r := area_region q (brk a) (b - brk a) in
     brk a mod 4096 = 0 -> brk a < b <= brk a + 0x20000 ->
     gran_alloc (mm_heap s) (b - brk a) = Ok (g1, q) -> q <> 0 ->
     no_section 0 root (mm_mem s) (brk a) (region_end r) ->
     page_supply g1 (pages_needed (brk a) (region_end r) (vbase_to_pbase q) + rest) ->
     exists g' m' R', sys_brk s b = Ok (set_brk (set_heap_mem s g' m') b, b) /\ page_supply g' rest /\
       fresh_mapping root (mm_heap s) (mm_mem s) R g' m' R' r q (Z.lor PROT_READ PROT_WRITE)).
Proof.
  intros a root Hi W H12 Hb0 Hb1. unfold sys_brk. fold a. split; [|split].
  - intros Hb. by rewrite (proj2 (Z.ltb_lt _ _)).
  - intros Hb. rewrite (proj2 (Z.ltb_ge _ _)) by lia. rewrite (s32_id (b - brk a)) by lia.
    by rewrite (proj2 (Z.ltb_ge 0 _)) by lia.
  - intros g1 q rest Hb4 Hb Hg Hq Hns Hsup. rewrite (proj2 (Z.ltb_ge _ _)) by lia. set (r := area_region _ _ _) in *.
    rewrite (s32_id (b - brk a)) by lia. rewrite (proj2 (Z.ltb_lt 0 _)) by lia.
    destruct (as_map_fresh root (mm_heap s) (mm_mem s) R r (Z.lor PROT_READ PROT_WRITE) rest g1 q)
      as (m1 & g' & m' & R' & Hc & Hm & Hs' & Hf); try done; [cbn; lia| |].
    { eapply area_region_ok; try done; [eapply block_alloc; done || lia|lia|lia|]. Z.div_mod_to_equations. lia. }
    exists g', m', R'. split; [|done]. unfold mmap_calloc. cbn [rsize r area_region] in Hc. rewrite Hc. cbn [obind].
    cbn [mm_heap mm_mem mm_task set_heap_mem]. unfold r, area_region in Hm. fold root. rewrite Hm. done.
Qed.

Module MmapSpec.



(** What the calls answer, when they answer. *)
Definition result (o : outcome (mm_state * Z)) : option Z := match o with Ok (_, z) => Some z | _ => None end.

Example mmap_bad_requests :
  sys_mmap Program.start 0 0 3 MAP_PRIVATE 0 0 = Ok (Program.start, neg EINVAL) /\
  sys_mmap Program.start 0 0x1000 3 MAP_ANONYMOUS 0 0 = Ok (Program.start, neg EINVAL).
Proof. split; reflexivity. Qed.

(** More than 32 granules at once: the allocator's assertion stops the kernel
    on a request of a user program. *)
Example mmap_large_halts : sys_mmap Program.start 0 0x21000 3 0x22 (-1) 0 = Halt.
Proof. vm_compute. reflexivity. Qed.

Example brk_large_halts : sys_brk Program.start (0x420000 + 0x21000) = Halt.
Proof. vm_compute. reflexivity. Qed.

(** A heap without a large enough run of pages: [NULL] is cleared, the kernel
    faults instead of returning [-ENOMEM]. *)
Example mmap_exhausted_faults :
  sys_mmap (set_heap_mem Program.start (set_gat Sample.heap [0xfffffffe; 0xff; 0]) Sample.memory) 0 0x1000 3 0x22 (-1) 0 = Fault.
Proof. vm_compute. reflexivity. Qed.

(** The break may be any address, but the next growth starts from it and the
    mapping code insists on a page boundary. *)
Example brk_unaligned_halts :
  obind (sys_brk Program.start 0x420100) (fun '(s, _) => sys_brk s 0x421000) = Halt.
Proof. vm_compute. reflexivity. Qed.

(** A mapping at a chosen address becomes the lowest area for the next call,
    which is then placed right below it. *)
Example mmap_hint_moves_base :
  result (obind (sys_mmap Program.start 0x420000 0x1000 3 0x22 (-1) 0) (fun '(s, _) => sys_mmap s 0 0x2000 3 0x22 (-1) 0))
    = Some 0x41e000.
Proof. vm_compute. reflexivity. Qed.
End MmapSpec.
