(* ===== verification/Elf.v ===== *)
(** * The ELF loader (os/lib/libelf)

    [elf_initialize] checks the header of the user image, collects the loadable
    segments in a list, maps a zeroed block of the kernel heap for each of them
    at its virtual address, copies the file contents into the block, and frees
    the list again.  This file holds the definitions; the proofs are in
    [ElfLoad]. *)

From Stdlib Require Import ZArith Lia Bool.
From stdpp Require Import base numbers list gmap.
From S2P Require Import Prelude Board Gran KList Task PageTable AddrSpace Bytes Mmap.
#[local] Open Scope Z_scope.

Definition ENOEXEC : Z := 8.

Definition ET_REL : Z := 1.
Definition ET_EXEC : Z := 2.
Definition ET_DYN : Z := 3.
Definition EM_ARM64 : Z := 183.
Definition EI_CLASS : nat := 4.
Definition EI_DATA : nat := 5.
Definition EI_VERSION : nat := 6.
Definition ELFCLASS64 : Z := 2.
Definition ELFDATA2LSB : Z := 1.
Definition PT_NULL : Z := 0.
Definition PT_LOAD : Z := 1.
Definition PT_DYNAMIC : Z := 2.
Definition PT_INTERP : Z := 3.
Definition PF_X : Z := 1.
Definition PF_W : Z := 2.
Definition PF_R : Z := 4.

(** ** Headers in the file *)

Record Elf64_Ehdr : Type := MkEhdr {
  e_ident : list Z; h_type : Z; e_machine : Z; e_version : Z;
  h_entry : Z; h_phoff : Z; h_shoff : Z; e_flags : Z; e_ehsize : Z;
  h_phentsize : Z; h_phnum : Z; h_shentsize : Z; h_shnum : Z; e_shstrndx : Z
}.

Record Elf64_Phdr : Type := MkPhdr {
  p_type : Z; p_flags : Z; p_offset : Z; p_vaddr : Z; p_paddr : Z; p_filesz : Z; p_memsz : Z; p_align : Z
}.

Definition SIZEOF_EHDR : Z := 64.
Definition SIZEOF_PHDR : Z := 56.
Definition SIZEOF_SHDR : Z := 64.

(** A little-endian field of [n] bytes. *)
Fixpoint field (n : nat) (m : wmem) (a : Z) : outcome Z :=
  match n with
  | O => Ok 0
  | S n => let! b := ldb m a in let! r := field n m (a + 1) in Ok (b + 256 * r)
  end.

Fixpoint bytes_at (n : nat) (m : wmem) (a : Z) : outcome (list Z) :=
  match n with
  | O => Ok []
  | S n => let! b := ldb m a in let! r := bytes_at n m (a + 1) in Ok (b :: r)
  end.

Definition read_ehdr (m : wmem) (a : Z) : outcome Elf64_Ehdr :=
  let! id := bytes_at 16 m a in
  let! ty := field 2 m (a + 16) in
  let! mach := field 2 m (a + 18) in
  let! ver := field 4 m (a + 20) in
  let! ent := field 8 m (a + 24) in
  let! pho := field 8 m (a + 32) in
  let! sho := field 8 m (a + 40) in
  let! fl := field 4 m (a + 48) in
  let! ehs := field 2 m (a + 52) in
  let! phe := field 2 m (a + 54) in
  let! phn := field 2 m (a + 56) in
  let! she := field 2 m (a + 58) in
  let! shn := field 2 m (a + 60) in
  let! stx := field 2 m (a + 62) in
  Ok (MkEhdr id ty mach ver ent pho sho fl ehs phe phn she shn stx).

Definition read_phdr (m : wmem) (a : Z) : outcome Elf64_Phdr :=
  let! ty := field 4 m a in
  let! fl := field 4 m (a + 4) in
  let! off := field 8 m (a + 8) in
  let! va := field 8 m (a + 16) in
  let! pa := field 8 m (a + 24) in
  let! fsz := field 8 m (a + 32) in
  let! msz := field 8 m (a + 40) in
  let! al := field 8 m (a + 48) in
  Ok (MkPhdr ty fl off va pa fsz msz al).

Definition ident (h : Elf64_Ehdr) (i : nat) : Z := nth i (e_ident h) 0.

(** The checks in the order of the source; the argument is never [NULL]. *)
Definition elf64_header_check (h : Elf64_Ehdr) : Z :=
  if negb (ident h 0 =? 0x7f) || negb (ident h 1 =? 69) || negb (ident h 2 =? 76) || negb (ident h 3 =? 70) then -1
  else if negb (ident h EI_CLASS =? ELFCLASS64) then -1
  else if negb (h_type h =? ET_DYN) && negb (h_type h =? ET_REL) && negb (h_type h =? ET_EXEC) then -1
  else if negb (h_phentsize h =? SIZEOF_PHDR) then -1
  else if (h_phnum h <? 1) || (65536 / SIZEOF_PHDR <? h_phnum h) then -1
  else if negb (h_shentsize h =? SIZEOF_SHDR) then -1
  else if h_shnum h <? 1 then -1
  else if h_shnum h <=? e_shstrndx h then -1
  else 0.

Definition elf_arch_check (h : Elf64_Ehdr) : Z :=
  if negb (ident h EI_CLASS =? ELFCLASS64) then -1
  else if negb (ident h EI_DATA =? ELFDATA2LSB) then -1
  else if negb (ident h EI_VERSION =? 1) then -1
  else if negb (e_machine h =? EM_ARM64) then -1
  else 0.

(** ** The loader's state *)

Record segment : Type := MkSeg {
  sg_type : Z; sg_offset : Z; sg_vaddr : Z; sg_filesz : Z; sg_memsz : Z; sg_flags : Z; sg_align : Z;
  remapped_writeable : bool
}.

Definition SIZEOF_SEGMENT : Z := 80.

Definition set_vaddr (sg : segment) (a : Z) : segment :=
  MkSeg (sg_type sg) (sg_offset sg) a (sg_filesz sg) (sg_memsz sg) (sg_flags sg) (sg_align sg) (remapped_writeable sg).

Record chin_elf : Type := MkElf {
  need_interpreter : bool; is_64bit : bool; buffer : Z; size : Z;
  e_type : Z; e_entry : Z; e_phoff : Z; e_shoff : Z; e_phnum : Z; e_shnum : Z; e_phentsize : Z; e_shentsize : Z;
  shdr : Z; phdr : Z
}.

(** [el_head] is the address of [elf->segs]; the list nodes are in [el_links],
    the other fields of the segments in [el_segs]. *)
Record elf_state : Type := MkLoad {
  el_heap : mm_gran; el_mem : wmem; el_links : store; el_segs : gmap Z segment;
  el_elf : chin_elf; el_head : Z; el_task : tcb
}.

Definition with_mem (s : elf_state) (g : mm_gran) (m : wmem) : elf_state :=
  MkLoad g m (el_links s) (el_segs s) (el_elf s) (el_head s) (el_task s).

Definition with_segs (s : elf_state) (l : store) (sg : gmap Z segment) : elf_state :=
  MkLoad (el_heap s) (el_mem s) l sg (el_elf s) (el_head s) (el_task s).

Definition with_elf (s : elf_state) (e : chin_elf) : elf_state :=
  MkLoad (el_heap s) (el_mem s) (el_links s) (el_segs s) e (el_head s) (el_task s).

Definition with_task (s : elf_state) (t : tcb) : elf_state :=
  MkLoad (el_heap s) (el_mem s) (el_links s) (el_segs s) (el_elf s) (el_head s) t.

Definition elf_calloc (s : elf_state) (n : Z) : outcome (elf_state * Z) :=
  let! (g, m, p) := heap_calloc (el_heap s) (el_mem s) n in
  Ok (with_mem s g m, p).

Definition elf_free (s : elf_state) (p n : Z) : outcome elf_state :=
  let! g := gran_free (el_heap s) p n in
  Ok (with_mem s g (el_mem s)).

Definition segment_stack_push (s : elf_state) (p : Z) : outcome elf_state :=
  let! l := list_add (el_links s) p (el_head s) in
  Ok (with_segs s l (el_segs s)).

(** [elf_calloc] has faulted on a [NULL] block before the test for it.  A
    segment whose file part is larger than its memory part is dropped, but its
    block is not given back. *)
Definition add_segment (s : elf_state) (ty off va fsz msz fl al : Z) : outcome elf_state :=
  let! (s, p) := elf_calloc s SIZEOF_SEGMENT in
  if p =? 0 then Ok s
  else if msz <? fsz then Ok s
  else
    let sg := MkSeg ty off va fsz msz (u32 fl) al (negb (Z.land (u32 fl) PF_W =? 0)) in
    segment_stack_push (with_segs s (<[p := MkNode 0 0]> (el_links s)) (<[p := sg]> (el_segs s))) p.

Definition set_interpreter (e : chin_elf) : chin_elf :=
  MkElf true (is_64bit e) (buffer e) (size e) (e_type e) (e_entry e) (e_phoff e) (e_shoff e) (e_phnum e) (e_shnum e)
    (e_phentsize e) (e_shentsize e) (shdr e) (phdr e).

(** One program header. *)
Definition load_segment (s : elf_state) (h : Elf64_Phdr) : outcome elf_state :=
  if p_type h =? PT_NULL then Halt
  else if (p_type h =? PT_LOAD) || (p_type h =? PT_DYNAMIC) then
    add_segment s (p_type h) (p_offset h) (p_vaddr h) (p_filesz h) (p_memsz h) (p_flags h) (p_align h)
  else if p_type h =? PT_INTERP then Ok (with_elf s (set_interpreter (el_elf s)))
  else Ok s.

(** [k] headers are left, the next one is number [n]. *)
Fixpoint load_loop (k : nat) (s : elf_state) (n : Z) : outcome elf_state :=
  match k with
  | O => Ok s
  | S k =>
      let! h := read_phdr (el_mem s) (phdr (el_elf s) + SIZEOF_PHDR * n) in
      let! s := load_segment s h in
      load_loop k s (n + 1)
  end.

Definition load_segments (s : elf_state) : outcome elf_state :=
  if is_64bit (el_elf s) then load_loop (Z.to_nat (e_phnum (el_elf s))) s 0 else Ok s.

(** The result code is not looked at by the caller. *)
Definition copy_segment (s : elf_state) (sg : segment) : outcome (elf_state * Z) :=
  if sg_memsz sg <? sg_filesz sg then Ok (s, - EINVAL)
  else if (sg_flags sg =? Z.lor PF_R PF_X) || (sg_flags sg =? Z.lor PF_R PF_W) then
    let! m := mem_copy (Z.to_nat (sg_filesz sg)) (el_mem s) (sg_vaddr sg) (buffer (el_elf s) + sg_offset sg) in
    let! m :=
      (if sg_filesz sg <? sg_memsz sg
       then mem_fill (Z.to_nat (sg_memsz sg - sg_filesz sg)) m (sg_vaddr sg + sg_filesz sg) 0
       else Ok m) in
    Ok (with_mem s (el_heap s) m, 0)
  else Ok (s, - EINVAL).

Definition elf_prot (flags : Z) : Z :=
  let prot := 0 in
  let prot := if negb (Z.land flags PF_R =? 0) then Z.lor prot PROT_READ else prot in
  let prot := if negb (Z.land flags PF_W =? 0) then Z.lor prot PROT_WRITE else prot in
  if negb (Z.land flags PF_X =? 0) then Z.lor prot PROT_EXEC else prot.

Definition elf_map (s : elf_state) (vaddr n flags : Z) : outcome (elf_state * Z) :=
  let! (s, addr) := elf_calloc s n in
  let! (g, m, _) := as_map (el_heap s) (el_mem s) (addrspace (el_task s)) (MkRegion (vbase_to_pbase addr) vaddr n)
                      (elf_prot flags) RAM_NORMAL in
  Ok (with_mem s g m, addr).

(** What a loadable segment says about the layout of the task. *)
Definition segment_mm (t : tcb) (sg : segment) : outcome mm_area :=
  let a := mm t in
  if sg_flags sg =? Z.lor PF_R PF_X then
    Ok (MkMm (stack t) (start_brk a) (brk a) (stack t) (u64 (stack t + stack_size t))
          (sg_vaddr sg) (u64 (sg_vaddr sg + sg_memsz sg)) (start_data a) (end_data a) (start_bss a) (end_bss a))
  else if sg_flags sg =? Z.lor PF_R PF_W then
    let ebss := u64 (sg_vaddr sg + sg_memsz sg) in
    let edata := u64 (sg_vaddr sg + sg_filesz sg) in
    Ok (MkMm (mmap_base a) (PAGE_ALIGN ebss) (PAGE_ALIGN ebss) (start_stack a) (end_stack a)
          (start_code a) (end_code a) (sg_vaddr sg) edata edata ebss)
  else Halt.

(** One loadable segment; a division by an alignment of 0 is undefined. *)
Definition populate_segment (s : elf_state) (p : Z) (sg : segment) : outcome elf_state :=
  let! a := segment_mm (el_task s) sg in
  let s := with_task s (set_mm (el_task s) a) in
  if sg_align sg =? 0 then Fault
  else
    let align_addr := sg_vaddr sg / sg_align sg * sg_align sg in
    let align_size := u64 (sg_vaddr sg mod sg_align sg + sg_memsz sg) in
    let! (s, addr) := elf_map s align_addr (ALIGN align_size (sg_align sg)) (sg_flags sg) in
    let sg := set_vaddr sg addr in
    let s := with_segs s (el_links s) (<[p := sg]> (el_segs s)) in
    let! (s, _) := copy_segment s sg in
    Ok s.

Definition get_seg (s : elf_state) (p : Z) : outcome segment :=
  match el_segs s !! p with Some sg => Ok sg | None => Fault end.

(** The list has at most as many entries as there are nodes. *)
Fixpoint populate_loop (fuel : nat) (s : elf_state) (pos : Z) : outcome elf_state :=
  match fuel with
  | O => Diverge
  | S fuel =>
      if pos =? el_head s then Ok s
      else
        let! sg := get_seg s pos in
        let! s := (if sg_type sg =? PT_LOAD then populate_segment s pos sg else Ok s) in
        let! n := get_next (el_links s) pos in
        populate_loop fuel s n
  end.

Definition list_fuel (s : elf_state) : nat := S (base.size (dom (el_links s))).

Definition populate_segments (s : elf_state) : outcome elf_state :=
  let! first := get_next (el_links s) (el_head s) in
  populate_loop (list_fuel s) s first.

(** [list_for_each_entry_safe]: the successor is read before the node goes. *)
Fixpoint remove_loop (fuel : nat) (s : elf_state) (pos : Z) : outcome elf_state :=
  match fuel with
  | O => Diverge
  | S fuel =>
      if pos =? el_head s then Ok s
      else
        let! n := get_next (el_links s) pos in
        let! l := list_del (el_links s) pos in
        let! s := elf_free (with_segs s l (el_segs s)) pos SIZEOF_SEGMENT in
        remove_loop fuel s n
  end.

Definition remove_segments (s : elf_state) : outcome elf_state :=
  let! first := get_next (el_links s) (el_head s) in
  remove_loop (list_fuel s) s first.

Definition elf_initialize (s : elf_state) : outcome (elf_state * Z) :=
  let e := el_elf s in
  assert! (negb (buffer e =? 0) && negb (size e =? 0)) in
  let! h := read_ehdr (el_mem s) (buffer e) in
  let e := MkElf (need_interpreter e) true (buffer e) (size e) (e_type e) (e_entry e) (e_phoff e) (e_shoff e)
             (e_phnum e) (e_shnum e) (e_phentsize e) (e_shentsize e) (shdr e) (phdr e) in
  let s := with_elf s e in
  if elf64_header_check h <? 0 then Ok (s, - ENOEXEC)
  else if elf_arch_check h <? 0 then Ok (s, - ENOEXEC)
  else
    let e := MkElf (need_interpreter e) true (buffer e) (size e) (h_type h) (h_entry h) (h_phoff h) (h_shoff h)
               (h_phnum h) (h_shnum h) (h_phentsize h) (h_shentsize h)
               (u64 (buffer e + h_shoff h)) (u64 (buffer e + h_phoff h)) in
    let s := with_task (with_elf s e) (set_ctx (el_task s) (context_set_entry (ctx (el_task s)) (h_entry h))) in
    let! s := load_segments s in
    let! s := populate_segments s in
    let! s := remove_segments s in
    Ok (s, 0).
