(* ===== verification/ElfLoad.v ===== *)
(** * Loading a program: proofs about os/lib/libelf

    The loader is followed through its three passes.  The main theorem says what
    user code sees afterwards: every byte of every loadable segment is at its
    virtual address, with the contents of the file or zero, and with the
    permissions of the segment.  The heap only has to have a long enough run of
    free pages at its end. *)

From Stdlib Require Import ZArith Lia Bool.
From stdpp Require Import base numbers list gmap.
From S2P Require Import Prelude Board Gran KList Task PageTable AddrSpace Bytes Space Mmap Elf.
#[local] Open Scope Z_scope.

(** ** A heap whose last pages are free *)

Definition tail_free (g : mm_gran) (n : nat) : Prop :=
  gran_wf g /\ log2gran g = 12 /\ Z.of_nat n <= ngranules g /\
  forall j, ngranules g - Z.of_nat n <= j < ngranules g -> granule g j = false.

Lemma tail_less g n k : (k <= n)%nat -> tail_free g n -> tail_free g k.
Proof. intros Hk (W & H12 & Hn & Hf). split_and!; try done; [lia|]. intros j Hj. apply Hf. lia. Qed.

Lemma tail_supply g n : tail_free g n -> page_supply g n.
Proof.
  intros (W & H12 & Hn & Hf). split; [done|]. split; [done|]. exists (seqZ (ngranules g - Z.of_nat n) (Z.of_nat n)).
  split; [apply NoDup_seqZ|]. split; [rewrite length_seqZ; lia|]. apply Forall_forall. intros j Hj%elem_of_seqZ.
  split; [lia|]. apply Hf. lia.
Qed.

(** First fit: a block never starts beyond the free run at the end. *)
Lemma tail_alloc g n size : tail_free g n -> 0 < size <= 0x20000 -> pages_of size <= Z.of_nat n ->
  exists g' p, gran_alloc g size = Ok (g', p) /\ p <> 0 /\ tail_free g' (n - Z.to_nat (pages_of size)).
Proof.
  intros (W & H12 & Hn & Hf) Hs Hp. assert (Hg : granules_of g size = pages_of size).
  { unfold granules_of, pages_of. rewrite H12. change (2 ^ 12) with 4096. f_equal. lia. }
  assert (Hpos : 1 <= pages_of size) by (unfold pages_of; Z.div_mod_to_equations; lia).
  destruct (gran_alloc_cases g size W) as [(i & t' & He & (Hi & Hend & _) & Hmin & Hu)|[_ Hno]];
    [rewrite H12; lia| |].
  - rewrite Hg in *. exists (set_gat g t'), (granaddr g i). split; [done|]. split.
    { pose proof (granaddr_small g W i). lia. }
    split; [by eapply wf_set_gat|]. split; [done|]. cbn. split; [lia|]. intros j Hj.
    assert (Hi2 : i <= ngranules g - Z.of_nat n).
    { apply Hmin. split; [lia|]. split; [lia|]. intros k Hk. apply Hf. lia. }
    unfold granule. cbn. destruct Hu as (_ & _ & ->); [|lia].
    rewrite (proj2 (Z.ltb_ge j _)), andb_false_r by lia. apply Hf. lia.
  - exfalso. apply (Hno (ngranules g - Z.of_nat n)). rewrite Hg. split; [lia|]. split; [lia|].
    intros j Hj. apply Hf. lia.
Qed.

(** The same heap as a page source that counts the pages at its end and keeps
    the shape of the heap [g0]. *)
Definition tail_source (g0 : mm_gran) : PageSource mm_gran := {|
  pt_alloc := pt_calloc;
  free_page := free_page (A := mm_gran);
  page_ready := page_ready (PageSource := heap_source);
  page_supply g n := tail_free g n /\ same_params g0 g
|}.

#[export] Instance tail_source_laws g0 : PageSourceLaws mm_gran (H0 := tail_source g0).
Proof.
  constructor; cbn.
  - intros g n [Ht Hp]. split; [|done]. eapply tail_less; [|exact Ht]. lia.
  - done.
  - intros m m' p Hp Hs k Hk. rewrite Hs by done. by apply Hp.
  - intros g m n [Ht Hpar] Hr. destruct (supply_ok (A := mm_gran) g m n) as (g' & m' & p & Ha & _ & H1 & H2 & H3);
      [by apply tail_supply|exact Hr|].
    exists g', m', p. split; [done|]. split; [|done].
    destruct (tail_alloc g (S n) 4096 Ht) as (g2 & q & Hg & _ & Ht2); [lia|change (pages_of 4096) with 1; lia|].
    cbn in Ha. unfold pt_calloc, PAGE_SIZE in Ha. rewrite Hg in Ha. cbn [obind] in Ha.
    destruct (zero_words _ _ _); try done. cbn [obind] in Ha. injection Ha as <- _ _.
    split; [|by destruct (gran_alloc_wf _ _ _ _ (proj1 Ht) Hg) as [_ ?]; eapply same_params_trans].
    by replace n with (S n - Z.to_nat (pages_of 4096))%nat by (change (pages_of 4096) with 1; lia).
Qed.

(** The mapping code uses nothing of its source but the allocator. *)
Section Source.
Context {A : Type} (S1 S2 : PageSource A).
Hypothesis Halloc : forall a m n, pt_alloc (PageSource := S1) a m n = pt_alloc (PageSource := S2) a m n.

Lemma table_of_source a m p : table_of (H0 := S1) a m p = table_of (H0 := S2) a m p.
Proof. unfold table_of. by rewrite Halloc. Qed.

Lemma pte_map_source a m p v e pa at_ : pte_map_with (H0 := S1) a m p v e pa at_ = pte_map_with (H0 := S2) a m p v e pa at_.
Proof. unfold pte_map_with. by rewrite table_of_source. Qed.

Lemma pmd_loop_source f : forall a m p v e pa at_, pmd_loop (H0 := S1) f a m p v e pa at_ = pmd_loop (H0 := S2) f a m p v e pa at_.
Proof.
  induction f as [|f IH]; intros a m p v e pa at_; [done|]. cbn [pmd_loop]. rewrite pte_map_source. destruct (v =? e); [done|].
  match goal with |- obind ?o _ = _ => destruct o as [[a1 m1]| | |] end; [|done..]. apply IH.
Qed.

Lemma pmd_map_source a m p v e pa at_ : pmd_map_with (H0 := S1) a m p v e pa at_ = pmd_map_with (H0 := S2) a m p v e pa at_.
Proof.
  unfold pmd_map_with. generalize LOOP_FUEL. intros f. rewrite table_of_source.
  destruct (table_of _ _ _) as [[[a1 m1] q]| | |]; cbn [obind]; [|reflexivity..]. apply pmd_loop_source.
Qed.

Lemma pgd_loop_source f : forall a m p v e pa at_, pgd_loop (H0 := S1) f a m p v e pa at_ = pgd_loop (H0 := S2) f a m p v e pa at_.
Proof.
  induction f as [|f IH]; intros a m p v e pa at_; [done|]. cbn [pgd_loop]. rewrite pmd_map_source.
  destruct (v =? e); [done|]. destruct (pmd_map_with _ _ _ _ _ _ _) as [[a2 m2]| | |]; cbn [obind]; [|reflexivity..]. apply IH.
Qed.

Lemma pt_map_source a m p v pa n at_ : pt_map_with (H0 := S1) a m p v pa n at_ = pt_map_with (H0 := S2) a m p v pa n at_.
Proof.
  unfold pt_map_with. generalize LOOP_FUEL. intros f.
  by rewrite (pgd_loop_source f).
Qed.
End Source.

Lemma pt_inv_tail g0 root g m R : pt_inv root g m R <-> pt_inv (H0 := tail_source g0) root g m R.
Proof. split; intros [H1 H2 H3]; constructor; done. Qed.

(** Small ranges need at most four tables. *)
Lemma pages_needed_small v e pa : 0 <= v < e -> e <= v + 0x200000 -> (pages_needed v e pa <= 4)%nat.
Proof.
  intros Hv He. unfold pages_needed, gigas.
  assert (need v e pa <= 2)%nat.
  { unfold need, blocks. repeat case_decide; Z.div_mod_to_equations; lia. }
  Z.div_mod_to_equations. lia.
Qed.

(** [as_map] of a zeroed block, with the pages at the end of the heap paying for
    the block and its tables. *)
Lemma as_map_tail root g m R r prot n :
  pt_inv root g m R -> tail_free g n -> rsize r <= 0x20000 -> region_end r <= vbase r + 0x200000 ->
  (Z.to_nat (pages_of (rsize r)) + 4 <= n)%nat -> 0 < rsize r ->
  (forall q g1, block_taken g g1 q (pages_of (rsize r)) -> region_ok 0 (MkRegion (vbase_to_pbase q) (vbase r) (rsize r))) ->
  no_section 0 root m (vbase r) (region_end r) ->
  exists g1 m1 q g' m' R', let r' := MkRegion (vbase_to_pbase q) (vbase r) (rsize r) in
    heap_calloc g m (rsize r) = Ok (g1, m1, q) /\ as_map g1 m1 root r' prot RAM_NORMAL = Ok (g', m', 0) /\
    tail_free g' (n - Z.to_nat (pages_of (rsize r)) - 4) /\ same_params g g' /\ R ⊆ R' /\ (forall p s, R' !! p = Some s -> R !! p = Some s \/ free_page g p) /\
    block_taken g g1 q (pages_of (rsize r)) /\ fresh_mapping root g m R g' m' R' r' q prot.
Proof.
  intros Hinv Ht Hsz Hre Hn Hpos Hro Hns. pose proof Ht as (W & H12 & _ & _).
  destruct (tail_alloc g n (rsize r) Ht) as (g1 & q & Ha & Hq & Ht1); [lia|lia|].
  destruct (calloc_ok root g m R (rsize r) g1 q) as (m1 & Hc & Hw & Hb & Hi1 & Hwalk); try done.
  set (r' := MkRegion (vbase_to_pbase q) (vbase r) (rsize r)).
  assert (Hr' : region_ok 0 r') by (by eapply Hro). pose proof (as_attr_spec prot RAM_NORMAL) as (Hat & _).
  destruct (region_map_ok (H0 := tail_source g) 0 root Sample.user_window g1 m1 R r' (as_attr prot RAM_NORMAL)
              (n - Z.to_nat (pages_of (rsize r)) - 4))
    as (g' & m' & R' & Hm & Hi2%pt_inv_tail & [G1 G2 G3 G4] & Hs' & Hsee & Hfr).
  { apply (pt_inv_tail g), Hi1. } { exact Hr'. } { exact Hat. } { intros x Hx Hr d. rewrite Hwalk. by apply Hns. }
  { split; [|by apply (gran_alloc_wf _ _ _ _ W Ha)]. eapply tail_less; [|exact Ht1]. pose proof (pages_needed_small (vbase r') (region_end r') (pbase r')).
    destruct Hr' as [_ Hlo _ _ _ _]. unfold region_end in *. cbn in *.
    assert (vbase r < (vbase r + rsize r + 4095) / 4096 * 4096) by (Z.div_mod_to_equations; lia). lia. }
  exists g1, m1, q, g', m', R'. cbv zeta. split; [done|]. split; [by rewrite <- Hm; apply pt_map_source|]. destruct Hs' as [Ht' Hp']. split; [exact Ht'|]. split; [exact Hp'|]. split; [done|]. split.
  - intros p s Hp. destruct (G2 p s Hp) as [|Hf]; [by left|right]. by apply (bt_free _ _ _ _ Hb).
  - split; [done|]. eapply fresh_of_region; try done.
Qed.

(** ** Pages in use *)

(** A page of the heap that is in use: a list node lives there. *)
Record held (g : mm_gran) (m : wmem) (R : gmap Z role) (x : Z) : Prop := {
  hd_granule : exists i, 0 <= i < ngranules g /\ x = granaddr g i;
  hd_table : tbl_ok x;
  hd_mapped : mapped_page m x;
  hd_solid : forall k, 0 <= k < 512 -> solid g R (x + 8 * k)
}.

Lemma keeps_held g m R g' m' R' x : keeps g m R g' m' R' -> held g m R x -> held g' m' R' x.
Proof.
  intros [(S1 & S2 & S3) D K] [(i & Hi & E) Ht Hm Hs]. constructor; [|done| |].
  - exists i. unfold granaddr in *. rewrite S1, S2, S3. done.
  - intros k Hk. rewrite (proj1 (K _ (Hs k Hk))). by apply Hm.
  - intros k Hk. by apply K, Hs.
Qed.

Lemma held_not_free g m R x : held g m R x -> ~ free_page g x.
Proof. intros [_ _ _ Hs] Hf. destruct (Hs 0) as [Hs0 _]; [lia|]. apply (Hs0 x 0 Hf); lia. Qed.

Lemma held_no_table g m R x : held g m R x -> R !! x = None.
Proof. intros [_ _ _ Hs]. destruct (R !! x) as [r|] eqn:E; [|done]. destruct (Hs 0) as [_ Hs0]; [lia|]. exfalso. apply (Hs0 x r 0 E); lia. Qed.

(** ** The invariant of the loader *)

(** [xs] are the segments in the list, [n] the pages free at the end of the
    heap. *)
Record linv (s : elf_state) (R : gmap Z role) (xs : list Z) (n : nat) : Prop := {
  li_pt : pt_inv (addrspace (el_task s)) (el_heap s) (el_mem s) R;
  li_tail : tail_free (el_heap s) n;
  li_list : dlist (el_links s) (el_head s) xs;
  li_head : ~ free_page (el_heap s) (el_head s);
  li_held : forall x, x ∈ xs -> held (el_heap s) (el_mem s) R x
}.

(** The file is in memory that nothing else uses. *)
Definition file_ok (s : elf_state) (R : gmap Z role) : Prop :=
  forall x, buffer (el_elf s) <= x < buffer (el_elf s) + size (el_elf s) ->
    solid (el_heap s) R (word x) /\ is_Some (el_mem s !! word x).

(** [s'] has the file of [s], byte for byte, and keeps what was in use. *)
Definition follows (s : elf_state) (R : gmap Z role) (s' : elf_state) (R' : gmap Z role) : Prop :=
  keeps (el_heap s) (el_mem s) R (el_heap s') (el_mem s') R' /\
  buffer (el_elf s') = buffer (el_elf s) /\ size (el_elf s') = size (el_elf s) /\
  el_head s' = el_head s /\ addrspace (el_task s') = addrspace (el_task s).

Lemma follows_trans s1 R1 s2 R2 s3 R3 : follows s1 R1 s2 R2 -> follows s2 R2 s3 R3 -> follows s1 R1 s3 R3.
Proof.
  intros (K1 & ? & ? & ? & ?) (K2 & ? & ? & ? & ?). split; [by eapply keeps_trans|]. split_and!; congruence.
Qed.

Lemma follows_file s R s' R' : follows s R s' R' -> file_ok s R ->
  file_ok s' R' /\ forall x, buffer (el_elf s) <= x < buffer (el_elf s) + size (el_elf s) -> byte (el_mem s') x = byte (el_mem s) x.
Proof.
  intros (K & E1 & E2 & _) Hf. split.
  - intros x Hx. rewrite E1, E2 in Hx. destruct (Hf x Hx) as [Hs Hm]. destruct (kp_solid _ _ _ _ _ _ K _ Hs) as [E Hs'].
    split; [done|]. by rewrite E.
  - intros x Hx. destruct (Hf x Hx) as [Hs _]. unfold byte. by rewrite (proj1 (kp_solid _ _ _ _ _ _ K _ Hs)).
Qed.

(** ** First pass: the list of segments *)

Definition segment_of (h : Elf64_Phdr) : segment :=
  MkSeg (p_type h) (p_offset h) (p_vaddr h) (p_filesz h) (p_memsz h) (u32 (p_flags h)) (p_align h)
    (negb (Z.land (u32 (p_flags h)) PF_W =? 0)).

Definition wanted (h : Elf64_Phdr) : bool := (p_type h =? PT_LOAD) || (p_type h =? PT_DYNAMIC).

(** The heap after the loader, from the ones after its passes: what the second pass
    left free and what the first had taken for the list. *)
Definition list_freed (s s1 s2 s3 : elf_state) : Prop :=
  forall q, free_page (el_heap s3) q <->
    free_page (el_heap s2) q \/ (free_page (el_heap s) q /\ ~ free_page (el_heap s1) q).

(** The list after the headers [hs]: the last one first. *)
Fixpoint collect (hs : list Elf64_Phdr) (acc : list segment) : list segment :=
  match hs with
  | [] => acc
  | h :: hs => collect hs (if wanted h then segment_of h :: acc else acc)
  end.

Definition header_ok (h : Elf64_Phdr) : Prop := p_type h <> PT_NULL /\ (wanted h = true -> p_filesz h <= p_memsz h).

(** The nodes [xs] hold the segments [sgs]. *)
Definition segs_at (s : elf_state) (xs : list Z) (sgs : list segment) : Prop :=
  Forall2 (fun p sg => el_segs s !! p = Some sg) xs sgs.

Definition same_walk (s s' : elf_state) : Prop :=
  forall x, hw_walk (el_mem s') (addrspace (el_task s)) x = hw_walk (el_mem s) (addrspace (el_task s)) x.

Lemma list_push_ok (l : store) h xs p : dlist l h xs -> p ∉ h :: xs ->
  exists l', list_add (<[p := MkNode 0 0]> l) p h = Ok l' /\ dlist l' h (p :: xs) /\ dom l ⊆ dom l' /\
    forall x, x ∉ p :: h :: xs -> l' !! x = l !! x.
Proof.
  intros Hd Hp. destruct (list_add_ok (<[p := MkNode 0 0]> l) h xs p) as (l' & H1 & H2 & Ht); [|rewrite dom_insert_L; set_solver|done|].
  - apply (dlist_ext l); [done|]. intros x Hx. apply lookup_insert_ne. by intros ->.
  - destruct Ht as [T1 T2]. exists l'. split; [done|]. split; [done|]. split; [rewrite T1, dom_insert_L; apply union_subseteq_r|].
    intros x Hx. rewrite T2 by done. apply lookup_insert_ne. by apply not_elem_of_cons in Hx as [? _].
Qed.

(** The list grows by pages of the heap, one per node, and by those only; nodes
    that are neither free memory nor segments stay as they are. *)
Record aside (s : elf_state) (xs : list Z) (s' : elf_state) (xs' : list Z) : Prop := {
  as_head : el_head s' = el_head s;
  as_dom : dom (el_links s) ⊆ dom (el_links s');
  as_free : forall q, free_page (el_heap s') q -> free_page (el_heap s) q;
  as_new : forall x, x ∈ xs' -> x ∈ xs \/ free_page (el_heap s) x;
  as_grows : forall x, x ∈ xs -> x ∈ xs';
  as_taken : forall q, free_page (el_heap s) q -> free_page (el_heap s') q \/ q ∈ xs';
  as_links : forall x, ~ free_page (el_heap s) x -> x ∉ el_head s :: xs -> el_links s' !! x = el_links s !! x
}.

Lemma aside_trans s1 xs1 s2 xs2 s3 xs3 : aside s1 xs1 s2 xs2 -> aside s2 xs2 s3 xs3 -> aside s1 xs1 s3 xs3.
Proof.
  intros [E1 D1 F1 N1 G1 T1 L1] [E2 D2 F2 N2 G2 T2 L2]. constructor; [congruence|by transitivity (dom (el_links s2))|auto|..].
  - intros x Hx. destruct (N2 x Hx); auto.
  - auto.
  - intros q Hq. destruct (T1 q Hq); auto.
  - intros x Hf Hx. rewrite L2; [by apply L1|auto|]. rewrite E1. intros [->|Hx2]%elem_of_cons; [apply Hx; by left|].
    destruct (N1 x Hx2); [apply Hx; by right|done].
Qed.

Lemma aside_same s s' xs : el_head s' = el_head s -> el_links s' = el_links s -> el_heap s' = el_heap s -> aside s xs s' xs.
Proof. intros E1 E2 E3. constructor; rewrite ?E2, ?E3; auto. Qed.

Lemma elf_calloc_ok s R xs n size : linv s R xs (Z.to_nat (pages_of size) + n) -> 0 < size <= 0x20000 ->
  exists g1 m1 p, elf_calloc s size = Ok (with_mem s g1 m1, p) /\ p <> 0 /\
    block_taken (el_heap s) g1 p (pages_of size) /\ linv (with_mem s g1 m1) R xs n /\ follows s R (with_mem s g1 m1) R /\
    same_walk s (with_mem s g1 m1) /\ (forall k, page_of p (pages_of size) k -> held g1 m1 R k).
Proof.
  intros [L1 L2 L3 L4 L5] Hs. pose proof L2 as (W & H12 & Hng & _).
  assert (Hp : 0 < pages_of size) by (unfold pages_of; Z.div_mod_to_equations; lia).
  destruct (tail_alloc (el_heap s) _ size L2 Hs) as (g1 & p & Ha & Hnz & Ht); [lia|].
  destruct (calloc_ok _ _ _ R size g1 p L1 W H12 Hs Ha Hnz) as (m1 & Hc & Hw & Hb & Hi & Hwalk).
  destruct (block_ram _ _ _ _ _ _ _ L1 Hb Hp) as (Hp4 & _). destruct (gran_alloc_wf _ _ _ _ W Ha) as [_ Hpar].
  assert (K : keeps (el_heap s) (el_mem s) R g1 m1 R) by (eapply (calloc_keeps _ _ _ _ _ _ p size); [exact L1|lia|done..]).
  exists g1, m1, p. unfold elf_calloc. rewrite Hc. split; [done|]. split; [done|]. split; [done|]. split; [|split; [|split]].
  - constructor; cbn; [done| |done| |].
    + by replace n with (Z.to_nat (pages_of size) + n - Z.to_nat (pages_of size))%nat by lia.
    + intros Hf. apply L4. by apply (bt_free _ _ _ _ Hb).
    + intros x Hx. eapply keeps_held; [exact K|]. by apply L5.
  - by split.
  - intros x. apply Hwalk.
  - intros k Hk. pose proof (bt_was _ _ _ _ Hb k Hk) as Hf. destruct (pt_free_ready _ _ _ _ L1 k Hf) as [Hok Hm].
    assert (Hnf : ~ free_page g1 k) by (rewrite (bt_free _ _ _ _ Hb); by intros []).
    constructor; [|done| |].
    + destruct Hf as (i & Hi2 & _ & ->). destruct Hpar as (P1 & P2 & P3). exists i. unfold granaddr. by rewrite P1, P2, P3.
    + intros j Hj. apply elem_of_dom. rewrite (bw_dom _ _ _ _ _ Hw). apply elem_of_dom. by apply Hm.
    + intros j Hj. eapply page_solid; [exact Hi|apply Hok|done|by apply (pt_free_unused _ _ _ _ L1)|done].
Qed.

Lemma add_segment_ok s R xs n h : linv s R xs (S n) -> p_filesz h <= p_memsz h ->
  exists s' p, add_segment s (p_type h) (p_offset h) (p_vaddr h) (p_filesz h) (p_memsz h) (p_flags h) (p_align h) = Ok s' /\
    linv s' R (p :: xs) n /\ follows s R s' R /\ same_walk s s' /\ el_elf s' = el_elf s /\ el_task s' = el_task s /\
    (p ∉ xs) /\ el_segs s' = <[p := segment_of h]> (el_segs s) /\ aside s xs s' (p :: xs).
Proof.
  intros HL Hsz. destruct (elf_calloc_ok s R xs n SIZEOF_SEGMENT) as (g1 & m1 & p & Hc & Hnz & Hb & [L1 L2 L3 L4 L5] & Hfo & Hwalk & Hheld).
  { exact HL. } { by vm_compute. }
  assert (Hpg : page_of p (pages_of SIZEOF_SEGMENT) p) by (exists 0; split; [by vm_compute|lia]).
  pose proof (bt_was _ _ _ _ Hb p Hpg) as Hpf.
  assert (Hnew : p ∉ el_head s :: xs).
  { intros [->|Hx]%elem_of_cons; [by apply (li_head _ _ _ _ HL)|]. by apply (held_not_free _ _ _ _ (li_held _ _ _ _ HL p Hx)). }
  cbn in L1, L2, L3, L4, L5. destruct (list_push_ok _ _ _ p L3 Hnew) as (l' & Hl & Hd & D1 & D2).
  unfold add_segment. rewrite Hc. cbn [obind]. rewrite (proj2 (Z.eqb_neq p 0)), (proj2 (Z.ltb_ge _ _)) by done.
  unfold segment_stack_push. cbn. rewrite Hl. cbn [obind]. eexists _, p. split; [done|].
  split; [|split; [exact Hfo|split; [exact Hwalk|split_and!; try done]]].
  - constructor; cbn; try done. intros x [->|Hx]%elem_of_cons; [by apply Hheld|by apply L5].
  - intros Hx. apply Hnew. by right.
  - constructor; cbn; [done|exact D1| | | | |].
    + intros q Hq. by apply (bt_free _ _ _ _ Hb).
    + intros x [->|Hx]%elem_of_cons; [by right|by left].
    + intros x Hx. by right.
    + intros q Hq. destruct (decide (q = p)) as [->|Hne]; [right; by left|left]. apply (bt_free _ _ _ _ Hb). split; [done|].
      intros (k & Hk & ->). change (pages_of SIZEOF_SEGMENT) with 1 in Hk. lia.
    + intros x Hf Hx. apply D2. apply not_elem_of_cons. split; [by intros ->|done].
Qed.

Lemma segs_at_push s xs sgs p sg s' : segs_at s xs sgs -> p ∉ xs -> el_segs s' = <[p := sg]> (el_segs s) ->
  segs_at s' (p :: xs) (sg :: sgs).
Proof.
  intros Hs Hp E. constructor; rewrite E; [apply lookup_insert_eq|].
  induction Hs as [|q sg' xs sgs Hq Hs IH]; [constructor|]. apply not_elem_of_cons in Hp as [Hne Hp].
  constructor; [|by apply IH]. by rewrite lookup_insert_ne.
Qed.

Lemma ldb_eq m a : ldb m a = match byte m a with Some c => Ok c | None => Fault end.
Proof. unfold ldb, byte, ldw. by destruct (m !! word a). Qed.

(** Reading depends on the bytes of the field only. *)
Lemma field_ext m m' n : forall a, (forall x, a <= x < a + Z.of_nat n -> byte m' x = byte m x) -> field n m' a = field n m a.
Proof.
  induction n as [|n IH]; intros a Hx; [done|]. cbn [field]. rewrite !ldb_eq, Hx by lia.
  destruct (byte m a); [|done]. cbn [obind]. rewrite IH; [done|]. intros x Hr. apply Hx. lia.
Qed.

Lemma read_phdr_ext m m' a : (forall x, a <= x < a + SIZEOF_PHDR -> byte m' x = byte m x) -> read_phdr m' a = read_phdr m a.
Proof.
  intros Hx. unfold read_phdr, SIZEOF_PHDR in *.
  rewrite !(field_ext m m'); [done|intros x Hr; apply Hx; lia..].
Qed.

Definition headers_at (s : elf_state) (k : Z) (hs : list Elf64_Phdr) : Prop :=
  buffer (el_elf s) <= phdr (el_elf s) + SIZEOF_PHDR * k /\
  phdr (el_elf s) + SIZEOF_PHDR * (k + Z.of_nat (length hs)) <= buffer (el_elf s) + size (el_elf s) /\
  forall i h, hs !! i = Some h -> read_phdr (el_mem s) (phdr (el_elf s) + SIZEOF_PHDR * (k + Z.of_nat i)) = Ok h.

Lemma headers_next s R s' k h hs : headers_at s k (h :: hs) -> follows s R s' R -> file_ok s R ->
  phdr (el_elf s') = phdr (el_elf s) -> headers_at s' (k + 1) hs.
Proof.
  intros (H1 & H2 & H3) Hfo Hfile E. destruct (follows_file _ _ _ _ Hfo Hfile) as [_ Hsame].
  destruct Hfo as (_ & E1 & E2 & _). unfold headers_at. rewrite E, E1, E2. cbn [length] in H2. unfold SIZEOF_PHDR in *.
  split; [lia|]. split; [lia|]. intros i h' Hi. pose proof (lookup_lt_Some _ _ _ Hi) as Hlen.
  rewrite (read_phdr_ext (el_mem s)).
  - replace (k + 1 + Z.of_nat i) with (k + Z.of_nat (S i)) by lia. by apply H3.
  - intros x Hx. apply Hsame. unfold SIZEOF_PHDR in Hx. lia.
Qed.

Lemma load_segment_ok s R xs sgs n h :
  header_ok h -> linv s R xs ((if wanted h then 1 else 0) + n) -> segs_at s xs sgs ->
  exists s' xs', load_segment s h = Ok s' /\ linv s' R xs' n /\ follows s R s' R /\ same_walk s s' /\
    el_task s' = el_task s /\ phdr (el_elf s') = phdr (el_elf s) /\
    segs_at s' xs' (if wanted h then segment_of h :: sgs else sgs) /\ aside s xs s' xs'.
Proof.
  intros [Hnn Hsz] HL Hsg. unfold load_segment. rewrite (proj2 (Z.eqb_neq _ _)) by done. fold (wanted h).
  destruct (wanted h) eqn:Hw.
  - destruct (add_segment_ok s R xs n h HL (Hsz eq_refl)) as (s' & p & Ha & HL' & Hfo & Hwk & E1 & E2 & Hp & E3 & Has).
    exists s', (p :: xs). rewrite E1. do 6 (split; [done|]). split; [by eapply segs_at_push|exact Has].
  - assert (Hr : forall e, buffer e = buffer (el_elf s) -> size e = size (el_elf s) ->
      linv (with_elf s e) R xs n /\ follows s R (with_elf s e) R /\ same_walk s (with_elf s e)).
    { intros e Eb Es. split; [by destruct HL; constructor|]. split; [|done]. split; [apply keeps_refl|done]. }
    destruct (p_type h =? PT_INTERP); [|exists s, xs; do 2 (split; [done|]); split; [split_and!; try done; apply keeps_refl|]; do 4 (split; [done|]); by apply aside_same].
    destruct (Hr (set_interpreter (el_elf s)) eq_refl eq_refl) as (R1 & R2 & R3).
    eexists _, xs. do 7 (split; [done|]). by apply aside_same.
Qed.

Definition wanted_count (hs : list Elf64_Phdr) : nat := length (filter (fun h => wanted h = true) hs).

Lemma load_loop_ok hs : forall s R xs sgs k n,
  Forall header_ok hs -> headers_at s k hs -> linv s R xs (wanted_count hs + n) -> file_ok s R -> segs_at s xs sgs ->
  exists s' xs', load_loop (length hs) s k = Ok s' /\ linv s' R xs' n /\ follows s R s' R /\ same_walk s s' /\
    el_task s' = el_task s /\ segs_at s' xs' (collect hs sgs) /\ aside s xs s' xs'.
Proof.
  induction hs as [|h hs IH]; intros s R xs sgs k n Hok Hat HL Hfile Hsg; cbn [length load_loop collect].
  { exists s, xs. do 2 (split; [done|]). split; [split_and!; try done; apply keeps_refl|]. do 3 (split; [done|]). by apply aside_same. }
  apply Forall_cons in Hok as [Hh Hok]. pose proof (proj2 (proj2 Hat) 0%nat h eq_refl) as Hrd. rewrite Z.add_0_r in Hrd.
  rewrite Hrd. cbn [obind].
  destruct (load_segment_ok s R xs sgs (wanted_count hs + n) h Hh) as (s1 & xs1 & -> & HL1 & Hfo & Hwk & Et & Ep & Hsg1 & Ha1); [|done|].
  { unfold wanted_count in *. rewrite filter_cons in HL. destruct (wanted h).
    - by rewrite decide_True in HL.
    - by rewrite decide_False in HL. }
  cbn [obind]. destruct (follows_file _ _ _ _ Hfo Hfile) as [Hfile1 _].
  destruct (IH s1 R xs1 _ (k + 1) n Hok (headers_next _ _ _ _ _ _ Hat Hfo Hfile Ep) HL1 Hfile1 Hsg1)
    as (s2 & xs2 & -> & HL2 & Hfo2 & Hwk2 & Et2 & Hsg2 & Ha2).
  exists s2, xs2. split; [done|]. split; [done|]. split; [by eapply follows_trans|]. split; [|split; [congruence|split; [done|by eapply aside_trans]]].
  intros x. rewrite <- (Hwk x), <- Et. apply Hwk2.
Qed.

(** ** Second pass: mapping and copying *)

(** The whole pages a segment covers. *)
Definition span (sg : segment) : Z := (sg_memsz sg + sg_align sg - 1) / sg_align sg * sg_align sg.

(** A loadable segment that the loader handles: aligned, inside the file and
    the user window, not larger than the largest block of the heap. *)
Record seg_ok (file_size : Z) (sg : segment) : Prop := {
  so_flags : sg_flags sg = Z.lor PF_R PF_X \/ sg_flags sg = Z.lor PF_R PF_W;
  so_size : 0 <= sg_filesz sg <= sg_memsz sg /\ 0 < sg_memsz sg;
  so_align : 0 < sg_align sg /\ sg_align sg mod 4096 = 0;
  so_vaddr : 0 <= sg_vaddr sg /\ sg_vaddr sg mod sg_align sg = 0;
  so_span : span sg <= 0x20000 /\ sg_vaddr sg + span sg <= 0x8000000000;
  so_file : 0 <= sg_offset sg /\ sg_offset sg + sg_filesz sg <= file_size
}.

Lemma span_facts fs sg : seg_ok fs sg ->
  sg_memsz sg <= span sg /\ 0 < span sg /\ span sg mod 4096 = 0 /\ sg_vaddr sg mod 4096 = 0 /\
  ALIGN (u64 (sg_vaddr sg mod sg_align sg + sg_memsz sg)) (sg_align sg) = span sg /\
  sg_vaddr sg / sg_align sg * sg_align sg = sg_vaddr sg.
Proof.
  intros [_ [Hsz Hm] [Ha Ha4] [Hv0 Hv] [Hsp _] _]. unfold span in *. set (a := sg_align sg) in *. set (z := sg_memsz sg) in *.
  pose proof (Z.div_mod (z + a - 1) a ltac:(lia)) as E. pose proof (Z.mod_pos_bound (z + a - 1) a Ha) as Hb.
  set (q := (z + a - 1) / a) in *. assert (Hq : z <= q * a) by nia.
  assert (Hmul : forall k, (k * a) mod 4096 = 0) by (intros k; rewrite Z.mul_mod, Ha4, Z.mul_0_r by lia; done).
  split; [done|]. split; [lia|]. split; [apply Hmul|].
  assert (Hva : sg_vaddr sg / a * a = sg_vaddr sg) by (rewrite (Z.div_mod (sg_vaddr sg) a) at 2 by lia; lia).
  split; [rewrite <- Hva; apply Hmul|]. split; [|done].
  rewrite Hv, Z.add_0_l, (u64_id z) by lia. unfold ALIGN.
  assert (1 <= q) by nia. assert (a <= q * a) by nia.
  rewrite (u64_id (z + a)) by lia. rewrite (u64_id (z + a - 1)) by lia. fold q. by rewrite u64_id by lia.
Qed.

Definition seg_range (sg : segment) (x : Z) : Prop := sg_vaddr sg <= x < sg_vaddr sg + span sg.

(** The segment [sg] is in place: [q] is its block, which holds none of the
    nodes [xs], and [m0] the memory with the file at [buf]. *)
Definition in_place (m0 : wmem) (buf : Z) (g : mm_gran) (m : wmem) (R : gmap Z role) (xs : list Z) (root : Z) (sg : segment) : Prop :=
  exists q, RAM_VBASE <= q /\ q + span sg <= RAM_VBASE + RAM_SIZE /\
    forall i, 0 <= i < sg_memsz sg ->
      (solid g R (word (q + i)) /\ forall x k, x ∈ xs -> 0 <= k < 512 -> x + 8 * k <> word (q + i)) /\
      (exists at_, translate (sg_vaddr sg + i) (hw_walk m root (sg_vaddr sg + i)) = Some (vbase_to_pbase q + i, at_) /\
         has_perms (elf_prot (sg_flags sg)) at_) /\
      byte m (q + i) = if i <? sg_filesz sg then byte m0 (buf + sg_offset sg + i) else Some 0.

Lemma in_place_keep m0 buf g m R g' m' R' xs root sg :
  in_place m0 buf g m R xs root sg -> keeps g m R g' m' R' ->
  (forall i, 0 <= i < sg_memsz sg -> hw_walk m' root (sg_vaddr sg + i) = hw_walk m root (sg_vaddr sg + i)) ->
  in_place m0 buf g' m' R' xs root sg.
Proof.
  intros (q & Hq1 & Hq2 & Hin) K Hw. exists q. split; [done|]. split; [done|]. intros i Hi.
  destruct (Hin i Hi) as ([Hs Hx] & Ht & Hb). destruct (kp_solid _ _ _ _ _ _ K _ Hs) as [E Hs'].
  split; [done|]. rewrite Hw by done. split; [done|]. rewrite <- Hb. unfold byte. by rewrite E.
Qed.

Lemma copy_segment_ok s sg :
  let src := buffer (el_elf s) + sg_offset sg in
  0 <= sg_filesz sg <= sg_memsz sg -> (sg_flags sg = Z.lor PF_R PF_X \/ sg_flags sg = Z.lor PF_R PF_W) ->
  range_mapped (el_mem s) (sg_vaddr sg) (sg_memsz sg) -> range_mapped (el_mem s) src (sg_filesz sg) ->
  (sg_vaddr sg + sg_filesz sg <= src \/ src + sg_filesz sg <= sg_vaddr sg) ->
  exists m', copy_segment s sg = Ok (with_mem s (el_heap s) m', 0) /\
    bytes_written (el_mem s) m' (sg_vaddr sg) (sg_memsz sg)
      (fun x => if x - sg_vaddr sg <? sg_filesz sg then byte (el_mem s) (src + (x - sg_vaddr sg)) else Some 0).
Proof.
  intros src Hsz Hfl Hd Hs Hdis. unfold copy_segment. rewrite (proj2 (Z.ltb_ge _ _)) by lia.
  replace ((sg_flags sg =? Z.lor PF_R PF_X) || (sg_flags sg =? Z.lor PF_R PF_W)) with true
    by (destruct Hfl as [-> | ->]; reflexivity).
  change (buffer (el_elf s) + sg_offset sg) with src.
  destruct (mem_copy_ok (Z.to_nat (sg_filesz sg)) (el_mem s) (sg_vaddr sg) src) as (m1 & -> & [D1 B1 W1]);
    rewrite ?Z2Nat.id by lia; try done.
  { intros x Hx. apply Hd. lia. }
  rewrite Z2Nat.id in * by lia. cbn [obind].
  destruct (mem_fill_ok 0 (Z.to_nat (sg_memsz sg - sg_filesz sg)) m1 (sg_vaddr sg + sg_filesz sg)) as (m2 & Hf & [D2 B2 W2]).
  { rewrite Z2Nat.id by lia. apply (range_mapped_dom (el_mem s)); [done|]. intros x Hx. apply Hd. lia. }
  rewrite Z2Nat.id in * by lia.
  assert (Hm2 : (if sg_filesz sg <? sg_memsz sg
                 then mem_fill (Z.to_nat (sg_memsz sg - sg_filesz sg)) m1 (sg_vaddr sg + sg_filesz sg) 0 else Ok m1) = Ok m2).
  { destruct (Z.ltb_spec (sg_filesz sg) (sg_memsz sg)); [done|].
    by replace (sg_memsz sg - sg_filesz sg) with 0 in Hf by lia. }
  rewrite Hm2. exists m2. split; [done|]. constructor; [congruence| |].
  - intros x. rewrite B2, B1. unfold in_range. decide_cmp; simpl; done || lia.
  - intros p Hp. rewrite W2, W1; [done|intros x Hx; apply Hp; lia..].
Qed.

(** Loading one segment. *)
Record populated (s : elf_state) (R : gmap Z role) (xs : list Z) (n : nat) (p : Z) (sg : segment) (s' : elf_state)
    (R' : gmap Z role) : Prop := {
  po_inv : linv s' R' xs n;
  po_follows : follows s R s' R';
  po_task : exists a, segment_mm (el_task s) sg = Ok a /\ el_task s' = set_mm (el_task s) a;
  po_segs : exists q, el_segs s' = <[p := set_vaddr sg q]> (el_segs s);
  po_links : el_links s' = el_links s;
  po_free : forall q, free_page (el_heap s') q -> free_page (el_heap s) q;
  po_rest : forall x, window 0 x -> ~ seg_range sg x ->
    hw_walk (el_mem s') (addrspace (el_task s)) x = hw_walk (el_mem s) (addrspace (el_task s)) x;
  po_place : in_place (el_mem s) (buffer (el_elf s)) (el_heap s') (el_mem s') R' xs (addrspace (el_task s)) sg;
  po_private : private (addrspace (el_task s)) (el_heap s) (el_mem s) R xs ->
    private (addrspace (el_task s)) (el_heap s') (el_mem s') R' xs
}.

Definition cost (sg : segment) : nat := Z.to_nat (pages_of (span sg)) + 4.

Lemma segment_mm_ok t sg : sg_flags sg = Z.lor PF_R PF_X \/ sg_flags sg = Z.lor PF_R PF_W -> exists a, segment_mm t sg = Ok a.
Proof. intros [E|E]; unfold segment_mm; rewrite E; eexists; reflexivity. Qed.

(** The block of a segment and its mapping, in terms of the loader. *)
Lemma elf_map_ok s R xs n sg :
  linv s R xs (cost sg + n) -> seg_ok (size (el_elf s)) sg ->
  no_section 0 (addrspace (el_task s)) (el_mem s) (sg_vaddr sg) (sg_vaddr sg + span sg) ->
  exists g' m' q R', elf_map s (sg_vaddr sg) (span sg) (sg_flags sg) = Ok (with_mem s g' m', q) /\
    linv (with_mem s g' m') R' xs n /\ follows s R (with_mem s g' m') R' /\ q mod 4096 = 0 /\
    RAM_VBASE <= q /\ q + span sg <= RAM_VBASE + RAM_SIZE /\
    (forall k, page_of q (pages_of (span sg)) k -> free_page (el_heap s) k /\ held g' m' R' k) /\
    fresh_mapping (addrspace (el_task s)) (el_heap s) (el_mem s) R g' m' R'
      (MkRegion (vbase_to_pbase q) (sg_vaddr sg) (span sg)) q (elf_prot (sg_flags sg)).
Proof.
  intros [L1 L2 L3 L4 L5] Hok Hns. destruct (span_facts _ _ Hok) as (Hm & Hpos & Hsp4 & Hv4 & _ & _).
  destruct Hok as [_ _ _ [Hv0 _] [Hsp Hend] _]. set (r := MkRegion 0 (sg_vaddr sg) (span sg)).
  assert (Hre : region_end r = sg_vaddr sg + span sg) by (unfold region_end; cbn; Z.div_mod_to_equations; lia).
  assert (Hpp : pages_of (span sg) * 4096 = span sg /\ 0 < pages_of (span sg)) by (unfold pages_of; Z.div_mod_to_equations; lia).
  destruct (as_map_tail (addrspace (el_task s)) (el_heap s) (el_mem s) R r (elf_prot (sg_flags sg)) (cost sg + n))
    as (g1 & m1 & q & g' & m' & R' & Hc & Ha & Ht & Hpar & Hsub & Hnew & Hb & Hf); rewrite ?Hre; cbn [rsize vbase r] in *; try done.
  { lia. } { unfold cost. lia. }
  { intros q g1 Hb. eapply (area_region_ok _ _ _ _ g1 q); [exact L1|exact Hb|lia|done|done|].
    Z.div_mod_to_equations. lia. }
  destruct (block_ram _ _ _ _ _ _ _ L1 Hb) as (Hq4 & Hq1 & Hq2 & _); [lia|].
  assert (K : keeps (el_heap s) (el_mem s) R g' m' R') by (by eapply fresh_keeps).
  exists g', m', q, R'. unfold elf_map, elf_calloc. rewrite Hc. cbn [obind with_mem el_heap el_mem el_task]. rewrite Ha.
  split; [done|]. split; [|split; [by split|]].
  - constructor; cbn; [apply Hf| |done| |].
    + by replace n with (cost sg + n - Z.to_nat (pages_of (span sg)) - 4)%nat by (unfold cost; lia).
    + intros Hx. apply L4. by apply (fm_free _ _ _ _ _ _ _ _ _ _ Hf).
    + intros x Hx. eapply keeps_held; [exact K|]. by apply L5.
  - split; [done|]. split; [done|]. split; [lia|]. split; [|done]. intros k Hk.
    destruct (fm_page _ _ _ _ _ _ _ _ _ _ Hf k Hk) as (Hfr & Hno & Hnf). split; [done|].
    destruct (pt_free_ready _ _ _ _ L1 k Hfr) as [Hok Hmp]. constructor; [|done| |].
    + destruct Hfr as (i & Hi & _ & ->). destruct Hpar as (P1 & P2 & P3). exists i. unfold granaddr. by rewrite P1, P2, P3.
    + intros j Hj. apply elem_of_dom. rewrite (fm_dom _ _ _ _ _ _ _ _ _ _ Hf). apply elem_of_dom. by apply Hmp.
    + intros j Hj. eapply page_solid; [apply Hf|apply Hok|done|done|done].
Qed.

Lemma held_dom g m m' R x : dom m' = dom m -> held g m R x -> held g m' R x.
Proof.
  intros Hd [H1 H2 H3 H4]. constructor; [done|done| |done]. intros k Hk.
  apply elem_of_dom. rewrite Hd. apply elem_of_dom. by apply H3.
Qed.

(** Intervals without a common point. *)
Lemma intervals_apart a n b k : 0 <= k -> (forall x, a <= x < a + n -> ~ (b <= x < b + k)) -> k <= n -> a + k <= b \/ b + k <= a.
Proof.
  intros Hk Hx Hn. destruct (Z.le_gt_cases (a + k) b); [by left|]. destruct (Z.le_gt_cases (b + k) a); [by right|].
  exfalso. apply (Hx (Z.max a b)); lia.
Qed.

(** Its space stays private: the block was free. *)
Lemma segment_private s R xs n fs sg g' m' R' q :
  linv s R xs n -> seg_ok fs sg ->
  fresh_mapping (addrspace (el_task s)) (el_heap s) (el_mem s) R g' m' R'
    (MkRegion (vbase_to_pbase q) (sg_vaddr sg) (span sg)) q (elf_prot (sg_flags sg)) ->
  private (addrspace (el_task s)) (el_heap s) (el_mem s) R xs -> private (addrspace (el_task s)) g' m' R' xs.
Proof.
  intros HL Hok Hf HP. destruct (span_facts _ _ Hok) as (_ & Hpos & Hs4 & Hv4 & _). destruct Hok as [_ _ _ [Hv0 _] [Hsp Hend] _].
  set (r := MkRegion (vbase_to_pbase q) (sg_vaddr sg) (span sg)) in Hf.
  assert (Hre : region_end r <= 0x8000000000) by (unfold region_end; cbn; Z.div_mod_to_equations; lia).
  pose proof (fresh_extends _ _ _ _ _ _ _ r _ _ (li_pt _ _ _ _ HL) Hf Hv0 Hv4 Hpos Hre) as HE. cbn [rsize vbase r] in HE.
  eapply extends_private; [exact (li_pt _ _ _ _ HL)|exact HE|exact HP| |].
  - intros x k Hx Hk. by apply (li_held _ _ _ _ HL x Hx).
  - unfold pages_of. Z.div_mod_to_equations. lia.
Qed.

Lemma populate_segment_ok s R xs n p sg :
  linv s R xs (cost sg + n) -> file_ok s R -> seg_ok (size (el_elf s)) sg ->
  no_section 0 (addrspace (el_task s)) (el_mem s) (sg_vaddr sg) (sg_vaddr sg + span sg) ->
  exists s' R', populate_segment s p sg = Ok s' /\ populated s R xs n p sg s' R'.
Proof.
  intros HL Hfile Hok Hns. destruct (span_facts _ _ Hok) as (Hm & Hpos & _ & _ & Eal & Eva).
  pose proof Hok as [Hfl [Hsz Hms] [Ha _] _ _ [Hof1 Hof2]].
  destruct (segment_mm_ok (el_task s) sg Hfl) as [a Hmm]. unfold populate_segment. rewrite Hmm. cbn [obind].
  rewrite (proj2 (Z.eqb_neq (sg_align sg) 0)) by lia. rewrite Eal, Eva.
  set (s1 := with_task s (set_mm (el_task s) a)).
  destruct (elf_map_ok s1 R xs n sg) as (g' & m' & q & R' & -> & HL' & Hfo & Hq4 & Hq1 & Hq2 & Hpg & Hf); [by destruct HL|done|done|].
  assert (Hfo1 : follows s R (with_mem s1 g' m') R') by exact Hfo. clear Hfo. cbn [obind].
  destruct (follows_file _ _ _ _ Hfo1 Hfile) as [Hfile' Hsame]. destruct Hfo1 as (K & _).
  set (s2 := with_segs _ _ _). set (sg' := set_vaddr sg q).
  assert (Hblk : forall x, q <= x < q + sg_memsz sg -> exists k j, free_page (el_heap s) k /\ held g' m' R' k /\ 0 <= j < 512 /\ word x = k + 8 * j).
  { intros x Hx. destruct (block_page q (span sg) x) as (k & j & Hk & Hj & E); [done|lia|lia|].
    destruct (Hpg k Hk). by exists k, j. }
  assert (Hmem : forall x, q <= x < q + sg_memsz sg -> forall w, solid (el_heap s) R w -> w <> word x).
  { intros x Hx w [Hw _]. destruct (Hblk x Hx) as (k & j & Hk & _ & Hj & ->). by apply Hw. }
  destruct (copy_segment_ok s2 sg') as (m2 & -> & Hbw); cbn [sg' set_vaddr sg_filesz sg_memsz sg_flags sg_vaddr sg_offset]; try done.
  { intros x Hx. destruct (Hblk x Hx) as (k & j & _ & Hk & Hj & ->). by apply Hk. }
  { intros x Hx. apply (Hfile' x). cbn in *. lia. }
  { apply (intervals_apart q (sg_memsz sg)); [lia| |lia]. intros x Hx Hx2.
    destruct (Hfile x) as [Hs _]; [cbn in Hx2; lia|]. by apply (Hmem x Hx _ Hs). }
  change (el_mem s2) with m' in Hbw. cbn [sg' set_vaddr sg_filesz sg_memsz sg_vaddr sg_offset] in Hbw.
  destruct (outside_tables (addrspace (el_task s)) g' m' R' g' m2 q (sg_memsz sg) _ (li_pt _ _ _ _ HL') Hbw) as [Hi2 Hwalk]; [|done|].
  { intros x t r k Hx Ht Hk E. destruct (Hblk x Hx) as (y & j & _ & Hy & Hj & E2).
    destruct (hd_solid _ _ _ _ Hy j Hj) as [_ Hno]. apply (Hno t r k Ht Hk). congruence. }
  destruct Hbw as [Hd2 Hby2 Hw2]. cbn [obind]. exists (with_mem s2 (el_heap s2) m2), R'. split; [done|].
  destruct HL' as [_ L2 L3 L4 L5]. constructor.
  - constructor; cbn; [exact Hi2|exact L2|exact L3|exact L4|]. intros x Hx. apply (held_dom g' m'); [done|]. by apply L5.
  - split; [|done]. constructor; cbn; [apply K|rewrite Hd2; apply K|]. intros w Hw.
    destruct (kp_solid _ _ _ _ _ _ K w Hw) as [E Hs']. split; [|exact Hs']. rewrite Hw2; [exact E|].
    intros x Hx. by apply Hmem.
  - by exists a.
  - by exists q.
  - done.
  - intros y Hy. by apply (fm_free _ _ _ _ _ _ _ _ _ _ Hf).
  - intros x Hx Hn. cbn. rewrite Hwalk. apply (fm_rest _ _ _ _ _ _ _ _ _ _ Hf); [done|]. unfold in_region, region_end. cbn.
    intros Hr. apply Hn. destruct (span_facts _ _ Hok) as (_ & _ & ? & ? & _). unfold seg_range. Z.div_mod_to_equations. lia.
  - exists q. split; [done|]. split; [done|]. intros i Hi. cbn.
    destruct (Hblk (q + i)) as (k & j & _ & Hk & Hj & E); [lia|]. split; [|split].
    + split; [rewrite E; by apply Hk|]. intros x l Hx Hl. apply Hmem; [lia|]. by apply (li_held _ _ _ _ HL x Hx).
    + rewrite Hwalk. destruct (fm_sees _ _ _ _ _ _ _ _ _ _ Hf (sg_vaddr sg + i)) as (at_ & Ht & Hpm).
      { unfold in_region, region_end. cbn. Z.div_mod_to_equations. lia. }
      exists at_. split; [|done]. etransitivity; [exact Ht|]. cbn. by replace (sg_vaddr sg + i - sg_vaddr sg) with i by lia.
    + rewrite Hby2. unfold in_range. rewrite (proj2 (Z.leb_le _ _)), (proj2 (Z.ltb_lt _ _)) by lia. cbn [andb].
      replace (q + i - q) with i by lia. destruct (Z.ltb_spec i (sg_filesz sg)); [|done]. apply Hsame. cbn. lia.
  - intros HP. eapply private_same; [by eapply segment_private|intros x _; apply Hwalk|exact Hd2|]. by split.
Qed.

(** ** The loop over the list *)

Definition is_load (sg : segment) : bool := sg_type sg =? PT_LOAD.

Fixpoint load_cost (sgs : list segment) : nat :=
  match sgs with
  | [] => 0
  | sg :: sgs => (if is_load sg then cost sg else 0) + load_cost sgs
  end.

Fixpoint apart (sgs : list segment) : Prop :=
  match sgs with
  | [] => True
  | sg :: sgs =>
      (forall sg', sg' ∈ sgs -> is_load sg = true -> is_load sg' = true -> forall x, seg_range sg x -> ~ seg_range sg' x) /\
      apart sgs
  end.

(** The task after its segments have been noted in order. *)
Fixpoint layout (t : tcb) (sgs : list segment) : outcome tcb :=
  match sgs with
  | [] => Ok t
  | sg :: sgs =>
      if is_load sg then let! a := segment_mm t sg in layout (set_mm t a) sgs else layout t sgs
  end.

(** What the second pass needs of a segment. *)
Definition loadable (s : elf_state) (sg : segment) : Prop :=
  is_load sg = true -> seg_ok (size (el_elf s)) sg /\
    no_section 0 (addrspace (el_task s)) (el_mem s) (sg_vaddr sg) (sg_vaddr sg + span sg).

Lemma seg_window fs sg x : seg_ok fs sg -> seg_range sg x -> window 0 x.
Proof. intros [_ _ _ [Hv _] [_ He] _] [H1 H2]. split; [done|]. lia. Qed.

Lemma in_place_file fs m0 m1 buf g m R xs root sg : seg_ok fs sg ->
  (forall x, buf <= x < buf + fs -> byte m1 x = byte m0 x) ->
  in_place m1 buf g m R xs root sg -> in_place m0 buf g m R xs root sg.
Proof.
  intros [_ [Hsz _] _ _ _ [Ho1 Ho2]] Hx (q & H1 & H2 & H3). exists q. split; [done|]. split; [done|]. intros i Hi.
  destruct (H3 i Hi) as (Hs & Ht & Hb). split; [done|]. split; [done|]. rewrite Hb.
  destruct (Z.ltb_spec i (sg_filesz sg)); [|done]. apply Hx. lia.
Qed.

Lemma segs_at_other s s' xs sgs p sg : segs_at s xs sgs -> p ∉ xs -> el_segs s' = <[p := sg]> (el_segs s) -> segs_at s' xs sgs.
Proof. intros H1 H2 H3. pose proof (segs_at_push s xs sgs p sg s' H1 H2 H3) as H4. by apply Forall2_cons in H4 as [_ ?]. Qed.

(** Freeing the nodes does not touch the segment. *)
Lemma in_place_freed g g' m R xs m0 buf root sg : in_place m0 buf g m R xs root sg ->
  (forall q, free_page g' q -> free_page g q \/ q ∈ xs) -> in_place m0 buf g' m R [] root sg.
Proof.
  intros (q & H1 & H2 & H3) Hf. exists q. split; [done|]. split; [done|]. intros i Hi.
  destruct (H3 i Hi) as (([S1 S2] & Hx) & Ht). split; [|done]. split; [|by intros x k ?%not_elem_of_nil]. split; [|done].
  intros p k Hp Hk. destruct (Hf p Hp); [by apply S1|]. intros E. by apply (Hx p k).
Qed.

(** The result of the second pass over the segments [sgs]. *)
Record pass (s : elf_state) (R : gmap Z role) (xs : list Z) (n : nat) (sgs : list segment) (s' : elf_state)
    (R' : gmap Z role) : Prop := {
  pa_inv : linv s' R' xs n;
  pa_follows : follows s R s' R';
  pa_links : el_links s' = el_links s;
  pa_free : forall q, free_page (el_heap s') q -> free_page (el_heap s) q;
  pa_task : layout (el_task s) sgs = Ok (el_task s');
  pa_place : forall sg, sg ∈ sgs -> is_load sg = true ->
    in_place (el_mem s) (buffer (el_elf s)) (el_heap s') (el_mem s') R' xs (addrspace (el_task s)) sg;
  pa_rest : forall x, window 0 x -> (forall sg, sg ∈ sgs -> is_load sg = true -> ~ seg_range sg x) ->
    hw_walk (el_mem s') (addrspace (el_task s)) x = hw_walk (el_mem s) (addrspace (el_task s)) x;
  pa_private : private (addrspace (el_task s)) (el_heap s) (el_mem s) R xs ->
    private (addrspace (el_task s)) (el_heap s') (el_mem s') R' xs
}.

(** One more segment in front of a pass. *)
Lemma pass_step s R xs n p sg sgs s1 R1 s2 R2 :
  is_load sg = true -> seg_ok (size (el_elf s)) sg -> file_ok s R -> apart (sg :: sgs) ->
  (forall sg', sg' ∈ sgs -> is_load sg' = true -> seg_ok (size (el_elf s)) sg') ->
  populated s R xs (load_cost sgs + n) p sg s1 R1 -> pass s1 R1 xs n sgs s2 R2 -> pass s R xs n (sg :: sgs) s2 R2.
Proof.
  intros Hld Hok Hfile [Hap _] Hoks [P1 P2 (a & Ha & Et) _ P5 P5' P6 P7 P8] [Q1 Q2 QL QF Q3 Q4 Q5 Q6].
  destruct (follows_file _ _ _ _ P2 Hfile) as [_ Hsame].
  pose proof P2 as (_ & Eb & Es & _ & Eas). constructor.
  - done.
  - by eapply follows_trans.
  - congruence.
  - intros q Hq. by apply P5', QF.
  - cbn [layout]. rewrite Hld, Ha. cbn [obind]. by rewrite <- Et.
  - intros sg' [->|Hin]%elem_of_cons Hl.
    + eapply in_place_keep; [exact P7|apply Q2|]. intros i Hi.
      assert (Hr : seg_range sg (sg_vaddr sg + i)) by (destruct (span_facts _ _ Hok); unfold seg_range; lia).
      rewrite <- Eas. apply Q5; [by eapply seg_window|]. intros sg' Hin' Hl'. by apply Hap.
    + rewrite <- Eb, <- Eas. apply (in_place_file (size (el_elf s)) _ (el_mem s1)); [by apply Hoks| |by apply Q4].
      by rewrite Eb.
  - intros x Hx Hno. rewrite <- Eas. rewrite Q5, Eas; [|done|].
    + apply P6; [done|]. apply Hno; [by left|done].
    + intros sg' Hin. apply Hno. by right.
  - intros HP%P8. rewrite <- Eas in *. by apply Q6.
Qed.

Lemma pass_skip s R xs n sg sgs s2 R2 : is_load sg = false -> pass s R xs n sgs s2 R2 -> pass s R xs n (sg :: sgs) s2 R2.
Proof.
  intros Hld [Q1 Q2 QL QF Q3 Q4 Q5 Q6]. constructor; [done|done|done|done|cbn [layout]; by rewrite Hld| | |done].
  - intros sg' [->|Hin]%elem_of_cons Hl; [congruence|by apply Q4].
  - intros x Hx Hno. apply Q5; [done|]. intros sg' Hin. apply Hno. by right.
Qed.

Lemma populate_loop_ok todo : forall done sgs s R n fuel pos,
  linv s R (done ++ todo) (load_cost sgs + n) -> file_ok s R -> segs_at s todo sgs ->
  (forall sg, sg ∈ sgs -> loadable s sg) -> apart sgs ->
  head (todo ++ [el_head s]) = Some pos -> (length todo < fuel)%nat ->
  exists s' R', populate_loop fuel s pos = Ok s' /\ pass s R (done ++ todo) n sgs s' R'.
Proof.
  induction todo as [|p todo IH]; intros done sgs s R n fuel pos HL Hfile Hsg Hld Hap Hpos Hfu;
    (destruct fuel as [|fuel]; [simpl in Hfu; lia|]); cbn [populate_loop].
  { simpl in Hpos. injection Hpos as <-. rewrite Z.eqb_refl. apply Forall2_nil_inv_l in Hsg as ->.
    exists s, R. split; [done|]. constructor; [done|split; [apply keeps_refl|done]|done|done|done| |done|done]. by intros sg ?%not_elem_of_nil. }
  simpl in Hpos. injection Hpos as <-. apply Forall2_cons_inv_l in Hsg as (sg & sgs' & Hp & Hsg & ->). simpl in Hfu.
  pose proof (li_list _ _ _ _ HL) as Hd. assert (Hnd : p <> el_head s /\ p ∉ todo).
  { destruct Hd as [Hnd _]. apply NoDup_cons in Hnd as [H1 H2]. apply NoDup_app in H2 as (_ & _ & H2).
    apply NoDup_cons in H2 as [H2 _]. split; [|done]. intros ->. apply H1, elem_of_app. right. by left. }
  rewrite (proj2 (Z.eqb_neq _ _)) by apply Hnd. unfold get_seg. rewrite Hp. cbn [obind].
  destruct (dlist_entry _ _ _ _ _ Hd) as [_ (q & Hq & Hnx)].
  assert (Hpos2 : head (todo ++ [el_head s]) = Some q) by exact Hq.
  fold (is_load sg). destruct (is_load sg) eqn:Hl.
  - destruct (Hld sg ltac:(by left) Hl) as [Hok Hns]. cbn [load_cost] in HL. rewrite Hl in HL.
    destruct (populate_segment_ok s R (done ++ p :: todo) (load_cost sgs' + n) p sg) as (s1 & R1 & -> & HP); [|done..|].
    { by rewrite Nat.add_assoc. }
    cbn [obind]. pose proof HP as [P1 P2 _ (qq & P4) P5 _ P6 _ _]. pose proof P2 as (_ & _ & Es & Eh & Eas).
    rewrite P5, (get_next_ok _ _ _ Hnx). cbn [obind].
    destruct (IH (done ++ [p]) sgs' s1 R1 n fuel q) as (s2 & R2 & -> & HQ).
    + by rewrite <- app_assoc.
    + by apply (follows_file _ _ _ _ P2 Hfile).
    + eapply segs_at_other; [exact Hsg|apply Hnd|exact P4].
    + intros sg' Hin Hl'. destruct (Hld sg' ltac:(by right) Hl') as [Hok' Hns']. rewrite Es, Eas. split; [done|].
      intros x Hx Hr d. rewrite P6; [by apply Hns'|done|]. intros Hr2. by apply (proj1 Hap sg' Hin Hl Hl' x).
    + apply Hap.
    + by rewrite Eh.
    + lia.
    + rewrite <- app_assoc in HQ. exists s2, R2. split; [done|]. eapply pass_step; try done.
      intros sg' Hin Hl'. apply (Hld sg'); [by right|done].
  - cbn [obind]. rewrite (get_next_ok _ _ _ Hnx). cbn [obind].
    cbn [load_cost] in HL. rewrite Hl in HL.
    destruct (IH (done ++ [p]) sgs' s R n fuel q) as (s2 & R2 & -> & HQ); try done.
    + by rewrite <- app_assoc.
    + intros sg' Hin. apply Hld. by right.
    + apply Hap.
    + lia.
    + rewrite <- app_assoc in HQ. exists s2, R2. split; [done|]. by apply pass_skip.
Qed.

(** ** Third pass: freeing the list *)

(** Freeing a page in use puts it back among the free ones. *)
Lemma free_held_ok g m R x root n : pt_inv root g m R -> tail_free g n -> held g m R x ->
  exists g', gran_free g x SIZEOF_SEGMENT = Ok g' /\ same_params g g' /\ pt_inv root g' m R /\ tail_free g' n /\
    forall q, free_page g' q <-> free_page g q \/ q = x.
Proof.
  intros Hi Ht Hh. pose proof Ht as (W & H12 & Hn & Hfr). pose proof Hh as [(i & Hir & ->) Hok Hm _].
  assert (Hg1 : granules_of g SIZEOF_SEGMENT = 1) by (unfold granules_of; by rewrite H12).
  assert (Hbit : granule g i = true).
  { destruct (granule g i) eqn:E; [done|]. exfalso. apply (held_not_free _ _ _ _ Hh). by exists i. }
  destruct (gran_free_cases g W i 1 ltac:(lia) ltac:(lia) ltac:(lia) SIZEOF_SEGMENT) as [(_ & t' & He & Hu)|[(j & Hj & Hf) _]].
  - rewrite H12. by vm_compute.
  - done.
  - assert (Hb : forall j, 0 <= j -> granule (set_gat g t') j = if (i <=? j) && (j <? i + 1) then false else granule g j)
      by (destruct Hu as (_ & _ & Hu); exact Hu).
    assert (Hfree : forall q, free_page (set_gat g t') q <-> free_page g q \/ q = granaddr g i).
    { intros q. split.
      - intros (j & Hj & Hf & ->). cbn in Hj. rewrite Hb in Hf by lia. destruct (decide (j = i)) as [->|]; [by right|left].
        exists j. split; [done|]. split; [|done]. revert Hf. decide_cmp; done || lia.
      - intros [(j & Hj & Hf & ->)| ->]; [exists j|exists i]; (split; [done|]); (split; [|done]); rewrite Hb by lia;
          decide_cmp; simpl; done || lia. }
    exists (set_gat g t'). split; [done|]. split; [done|]. split; [constructor|split; [|done]].
    + apply Hi.
    + intros q [Hq| ->]%Hfree; [by apply (pt_free_ready _ _ _ _ Hi)|done].
    + intros q [Hq| ->]%Hfree; [by apply (pt_free_unused _ _ _ _ Hi)|by eapply held_no_table].
    + split; [by eapply wf_set_gat|]. split; [done|]. split; [done|]. cbn. intros j Hj. rewrite Hb by lia.
      destr_if; [done|]. by apply Hfr.
  - replace j with i in Hf by lia. congruence.
Qed.

Lemma held_after_free g g' m R x y :
  held g m R y -> same_params g g' -> tbl_ok x -> x <> y -> (forall q, free_page g' q <-> free_page g q \/ q = x) -> held g' m R y.
Proof.
  intros [(i & Hi & ->) Hok Hm Hs] (P1 & P2 & P3) [Hx4 _] Hne Hf. constructor; [|done|done|].
  - exists i. unfold granaddr. by rewrite P1, P2, P3.
  - intros k Hk. destruct (Hs k Hk) as [H1 H2]. split; [|done]. intros p l [Hp| ->]%Hf Hl; [by apply H1|].
    intros E. destruct (page_word _ _ _ _ (proj1 Hok) Hx4 Hk Hl E). congruence.
Qed.

Lemma remove_loop_ok xs : forall s R n fuel pos,
  linv s R xs n -> head (xs ++ [el_head s]) = Some pos -> (length xs < fuel)%nat ->
  exists s', remove_loop fuel s pos = Ok s' /\ linv s' R [] n /\ el_mem s' = el_mem s /\ el_task s' = el_task s /\
    same_params (el_heap s) (el_heap s') /\ (forall q, free_page (el_heap s') q <-> free_page (el_heap s) q \/ q ∈ xs) /\
    el_head s' = el_head s /\ touches (el_links s) (el_links s') (el_head s :: xs).
Proof.
  induction xs as [|p xs IH]; intros s R n fuel pos HL Hpos Hfu;
    (destruct fuel as [|fuel]; [simpl in Hfu; lia|]); cbn [remove_loop]; simpl in Hpos; injection Hpos as <-.
  { rewrite Z.eqb_refl. exists s. do 5 (split; [done|]). split; [intros q; rewrite elem_of_nil; tauto|done]. }
  simpl in Hfu. destruct HL as [L1 L2 L3 L4 L5]. pose proof L3 as [Hnd _].
  apply NoDup_cons in Hnd as [Hnh Hnd]. apply NoDup_cons in Hnd as [Hnp Hnd].
  rewrite (proj2 (Z.eqb_neq p _)) by (intros ->; apply Hnh; left).
  destruct (dlist_entry _ _ [] p xs L3) as [_ (q & Hq & Hnx)]. rewrite (get_next_ok _ _ _ Hnx). cbn [obind].
  destruct (list_del_ok (el_links s) (el_head s) [] p xs L3) as (l' & -> & Hd & Htc). cbn [obind app] in *.
  pose proof (L5 p ltac:(by left)) as Hh. unfold elf_free. cbn [el_heap el_mem with_segs].
  destruct (free_held_ok _ _ _ _ _ _ L1 L2 Hh) as (g' & -> & Hpar & Hi' & Ht' & Hf). cbn [obind].
  destruct (IH (with_mem (with_segs s l' (el_segs s)) g' (el_mem s)) R n fuel q) as (s' & -> & HL' & Em & Et & Hp' & Hf' & Eh & Htc');
    [|exact Hq|lia|].
  - constructor; cbn; [done|done|done| |].
    + intros [Hx|Hx]%Hf; [done|]. subst p. apply Hnh. left.
    + intros x Hx. eapply held_after_free; [by apply L5; right|done|apply Hh| |done]. intros ->. done.
  - exists s'. split; [done|]. split; [done|]. split; [done|]. split; [done|]. split; [by eapply same_params_trans|].
    split; [intros y; rewrite Hf', elem_of_cons; cbn [el_heap with_mem with_segs]; rewrite Hf; tauto|]. split; [done|].
    eapply touches_trans; [eapply touches_mono; [exact Htc|]|eapply touches_mono; [exact Htc'|]];
      intros y; rewrite ?elem_of_cons; cbn; rewrite ?elem_of_cons; tauto.
Qed.

(** The fuel of the list loops is enough. *)
Lemma list_fuel_ok s xs : dlist (el_links s) (el_head s) xs -> (length xs < list_fuel s)%nat.
Proof.
  intros Hd. unfold list_fuel. apply Nat.lt_succ_r. pose proof Hd as [Hnd _]. apply NoDup_cons in Hnd as [_ Hnd].
  rewrite <- (size_list_to_set (C := gset Z) xs) by done. apply subseteq_size. intros x Hx.
  apply elem_of_list_to_set in Hx. apply (dlist_dom _ _ _ _ Hd). by right.
Qed.

(** ** The whole loader *)

(** User code reads the segment at its address: the bytes of the file, then
    zeros, with the permissions of the segment. *)
Definition user_sees (m0 : wmem) (buf : Z) (m : wmem) (root : Z) (sg : segment) : Prop :=
  forall i, 0 <= i < sg_memsz sg -> exists pa at_,
    translate (sg_vaddr sg + i) (hw_walk m root (sg_vaddr sg + i)) = Some (pa, at_) /\
    has_perms (elf_prot (sg_flags sg)) at_ /\
    byte m (pbase_to_vbase pa) = (if i <? sg_filesz sg then byte m0 (buf + sg_offset sg + i) else Some 0) /\
    RAM_PBASE <= pa < RAM_PBASE + RAM_SIZE.

Lemma in_place_sees fs m0 buf g m R xs root sg : seg_ok fs sg -> in_place m0 buf g m R xs root sg -> user_sees m0 buf m root sg.
Proof.
  intros Hok (q & Hq1 & Hq2 & Hin) i Hi. destruct (Hin i Hi) as (_ & (at_ & Ht & Hp) & Hb).
  destruct (span_facts _ _ Hok) as (Hm & _). exists (vbase_to_pbase q + i), at_. split; [done|]. split; [done|].
  assert (Hr : RAM_VBASE <= q < RAM_VBASE + RAM_SIZE) by lia. rewrite (vbase_ram _ Hr), pbase_ram; [|lia]. split; [|lia].
  by replace (q - RAM_VBASE + RAM_PBASE + i - RAM_PBASE + RAM_VBASE) with (q + i) by lia.
Qed.

Lemma layout_ctx sgs : forall t t', layout t sgs = Ok t' -> ctx t' = ctx t.
Proof.
  induction sgs as [|sg sgs IH]; intros t t' E; cbn [layout] in E; [by injection E as <-|].
  destruct (is_load sg); [|by apply IH]. destruct (segment_mm t sg) as [a| | |]; try done. cbn [obind] in E.
  by rewrite (IH _ _ E).
Qed.

(** The image in memory: a header that passes the checks and the program
    headers [hs], inside the file. *)
Record image_ok (s : elf_state) (h : Elf64_Ehdr) (hs : list Elf64_Phdr) : Prop := {
  im_buffer : 0 < buffer (el_elf s) /\ 0 < size (el_elf s) /\ buffer (el_elf s) + size (el_elf s) < 2 ^ 64;
  im_header : read_ehdr (el_mem s) (buffer (el_elf s)) = Ok h;
  im_check : elf64_header_check h = 0;
  im_arch : elf_arch_check h = 0;
  im_count : h_phnum h = Z.of_nat (length hs);
  im_inside : 0 <= h_phoff h /\ h_phoff h + SIZEOF_PHDR * h_phnum h <= size (el_elf s);
  im_phdrs : forall i ph, hs !! i = Some ph ->
    read_phdr (el_mem s) (buffer (el_elf s) + h_phoff h + SIZEOF_PHDR * Z.of_nat i) = Ok ph;
  im_phdrs_ok : Forall header_ok hs
}.

(** What the loader leaves alone: memory that was in use, and the list nodes
    there. *)
Record beside (s : elf_state) (R : gmap Z role) (s' : elf_state) (R' : gmap Z role) : Prop := {
  be_keeps : keeps (el_heap s) (el_mem s) R (el_heap s') (el_mem s') R';
  be_free : forall q, free_page (el_heap s') q -> free_page (el_heap s) q;
  be_dom : dom (el_links s) ⊆ dom (el_links s');
  be_links : forall x, ~ free_page (el_heap s) x -> x <> el_head s -> el_links s' !! x = el_links s !! x
}.

Lemma passes_beside s R n xs s1 s2 R' s3 sgs :
  follows s R s1 R -> aside s [] s1 xs -> pass s1 R xs n sgs s2 R' ->
  same_params (el_heap s2) (el_heap s3) -> el_mem s3 = el_mem s2 ->
  (forall q, free_page (el_heap s3) q <-> free_page (el_heap s2) q \/ q ∈ xs) ->
  touches (el_links s2) (el_links s3) (el_head s2 :: xs) -> beside s R s3 R'.
Proof.
  intros (K1 & _) [Eh D1 F1 N1 _ _ L1] [Q1 (K2 & _ & _ & Eh2 & _) QL QF _ _ _ _] Hpar Em Hfr [T1 T2].
  assert (Hxs : forall x, x ∈ xs -> free_page (el_heap s) x).
  { intros x Hx. destruct (N1 x Hx) as [Hn|?]; [by apply not_elem_of_nil in Hn|done]. }
  assert (Hfree : forall q, free_page (el_heap s3) q -> free_page (el_heap s) q).
  { intros q [Hq|Hq]%Hfr; [by apply F1, QF|by apply Hxs]. }
  pose proof (keeps_trans _ _ _ _ _ _ _ _ _ K1 K2) as [P D K]. constructor; [|done|..].
  - constructor; [by eapply same_params_trans|by rewrite Em|]. intros w Hw. rewrite Em. destruct (K w Hw) as [E [_ H2]].
    split; [done|]. split; [|done]. intros p k Hp. apply Hw. by apply Hfree.
  - rewrite T1, QL. exact D1.
  - intros x Hf Hx. rewrite T2, QL; [apply L1; [done|by rewrite list_elem_of_singleton]|]. rewrite Eh2, Eh.
    intros [->|Hin]%elem_of_cons; [done|]. by apply Hf, Hxs.
Qed.

(** The nodes are the pages that the first pass took. *)
Lemma nodes_freed s R n xs s1 s2 s3 : linv s1 R xs n -> aside s [] s1 xs ->
  (forall q, free_page (el_heap s3) q <-> free_page (el_heap s2) q \/ q ∈ xs) -> list_freed s s1 s2 s3.
Proof.
  intros HL [_ _ _ N1 _ T1 _] Hfr q. rewrite Hfr. split; (intros [Hq|Hq]; [by left|right]).
  - destruct (N1 q Hq) as [Hn|Hf]; [by apply not_elem_of_nil in Hn|]. split; [done|].
    by apply (held_not_free _ (el_mem s1) R), (li_held _ _ _ _ HL).
  - destruct Hq as [H1 H2]. by destruct (T1 q H1).
Qed.

Lemma three_passes s R n hs :
  linv s R [] (wanted_count hs + (load_cost (collect hs []) + n)) -> file_ok s R -> headers_at s 0 hs ->
  is_64bit (el_elf s) = true -> e_phnum (el_elf s) = Z.of_nat (length hs) -> Forall header_ok hs ->
  (forall sg, sg ∈ collect hs [] -> loadable s sg) -> apart (collect hs []) ->
  exists s1 s2 s3 R', load_segments s = Ok s1 /\ populate_segments s1 = Ok s2 /\ remove_segments s2 = Ok s3 /\
    list_freed s s1 s2 s3 /\ linv s3 R' [] n /\ layout (el_task s) (collect hs []) = Ok (el_task s3) /\ beside s R s3 R' /\
    (forall sg, sg ∈ collect hs [] -> is_load sg = true ->
       in_place (el_mem s) (buffer (el_elf s)) (el_heap s3) (el_mem s3) R' [] (addrspace (el_task s)) sg) /\
    (forall x, window 0 x -> (forall sg, sg ∈ collect hs [] -> is_load sg = true -> ~ seg_range sg x) ->
       hw_walk (el_mem s3) (addrspace (el_task s)) x = hw_walk (el_mem s) (addrspace (el_task s)) x) /\
    (private (addrspace (el_task s)) (el_heap s) (el_mem s) R [] -> private (addrspace (el_task s)) (el_heap s3) (el_mem s3) R' []).
Proof.
  intros HL Hfile Hat H64 Hnum Hok Hld Hap.
  destruct (load_loop_ok hs s R [] [] 0 (load_cost (collect hs []) + n)) as (s1 & xs & Hl & HL1 & Hfo & Hwk & Et & Hsg & Has); try done.
  { constructor. }
  destruct (follows_file _ _ _ _ Hfo Hfile) as [Hfile1 Hsame]. pose proof Hfo as (_ & Eb & Es & Eh & _).
  destruct (dlist_head_next _ _ _ (li_list _ _ _ _ HL1)) as (q & Hq & Hnx).
  destruct (populate_loop_ok xs [] (collect hs []) s1 R n (list_fuel s1) q) as (s2 & R' & Hp & HQ); try done.
  { intros sg Hin Hl1. destruct (Hld sg Hin Hl1) as [Hso Hns]. rewrite Es, Et. split; [done|].
    intros x Hx Hr d. rewrite (Hwk x). by apply Hns. }
  { apply list_fuel_ok, HL1. }
  pose proof HQ as [Q1 Q2 QL QF Q3 Q4 Q5 Q6]. cbn [app] in Q1, HQ. destruct (dlist_head_next _ _ _ (li_list _ _ _ _ Q1)) as (q2 & Hq2 & Hnx2).
  destruct (remove_loop_ok xs s2 R' n (list_fuel s2) q2) as (s3 & Hr & HL3 & Em & Et3 & Hpar & Hfr & Eh3 & Htc); [done|done|apply list_fuel_ok, Q1|].
  exists s1, s2, s3, R'. unfold load_segments, populate_segments, remove_segments.
  rewrite H64, Hnum, Nat2Z.id, (get_next_ok _ _ _ Hnx), (get_next_ok _ _ _ Hnx2). cbn [obind].
  do 3 (split; [done|]). split; [by eapply nodes_freed|]. split; [done|]. rewrite <- Et. split; [by rewrite Et3|]. split; [by eapply passes_beside|]. rewrite Em. split; [|split].
  - intros sg Hin Hl1. destruct (Hld sg Hin Hl1) as [Hso _]. apply (in_place_freed (el_heap s2) _ _ _ xs); [|by intros q3 ?%Hfr].
    apply (in_place_file (size (el_elf s)) _ (el_mem s1)); [done|done|]. rewrite <- Eb. by apply Q4.
  - intros x Hx Hno. rewrite Q5, Et by done. apply Hwk.
  - intros HP. assert (HP1 : private (addrspace (el_task s1)) (el_heap s1) (el_mem s1) R xs).
    { rewrite Et in HP |- *. destruct Hfo as [K _]. eapply private_same; [exact HP|intros x _; apply Hwk|apply K|].
      intros w Hw _. split; [by apply K|]. intros p k Hin Hk. destruct (as_new _ _ _ _ Has p Hin) as [Hn|Hf]; [by apply not_elem_of_nil in Hn|].
      by apply Hw. }
    apply Q6 in HP1. eapply private_same; [exact HP1|done|done|]. intros w [W1 W2] Hno.
    split; [|by intros p k ?%not_elem_of_nil]. split; [|done]. intros p k [Hin|Hin]%Hfr; [by apply W1|by apply Hno].
Qed.

(** ** A small program *)

Module TinyElf.
Definition base : Z := RAM_VBASE + 0x40000.

(** Little-endian words from bytes. *)
Fixpoint le (bs : list Z) : Z := match bs with [] => 0 | b :: bs => b + 256 * le bs end.

Fixpoint words (n : nat) (a : Z) (bs : list Z) : list (Z * Z) :=
  match n with O => [] | S n => (a, le (take 8 bs)) :: words n (a + 8) (drop 8 bs) end.

Definition bytes_of (n : nat) (v : Z) : list Z := map (fun i => v / 256 ^ i mod 256) (seqZ 0 (Z.of_nat n)).

Definition ehdr_bytes : list Z :=
  [0x7f; 69; 76; 70; 2; 1; 1; 0; 0; 0; 0; 0; 0; 0; 0; 0] ++ bytes_of 2 2 ++ bytes_of 2 183 ++ bytes_of 4 1 ++
  bytes_of 8 0x400000 ++ bytes_of 8 64 ++ bytes_of 8 0 ++ bytes_of 4 0 ++ bytes_of 2 64 ++ bytes_of 2 56 ++ bytes_of 2 2 ++
  bytes_of 2 64 ++ bytes_of 2 1 ++ bytes_of 2 0.

Definition phdr_bytes (h : Elf64_Phdr) : list Z :=
  bytes_of 4 (p_type h) ++ bytes_of 4 (p_flags h) ++ bytes_of 8 (p_offset h) ++ bytes_of 8 (p_vaddr h) ++
  bytes_of 8 (p_paddr h) ++ bytes_of 8 (p_filesz h) ++ bytes_of 8 (p_memsz h) ++ bytes_of 8 (p_align h).

Definition text : Elf64_Phdr := MkPhdr PT_LOAD 5 176 0x400000 0x400000 8 8 0x1000.
Definition bss (va : Z) : Elf64_Phdr := MkPhdr PT_LOAD 6 184 va va 8 0x20 0x1000.

Definition image (h1 h2 : Elf64_Phdr) : list Z :=
  ehdr_bytes ++ phdr_bytes h1 ++ phdr_bytes h2 ++ [1; 2; 3; 4; 5; 6; 7; 8] ++ [11; 12; 13; 14; 15; 16; 17; 18].

Definition memory (h1 h2 : Elf64_Phdr) : wmem := Sample.memory ∪ list_to_map (words 24 base (image h1 h2)).

Definition elf : chin_elf := MkElf false false base 192 0 0 0 0 0 0 0 0 0 0.
Definition head : Z := 0x6000.

Definition start (h1 h2 : Elf64_Phdr) : elf_state :=
  MkLoad Sample.heap (memory h1 h2) {[ head := MkNode head head ]} ∅ elf head Program.task.

Definition hs : list Elf64_Phdr := [text; bss 0x402000].
Definition state : elf_state := start text (bss 0x402000).

Lemma union_ext (m f : wmem) : m ⊆ m ∪ f.
Proof. apply map_union_subseteq_l. Qed.

Lemma memory_ext : Sample.memory ⊆ memory text (bss 0x402000).
Proof. exact (union_ext Sample.memory (list_to_map (words 24 base (image text (bss 0x402000))))). Qed.

#[global] Opaque memory.

Lemma tiny_inv : pt_inv Sample.root Sample.heap (memory text (bss 0x402000)) {[ Sample.root := Root ]}.
Proof.
  destruct Sample.inv as [Hwf Hrd Hun]. constructor; [|intros p Hp|exact Hun].
  - apply (wf_frame Sample.memory); [exact Hwf|]. intros p r k Hp Hk.
    destruct (wf_word _ _ _ _ _ k Hwf Hp Hk) as [e He]. rewrite He. by apply (lookup_weaken _ _ _ _ He memory_ext).
  - destruct (Hrd p Hp) as [Hok Hm]. split; [exact Hok|]. intros k Hk. destruct (Hm k Hk) as [e He].
    exists e. by apply (lookup_weaken _ _ _ _ He memory_ext).
Qed.

Lemma tiny_no_sections lo hi : no_section 0 Sample.root (memory text (bss 0x402000)) lo hi.
Proof.
  intros x Hx Hr d. rewrite (walk_frame Sample.memory _ {[ Sample.root := Root ]}).
  - by apply (Sample.no_sections 0 lo hi).
  - apply Sample.inv.
  - intros p r k Hp Hk _. destruct (wf_word _ _ _ _ _ k (pt_wf _ _ _ _ Sample.inv) Hp Hk) as [e He].
    rewrite He. by apply (lookup_weaken _ _ _ _ He memory_ext).
Qed.

Lemma tail : tail_free Sample.heap 40.
Proof. split; [apply Sample.heap_wf|]. split; [reflexivity|]. split; [cbn; lia|]. intros j Hj. apply Sample.heap_free. cbn in Hj. lia. Qed.

Lemma start_inv : linv state {[ Sample.root := Root ]} [] (wanted_count hs + (load_cost (collect hs []) + 28)).
Proof.
  constructor.
  - exact tiny_inv.
  - exact tail.
  - split; [apply NoDup_singleton|]. cbn. split; [split; reflexivity|exact I].
  - intros (i & Hi & _ & E). unfold granaddr in E. cbn in E, Hi. unfold head, RAM_VBASE in E. lia.
  - intros x Hx. by apply not_elem_of_nil in Hx.
Qed.

Definition all_there (m : wmem) : bool := forallb (fun k => bool_decide (is_Some (m !! (base + 8 * k)))) (seqZ 0 24).

Lemma file_words : all_there (memory text (bss 0x402000)) = true.
Proof. vm_compute. reflexivity. Qed.

Lemma start_file : file_ok state {[ Sample.root := Root ]}.
Proof.
  intros x Hx. change (buffer (el_elf state)) with base in Hx. change (size (el_elf state)) with 192 in Hx.
  assert (E : exists k, 0 <= k < 24 /\ word x = base + 8 * k).
  { exists ((x - base) / 8). unfold word, base, RAM_VBASE in *. Z.div_mod_to_equations. lia. }
  destruct E as (k & Hk & ->). split; [split|].
  - intros p j (i & Hi & _ & ->) Hj. unfold granaddr, base. cbn in Hi |- *. unfold RAM_VBASE. lia.
  - intros p r j Hp Hj. apply lookup_singleton_Some in Hp as [<- _]. unfold base, Sample.root, RAM_VBASE. lia.
  - pose proof file_words as Hf. unfold all_there in Hf. rewrite forallb_forall in Hf. specialize (Hf k).
    apply bool_decide_eq_true in Hf; [exact Hf|]. apply list_elem_of_In, elem_of_seqZ. lia.
Qed.
End TinyElf.

(** ** Headers *)

(** A 64-bit little-endian AArch64 image with sensible tables. *)
Record valid_header (h : Elf64_Ehdr) : Prop := {
  vh_ident : map (ident h) (seq 0 7) = [0x7f; 69; 76; 70; ELFCLASS64; ELFDATA2LSB; 1];
  vh_type : h_type h = ET_DYN \/ h_type h = ET_REL \/ h_type h = ET_EXEC;
  vh_machine : e_machine h = EM_ARM64;
  vh_phent : h_phentsize h = SIZEOF_PHDR;
  vh_phnum : 1 <= h_phnum h <= 1170;
  vh_shent : h_shentsize h = SIZEOF_SHDR;
  vh_shnum : 1 <= h_shnum h;
  vh_strndx : e_shstrndx h < h_shnum h
}.

(** The two checks together accept exactly the valid headers. *)
Lemma header_checks h :
  (elf64_header_check h = 0 \/ elf64_header_check h = -1) /\ (elf_arch_check h = 0 \/ elf_arch_check h = -1) /\
  (elf64_header_check h = 0 /\ elf_arch_check h = 0 <-> valid_header h).
Proof.
  split; [unfold elf64_header_check; repeat destr_if; auto|]. split; [unfold elf_arch_check; repeat destr_if; auto|].
  unfold elf64_header_check, elf_arch_check. change (65536 / SIZEOF_PHDR) with 1170. split.
  - intros [H1 H2]. repeat destr_if; try discriminate. repeat match goal with H : (_ || _) = false |- _ => apply orb_false_iff in H as [? ?] end.
    breflect. constructor; try done; try lia.
    cbn [map seq]. unfold EI_CLASS, EI_DATA, EI_VERSION in *. congruence.
  - intros [Hi Ht Hm Hp Hn Hs Hc Hx]. injection Hi as E0 E1 E2 E3 E4 E5 E6. unfold EI_CLASS, EI_DATA, EI_VERSION.
    rewrite E0, E1, E2, E3, E4, E5, E6, Hm, Hp, Hs. rewrite (proj2 (Z.ltb_ge (h_phnum h) _)), (proj2 (Z.ltb_ge 1170 _)) by lia.
    rewrite (proj2 (Z.ltb_ge (h_shnum h) _)), (proj2 (Z.leb_gt (h_shnum h) _)) by lia.
    destruct Ht as [-> | [-> | ->]]; split; reflexivity.
Qed.

(** The state after the header, from which the passes start. *)
Definition header_read (s : elf_state) (h : Elf64_Ehdr) : elf_state :=
  let e := el_elf s in
  let e := MkElf (need_interpreter e) true (buffer e) (size e) (h_type h) (h_entry h) (h_phoff h) (h_shoff h)
             (h_phnum h) (h_shnum h) (h_phentsize h) (h_shentsize h)
             (u64 (buffer e + h_shoff h)) (u64 (buffer e + h_phoff h)) in
  with_task (with_elf s e) (set_ctx (el_task s) (context_set_entry (ctx (el_task s)) (h_entry h))).

(** The passes, and that the pages of the list went back to the heap. *)
Definition passes_free (s : elf_state) (h : Elf64_Ehdr) (s' : elf_state) : Prop :=
  exists s1 s2, load_segments (header_read s h) = Ok s1 /\ populate_segments s1 = Ok s2 /\ remove_segments s2 = Ok s' /\
    list_freed s s1 s2 s'.

(** The loader on a good image. *)
Lemma elf_initialize_ok s R n h hs :
  image_ok s h hs -> file_ok s R -> linv s R [] (wanted_count hs + (load_cost (collect hs []) + n)) ->
  (forall sg, sg ∈ collect hs [] -> loadable s sg) -> apart (collect hs []) ->
  exists s' R', elf_initialize s = Ok (s', 0) /\ linv s' R' [] n /\ passes_free s h s' /\ beside s R s' R' /\
    (forall sg, sg ∈ collect hs [] -> is_load sg = true ->
       in_place (el_mem s) (buffer (el_elf s)) (el_heap s') (el_mem s') R' [] (addrspace (el_task s)) sg) /\
    (forall x, window 0 x -> (forall sg, sg ∈ collect hs [] -> is_load sg = true -> ~ seg_range sg x) ->
       hw_walk (el_mem s') (addrspace (el_task s)) x = hw_walk (el_mem s) (addrspace (el_task s)) x) /\
    ctx (el_task s') = context_set_entry (ctx (el_task s)) (h_entry h) /\
    layout (set_ctx (el_task s) (context_set_entry (ctx (el_task s)) (h_entry h))) (collect hs []) = Ok (el_task s') /\
    (private (addrspace (el_task s)) (el_heap s) (el_mem s) R [] -> private (addrspace (el_task s)) (el_heap s') (el_mem s') R' []).
Proof.
  intros [(I1 & I2 & I3) I4 I5 I6 I7 (I8 & I9) I10 I11] Hfile HL Hld Hap.
  unfold elf_initialize. rewrite (proj2 (Z.eqb_neq _ _)), (proj2 (Z.eqb_neq (size _) _)) by lia.
  rewrite I4. cbn [negb andb obind]. rewrite I5, I6. cbn [Z.ltb Z.compare]. set (s1 := with_task _ _).
  assert (Hat : headers_at s1 0 hs).
  { unfold headers_at. cbn. unfold SIZEOF_PHDR in *. rewrite u64_id by lia. split; [lia|]. split; [lia|].
    intros i ph Hi. by apply I10. }
  destruct (three_passes s1 R n hs) as (s2 & s3 & s4 & R' & H1 & H2 & H3 & Hfd & HL' & Hlay & Hbe & Hsee & Hrest & Hpriv); try done.
  { destruct HL. by constructor. }
  rewrite H1. cbn [obind]. rewrite H2. cbn [obind]. rewrite H3. exists s4, R'. split; [done|]. split; [done|].
  split; [by exists s2, s3|]. split; [by destruct Hbe|]. split; [done|].
  split; [done|]. split; [by apply (layout_ctx _ _ _ Hlay)|]. split; [done|exact Hpriv].
Qed.

Module ElfSpec.

(** C11: loading a program.  For an image whose header passes the checks, whose
    loadable segments are aligned, disjoint and at most 128 KiB, and a heap with
    enough free pages at its end, [elf_initialize] returns 0.  User code then
    finds every byte of every loadable segment at its virtual address, with the
    contents of the file or zero past the file part, and with the permissions of
    the segment; every other user address translates as before; the entry point
    is in the task's context, the layout of the task is the one its segments
    give, and the list of segments is empty.  Its pages are free again: the heap
    afterwards has the free pages that [populate_segments] left and exactly those
    besides that [load_segments] had taken. *)
Theorem elf_initialize_loads s R n h hs :
  image_ok s h hs -> file_ok s R -> linv s R [] (wanted_count hs + (load_cost (collect hs []) + n)) ->
  (forall sg, sg ∈ collect hs [] -> loadable s sg) -> apart (collect hs []) ->
  exists s' R', elf_initialize s = Ok (s', 0) /\ linv s' R' [] n /\ passes_free s h s' /\
    (forall sg, sg ∈ collect hs [] -> is_load sg = true ->
       user_sees (el_mem s) (buffer (el_elf s)) (el_mem s') (addrspace (el_task s)) sg) /\
    (forall x, window 0 x -> (forall sg, sg ∈ collect hs [] -> is_load sg = true -> ~ seg_range sg x) ->
       hw_walk (el_mem s') (addrspace (el_task s)) x = hw_walk (el_mem s) (addrspace (el_task s)) x) /\
    ctx (el_task s') = context_set_entry (ctx (el_task s)) (h_entry h) /\
    layout (set_ctx (el_task s) (context_set_entry (ctx (el_task s)) (h_entry h))) (collect hs []) = Ok (el_task s').
Proof.
  intros Hi Hf HL Hld Hap. destruct (elf_initialize_ok s R n h hs Hi Hf HL Hld Hap) as (s' & R' & H1 & H2 & H0 & _ & H3 & H4 & H5 & H6 & _).
  exists s', R'. do 3 (split; [done|]). split; [|done]. intros sg Hin Hl. eapply in_place_sees; [by apply Hld|by apply H3].
Qed.

Lemma elf_initialize_loads_witness : exists s',
  elf_initialize TinyElf.state = Ok (s', 0) /\
  (exists pa at_, translate 0x402001 (hw_walk (el_mem s') Sample.root 0x402001) = Some (pa, at_) /\
     writable at_ = true /\ byte (el_mem s') (pbase_to_vbase pa) = Some 12).
Proof.
  destruct (elf_initialize_loads TinyElf.state {[ Sample.root := Root ]} 28
              (MkEhdr [0x7f; 69; 76; 70; 2; 1; 1; 0; 0; 0; 0; 0; 0; 0; 0; 0] 2 183 1 0x400000 64 0 0 64 56 2 64 1 0) TinyElf.hs)
    as (s' & R' & H1 & _ & _ & H2 & _).
  - constructor.
    + split; [vm_compute; congruence|split; vm_compute; congruence].
    + vm_compute. reflexivity.
    + vm_compute. reflexivity.
    + vm_compute. reflexivity.
    + reflexivity.
    + split; vm_compute; congruence.
    + intros i ph Hi. destruct i as [|[|i]]; [| |discriminate Hi]; injection Hi as <-; vm_compute; reflexivity.
    + repeat constructor; vm_compute; congruence.
  - exact TinyElf.start_file.
  - exact TinyElf.start_inv.
  - intros sg Hin _. split; [|apply TinyElf.tiny_no_sections].
    apply elem_of_cons in Hin as [->|Hin]; [|apply list_elem_of_singleton in Hin as ->];
      (constructor; [first [left; reflexivity|right; reflexivity]|..]; vm_compute; intuition congruence).
  - cbn [apart collect TinyElf.hs]. split; [|split; [|exact I]].
    + intros sg Hin _ _ x Hx Hx2. apply list_elem_of_singleton in Hin as ->.
      change (0x402000 <= x < 0x402000 + 0x1000) in Hx. change (0x400000 <= x < 0x400000 + 0x1000) in Hx2. lia.
    + intros sg Hin. by apply not_elem_of_nil in Hin.
  - exists s'. split; [exact H1|].
    destruct (H2 (segment_of (TinyElf.bss 0x402000))) with (i := 1) as (pa & at_ & Ht & Hp & Hb & _).
    + left.
    + reflexivity.
    + split; vm_compute; congruence.
    + exists pa, at_. split; [exact Ht|]. split; [apply Hp|]. rewrite Hb. vm_compute. reflexivity.
Defined.

(** What user code reads at an address. *)
Definition user_byte (o : outcome (elf_state * Z)) (va : Z) : option Z :=
  match o with
  | Ok (s, _) =>
      match translate va (hw_walk (el_mem s) (addrspace (el_task s)) va) with
      | Some (pa, _) => byte (el_mem s) (pbase_to_vbase pa)
      | None => None
      end
  | _ => None
  end.

(** A data segment that does not start on its alignment: its contents end up at
    the start of the page, not at its address. *)
Example unaligned_segment_misplaced :
  (fun o => (user_byte o 0x402010, user_byte o 0x402000)) (elf_initialize (TinyElf.start TinyElf.text (TinyElf.bss 0x402010)))
    = (Some 0, Some 11).
Proof. vm_compute. reflexivity. Qed.

(** Code of more than 128 KiB stops the kernel. *)
Example large_segment_halts :
  elf_initialize (TinyElf.start (MkPhdr PT_LOAD 5 176 0x400000 0x400000 8 0x20001 0x1000) (TinyElf.bss 0x442000)) = Halt.
Proof. vm_compute. reflexivity. Qed.

(** So does a segment that is readable only. *)
Example readonly_segment_halts :
  elf_initialize (TinyElf.start (MkPhdr PT_LOAD 4 176 0x400000 0x400000 8 8 0x1000) (TinyElf.bss 0x402000)) = Halt.
Proof. vm_compute. reflexivity. Qed.

(** C35: the loader refuses a header that it does not support: when the
    identification, type, machine, table entry sizes or counts are not those of
    a 64-bit little-endian AArch64 image, the result is [-ENOEXEC], and heap,
    memory, lists and task are as they were. *)
Theorem elf_initialize_refuses s h :
  0 < buffer (el_elf s) -> 0 < size (el_elf s) -> read_ehdr (el_mem s) (buffer (el_elf s)) = Ok h -> ~ valid_header h ->
  exists s', elf_initialize s = Ok (s', - ENOEXEC) /\ el_heap s' = el_heap s /\ el_mem s' = el_mem s /\
    el_links s' = el_links s /\ el_segs s' = el_segs s /\ el_task s' = el_task s.
Proof.
  intros Hb Hs Hr Hv. unfold elf_initialize. rewrite (proj2 (Z.eqb_neq _ _)), (proj2 (Z.eqb_neq (size _) _)) by lia.
  rewrite Hr. cbn [negb andb obind]. destruct (header_checks h) as (H1 & H2 & H3).
  destruct H1 as [H1|H1]; rewrite H1; cbn [Z.ltb Z.compare]; [|by eexists].
  destruct H2 as [H2|H2]; rewrite H2; cbn [Z.ltb Z.compare]; [|by eexists]. by destruct Hv; apply H3.
Qed.

Lemma elf_initialize_refuses_witness :
  exists s', elf_initialize (with_elf TinyElf.state (MkElf false false (TinyElf.base + 8) 100 0 0 0 0 0 0 0 0 0 0)) = Ok (s', - ENOEXEC).
Proof.
  destruct (elf_initialize_refuses (with_elf TinyElf.state (MkElf false false (TinyElf.base + 8) 100 0 0 0 0 0 0 0 0 0 0))
              (MkEhdr [0; 0; 0; 0; 0; 0; 0; 0; 2; 0; 183; 0; 1; 0; 0; 0] 0 64 0 64 0 0x38004000000000 4194306 1 0 1 0 5 0))
    as (s' & H & _).
  - reflexivity.
  - reflexivity.
  - vm_compute. reflexivity.
  - intros [Hi _ _ _ _ _ _ _]. vm_compute in Hi. discriminate Hi.
  - exists s'. exact H.
Defined.
End ElfSpec.
