(* ===== verification/Elf32.v ===== *)
(** * Headers of 32-bit images (os/lib/libelf/elf32.c, elf32.h)

    The check that a 32-bit build of the loader makes in place of
    [elf64_header_check].  No image passes both. *)

From Stdlib Require Import ZArith Lia Bool.
From stdpp Require Import base numbers list gmap.
From S2P Require Import Prelude PageTable Bytes Elf.
#[local] Open Scope Z_scope.

Definition ELFCLASS32 : Z := 1.

Record Elf32_Ehdr : Type := MkEhdr32 {
  e32_ident : list Z; e32_type : Z; e32_machine : Z; e32_version : Z;
  e32_entry : Z; e32_phoff : Z; e32_shoff : Z; e32_flags : Z; e32_ehsize : Z;
  e32_phentsize : Z; e32_phnum : Z; e32_shentsize : Z; e32_shnum : Z; e32_shstrndx : Z
}.

(** The sizes of [Elf32_Phdr] and [Elf32_Shdr]: eight and ten words. *)
Definition SIZEOF_PHDR32 : Z := 32.
Definition SIZEOF_SHDR32 : Z := 40.

(** The layout of the header in memory; addresses and offsets have four bytes. *)
Definition read_ehdr32 (m : wmem) (a : Z) : outcome Elf32_Ehdr :=
  let! id := bytes_at 16 m a in
  let! ty := field 2 m (a + 16) in
  let! mach := field 2 m (a + 18) in
  let! ver := field 4 m (a + 20) in
  let! ent := field 4 m (a + 24) in
  let! pho := field 4 m (a + 28) in
  let! sho := field 4 m (a + 32) in
  let! fl := field 4 m (a + 36) in
  let! ehs := field 2 m (a + 40) in
  let! phe := field 2 m (a + 42) in
  let! phn := field 2 m (a + 44) in
  let! she := field 2 m (a + 46) in
  let! shn := field 2 m (a + 48) in
  let! stx := field 2 m (a + 50) in
  Ok (MkEhdr32 id ty mach ver ent pho sho fl ehs phe phn she shn stx).

Definition ident32 (h : Elf32_Ehdr) (i : nat) : Z := nth i (e32_ident h) 0.

(** The checks in the order of the source; [None] is a null pointer. *)
Definition elf32_header_check (hdr : option Elf32_Ehdr) : Z :=
  match hdr with
  | None => -1
  | Some h =>
      if negb (ident32 h 0 =? 0x7f) || negb (ident32 h 1 =? 69) || negb (ident32 h 2 =? 76) || negb (ident32 h 3 =? 70) then -1
      else if negb (ident32 h EI_CLASS =? ELFCLASS32) then -1
      else if negb (e32_type h =? ET_DYN) && negb (e32_type h =? ET_REL) && negb (e32_type h =? ET_EXEC) then -1
      else if negb (e32_phentsize h =? SIZEOF_PHDR32) then -1
      else if (e32_phnum h <? 1) || (65536 / SIZEOF_PHDR32 <? e32_phnum h) then -1
      else if negb (e32_shentsize h =? SIZEOF_SHDR32) then -1
      else if e32_shnum h <? 1 then -1
      else if e32_shnum h <=? e32_shstrndx h then -1
      else 0
  end.

(** The conditions that the check stands for. *)
Record elf32_header_ok (h : Elf32_Ehdr) : Prop := {
  eh_magic : map (ident32 h) [0; 1; 2; 3]%nat = [0x7f; 69; 76; 70];
  eh_class : ident32 h EI_CLASS = ELFCLASS32;
  eh_type : e32_type h ∈ [ET_DYN; ET_REL; ET_EXEC];
  eh_phdrs : e32_phentsize h = SIZEOF_PHDR32 /\ 1 <= e32_phnum h /\ e32_phnum h * SIZEOF_PHDR32 <= 65536;
  eh_shdrs : e32_shentsize h = SIZEOF_SHDR32 /\ 1 <= e32_shnum h;
  eh_names : e32_shstrndx h < e32_shnum h
}.

Module Elf32Spec.

(** The result is 0 exactly on a header that satisfies all of them. *)
Lemma elf32_header_check_exact h : elf32_header_check (Some h) = 0 <-> elf32_header_ok h.
Proof.
  unfold elf32_header_check. split.
  - repeat (match goal with |- context [if ?b then -1 else _] => destruct b eqn:?; [lia|] end). intros _.
    breflect. change (65536 / SIZEOF_PHDR32) with 2048 in *. constructor; unfold SIZEOF_PHDR32 in *; cbn [map]; try (split_and?; lia); try lia.
    + by repeat f_equal.
    + rewrite !elem_of_cons. destruct (Z.eqb_spec (e32_type h) ET_DYN), (Z.eqb_spec (e32_type h) ET_REL), (Z.eqb_spec (e32_type h) ET_EXEC);
        cbn in *; try done; tauto.
  - intros [M C T (P1 & P2 & P3) (S1 & S2) N]. cbn [map] in M. injection M as -> -> -> ->. rewrite C, P1, S1. cbn [negb orb].
    rewrite !Z.eqb_refl. cbn [negb orb]. unfold SIZEOF_PHDR32 in *. change (65536 / 32) with 2048.
    rewrite (proj2 (Z.ltb_ge _ 1)), (proj2 (Z.ltb_ge 2048 _)), (proj2 (Z.ltb_ge (e32_shnum h) 1)), (proj2 (Z.leb_gt _ _)) by lia.
    rewrite !elem_of_cons in T. destruct T as [->|[->|[->|T]]]; [reflexivity..|by apply not_elem_of_nil in T].
Qed.

(** The class byte is at the same place in both headers. *)
Lemma same_class m a h h32 : read_ehdr m a = Ok h -> read_ehdr32 m a = Ok h32 -> ident h EI_CLASS = ident32 h32 EI_CLASS.
Proof.
  unfold read_ehdr, read_ehdr32. destruct (bytes_at 16 m a) as [id| | |]; try done. cbn [obind].
  repeat (match goal with |- context [field ?n ?mm ?b] => destruct (field n mm b); cbn [obind]; try done end).
  intros [= <-] [= <-]. done.
Qed.

(** No image is accepted by both builds of the loader. *)
Lemma no_image_is_both m a h h32 : read_ehdr m a = Ok h -> read_ehdr32 m a = Ok h32 ->
  elf64_header_check h = 0 -> elf32_header_check (Some h32) < 0.
Proof.
  intros H1 H2 H64. pose proof (same_class _ _ _ _ H1 H2) as E. unfold elf32_header_check. rewrite <- E.
  unfold elf64_header_check in H64. destruct (_ || _ || _ || _) in H64; [lia|].
  destruct (Z.eqb_spec (ident h EI_CLASS) ELFCLASS64) as [->|]; [|cbn in H64; lia].
  change (ELFCLASS64 =? ELFCLASS32) with false. cbn [negb]. destruct (_ || _ || _ || _); lia.
Qed.

Definition header (class : Z) : Elf32_Ehdr :=
  MkEhdr32 [0x7f; 69; 76; 70; class; 1; 1; 0; 0; 0; 0; 0; 0; 0; 0; 0] ET_EXEC 40 1 0x8000 52 0x1000 0 52 32 2 40 5 4.

Example accepts_arm : elf32_header_check (Some (header 1)) = 0.
Proof. reflexivity. Qed.

Example refuses_wide : elf32_header_check (Some (header 2)) = -1.
Proof. reflexivity. Qed.
End Elf32Spec.
