(* ===== verification/UserMem.v ===== *)
(** * The memory of a program

    A program reads and writes through the tables that [mmap] and [brk] build in
    the same memory.  The file puts the two calls and the program's own stores
    into one step relation and shows that it refines an abstract memory, a
    partial map from addresses to bytes: a store changes one byte, a mapping adds
    zeroed bytes (and, when [brk] is not given a multiple of the page size, the old
    contents of the rest of its last page), and nothing else ever changes.  The
    invariant behind it is isolation: no address of the program leads to a page
    table, to a free page or to the memory behind another of its addresses. *)

From Stdlib Require Import ZArith Lia Bool.
From stdpp Require Import base numbers list gmap.
From S2P Require Import Prelude Board Gran KList Task PageTable AddrSpace Bytes Space Mmap.
#[local] Open Scope Z_scope.

(** ** What the program sees *)

Definition root_of (s : mm_state) : Z := addrspace (mm_task s).

(** The RAM address and the attributes behind a user address, and the byte there. *)
Definition at_user (s : mm_state) (x : Z) : option (Z * Z) := ram_at (mm_mem s) (root_of s) x.

Definition user_view (s : mm_state) (x : Z) : option Z := byte_at (mm_mem s) (root_of s) x.

Definition may_write (s : mm_state) (x : Z) : bool :=
  match at_user s x with Some (_, at_) => user_access at_ && writable at_ | None => false end.

(** A store of user code; without permission it is a fault. *)
Definition user_store (s : mm_state) (x v : Z) : outcome mm_state :=
  match at_user s x with
  | Some (pa, at_) =>
      if user_access at_ && writable at_ then
        let! m := stb (mm_mem s) (pbase_to_vbase pa) v in Ok (set_heap_mem s (mm_heap s) m)
      else Fault
  | None => Fault
  end.

(** ** Isolation *)

Record isolated (s : mm_state) (R : gmap Z role) (xs : list Z) : Prop := {
  pr_areas : areas s R xs;
  pr_private : private (root_of s) (mm_heap s) (mm_mem s) R [];
  pr_brk : 0 <= start_brk (mm (mm_task s)) <= brk (mm (mm_task s))
}.

(** ** The calls *)

Lemma mmap_extends s R xs size prot flags p q rest s' R' :
  areas s R xs -> mmapped s R xs size prot flags p q rest s' R' -> 0 < size -> size mod 4096 = 0 ->
  let low := lowest (mm_vmas s) (mmap_base (mm (mm_task s))) xs in size <= low ->
  root_of s' = root_of s /\
  extends (root_of s) (mm_heap s) (mm_mem s) R (mm_heap s') (mm_mem s') R' (low - size) (pages_of size) size q.
Proof.
  intros HA HM Hs Hs4 low Hlow. assert (Hn : 4096 * pages_of size = size) by (unfold pages_of; Z.div_mod_to_equations; lia).
  destruct (lowest_bounds _ _ _ (ar_stack _ _ _ HA) (proj1 (ar_base _ _ _ HA)) (proj2 (ar_base _ _ _ HA))) as [Hb _]. fold low in Hb.
  assert (Hq4 : forall k, free_page (mm_heap s) k -> k mod 4096 = 0).
  { intros k Hk. by destruct (pt_free_ready _ _ _ _ (ar_pt _ _ _ HA) k Hk) as [[? _] _]. }
  pose proof (ar_pt _ _ _ (mp_areas _ _ _ _ _ _ _ _ _ _ _ HM)) as Hinv. rewrite (mp_task _ _ _ _ _ _ _ _ _ _ _ HM) in Hinv.
  unfold root_of. rewrite (mp_task _ _ _ _ _ _ _ _ _ _ _ HM). split; [done|]. constructor; rewrite ?Hn.
  - exact Hinv.
  - pose proof (ar_base _ _ _ HA). lia.
  - intros x Hx. destruct (mp_sees _ _ _ _ _ _ _ _ _ _ _ HM x) as (at_ & Ht & _); [fold low; lia|]. by exists at_.
  - intros x Hx Hnx. apply (mp_rest _ _ _ _ _ _ _ _ _ _ _ HM x Hx). fold low. lia.
  - intros i Hi. destruct (mp_sees _ _ _ _ _ _ _ _ _ _ _ HM (low - size + i)) as (at_ & _ & _ & Hz); [fold low; lia|].
    fold low in Hz. by replace (low - size + i - (low - size)) with i in Hz by lia.
  - apply (mp_fresh _ _ _ _ _ _ _ _ _ _ _ HM).
  - apply (mp_dom _ _ _ _ _ _ _ _ _ _ _ HM).
  - apply solid_frame; [apply (mp_free _ _ _ _ _ _ _ _ _ _ _ HM)|apply (mp_tables _ _ _ _ _ _ _ _ _ _ _ HM)|].
    intros w Hw Ht. pose proof (mp_node _ _ _ _ _ _ _ _ _ _ _ HM) as Hp.
    apply (mp_frame _ _ _ _ _ _ _ _ _ _ _ HM); [| |done].
    + intros x Hx ->. apply (Hw p ((x - p) / 8) Hp); unfold SIZEOF_VM_AREA, word in *; pose proof (Hq4 p Hp); Z.div_mod_to_equations; lia.
    + intros x Hx ->. assert (H0 : page_of q (pages_of size) q) by (exists 0; lia).
      pose proof (Hq4 q (proj1 (mp_fresh _ _ _ _ _ _ _ _ _ _ _ HM q H0))) as Hqm.
      destruct (block_page q size x) as (k & j & Hk & Hj & E); [done|lia|lia|].
      by apply (Hw k j (proj1 (mp_fresh _ _ _ _ _ _ _ _ _ _ _ HM k Hk)) Hj).
Qed.

(** ** Stores *)

Lemma stb_written m a v m' : stb m a v = Ok m' -> is_Some (m !! word a) -> bytes_written m m' a 1 (fun _ => Some (Z.land v 255)).
Proof.
  intros Hs Hw. destruct (stb_ok m a v Hw) as (m2 & E & D & B & W). rewrite E in Hs. injection Hs as <-. constructor; [done| |].
  - intros x. rewrite B. unfold in_range. decide_cmp; cbn; done || lia.
  - intros p Hp. apply W, Hp. lia.
Qed.

Lemma store_ok s R xs x v : isolated s R xs -> may_write s x = true ->
  exists s', user_store s x v = Ok s' /\ isolated s' R xs /\ mm_task s' = mm_task s /\ mm_heap s' = mm_heap s /\
    forall y, user_view s' y = if y =? x then Some (Z.land v 255) else user_view s y.
Proof.
  intros [HA HP HB] Hw. unfold may_write in Hw. unfold user_store.
  destruct (at_user s x) as [[pa at_]|] eqn:Ex; [|done]. rewrite Hw. destruct (pv_confined _ _ _ _ _ HP x pa at_ Ex) as (Hs & Hm & _). pose proof Ex as (_ & _ & Hr)%ram_at_some.
  destruct (stb_ok (mm_mem s) (pbase_to_vbase pa) v Hm) as (m' & Est & D & B & W). rewrite Est. cbn [obind].
  pose proof (stb_written _ _ _ _ Est Hm) as Hbw.
  destruct (outside_tables (root_of s) (mm_heap s) (mm_mem s) R (mm_heap s) m' _ _ _ (ar_pt _ _ _ HA) Hbw) as [Hi Hwalk].
  { intros y p r k Hy Hp Hk E. replace y with (pbase_to_vbase pa) in E by lia. destruct Hs as [_ Hs]. by apply (Hs p r k Hp Hk). }
  { done. }
  set (s' := set_heap_mem s (mm_heap s) m'). exists s'.
  assert (Hat : forall y, at_user s' y = at_user s y) by (intros y; by apply ram_at_same).
  split; [done|]. split; [|split; [done|split; [done|]]].
  - destruct HA as [A1 A2 A3 A4 A5 A6 A7 A8]. constructor; [| |done].
    + constructor; try done. intros y Hy Hl d. cbn. unfold root_of in Hwalk. rewrite Hwalk. by apply A8.
    + eapply private_same; [exact HP|intros y _; apply Hwalk|exact D|]. by split.
  - intros y. unfold user_view, byte_at. fold (at_user s' y) (at_user s y). rewrite Hat. destruct (at_user s y) as [[pb b]|] eqn:Ey.
    + cbn [s' set_heap_mem mm_mem]. rewrite B. destruct (Z.eqb_spec (pbase_to_vbase pb) (pbase_to_vbase pa)) as [E|E].
      * pose proof Ey as (_ & _ & Hrb)%ram_at_some. rewrite !pbase_ram in E by done. assert (pb = pa) as -> by lia.
        rewrite (pv_exclusive _ _ _ _ _ HP _ _ _ _ _ Ey Ex). by rewrite Z.eqb_refl.
      * destruct (Z.eqb_spec y x) as [->|]; [|done]. rewrite Ex in Ey. by injection Ey as <- <-.
    + destruct (Z.eqb_spec y x) as [->|]; [congruence|done].
Qed.

(** ** The program and its calls *)

(** What a step does to the abstract memory. *)
Inductive mem_op : Type :=
| OStore (x v : Z)
| OMap (lo size n : Z) (stale : Z -> option Z)
    (* [n] pages from [lo], the first [size] bytes cleared; after them byte [i] is [stale i] *)
| OKeep.

Definition mem_spec (o : mem_op) (V V' : Z -> option Z) : Prop :=
  match o with
  | OStore x v => is_Some (V x) /\ forall y, V' y = if y =? x then Some (Z.land v 255) else V y
  | OMap lo size n stale =>
      (forall y, lo <= y < lo + size -> V' y = Some 0) /\
      (forall y, lo + size <= y < lo + 4096 * n -> V' y = stale (y - lo) /\ is_Some (V' y)) /\
      forall y, ~ (lo <= y < lo + 4096 * n) -> V' y = V y
  | OKeep => forall y, V' y = V y
  end.

(** Memories that agree everywhere are the same to the operations. *)
#[export] Instance mem_spec_proper o : Proper (pointwise_relation Z (=) ==> pointwise_relation Z (=) ==> iff) (mem_spec o).
Proof.
  assert (Hone : forall V W V' W', pointwise_relation Z (=) V W -> pointwise_relation Z (=) V' W' -> mem_spec o V V' -> mem_spec o W W').
  { intros V W V' W' E E'. destruct o; cbn.
    - intros [H1 H2]. split; [by rewrite <- E|]. intros y. by rewrite <- E', H2, E.
    - intros (H1 & H2 & H3). split; [intros y Hy; rewrite <- E'; by apply H1|].
      split; [intros y Hy; rewrite <- E'; by apply H2|]. intros y Hy. rewrite <- E', <- E. by apply H3.
    - intros H1 y. by rewrite <- E', <- E. }
  intros V W E V' W' E'. split; apply Hone; done.
Qed.

(** A request that [mmap] refuses, and one that it serves: at most 128 KiB, kind
    given, placed by the kernel below the areas, and a heap that has the blocks
    [p] and [q] and pages for the tables. *)
Definition mmap_refused (len flags : Z) : Prop := len = 0 \/ (Z.land flags MAP_PRIVATE = 0 /\ Z.land flags MAP_SHARED = 0).

Definition mmap_request (s : mm_state) (len flags low p q : Z) (rest : nat) : Prop :=
  let size := 4096 * pages_of len in
  (Z.land flags MAP_PRIVATE <> 0 \/ Z.land flags MAP_SHARED <> 0) /\ 0 < len <= 0x20000 /\
  find_free_vma s 0 = Ok (low, low) /\ size <= low /\
  grants (mm_heap s) size (pages_needed (low - size) low (vbase_to_pbase q) + rest) p q.

(** A break that does not grow, and one that grows a page-aligned break by at most
    128 KiB, below the areas. *)
Definition brk_kept (s : mm_state) (b : Z) : Prop := b <= brk (mm (mm_task s)) /\ brk (mm (mm_task s)) < 2 ^ 31.

Definition brk_growth (s : mm_state) (b low : Z) (g1 : mm_gran) (q : Z) (rest : nat) : Prop :=
  let a := mm (mm_task s) in let r := area_region q (brk a) (b - brk a) in
  brk a < 2 ^ 31 /\ brk a mod 4096 = 0 /\ brk a < b <= brk a + 0x20000 /\
  find_free_vma s 0 = Ok (low, low) /\ region_end r <= low /\ gran_alloc (mm_heap s) (b - brk a) = Ok (g1, q) /\ q <> 0 /\
  page_supply g1 (pages_needed (brk a) (region_end r) (vbase_to_pbase q) + rest).

(** [mmap] clears its pages.  [brk] clears the bytes asked for and shows the rest of
    the last page as the block [q] was in the kernel's heap. *)
Definition mmap_op (len low : Z) : mem_op :=
  OMap (low - 4096 * pages_of len) (4096 * pages_of len) (pages_of len) (fun _ => None).
Definition brk_op (s : mm_state) (b q : Z) : mem_op :=
  let a := mm (mm_task s) in OMap (brk a) (b - brk a) (pages_of (b - brk a)) (fun i => byte (mm_mem s) (q + i)).

(** The steps. *)
Inductive prog_step (s : mm_state) : mem_op -> outcome mm_state -> Prop :=
| ps_store x v : may_write s x = true -> prog_step s (OStore x v) (user_store s x v)
| ps_mmap len prot flags fd off low p q rest : mmap_request s len flags low p q rest ->
    prog_step s (mmap_op len low) (let! (s, _) := sys_mmap s 0 len prot flags fd off in Ok s)
| ps_mmap_refused start len prot flags fd off : mmap_refused len flags ->
    prog_step s OKeep (let! (s, _) := sys_mmap s start len prot flags fd off in Ok s)
| ps_brk_keep b : brk_kept s b -> prog_step s OKeep (let! (s, _) := sys_brk s b in Ok s)
| ps_brk_grow b low g1 q rest : brk_growth s b low g1 q rest ->
    prog_step s (brk_op s b q) (let! (s, _) := sys_brk s b in Ok s)
| ps_munmap addr len : prog_step s OKeep (let! (s, _) := sys_munmap s addr len in Ok s).

Inductive prog_steps (s0 : mm_state) : list mem_op -> mm_state -> Prop :=
| pss_nil : prog_steps s0 [] s0
| pss_snoc os s o s' : prog_steps s0 os s -> prog_step s o (Ok s') -> prog_steps s0 (os ++ [o]) s'.

(** The abstract memories that a list of operations leads to. *)
Inductive spec_run (V0 : Z -> option Z) : list mem_op -> (Z -> option Z) -> Prop :=
| sr_nil V : (forall y, V y = V0 y) -> spec_run V0 [] V
| sr_snoc os V o V' : spec_run V0 os V -> mem_spec o V V' -> spec_run V0 (os ++ [o]) V'.

(** Where the areas end is what the search for a free range starts from. *)
Lemma low_is s R xs low : areas s R xs -> find_free_vma s 0 = Ok (low, low) -> low = lowest (mm_vmas s) (mmap_base (mm (mm_task s))) xs.
Proof.
  intros HA E. destruct (lowest_bounds _ _ _ (ar_stack _ _ _ HA) (proj1 (ar_base _ _ _ HA)) (proj2 (ar_base _ _ _ HA))) as [Hb _].
  rewrite (find_free_vma_ok s xs 0 (ar_list _ _ _ HA) (ar_stack _ _ _ HA)) in E; [|lia|pose proof (ar_base _ _ _ HA); lia].
  by injection E as _ <-.
Qed.

(** A state with the invariant from one that it extends. *)
Lemma extends_isolated s R xs s' R' xs' lo n size q stale :
  isolated s R xs -> root_of s' = root_of s ->
  extends (root_of s) (mm_heap s) (mm_mem s) R (mm_heap s') (mm_mem s') R' lo n size q -> n <= 32 -> areas s' R' xs' ->
  0 <= start_brk (mm (mm_task s')) <= brk (mm (mm_task s')) -> (forall i, size <= i < 4096 * n -> byte (mm_mem s') (q + i) = stale i) ->
  isolated s' R' xs' /\ mem_spec (OMap lo size n stale) (user_view s) (user_view s').
Proof.
  intros [HA HP HB] Er HE Hn HA' HB' Hst. pose proof (ar_pt _ _ _ HA) as HI. split.
  - constructor; [done|rewrite Er|done]. eapply extends_private; [exact HI|exact HE|exact HP| |done]. by intros p k ?%not_elem_of_nil.
  - unfold user_view. rewrite Er. by eapply extends_view.
Qed.

Lemma mmap_step_ok s R xs len prot flags fd off low p q rest :
  isolated s R xs -> mmap_request s len flags low p q rest ->
  exists s' R', sys_mmap s 0 len prot flags fd off = Ok (s', low - 4096 * pages_of len) /\ isolated s' R' (p :: xs) /\
    mmapped s R xs (4096 * pages_of len) prot flags p q rest s' R' /\
    mem_spec (mmap_op len low) (user_view s) (user_view s').
Proof.
  intros HP (Hf & Hl & Hlow & Hsz & Hg). pose proof (pr_areas _ _ _ HP) as HA. pose proof (low_is _ _ _ _ HA Hlow) as ->.
  destruct (sys_mmap_ok s R xs len prot flags fd off p q rest HA Hf Hl Hsz Hg) as (s' & R' & Hm & HM & _).
  unfold mmap_op. set (size := 4096 * pages_of len) in *.
  assert (Hpg : 0 < size /\ size mod 4096 = 0 /\ pages_of size = pages_of len) by (unfold size, pages_of; Z.div_mod_to_equations; lia).
  destruct Hpg as (H1 & H2 & H3). exists s', R'. split; [exact Hm|]. rewrite <- H3.
  destruct (mmap_extends s R xs size prot flags p q rest s' R') as [Er HE]; try done.
  destruct (extends_isolated s R xs s' R' (p :: xs) (lowest (mm_vmas s) (mmap_base (mm (mm_task s))) xs - size) (pages_of size) size q (fun _ => None));
    [exact HP|exact Er|exact HE|rewrite H3; unfold pages_of; Z.div_mod_to_equations; lia|by apply (mp_areas _ _ _ _ _ _ _ _ _ _ _ HM)| |intros i Hi; lia|done].
  rewrite (mp_task _ _ _ _ _ _ _ _ _ _ _ HM). apply (pr_brk _ _ _ HP).
Qed.

(** A refused request changes nothing. *)
Lemma mmap_refused_ok s start len prot flags fd off : mmap_refused len flags ->
  sys_mmap s start len prot flags fd off = Ok (s, neg EINVAL).
Proof.
  intros [->|[E1 E2]]; unfold sys_mmap; [by destruct (_ || _)|]. by rewrite E1, E2.
Qed.

(** The break is a number; the rest of the state does not depend on it. *)
Lemma set_brk_areas s R xs b : areas s R xs -> areas (set_brk s b) R xs.
Proof. by intros [A1 A2 A3 A4 A5 A6 A7 A8]. Qed.

Lemma brk_keep_ok s R xs b : isolated s R xs -> brk_kept s b ->
  exists s' r, sys_brk s b = Ok (s', r) /\ isolated s' R xs /\ mm_heap s' = mm_heap s /\ mem_spec OKeep (user_view s) (user_view s').
Proof.
  intros HP [Hb H31]. pose proof HP as [HA HV HB]. destruct (sys_brk_ok s R b) as (B1 & B2 & _); [by apply HA..|lia|done|].
  destruct (Z.lt_ge_cases b (start_brk (mm (mm_task s)))) as [Hlt|Hge].
  - eexists s, _. split; [by apply B1|]. done.
  - eexists (set_brk s b), _. split; [by apply B2|]. split; [|done].
    constructor; [by apply set_brk_areas|exact HV|cbn; lia].
Qed.

Lemma brk_grow_ok s R xs b low g1 q rest : isolated s R xs -> brk_growth s b low g1 q rest ->
  exists s' R' x, sys_brk s b = Ok (s', x) /\ isolated s' R' xs /\ (forall k, free_page (mm_heap s') k -> free_page (mm_heap s) k) /\
    mem_spec (brk_op s b q) (user_view s) (user_view s').
Proof.
  intros HP Hreq. pose proof HP as [HA HV HB]. unfold brk_growth in Hreq. cbv zeta in Hreq. set (a := mm (mm_task s)) in *.
  set (r := area_region q (brk a) (b - brk a)) in *. destruct Hreq as (H31 & Ha4 & Hb & Hlow & Hre & Hga & Hq & Hsup).
  pose proof (low_is _ _ _ _ HA Hlow) as El.
  pose proof HA as [A1 A2 A3 A4 A5 A6 A7 A8].
  destruct (lowest_bounds _ _ _ A6 (proj1 A7) (proj2 A7)) as [Hlb _].
  destruct (sys_brk_ok s R b A1 A2 A3 HB H31) as (_ & _ & B3). fold a r in B3.
  destruct (B3 g1 q rest) as (g' & m' & R' & Hs & Hsup' & Hf); try done.
  { intros x Hx Hr. apply A8; [done|]. rewrite <- El. fold a r in Hr. lia. }
  assert (Hn : pages_of (b - brk a) <= 32) by (unfold pages_of; Z.div_mod_to_equations; lia).
  assert (HE : extends (root_of s) (mm_heap s) (mm_mem s) R g' m' R' (brk a) (pages_of (b - brk a)) (b - brk a) q).
  { apply (fresh_extends _ _ _ _ _ _ _ r _ _ A1 Hf); unfold r; cbn [area_region vbase rsize]; fold r; lia || done. }
  eexists _, R', _. split; [exact Hs|].
  edestruct (extends_isolated s R xs (set_brk (set_heap_mem s g' m') b) R' xs) as [HP' HV']; [exact HP| |exact HE|exact Hn| |cbn; fold a; lia| |split; [exact HP'|split; [|exact HV']]; apply Hf];
    [done| |intros i Hi; apply (fm_tail _ _ _ _ _ _ _ _ _ _ Hf); cbn; lia].
  apply set_brk_areas. constructor; cbn [set_heap_mem mm_heap mm_mem mm_links mm_vmas mm_task mm_self]; try done.
  - apply Hf.
  - apply Hsup'.
  - apply Hsup'.
  - intros x Hx Hfr. apply (A5 x Hx). by apply (fm_free _ _ _ _ _ _ _ _ _ _ Hf).
  - apply (no_section_grow _ (mm_mem s) m' (brk a) (brk a + 4096 * pages_of (b - brk a))); [lia|apply (ex_rest _ _ _ _ _ _ _ _ _ _ _ HE)|exact A8].
Qed.

(** Every step comes back, keeps the invariant and does to the abstract memory
    what its operation says. *)
Lemma prog_step_ok s R xs o out : isolated s R xs -> prog_step s o out ->
  exists s' R' xs', out = Ok s' /\ isolated s' R' xs' /\ mem_spec o (user_view s) (user_view s').
Proof.
  intros HP Hs. destruct Hs as [x v Hw|len prot flags fd off low p q rest Hr|start len prot flags fd off Hr|b Hr|b low g1 q rest Hr|addr len].
  - destruct (store_ok s R xs x v HP Hw) as (s' & -> & HP' & _ & _ & Hv). exists s', R, xs. split; [done|]. split; [done|]. split; [|done].
    unfold may_write in Hw. unfold user_view, byte_at. fold (at_user s x). destruct (at_user s x) as [[pa at_]|] eqn:E; [|done].
    destruct (pv_confined _ _ _ _ _ (pr_private _ _ _ HP) _ _ _ E) as (_ & [w Hm] & _). unfold byte. rewrite Hm. by eexists.
  - destruct (mmap_step_ok s R xs len prot flags fd off low p q rest HP Hr) as (s' & R' & -> & HP' & _ & Hv). by exists s', R', (p :: xs).
  - rewrite mmap_refused_ok by done. by exists s, R, xs.
  - destruct (brk_keep_ok s R xs b HP Hr) as (s' & x & -> & HP' & _ & Hv). by exists s', R, xs.
  - destruct (brk_grow_ok s R xs b low g1 q rest HP Hr) as (s' & R' & x & -> & HP' & _ & Hv). by exists s', R', xs.
  - by exists s, R, xs.
Qed.

Lemma prog_steps_ok s0 R0 xs0 os s : isolated s0 R0 xs0 -> prog_steps s0 os s ->
  (exists R xs, isolated s R xs) /\ spec_run (user_view s0) os (user_view s).
Proof.
  intros HP Hs. induction Hs as [|os s o s' Hs ((R & xs & IH) & IV) Hstep].
  - split; [by exists R0, xs0|]. by constructor.
  - destruct (prog_step_ok s R xs o (Ok s') IH Hstep) as (s2 & R2 & xs2 & [= <-] & HP' & Hv). split; [by exists R2, xs2|].
    by eapply sr_snoc.
Qed.

Module UserMemSpec.

(** C10: the memory of a program is a memory.  From a state with the invariant, let
    a program, in any order, store bytes where it may, map memory without choosing
    the address (at most 128 KiB, kind given), make requests that [mmap] refuses,
    lower or keep its break, grow a page-aligned break by at most 128 KiB below its
    areas (its break being below 2 GiB), and unmap, where the kernel's heap has the blocks and the pages for
    tables that a request takes.  Then no step fails, and what the program reads at
    each address is what the abstract memory holds: a store changes its own byte
    only; [mmap] adds whole cleared pages; a growing [brk] adds pages of which the
    bytes asked for are cleared and the rest of the last page is, byte for byte, what
    the kernel's heap held there; all other bytes stay.  In every state that is
    reached, no address of the program leads to a page table or to a free page of the
    kernel, and no two of them lead to the same byte. *)
Theorem user_memory_refines s0 R0 xs0 os s :
  isolated s0 R0 xs0 -> prog_steps s0 os s ->
  spec_run (user_view s0) os (user_view s) /\
  (exists R xs, areas s R xs /\ private (root_of s) (mm_heap s) (mm_mem s) R []) /\
  forall o out, prog_step s o out -> exists s', out = Ok s' /\ mem_spec o (user_view s) (user_view s').
Proof.
  intros HP Hs. destruct (prog_steps_ok _ _ _ _ _ HP Hs) as [(R & xs & HP') Hv]. split; [done|]. split.
  - exists R, xs. split; apply HP'.
  - intros o out Ho. destruct (prog_step_ok s R xs o out HP' Ho) as (s' & _ & _ & -> & _ & Hm). by exists s'.
Qed.

(** The sample program, before it has mapped anything. *)
Lemma start_walk x : hw_walk (mm_mem Program.start) (root_of Program.start) x = LNone.
Proof.
  unfold hw_walk, root_of. cbn [Program.start mm_mem mm_task Program.task addrspace].
  destruct (Sample.memory !! _) as [d|] eqn:E; [|done]. apply Sample.memory_zero in E as ->. done.
Qed.

Lemma start_unmapped x : at_user Program.start x = None.
Proof. apply ram_at_unmapped, start_walk. Qed.

Lemma start_isolated : isolated Program.start {[ Sample.root := Root ]} [].
Proof. constructor; [apply Program.start_areas|apply private_empty, start_walk|cbn; lia]. Qed.

(** It maps three pages and writes the first byte of them; the byte, its
    neighbour and an address that was never mapped. *)
Lemma user_memory_refines_witness : exists s1 s2,
  sys_mmap Program.start 0 0x2345 3 0x22 (-1) 0 = Ok (s1, 0x7fffffb000) /\ user_store s1 0x7fffffb000 65 = Ok s2 /\
  user_view s2 0x7fffffb000 = Some 65 /\ user_view s2 0x7fffffb001 = Some 0 /\ user_view s2 0x400000 = None.
Proof.
  destruct (sys_mmap_ok Program.start {[ Sample.root := Root ]} [] 0x2345 3 0x22 (-1) 0
              (granaddr Sample.heap 0) (granaddr Sample.heap 1) 34) as (s1 & R1 & Hm & HM & _).
  - apply Program.start_areas.
  - left. vm_compute. discriminate.
  - split; vm_compute; congruence.
  - vm_compute. discriminate.
  - apply Program.start_grants.
  - assert (Hw : may_write s1 0x7fffffb000 = true).
    { destruct (mp_sees _ _ _ _ _ _ _ _ _ _ _ HM 0x7fffffb000) as (at_ & Ht & (P1 & _ & _ & P2 & _) & _); [split; vm_compute; congruence|].
      unfold may_write, at_user, ram_at, root_of. rewrite (mp_task _ _ _ _ _ _ _ _ _ _ _ HM). rewrite Ht. cbn [andb Z.leb Z.ltb Z.compare Pos.compare Pos.compare_cont].
      change (in_ram _) with true. cbv iota. rewrite P1, P2. reflexivity. }
    assert (Hst : prog_step Program.start (mmap_op 0x2345 0x7fffffe000) (Ok s1)).
    { pose proof (ps_mmap Program.start 0x2345 3 0x22 (-1) 0 0x7fffffe000 (granaddr Sample.heap 0) (granaddr Sample.heap 1) 34) as H.
      rewrite Hm in H. apply H. split; [left; vm_compute; discriminate|]. split; [split; vm_compute; congruence|]. split; [reflexivity|].
      split; [vm_compute; discriminate|apply Program.start_grants]. }
    destruct (user_memory_refines Program.start {[ Sample.root := Root ]} [] ([] ++ [mmap_op 0x2345 0x7fffffe000]) s1 start_isolated) as (_ & _ & H2).
    { eapply pss_snoc; [apply pss_nil|exact Hst]. }
    destruct (user_memory_refines Program.start {[ Sample.root := Root ]} [] [] Program.start start_isolated (pss_nil _)) as (_ & _ & H1).
    destruct (H1 _ _ Hst) as (s1' & E1 & V1). injection E1 as <-.
    destruct (H2 _ _ (ps_store s1 0x7fffffb000 65 Hw)) as (s2 & E2 & V2). exists s1, s2.
    split; [exact Hm|]. split; [exact E2|]. destruct V2 as [_ V2]. destruct V1 as (Z1 & _ & Z2).
    split; [rewrite V2; reflexivity|]. split; [rewrite V2; apply Z1; split; vm_compute; congruence|]. rewrite V2. transitivity (user_view s1 0x400000); [reflexivity|].
    rewrite Z2 by (vm_compute; intros [A _]; apply A; reflexivity). unfold user_view, byte_at. fold (at_user Program.start 0x400000). rewrite start_unmapped. reflexivity.
Defined.

(** A break that is not a multiple of the page size: the pages are shown whole,
    but only the bytes asked for are cleared, and the rest is what the kernel's
    heap held there. *)
Definition dirty : mm_state :=
  MkMM Sample.heap (<[granaddr Sample.heap 0 + 8 := 0x5a]> Sample.memory) (mm_links Program.start) ∅ Program.task Program.self.

Example brk_shows_old_bytes :
  match sys_brk dirty 0x420008 with Ok (s, _) => (user_view s 0x420007, user_view s 0x420008) | _ => (None, None) end = (Some 0, Some 0x5a).
Proof. vm_compute. reflexivity. Qed.
End UserMemSpec.
