(* ===== verification/Gic.v ===== *)
(** * The interrupt controller (dev/interrupt/arm_gic/gicv3) and the interrupt table (core/irq)

    The driver talks to the controller by reads and writes of its registers.
    The model keeps the writes in order; what a read returns is up to the
    hardware, so it is a parameter, indexed by the number of the read.  Polling
    loops have the bound that the source gives them. *)

From Stdlib Require Import ZArith Lia Bool.
From stdpp Require Import base numbers list gmap.
From S2P Require Import Prelude Board Boot Mmap.
#[local] Open Scope Z_scope.

(** ** Registers *)

Definition GIC_OFFSET : Z := 0x08000000.
Definition GIC_VBASE : Z := MMIO_VBASE + GIC_OFFSET.

(** [struct gicv3_config_desc], the fields that are read. *)
Record gicv3_config_desc : Type := MkGicDesc { mmio_base : Z; gicd_offset : Z; gicr_offset : Z; gicr_stride : Z }.

Definition defualt_gicv3_config_desc : gicv3_config_desc := MkGicDesc GIC_VBASE 0x00000 0xa0000 0x20000.

Definition GICD_BASE : Z := mmio_base defualt_gicv3_config_desc + gicd_offset defualt_gicv3_config_desc.
Definition GICD_CTLR : Z := GICD_BASE + 0x0000.
Definition GICD_TYPER : Z := GICD_BASE + 0x0004.
Definition GICD_IGROUPR (n : Z) : Z := GICD_BASE + 0x0080 + n * 4.
Definition GICD_ISENABLER (n : Z) : Z := GICD_BASE + 0x0100 + n * 4.
Definition GICD_ICENABLER (n : Z) : Z := GICD_BASE + 0x0180 + n * 4.
Definition GICD_ICPENDR (n : Z) : Z := GICD_BASE + 0x0280 + n * 4.
Definition GICD_IPRIORITYR (n : Z) : Z := GICD_BASE + 0x0400 + n * 4.
Definition GICD_ICFGR (n : Z) : Z := GICD_BASE + 0x0c00 + n * 4.
Definition GICD_IGRPMODR (n : Z) : Z := GICD_BASE + 0x0d00 + n * 4.
Definition GICD_IROUTER (n : Z) : Z := GICD_BASE + 0x6000 + n * 8.
Definition GICD_PIDR2 : Z := GICD_BASE + 0xffe8.
Definition CTLR_ENABLE_G0 : Z := Z.shiftl 1 0.
Definition CTLR_ENABLE_G1NS : Z := Z.shiftl 1 1.
Definition CTLR_ARE_S : Z := Z.shiftl 1 4.

Definition GICR_STRIDE : Z := gicr_stride defualt_gicv3_config_desc.
Definition GICR_BASE : Z := mmio_base defualt_gicv3_config_desc + gicr_offset defualt_gicv3_config_desc.
Definition GICR_SGI_OFFSET : Z := GICR_BASE + 0x10000.
Definition GICR_CTLR (i : Z) : Z := GICR_BASE + GICR_STRIDE * i + 0x0000.
Definition GICR_WAKER (i : Z) : Z := GICR_BASE + GICR_STRIDE * i + 0x0014.
Definition GICR_IGROUPR0 (i : Z) : Z := GICR_SGI_OFFSET + GICR_STRIDE * i + 0x0080.
Definition GICR_ISENABLER0 (i : Z) : Z := GICR_SGI_OFFSET + GICR_STRIDE * i + 0x0100.
Definition GICR_ICENABLER0 (i : Z) : Z := GICR_SGI_OFFSET + GICR_STRIDE * i + 0x0180.
Definition GICR_ICPENDR0 (i : Z) : Z := GICR_SGI_OFFSET + GICR_STRIDE * i + 0x0280.
Definition GICR_ICACTIVER0 (i : Z) : Z := GICR_SGI_OFFSET + GICR_STRIDE * i + 0x0380.
Definition GICR_IPRIORITYR0 (i : Z) : Z := GICR_SGI_OFFSET + GICR_STRIDE * i + 0x0400.
Definition GICR_ICFGR0 (i : Z) : Z := GICR_SGI_OFFSET + GICR_STRIDE * i + 0x0c00.
Definition GICR_ICFGR1 (i : Z) : Z := GICR_SGI_OFFSET + GICR_STRIDE * i + 0x0c04.

Definition ARCH_REV_GICV4 : Z := 4.
Definition ARCH_REV_GICV3 : Z := 3.
Definition GIC_PRI_IRQ : Z := 0xa0.
Definition GICC_SRE_EL1_SRE : Z := Z.shiftl 1 0.
Definition GICR_WAKER_ProcessorSleep : Z := Z.shiftl 1 1.
Definition GICR_WAKER_ChildrenAsleep : Z := Z.shiftl 1 2.
Definition GICC_CTLR_EL1_EOImode_drop : Z := Z.shiftl 1 1.
Definition DEFAULT_PMR_VALUE : Z := 0xff.
Definition INTID_MASK : Z := Z.ones 24.

Definition IRQN_SGI0 : Z := 0.
Definition IRQN_SPIs : Z := 32.
Definition NR_IRQS : Z := 33.

(** The system registers of the CPU interface. *)
Inductive sysreg : Type :=
| MPIDR_EL1 | ICC_CTLR_EL1 | ICC_PMR_EL1 | ICC_IAR1_EL1 | ICC_SRE_EL1 | ICC_BPR1_EL1 | ICC_IGRPEN1_EL1 | ICC_EOIR1_EL1.

Inductive port : Type := Mmio (a : Z) | Sys (r : sysreg).

#[export] Instance sysreg_eq_dec : EqDecision sysreg.
Proof. solve_decision. Defined.
#[export] Instance port_eq_dec : EqDecision port.
Proof. solve_decision. Defined.

(** ** Access *)

(** The writes so far, the last one first, and the number of reads. *)
Record gic : Type := MkGic { writes : list (port * Z); nreads : nat; gic_max_int : Z }.

Definition bitfield_get (value begin width : Z) : Z := Z.land (Z.shiftr value begin) (Z.ones width).

Definition put (p : port) (v : Z) (s : gic) : gic := MkGic ((p, v) :: writes s) (nreads s) (gic_max_int s).
Definition putreg32 (v a : Z) (s : gic) : gic := put (Mmio a) (u32 v) s.
Definition putreg64 (v a : Z) (s : gic) : gic := put (Mmio a) (u64 v) s.
Definition MSR (r : sysreg) (v : Z) (s : gic) : gic := put (Sys r) v s.

Section Driver.
(** What the [n]-th read of a register returns. *)
Variable hardware : nat -> port -> Z.

Definition get (p : port) (s : gic) : gic * Z := (MkGic (writes s) (S (nreads s)) (gic_max_int s), hardware (nreads s) p).
Definition getreg32 (a : Z) (s : gic) : gic * Z := let (s, v) := get (Mmio a) s in (s, u32 v).
Definition MRS (r : sysreg) (s : gic) : gic * Z := get (Sys r) s.

(** [while (bit 31 of the register) { cnt--; if (!cnt) return; }] *)
Fixpoint wait_rwp (cnt : nat) (a : Z) (s : gic) : gic :=
  match cnt with
  | O => s
  | S cnt =>
      let (s, v) := getreg32 a s in
      if bitfield_get v 31 1 =? 0 then s
      else match cnt with O => s | S _ => wait_rwp cnt a s end
  end.

Definition RWP_COUNT : nat := Z.to_nat 10000.

Definition gicr_wait_rwp (s : gic) : gic := wait_rwp RWP_COUNT (GICR_CTLR 0) s.
Definition gicd_wait_rwp (s : gic) : gic := wait_rwp RWP_COUNT GICD_CTLR s.

Definition get_current_mpidr (s : gic) : gic * Z := MRS MPIDR_EL1 s.

Definition affinity_of (mpidr : Z) : Z :=
  Z.lor (Z.lor (Z.lor (Z.shiftl (Z.land (Z.shiftr mpidr 32) 0xff) 32) (Z.shiftl (Z.land (Z.shiftr mpidr 16) 0xff) 16))
           (Z.shiftl (Z.land (Z.shiftr mpidr 8) 0xff) 8)) (Z.land mpidr 0xff).

Definition mpidr_to_gic_affinity (s : gic) : gic * Z :=
  let (s, mpidr) := get_current_mpidr s in (s, affinity_of mpidr).

(** [for (i = lo; i < hi; i += step)] *)
Fixpoint for_loop (fuel : nat) (i hi step : Z) (body : Z -> gic -> gic) (s : gic) : outcome gic :=
  match fuel with
  | O => Diverge
  | S fuel => if i <? hi then for_loop fuel (u32 (i + step)) hi step body (body i s) else Ok s
  end.

(** At most 1024 interrupts. *)
Definition FOR_FUEL : nat := Z.to_nat 1025.

Definition priority4 : Z :=
  Z.lor (Z.lor (Z.lor (Z.shiftl GIC_PRI_IRQ 24) (Z.shiftl GIC_PRI_IRQ 16)) (Z.shiftl GIC_PRI_IRQ 8)) GIC_PRI_IRQ.

(** The loop on [ChildrenAsleep] stops the kernel in its first turn. *)
Definition redistributor_init (s : gic) : outcome gic :=
  let (s, waker) := getreg32 (GICR_WAKER 0) s in
  let waker := Z.land waker (not64 GICR_WAKER_ProcessorSleep) in
  let s := putreg32 waker (GICR_WAKER 0) s in
  let (s, w) := getreg32 (GICR_WAKER 0) s in
  assert! (Z.land w GICR_WAKER_ChildrenAsleep =? 0) in
  let s := putreg32 (-1) (GICR_ICACTIVER0 0) s in
  let s := gicr_wait_rwp s in
  let (s, _) := getreg32 (GICR_ICFGR0 0) s in
  let s := putreg32 0xaaaaaaaa (GICR_ICFGR0 0) s in
  let s := gicr_wait_rwp s in
  let (s, _) := getreg32 (GICR_ICFGR1 0) s in
  let s := putreg32 0 (GICR_ICFGR1 0) s in
  let s := gicr_wait_rwp s in
  let! s := for_loop FOR_FUEL 0 32 4 (fun i => putreg32 priority4 (GICR_IPRIORITYR0 0 + i)) s in
  let s := gicr_wait_rwp s in
  let s := putreg32 (-1) (GICR_IGROUPR0 0) s in
  let s := gicr_wait_rwp s in
  let s := putreg32 (-1) (GICR_ICENABLER0 0) s in
  let s := putreg32 (-1) (GICR_ICPENDR0 0) s in
  Ok (gicr_wait_rwp s).

Definition cpu_interface_init (s : gic) : gic :=
  let (s, sre) := MRS ICC_SRE_EL1 s in
  let s := MSR ICC_SRE_EL1 (Z.lor (u32 sre) GICC_SRE_EL1_SRE) s in
  let s := MSR ICC_BPR1_EL1 0 s in
  let s := MSR ICC_PMR_EL1 DEFAULT_PMR_VALUE s in
  let (s, c) := MRS ICC_CTLR_EL1 s in
  let s := MSR ICC_CTLR_EL1 (Z.land (u32 c) (not64 GICC_CTLR_EL1_EOImode_drop)) s in
  MSR ICC_IGRPEN1_EL1 1 s.

Definition set_max (n : Z) (s : gic) : gic := MkGic (writes s) (nreads s) n.

(** Mask, clear and group 32 shared interrupts. *)
Definition spi_reset (i : Z) (s : gic) : gic :=
  let s := putreg32 (-1) (GICD_ICENABLER (i / 32)) s in
  let s := putreg32 (-1) (GICD_ICPENDR (i / 32)) s in
  let s := putreg32 (-1) (GICD_IGROUPR (i / 32)) s in
  putreg32 0 (GICD_IGRPMODR (i / 32)) s.

Definition distributor_init (s : gic) : outcome gic :=
  let (s, pidr2) := getreg32 GICD_PIDR2 s in
  let gic_version := bitfield_get pidr2 4 4 in
  assert! ((gic_version =? ARCH_REV_GICV3) || (gic_version =? ARCH_REV_GICV4)) in
  let (s, typer) := getreg32 GICD_TYPER s in
  let s := set_max (u32 ((bitfield_get typer 0 5 + 1) * 32)) s in
  let s := putreg32 0 GICD_CTLR s in
  let s := gicd_wait_rwp s in
  let! s := for_loop FOR_FUEL 32 (gic_max_int s) 16 (fun i => putreg32 0 (GICD_ICFGR (i / 16))) s in
  let! s := for_loop FOR_FUEL 32 (gic_max_int s) 4 (fun i => putreg32 priority4 (GICD_IPRIORITYR (i / 4))) s in
  let! s := for_loop FOR_FUEL 32 (gic_max_int s) 32 spi_reset s in
  let s := gicd_wait_rwp s in
  let s := putreg32 (Z.lor (Z.lor CTLR_ENABLE_G0 CTLR_ENABLE_G1NS) CTLR_ARE_S) GICD_CTLR s in
  let s := gicd_wait_rwp s in
  let (s, affinity) := mpidr_to_gic_affinity s in
  let! s := for_loop FOR_FUEL 32 (gic_max_int s) 1 (fun i => putreg64 affinity (GICD_IROUTER i)) s in
  Ok (gicd_wait_rwp s).

Definition gic_initialize (s : gic) : outcome gic :=
  let! s := distributor_init s in
  let! s := redistributor_init s in
  Ok (cpu_interface_init s).

Definition irq_mask (irq : Z) : Z := u32 (Z.shiftl 1 (irq mod 32)).

Definition up_enable_irq (irq : Z) (s : gic) : gic :=
  if (IRQN_SGI0 <=? irq) && (irq <? IRQN_SPIs) then gicr_wait_rwp (putreg32 (irq_mask irq) (GICR_ISENABLER0 0) s)
  else if (IRQN_SPIs <=? irq) && (irq <? gic_max_int s) then
    gicd_wait_rwp (putreg32 (irq_mask irq) (GICD_ISENABLER (irq / 32)) s)
  else s.

Definition up_disable_irq (irq : Z) (s : gic) : gic :=
  if (IRQN_SGI0 <=? irq) && (irq <? IRQN_SPIs) then gicr_wait_rwp (putreg32 (irq_mask irq) (GICR_ICENABLER0 0) s)
  else if (IRQN_SPIs <=? irq) && (irq <? gic_max_int s) then
    gicd_wait_rwp (putreg32 (irq_mask irq) (GICD_ICENABLER (irq / 32)) s)
  else s.
End Driver.

(** ** The interrupt table *)

(** The handlers that the kernel attaches. *)
Inductive xcpt_t : Type := timer_isr | irq_unexpected_isr.

Record irq_info : Type := MkIrq { handler : option xcpt_t; arg : Z; count : Z }.

Definition irq_attach (v : list irq_info) (irq : Z) (isr : option xcpt_t) (a : Z) : outcome (list irq_info * Z) :=
  if NR_IRQS <=? irq then Ok (v, - EINVAL)
  else
    let! v := aset v irq (MkIrq isr a 0) in
    Ok (v, 0).

(** The whole table, one entry after the other; then the controller. *)
Definition irq_initialize (hardware : nat -> port -> Z) (s : gic) : outcome (list irq_info * gic) :=
  let v := replicate (Z.to_nat NR_IRQS) (MkIrq None 0 0) in
  let! s := gic_initialize hardware s in
  Ok (v, s).

Definition irq_enable (hardware : nat -> port -> Z) (irq : Z) (s : gic) : gic := up_enable_irq hardware irq s.
Definition irq_disable (hardware : nat -> port -> Z) (irq : Z) (s : gic) : gic := up_disable_irq hardware irq s.

(** The table with the interrupt counted, and the handler to call. *)
Definition irq_dispatch (v : list irq_info) (irq : Z) : outcome (list irq_info * option (xcpt_t * Z)) :=
  if NR_IRQS <=? irq then Ok (v, None)
  else
    let! e := aget v irq in
    let! v := aset v irq (MkIrq (handler e) (arg e) (u64 (count e + 1))) in
    Ok (v, match handler e with Some f => Some (f, arg e) | None => None end).

(** ** What was written *)

(** Between [s] and [s'] the driver wrote [ws], in this order. *)
Definition wrote (ws : list (port * Z)) (s s' : gic) : Prop :=
  writes s' = rev ws ++ writes s /\ gic_max_int s' = gic_max_int s.

Lemma wrote_nil s : wrote [] s s.
Proof. done. Qed.

Lemma wrote_app ws1 ws2 s1 s2 s3 : wrote ws1 s1 s2 -> wrote ws2 s2 s3 -> wrote (ws1 ++ ws2) s1 s3.
Proof. intros [E1 M1] [E2 M2]. split; [|congruence]. by rewrite E2, E1, rev_app_distr, app_assoc. Qed.

Lemma wrote_put p v s : wrote [(p, v)] s (put p v s).
Proof. done. Qed.

(** One more write in front, and reads, which write nothing. *)
Lemma wrote_cons p v ws s s' : wrote ws (put p v s) s' -> wrote ((p, v) :: ws) s s'.
Proof. apply (wrote_app [(p, v)]), wrote_put. Qed.

Lemma wait_wrote hw cnt a : forall s, wrote [] s (wait_rwp hw cnt a s).
Proof.
  induction cnt as [|cnt IH]; intros s; [done|]. cbn [wait_rwp getreg32 get].
  destruct (bitfield_get _ 31 1 =? 0); [done|]. destruct cnt as [|cnt]; [done|].
  exact (wrote_app [] [] _ _ _ (wrote_nil s) (IH (MkGic (writes s) (S (nreads s)) (gic_max_int s)))).
Qed.

Lemma gicd_wrote hw s : wrote [] s (gicd_wait_rwp hw s).
Proof. unfold gicd_wait_rwp. generalize RWP_COUNT. intros n. apply wait_wrote. Qed.

Lemma gicr_wrote hw s : wrote [] s (gicr_wait_rwp hw s).
Proof. unfold gicr_wait_rwp. generalize RWP_COUNT. intros n. apply wait_wrote. Qed.

(** The loop bounds are large numbers: keep the proofs from counting. *)
#[local] Opaque gicd_wait_rwp gicr_wait_rwp FOR_FUEL.

(** Follow a sequence of writes, waits and reads backwards. *)
Lemma wrote_eq ws ws' s s' : wrote ws s s' -> ws = ws' -> wrote ws' s s'.
Proof. by intros ? <-. Qed.

Lemma then_put ws s t p v : wrote ws s t -> wrote (ws ++ [(p, v)]) s (put p v t).
Proof. intros Hw. by eapply wrote_app. Qed.

Lemma then_wait hw ws s t : wrote ws s t -> wrote ws s (gicr_wait_rwp hw t).
Proof. intros Hw. rewrite <- (app_nil_r ws). eapply wrote_app; [exact Hw|apply gicr_wrote]. Qed.

Lemma then_read ws s t n : wrote ws s t -> wrote ws s (MkGic (writes t) n (gic_max_int t)).
Proof. done. Qed.

Ltac follow :=
  eapply wrote_eq;
  [repeat first [apply wrote_nil | eapply then_wait | eapply then_put | eapply then_read | eassumption]|].

Lemma wrote_read ws s s' n : wrote ws (MkGic (writes s) n (gic_max_int s)) s' -> wrote ws s s'.
Proof. done. Qed.

(** The values that a loop variable takes. *)
Definition steps (lo n step : Z) : list Z := map (fun k => lo + step * k) (seqZ 0 n).

Lemma steps_cons lo n step : 0 < n -> steps lo n step = lo :: steps (lo + step) (n - 1) step.
Proof.
  intros Hn. unfold steps. rewrite seqZ_cons by lia. cbn. f_equal; [lia|].
  change (Z.succ 0) with (1 + 0). rewrite <- (fmap_add_seqZ 1 0 (Z.pred n)). change (fmap (Z.add 1)) with (map (Z.add 1)). rewrite map_map.
  replace (Z.pred n) with (n - 1) by lia. apply map_ext. intros k. lia.
Qed.

Lemma steps_elem lo n step x : x ∈ steps lo n step <-> exists k, 0 <= k < n /\ x = lo + step * k.
Proof.
  unfold steps. change (map ?f ?l) with (f <$> l). rewrite list_elem_of_fmap. setoid_rewrite elem_of_seqZ.
  split; intros (k & H1 & H2); exists k; split; done || lia.
Qed.

Lemma for_loop_wrote body ws hi step : (forall i s, wrote (ws i) s (body i s)) -> 0 < step -> hi <= 1024 -> step <= 32 ->
  forall n i s fuel, 0 <= i -> i + step * (Z.of_nat n - 1) < hi <= i + step * Z.of_nat n -> (n < fuel)%nat ->
  exists s', for_loop fuel i hi step body s = Ok s' /\ wrote (flat_map ws (steps i (Z.of_nat n) step)) s s'.
Proof.
  intros Hb Hst Hhi Hst2. induction n as [|n IH]; intros i s fuel Hi Hr Hf; (destruct fuel as [|fuel]; [lia|]); cbn [for_loop].
  - rewrite (proj2 (Z.ltb_ge _ _)) by lia. exists s. done.
  - rewrite (proj2 (Z.ltb_lt _ _)) by lia. rewrite u32_id by lia.
    destruct (IH (i + step) (body i s) fuel) as (s' & -> & Hw); [lia|lia|lia|]. exists s'. split; [done|].
    rewrite steps_cons by lia. cbn [flat_map]. replace (Z.of_nat (S n) - 1) with (Z.of_nat n) by lia.
    eapply wrote_app; [apply Hb|exact Hw].
Qed.

(** Loops over the shared interrupts, [max] being a multiple of 32. *)
Lemma spi_loop body ws max step s : (forall i s, wrote (ws i) s (body i s)) -> (step | 32) -> 0 < step ->
  32 <= max <= 1024 -> max mod 32 = 0 ->
  exists s', for_loop FOR_FUEL 32 max step body s = Ok s' /\ wrote (flat_map ws (steps 32 ((max - 32) / step) step)) s s'.
Proof.
  intros Hb [d Hd] Hst Hmax Hmod.
  assert (E : max - 32 = step * ((max - 32) / step)).
  { apply Z.div_exact; [lia|]. assert (exists q, max - 32 = 32 * q) as [q ->] by (exists (max / 32 - 1); Z.div_mod_to_equations; lia).
    rewrite Hd. replace (d * step * q) with (d * q * step) by lia. apply Z.mod_mul. lia. }
  assert (0 <= (max - 32) / step) by (apply Z.div_pos; lia).
  assert (Hle : step <= 32) by (apply Z.divide_pos_le; [lia|by exists d]).
  destruct (for_loop_wrote body ws max step Hb Hst ltac:(lia) Hle (Z.to_nat ((max - 32) / step)) 32 s FOR_FUEL)
    as (s' & H1 & H2); [lia|lia| |].
  - change FOR_FUEL with (Z.to_nat 1025). apply Z2Nat.inj_lt; [done|lia|]. assert (1 <= step) by lia. nia.
  - rewrite Z2Nat.id in H2 by done. by exists s'.
Qed.

(** ** The writes of the initialisation *)

Definition spi_max (lines : Z) : Z := (lines + 1) * 32.

Definition icfg_write (i : Z) : list (port * Z) := [(Mmio (GICD_ICFGR (i / 16)), 0)].
Definition prio_write (i : Z) : list (port * Z) := [(Mmio (GICD_IPRIORITYR (i / 4)), 0xa0a0a0a0)].
Definition route_write (aff i : Z) : list (port * Z) := [(Mmio (GICD_IROUTER i), u64 aff)].
Definition reset_writes (i : Z) : list (port * Z) :=
  [(Mmio (GICD_ICENABLER (i / 32)), 0xffffffff); (Mmio (GICD_ICPENDR (i / 32)), 0xffffffff);
   (Mmio (GICD_IGROUPR (i / 32)), 0xffffffff); (Mmio (GICD_IGRPMODR (i / 32)), 0)].

Definition spis (max step : Z) : list Z := steps 32 ((max - 32) / step) step.

(** Off, configured, on with affinity routing, routed. *)
Definition dist_trace (max aff : Z) : list (port * Z) :=
  [(Mmio GICD_CTLR, 0)] ++ flat_map icfg_write (spis max 16) ++ flat_map prio_write (spis max 4) ++
  flat_map reset_writes (spis max 32) ++ [(Mmio GICD_CTLR, 0x13)] ++ flat_map (route_write aff) (spis max 1).

Definition redist_trace (waker : Z) : list (port * Z) :=
  [(Mmio (GICR_WAKER 0), waker); (Mmio (GICR_ICACTIVER0 0), 0xffffffff); (Mmio (GICR_ICFGR0 0), 0xaaaaaaaa);
   (Mmio (GICR_ICFGR1 0), 0)] ++
  flat_map (fun i => [(Mmio (GICR_IPRIORITYR0 0 + i), 0xa0a0a0a0)]) (steps 0 8 4) ++
  [(Mmio (GICR_IGROUPR0 0), 0xffffffff); (Mmio (GICR_ICENABLER0 0), 0xffffffff); (Mmio (GICR_ICPENDR0 0), 0xffffffff)].

Definition cpu_trace (sre c : Z) : list (port * Z) :=
  [(Sys ICC_SRE_EL1, Z.lor (u32 sre) 1); (Sys ICC_BPR1_EL1, 0); (Sys ICC_PMR_EL1, 0xff);
   (Sys ICC_CTLR_EL1, Z.land (u32 c) (not64 2)); (Sys ICC_IGRPEN1_EL1, 1)].

Lemma field5 x : 0 <= bitfield_get x 0 5 < 32.
Proof. unfold bitfield_get. rewrite Z.land_ones by lia. apply Z.mod_pos_bound. lia. Qed.

Lemma spi_max_ok lines : 0 <= lines < 32 -> 32 <= spi_max lines <= 1024 /\ spi_max lines mod 32 = 0 /\ u32 (spi_max lines) = spi_max lines.
Proof. intros Hl. unfold spi_max. split; [lia|]. split; [apply Z.mod_mul; lia|]. apply u32_id. lia. Qed.

Section Init.
Variable hardware : nat -> port -> Z.

Lemma distributor_cases s :
  (distributor_init hardware s = Halt /\
   bitfield_get (u32 (hardware (nreads s) (Mmio GICD_PIDR2))) 4 4 ∉ [ARCH_REV_GICV3; ARCH_REV_GICV4]) \/
  exists s' k1 k2, let max := spi_max (bitfield_get (u32 (hardware k1 (Mmio GICD_TYPER))) 0 5) in
    distributor_init hardware s = Ok s' /\ gic_max_int s' = max /\
    writes s' = rev (dist_trace max (affinity_of (hardware k2 (Sys MPIDR_EL1)))) ++ writes s.
Proof.
  unfold distributor_init. cbn [getreg32 get set_max writes nreads gic_max_int].
  set (lines := bitfield_get (u32 (hardware (S (nreads s)) (Mmio GICD_TYPER))) 0 5).
  destruct (spi_max_ok lines (field5 _)) as (Hm1 & Hm2 & Hm3). change ((lines + 1) * 32) with (spi_max lines). rewrite Hm3.
  destruct ((_ =? ARCH_REV_GICV3) || _) eqn:Ev.
  2: { left. split; [done|]. apply orb_false_iff in Ev as [E1 E2]. breflect. rewrite !elem_of_cons, elem_of_nil. tauto. }
  right. set (max := spi_max lines) in *. set (s0 := MkGic (writes s) (S (S (nreads s))) max).
  set (s1 := gicd_wait_rwp hardware (putreg32 0 GICD_CTLR s0)).
  assert (W1 : wrote [(Mmio GICD_CTLR, 0)] s0 s1) by (eapply (wrote_app [_] []); [apply wrote_put|apply gicd_wrote]).
  destruct (spi_loop (fun i => putreg32 0 (GICD_ICFGR (i / 16))) icfg_write max 16 s1) as (s2 & Hs2 & W2);
    [intros; apply wrote_put|by exists 2|lia|done|done|].
  destruct (spi_loop (fun i => putreg32 priority4 (GICD_IPRIORITYR (i / 4))) prio_write max 4 s2) as (s3 & Hs3 & W3);
    [intros; apply wrote_put|by exists 8|lia|done|done|].
  destruct (spi_loop spi_reset reset_writes max 32 s3) as (s4 & Hs4 & W4); [intros; done|by exists 1|lia|done|done|].
  set (s5 := gicd_wait_rwp hardware (putreg32 0x13 GICD_CTLR (gicd_wait_rwp hardware s4))).
  assert (W5 : wrote [(Mmio GICD_CTLR, 0x13)] s4 s5).
  { eapply (wrote_app [] [_]); [apply gicd_wrote|]. eapply (wrote_app [_] []); [apply wrote_put|apply gicd_wrote]. }
  set (aff := affinity_of (hardware (nreads s5) (Sys MPIDR_EL1))).
  set (s6 := MkGic (writes s5) (S (nreads s5)) (gic_max_int s5)).
  destruct (spi_loop (fun i => putreg64 aff (GICD_IROUTER i)) (route_write aff) max 1 s6) as (s7 & Hs7 & W7);
    [intros; apply wrote_put|by exists 32|lia|done|done|].
  pose proof (wrote_app _ _ _ _ _ W1 W2) as V2. pose proof (wrote_app _ _ _ _ _ V2 W3) as V3.
  pose proof (wrote_app _ _ _ _ _ V3 W4) as V4. pose proof (wrote_app _ _ _ _ _ V4 W5) as V5.
  pose proof (wrote_app _ _ _ _ _ V5 W7) as V7. pose proof (gicd_wrote hardware s7) as W8.
  pose proof (wrote_app _ _ _ _ _ V7 W8) as V8. rewrite app_nil_r, <- !app_assoc in V8.
  exists (gicd_wait_rwp hardware s7), (S (nreads s)), (nreads s5). cbv zeta. fold lines max aff.
  split; [|split; [apply V8|apply V8]]. change (gicd_wait_rwp hardware (putreg32 0 GICD_CTLR _)) with s1.
  rewrite (proj2 W1). cbn [gic_max_int s0]. rewrite Hs2. cbn [obind]. rewrite (proj2 V2). cbn [gic_max_int s0]. rewrite Hs3.
  cbn [obind]. rewrite (proj2 V3). cbn [gic_max_int s0]. rewrite Hs4. cbn [obind].
  change (Z.lor (Z.lor CTLR_ENABLE_G0 CTLR_ENABLE_G1NS) CTLR_ARE_S) with 0x13. fold s5.
  unfold mpidr_to_gic_affinity, get_current_mpidr, MRS, get. fold aff s6.
  change (gic_max_int s6) with (gic_max_int s5). rewrite (proj2 V5). cbn [gic_max_int s0]. by rewrite Hs7.
Qed.

Lemma redistributor_cases s :
  (redistributor_init hardware s = Halt /\
   exists k, Z.land (u32 (hardware k (Mmio (GICR_WAKER 0)))) GICR_WAKER_ChildrenAsleep <> 0) \/
  exists s' w, redistributor_init hardware s = Ok s' /\ wrote (redist_trace w) s s'.
Proof.
  unfold redistributor_init, getreg32, get, putreg32. cbv beta iota. destruct (Z.land _ GICR_WAKER_ChildrenAsleep =? 0) eqn:Ew.
  2: { left. split; [done|]. breflect. eexists. exact Ew. }
  right. set (w := Z.land _ (not64 _)).
  match goal with |- context [for_loop FOR_FUEL 0 32 4 ?b ?t] => set (s2 := t);
    destruct (for_loop_wrote b (fun i => [(Mmio (GICR_IPRIORITYR0 0 + i), 0xa0a0a0a0)]) 32 4
                ltac:(intros; apply wrote_put) ltac:(lia) ltac:(lia) ltac:(lia) 8 0 s2 FOR_FUEL) as (s3 & Hs3 & W3) end;
    [lia|lia|change FOR_FUEL with (Z.to_nat 1025); lia|].
  assert (W2 : wrote (take 4 (redist_trace (u32 w))) s s2) by (follow; reflexivity).
  rewrite Hs3. cbn [obind]. eexists _, (u32 w). split; [done|].
  assert (W4 : wrote (drop 12 (redist_trace (u32 w))) s3 (gicr_wait_rwp hardware
    (put (Mmio (GICR_ICPENDR0 0)) (u32 (-1)) (put (Mmio (GICR_ICENABLER0 0)) (u32 (-1))
      (gicr_wait_rwp hardware (put (Mmio (GICR_IGROUPR0 0)) (u32 (-1)) (gicr_wait_rwp hardware s3)))))))
    by (follow; reflexivity).
  exact (wrote_eq _ _ _ _ (wrote_app _ _ _ _ _ (wrote_app _ _ _ _ _ W2 W3) W4) eq_refl).
Qed.

Lemma cpu_interface_wrote s : exists sre c, wrote (cpu_trace sre c) s (cpu_interface_init hardware s).
Proof. unfold cpu_interface_init, MRS, MSR, get. cbv beta iota. eexists _, _. follow. reflexivity. Qed.

(** Every path: the controller is unknown, or it is asleep, or all is written. *)
Lemma gic_initialize_cases s :
  (gic_initialize hardware s = Halt /\
   (bitfield_get (u32 (hardware (nreads s) (Mmio GICD_PIDR2))) 4 4 ∉ [ARCH_REV_GICV3; ARCH_REV_GICV4] \/
    exists k, Z.land (u32 (hardware k (Mmio (GICR_WAKER 0)))) GICR_WAKER_ChildrenAsleep <> 0)) \/
  exists s' k1 k2 w sre c, let max := spi_max (bitfield_get (u32 (hardware k1 (Mmio GICD_TYPER))) 0 5) in
    gic_initialize hardware s = Ok s' /\ gic_max_int s' = max /\
    writes s' = rev (dist_trace max (affinity_of (hardware k2 (Sys MPIDR_EL1))) ++ redist_trace w ++ cpu_trace sre c) ++ writes s.
Proof.
  unfold gic_initialize. destruct (distributor_cases s) as [[-> Hv]|(s1 & k1 & k2 & -> & M1 & E1)]; [left; tauto|]. cbn [obind].
  destruct (redistributor_cases s1) as [[-> Hw]|(s2 & w & -> & W2)]; [left; tauto|]. cbn [obind]. right.
  destruct (cpu_interface_wrote s2) as (sre & c & W3). destruct (wrote_app _ _ _ _ _ W2 W3) as [E M].
  exists (cpu_interface_init hardware s2), k1, k2, w, sre, c. split; [done|]. split; [congruence|].
  rewrite E, E1, (rev_app_distr (dist_trace _ _)), app_assoc. done.
Qed.
End Init.

(** ** Registers after the writes *)

(** The last value written to a register; [log] has the last write first. *)
Fixpoint latest (log : list (port * Z)) (p : port) : option Z :=
  match log with
  | [] => None
  | (q, v) :: log => if decide (q = p) then Some v else latest log p
  end.

Lemma latest_app l1 l2 p : latest (l1 ++ l2) p = match latest l1 p with Some v => Some v | None => latest l2 p end.
Proof. induction l1 as [|[q v] l1 IH]; [done|]. cbn. by destruct (decide (q = p)). Qed.

(** A register that only ever gets one value. *)
Lemma latest_const l p v : (p, v) ∈ l -> (forall w, (p, w) ∈ l -> w = v) -> latest l p = Some v.
Proof.
  induction l as [|[q w] l IH]; intros Hin Hall; [by apply not_elem_of_nil in Hin|]. cbn.
  destruct (decide (q = p)) as [->|Hne]; [f_equal; apply Hall; left|]. apply IH.
  - apply elem_of_cons in Hin as [E|Hin]; [congruence|done].
  - intros w' Hw'. apply Hall. by right.
Qed.

(** The registers that enable and disable an interrupt: writing a one to its
    bit. *)
Definition enable_reg (n : Z) : Z := if n <? 32 then GICR_ISENABLER0 0 else GICD_ISENABLER (n / 32).
Definition disable_reg (n : Z) : Z := if n <? 32 then GICR_ICENABLER0 0 else GICD_ICENABLER (n / 32).

(** Is interrupt [n] enabled after the writes, from [init]? *)
Fixpoint enabled (init : Z -> bool) (log : list (port * Z)) (n : Z) : bool :=
  match log with
  | [] => init n
  | (p, v) :: log =>
      if bool_decide (p = Mmio (enable_reg n)) && Z.testbit v (n mod 32) then true
      else if bool_decide (p = Mmio (disable_reg n)) && Z.testbit v (n mod 32) then false
      else enabled init log n
  end.

Lemma enabled_cleared init l1 l2 n v :
  (Mmio (disable_reg n), v) ∈ l1 -> Z.testbit v (n mod 32) = true -> (forall w, (Mmio (enable_reg n), w) ∉ l1) ->
  enabled init (l1 ++ l2) n = false.
Proof.
  intros Hin Hb Hno. induction l1 as [|[q w] l1 IH]; [by apply not_elem_of_nil in Hin|]. cbn.
  rewrite (bool_decide_eq_false_2 (q = Mmio (enable_reg n))) by (intros ->; apply (Hno w); left). cbn.
  destruct (bool_decide _ && _) eqn:E; [done|]. apply IH; [|intros w' Hw'; apply (Hno w'); by right].
  apply elem_of_cons in Hin as [[= <- <-]|Hin]; [|done]. by rewrite bool_decide_eq_true_2, Hb in E.
Qed.

(** The offsets of the registers, as numbers. *)
Ltac regs :=
  unfold enable_reg, disable_reg, GICD_ISENABLER, GICD_ICENABLER, GICD_ICPENDR, GICD_IGROUPR, GICD_IGRPMODR, GICD_ICFGR,
    GICD_IPRIORITYR, GICD_IROUTER, GICD_CTLR, GICR_ISENABLER0, GICR_ICENABLER0, GICR_ICPENDR0, GICR_ICACTIVER0, GICR_IGROUPR0,
    GICR_IPRIORITYR0, GICR_ICFGR0, GICR_ICFGR1, GICR_WAKER, GICR_SGI_OFFSET, GICR_BASE, GICR_STRIDE, GICD_BASE in *;
  cbn [defualt_gicv3_config_desc mmio_base gicd_offset gicr_offset gicr_stride] in *.

(** Where a write of the initialisation comes from. *)
Lemma spis_elem max step x : 0 < step -> x ∈ spis max step -> 32 <= x < 32 + step * ((max - 32) / step).
Proof. intros Hs (k & Hk & ->)%steps_elem. nia. Qed.

Lemma in_dist max aff a v : (Mmio a, v) ∈ dist_trace max aff -> 32 <= max <= 1024 ->
  a = GICD_CTLR \/
  (exists k, 2 <= k < 64 /\ a = GICD_ICFGR k /\ v = 0) \/
  (exists k, 8 <= k < 256 /\ a = GICD_IPRIORITYR k /\ v = 0xa0a0a0a0) \/
  (exists k, 1 <= k < 32 /\ ((a = GICD_ICENABLER k \/ a = GICD_ICPENDR k \/ a = GICD_IGROUPR k) /\ v = 0xffffffff \/ a = GICD_IGRPMODR k /\ v = 0)) \/
  (exists k, 32 <= k < 1024 /\ a = GICD_IROUTER k /\ v = u64 aff).
Proof.
  intros Hin Hmax. unfold dist_trace in Hin. rewrite !elem_of_app, !list_elem_of_singleton in Hin.
  assert (Hb : forall step x, 0 < step -> x ∈ spis max step -> 32 <= x < 1024).
  { intros step x Hs Hx. pose proof (spis_elem _ _ _ Hs Hx). pose proof (Z.mul_div_le (max - 32) step Hs). lia. }
  destruct Hin as [[= -> _]|[Hin|[Hin|[Hin|[[= -> _]|Hin]]]]]; [by left| | | |by left|];
    apply list_elem_of_In, in_flat_map in Hin as (i & Hi%list_elem_of_In & Hin); apply Hb in Hi; try lia; right.
  - destruct Hin as [[= <- <-]|[]]. left. exists (i / 16). split; [Z.div_mod_to_equations; lia|done].
  - destruct Hin as [[= <- <-]|[]]. right; left. exists (i / 4). split; [Z.div_mod_to_equations; lia|done].
  - right; right; left. exists (i / 32). split; [Z.div_mod_to_equations; lia|].
    destruct Hin as [[= <- <-]|[[= <- <-]|[[= <- <-]|[[= <- <-]|[]]]]]; tauto.
  - destruct Hin as [[= <- <-]|[]]. right; right; right. by exists i.
Qed.

Lemma in_redist w a v : (Mmio a, v) ∈ redist_trace w -> GICR_BASE <= a /\ a <> GICR_ISENABLER0 0.
Proof.
  intros Hin%list_elem_of_In. unfold redist_trace in Hin. cbn [flat_map steps app map seqZ] in Hin.
  change (steps 0 8 4) with [0; 4; 8; 12; 16; 20; 24; 28] in Hin. cbn [flat_map app In] in Hin.
  repeat (destruct Hin as [Hin|Hin]; [injection Hin as <- _; split; vm_compute; congruence|]). destruct Hin.
Qed.

Lemma in_cpu sre c a v : (Mmio a, v) ∉ cpu_trace sre c.
Proof. intros Hin%list_elem_of_In. cbn in Hin. intuition discriminate. Qed.

Definition init_trace (max aff w sre c : Z) : list (port * Z) := dist_trace max aff ++ redist_trace w ++ cpu_trace sre c.

Lemma in_init max aff w sre c a v : (Mmio a, v) ∈ init_trace max aff w sre c ->
  (Mmio a, v) ∈ dist_trace max aff \/ (GICR_BASE <= a /\ a <> GICR_ISENABLER0 0).
Proof.
  unfold init_trace. rewrite !elem_of_app. intros [Hin|[Hin|Hin]]; [by left|right; by eapply in_redist|by apply in_cpu in Hin].
Qed.

(** The shared interrupts are written in groups. *)
Lemma in_spis max step n : 32 <= max -> max mod 32 = 0 -> (step | 32) -> 0 < step -> 32 <= n < max ->
  exists i, i ∈ spis max step /\ i / step = n / step.
Proof.
  intros Hm Hmod [d Hd] Hs Hn. exists (n / step * step). split; [|by rewrite Z.div_mul by lia].
  assert (Hst : (max - 32) / step * step = max - 32).
  { rewrite Z.mul_comm. symmetry. apply Z.div_exact; [lia|].
    assert (exists q, max - 32 = 32 * q) as [q ->] by (exists (max / 32 - 1); Z.div_mod_to_equations; lia).
    rewrite Hd. replace (d * step * q) with (d * q * step) by lia. apply Z.mod_mul. lia. }
  apply steps_elem. exists (n / step - 32 / step).
  assert (E : 32 / step = d) by (rewrite Hd; apply Z.div_mul; lia). rewrite E.
  pose proof (Z.div_mod n step ltac:(lia)). pose proof (Z.mod_pos_bound n step Hs).
  split; [split|]; nia.
Qed.

Lemma dist_value max aff w sre c old p v :
  (p, v) ∈ init_trace max aff w sre c -> (forall v', (p, v') ∈ init_trace max aff w sre c -> v' = v) ->
  latest (rev (init_trace max aff w sre c) ++ old) p = Some v.
Proof.
  intros Hin Hall. rewrite latest_app. rewrite (latest_const _ p v); [done| |].
  - apply list_elem_of_In. rewrite <- in_rev. by apply list_elem_of_In.
  - intros v' Hv. apply Hall. apply list_elem_of_In. rewrite in_rev. by apply list_elem_of_In.
Qed.

(** The part of the trace that configures group [i] of the shared interrupts. *)
Lemma dist_has max aff w sre c n : 32 <= max -> max mod 32 = 0 -> 32 <= n < max ->
  (Mmio (GICD_ICFGR (n / 16)), 0) ∈ init_trace max aff w sre c /\
  (Mmio (GICD_IPRIORITYR (n / 4)), 0xa0a0a0a0) ∈ init_trace max aff w sre c /\
  (Mmio (GICD_IGROUPR (n / 32)), 0xffffffff) ∈ init_trace max aff w sre c /\
  (Mmio (GICD_ICENABLER (n / 32)), 0xffffffff) ∈ init_trace max aff w sre c /\
  (Mmio (GICD_IROUTER n), u64 aff) ∈ init_trace max aff w sre c.
Proof.
  intros Hm Hmod Hn.
  assert (Hfl : forall (f : Z -> list (port * Z)) step x, (step | 32) -> 0 < step -> (forall i, i / step = n / step -> In x (f i)) ->
            x ∈ flat_map f (spis max step)).
  { intros f step x Hd Hs Hx. destruct (in_spis max step n Hm Hmod Hd Hs Hn) as (i & Hi & E).
    apply list_elem_of_In, in_flat_map. exists i. split; [by apply list_elem_of_In|by apply Hx]. }
  unfold init_trace, dist_trace. rewrite !elem_of_app. split_and!.
  - left; right; left. apply Hfl; [by exists 2|lia|]. intros i <-. by left.
  - left; right; right; left. apply Hfl; [by exists 8|lia|]. intros i <-. by left.
  - left; right; right; right; left. apply Hfl; [by exists 1|lia|]. intros i <-. do 2 right. by left.
  - left; right; right; right; left. apply Hfl; [by exists 1|lia|]. intros i <-. by left.
  - left; right; right; right; right; right. apply Hfl; [by exists 32|lia|]. intros i E. rewrite !Z.div_1_r in E. subst i. by left.
Qed.

(** Addresses of the distributor that an initialisation write can hit. *)
Ltac init_value :=
  intros v' Hv'; apply in_init in Hv' as [Hv'|[Hv' _]]; [|regs; Z.div_mod_to_equations; lia];
  apply in_dist in Hv'; [|lia];
  destruct Hv' as [E|[(k & Hk & E & ->)|[(k & Hk & E & ->)|[(k & Hk & [([E|[E|E]] & ->)|(E & ->)])|(k & Hk & E & ->)]]]];
  regs; Z.div_mod_to_equations; lia.

Lemma spi_values max aff w sre c old n : 32 <= max <= 1024 -> max mod 32 = 0 -> 32 <= n < max ->
  let log := rev (init_trace max aff w sre c) ++ old in
  latest log (Mmio (GICD_ICFGR (n / 16))) = Some 0 /\ latest log (Mmio (GICD_IPRIORITYR (n / 4))) = Some 0xa0a0a0a0 /\
  latest log (Mmio (GICD_IGROUPR (n / 32))) = Some 0xffffffff /\ latest log (Mmio (GICD_IROUTER n)) = Some (u64 aff).
Proof.
  intros Hm Hmod Hn log. destruct (dist_has max aff w sre c n ltac:(lia) Hmod Hn) as (H1 & H2 & H3 & _ & H5).
  split_and!; apply dist_value; try done; init_value.
Qed.

Lemma all_disabled init max aff w sre c old n : 32 <= max <= 1024 -> max mod 32 = 0 -> 0 <= n < max ->
  enabled init (rev (init_trace max aff w sre c) ++ old) n = false.
Proof.
  intros Hm Hmod Hn. apply (enabled_cleared _ _ _ _ 0xffffffff).
  - apply list_elem_of_In. rewrite <- in_rev. apply list_elem_of_In. unfold disable_reg. destruct (Z.ltb_spec n 32).
    + unfold init_trace. rewrite !elem_of_app. right; left. apply list_elem_of_In. vm_compute. intuition congruence.
    + destruct (dist_has max aff w sre c n ltac:(lia) Hmod ltac:(lia)) as (_ & _ & _ & H4 & _). exact H4.
  - change 0xffffffff with (Z.ones 32). apply Z.ones_spec_low. apply Z.mod_pos_bound. lia.
  - intros v Hv. apply list_elem_of_In in Hv. rewrite <- in_rev in Hv. apply list_elem_of_In in Hv.
    apply in_init in Hv as [Hv|[Hv Hne]].
    + apply in_dist in Hv; [|lia]. unfold enable_reg in Hv. destruct (Z.ltb_spec n 32);
      destruct Hv as [E|[(k & Hk & E & _)|[(k & Hk & E & _)|[(k & Hk & [([E|[E|E]] & _)|(E & _)])|(k & Hk & E & _)]]]];
        regs; Z.div_mod_to_equations; lia.
    + unfold enable_reg in *. destruct (Z.ltb_spec n 32); [done|]. regs. Z.div_mod_to_equations. lia.
Qed.

Lemma latest_none l p : (forall v, (p, v) ∉ l) -> latest l p = None.
Proof.
  induction l as [|[q v] l IH]; intros Hno; [done|]. cbn. rewrite decide_False by (intros ->; apply (Hno v); left).
  apply IH. intros w Hw. apply (Hno w). by right.
Qed.

Lemma ctlr_value max aff w sre c old : latest (rev (init_trace max aff w sre c) ++ old) (Mmio GICD_CTLR) = Some 0x13.
Proof.
  set (P1 := [(Mmio GICD_CTLR, 0)] ++ flat_map icfg_write (spis max 16) ++ flat_map prio_write (spis max 4) ++
             flat_map reset_writes (spis max 32)).
  set (P2 := flat_map (route_write aff) (spis max 1) ++ redist_trace w ++ cpu_trace sre c).
  assert (E : init_trace max aff w sre c = P1 ++ (Mmio GICD_CTLR, 0x13) :: P2).
  { unfold init_trace, dist_trace, P1, P2. by rewrite <- !app_assoc. }
  rewrite E, rev_app_distr. cbn [rev]. rewrite <- !app_assoc, latest_app, latest_none; [done|].
  intros v Hv. apply list_elem_of_In in Hv. rewrite <- in_rev in Hv. apply list_elem_of_In in Hv.
  unfold P2 in Hv. rewrite !elem_of_app in Hv. destruct Hv as [Hv|[Hv|Hv]].
  - apply list_elem_of_In, in_flat_map in Hv as (i & Hi%list_elem_of_In & [[= E2 _]|[]]).
    apply spis_elem in Hi; [|lia]. regs. lia.
  - apply in_redist in Hv as [Hv _]. revert Hv. vm_compute. congruence.
  - by apply in_cpu in Hv.
Qed.

(** ** Enabling one interrupt *)

Lemma irq_mask_bit irq n : Z.testbit (irq_mask irq) (n mod 32) = (n mod 32 =? irq mod 32).
Proof.
  pose proof (Z.mod_pos_bound irq 32 ltac:(lia)). pose proof (Z.mod_pos_bound n 32 ltac:(lia)).
  unfold irq_mask, u32. rewrite Z.mod_pow2_bits_low by lia. rewrite Z.shiftl_1_l, Z.pow2_bits_eqb by lia.
  by rewrite Z.eqb_sym.
Qed.

Lemma same_irq irq n : 0 <= irq < 1024 -> 0 <= n < 1024 ->
  bool_decide (Mmio (enable_reg irq) = Mmio (enable_reg n)) && (n mod 32 =? irq mod 32) = (n =? irq) /\
  bool_decide (Mmio (disable_reg irq) = Mmio (disable_reg n)) && (n mod 32 =? irq mod 32) = (n =? irq) /\
  enable_reg irq <> disable_reg n.
Proof.
  intros Hi Hn.
  assert (Hinj : (enable_reg irq = enable_reg n \/ disable_reg irq = disable_reg n) -> n mod 32 = irq mod 32 -> n = irq).
  { unfold enable_reg, disable_reg. destruct (Z.ltb_spec irq 32), (Z.ltb_spec n 32); regs; Z.div_mod_to_equations; lia. }
  split_and!.
  - destruct (Z.eqb_spec n irq) as [->|Hne]; [by rewrite bool_decide_eq_true_2, Z.eqb_refl|].
    destruct (Z.eqb_spec (n mod 32) (irq mod 32)); [|by rewrite andb_false_r].
    rewrite bool_decide_eq_false_2; [done|]. intros [= E]. tauto.
  - destruct (Z.eqb_spec n irq) as [->|Hne]; [by rewrite bool_decide_eq_true_2, Z.eqb_refl|].
    destruct (Z.eqb_spec (n mod 32) (irq mod 32)); [|by rewrite andb_false_r].
    rewrite bool_decide_eq_false_2; [done|]. intros [= E]. tauto.
  - unfold enable_reg, disable_reg. destruct (Z.ltb_spec irq 32), (Z.ltb_spec n 32); regs; Z.div_mod_to_equations; lia.
Qed.

Lemma wrote_enabled ws s s' init n : wrote ws s s' -> enabled init (writes s') n = enabled init (rev ws ++ writes s) n.
Proof. by intros [-> _]. Qed.

(** What the two functions write. *)
Lemma up_enable_wrote hw irq s : 0 <= irq -> 32 <= gic_max_int s ->
  wrote (if irq <? gic_max_int s then [(Mmio (enable_reg irq), irq_mask irq)] else []) s (up_enable_irq hw irq s) /\
  wrote (if irq <? gic_max_int s then [(Mmio (disable_reg irq), irq_mask irq)] else []) s (up_disable_irq hw irq s).
Proof.
  intros Hi Hm. assert (Hu : u32 (irq_mask irq) = irq_mask irq) by (unfold irq_mask, u32; apply Z.mod_mod; lia).
  unfold up_enable_irq, up_disable_irq, enable_reg, disable_reg, IRQN_SGI0, IRQN_SPIs, putreg32. rewrite !Hu.
  destruct (Z.ltb_spec irq 32).
  - rewrite (proj2 (Z.leb_le _ _)), (proj2 (Z.ltb_lt irq (gic_max_int s))) by lia. cbn [andb].
    split; (eapply (wrote_app [_] []); [apply wrote_put|apply gicr_wrote]).
  - rewrite andb_false_r, (proj2 (Z.leb_le 32 irq)) by lia. cbn [andb]. destruct (irq <? gic_max_int s); [|done].
    split; (eapply (wrote_app [_] []); [apply wrote_put|apply gicd_wrote]).
Qed.

(** The two functions on the set of enabled interrupts. *)
Lemma irq_enable_set hardware init s irq n :
  0 <= irq -> 32 <= gic_max_int s <= 1024 -> 0 <= n < gic_max_int s ->
  let on s := enabled init (writes s) in
  on (irq_enable hardware irq s) n = (n =? irq) || on s n /\
  on (irq_disable hardware irq s) n = negb (n =? irq) && on s n /\
  gic_max_int (irq_enable hardware irq s) = gic_max_int s.
Proof.
  intros Hi Hm Hn on. destruct (up_enable_wrote hardware irq s Hi ltac:(lia)) as [W1 W2]. unfold irq_enable, irq_disable, on.
  rewrite (wrote_enabled _ _ _ init n W1), (wrote_enabled _ _ _ init n W2), (proj2 W1).
  destruct (Z.ltb_spec irq (gic_max_int s)).
  - destruct (same_irq irq n) as (E1 & E2 & E3); [lia..|]. destruct (same_irq n irq) as (_ & _ & E4); [lia..|].
    cbn [rev app enabled]. rewrite !irq_mask_bit, E1, E2.
    rewrite (bool_decide_eq_false_2 (Mmio (enable_reg irq) = _)) by congruence.
    rewrite (bool_decide_eq_false_2 (Mmio (disable_reg irq) = _)) by congruence. by destruct (n =? irq).
  - cbn [rev app]. by rewrite (proj2 (Z.eqb_neq n irq)) by lia.
Qed.

Module GicSpec.

(** C36: bringing up the interrupt controller.  On a GICv3 or GICv4 whose
    redistributor wakes up, [gic_initialize] returns, however long the busy bits
    stay set; afterwards every shared interrupt is level-triggered, in group 1,
    at priority 0xa0 and routed to this processor, no interrupt is enabled, and
    the distributor is switched on with affinity routing. *)
Theorem gic_initialize_configures hardware lines mpidr init s :
  (forall k, bitfield_get (u32 (hardware k (Mmio GICD_PIDR2))) 4 4 ∈ [ARCH_REV_GICV3; ARCH_REV_GICV4]) ->
  (forall k, Z.land (u32 (hardware k (Mmio (GICR_WAKER 0)))) GICR_WAKER_ChildrenAsleep = 0) ->
  (forall k, bitfield_get (u32 (hardware k (Mmio GICD_TYPER))) 0 5 = lines) ->
  (forall k, hardware k (Sys MPIDR_EL1) = mpidr) ->
  exists s', gic_initialize hardware s = Ok s' /\ gic_max_int s' = 32 * (lines + 1) /\
    latest (writes s') (Mmio GICD_CTLR) = Some (Z.lor (Z.lor CTLR_ENABLE_G0 CTLR_ENABLE_G1NS) CTLR_ARE_S) /\
    (forall n, 0 <= n < gic_max_int s' -> enabled init (writes s') n = false) /\
    forall n, 32 <= n < gic_max_int s' ->
      latest (writes s') (Mmio (GICD_ICFGR (n / 16))) = Some 0 /\
      latest (writes s') (Mmio (GICD_IPRIORITYR (n / 4))) = Some 0xa0a0a0a0 /\
      latest (writes s') (Mmio (GICD_IGROUPR (n / 32))) = Some 0xffffffff /\
      latest (writes s') (Mmio (GICD_IROUTER n)) = Some (u64 (affinity_of mpidr)).
Proof.
  intros Hv Hw Hl Hp. destruct (gic_initialize_cases hardware s) as [(_ & [Hno|[k Hk]])|(s' & k1 & k2 & w & sre & c & H1 & H2 & H3)].
  - by destruct Hno.
  - by destruct Hk.
  - rewrite Hl in H2, H3. rewrite Hp in H3. fold (init_trace (spi_max lines) (affinity_of mpidr) w sre c) in H3.
    destruct (spi_max_ok lines) as (Hm & Hmod & _); [rewrite <- (Hl 0%nat); apply field5|].
    exists s'. rewrite H2, H3. split; [done|]. split; [unfold spi_max; lia|]. split; [apply ctlr_value|].
    split; intros n Hn; [by apply all_disabled|by apply spi_values].
Qed.

(** A controller that answers at once: GICv3, 256 interrupts, processor 0x81. *)
Definition quiet (k : nat) (p : port) : Z :=
  if decide (p = Mmio GICD_PIDR2) then 0x30
  else if decide (p = Mmio GICD_TYPER) then 7
  else if decide (p = Sys MPIDR_EL1) then 0x81
  else 0.

Lemma quiet_other k p : p <> Mmio GICD_PIDR2 -> p <> Mmio GICD_TYPER -> p <> Sys MPIDR_EL1 -> quiet k p = 0.
Proof. intros. unfold quiet. by rewrite !decide_False. Qed.

Lemma gic_initialize_configures_witness : exists s', gic_initialize quiet (MkGic [] 0 0) = Ok s' /\
  gic_max_int s' = 256 /\ latest (writes s') (Mmio (GICD_IROUTER 48)) = Some 0x81.
Proof.
  destruct (gic_initialize_configures quiet 7 0x81 (fun _ => true) (MkGic [] 0 0)) as (s' & H1 & H2 & _ & _ & H3).
  - intros k. left.
  - intros k. reflexivity.
  - intros k. reflexivity.
  - intros k. reflexivity.
  - exists s'. split; [exact H1|]. split; [exact H2|]. rewrite H2 in H3. apply (H3 48). split; vm_compute; congruence.
Defined.

(** C37: the initialisation ends whatever the controller does.  Every polling loop
    gives up after its 10000 reads and every configuration loop is bounded by the
    1024 interrupts of the architecture: the register accesses of [gic_initialize]
    come to an end or stop at one of its two assertions, and never run away.  (The
    messages in between, which wait for the serial port, are not part of it.) *)
Theorem gic_initialize_terminates hardware s :
  (exists s', gic_initialize hardware s = Ok s') \/ gic_initialize hardware s = Halt.
Proof.
  destruct (gic_initialize_cases hardware s) as [(-> & _)|(s' & k1 & k2 & w & sre & c & -> & _)]; [by right|left; by exists s'].
Qed.

(** C38: enabling and disabling.  [irq_enable] and [irq_disable] act on the set of
    enabled interrupts as adding and removing one element: interrupts that the
    controller has change exactly as asked, the others not at all, and a number
    beyond the controller's changes nothing. *)
Theorem irq_enable_refines hardware init s irq n :
  0 <= irq -> 32 <= gic_max_int s <= 1024 -> 0 <= n < gic_max_int s ->
  let on s := enabled init (writes s) in
  on (irq_enable hardware irq s) n = (n =? irq) || on s n /\
  on (irq_disable hardware irq s) n = negb (n =? irq) && on s n /\
  gic_max_int (irq_enable hardware irq s) = gic_max_int s.
Proof. apply irq_enable_set. Qed.

Lemma irq_enable_refines_witness :
  enabled (fun _ => false) (writes (irq_enable quiet 27 (MkGic [] 0 256))) 27 = true /\
  enabled (fun _ => false) (writes (irq_enable quiet 27 (MkGic [] 0 256))) 59 = false.
Proof.
  split; [rewrite (proj1 (irq_enable_refines quiet (fun _ => false) (MkGic [] 0 256) 27 27 ltac:(lia) ltac:(cbn; lia) ltac:(cbn; lia)))|
          rewrite (proj1 (irq_enable_refines quiet (fun _ => false) (MkGic [] 0 256) 27 59 ltac:(lia) ltac:(cbn; lia) ltac:(cbn; lia)))];
    reflexivity.
Defined.

(** Attaching to a number that the table does not have is an error, and leaves
    the table alone; the message of an unexpected interrupt is never reached,
    because the default handler is [NULL]. *)
Example attach_out_of_range : forall v, irq_attach v 33 (Some timer_isr) 0 = Ok (v, - EINVAL).
Proof. reflexivity. Qed.

Example unattached_is_ignored :
  irq_dispatch (replicate (Z.to_nat NR_IRQS) (MkIrq None 0 0)) 5 =
  Ok (<[5%nat := MkIrq None 0 1]> (replicate (Z.to_nat NR_IRQS) (MkIrq None 0 0)), None).
Proof. reflexivity. Qed.
End GicSpec.
