(* ===== verification/Traps.v ===== *)
(** * Exceptions, system calls and interrupts
    (arch/arm64/traps.c, fault.c, context.c, vector.S, lib/libsyscalls, core/sched/timer.c)

    What happens between the moment a task leaves user mode and the moment a
    task is back in it: the vector stores the registers in the control block of
    the interrupted task, the handler does its work and calls the scheduler,
    and [restore_current_context] loads the registers of the task that was
    chosen.  The file puts the scheduler, the memory manager, the timer and the
    interrupt controller together in one state. *)

From Stdlib Require Import ZArith Lia Bool.
From stdpp Require Import base numbers list gmap.
From S2P Require Import Prelude Board Gran KList Task Sched Timer SchedFrame PageTable AddrSpace Bytes Mmap Gic.
#[local] Open Scope Z_scope.

(** ** State *)

(** The registers of user mode: [x0] to [x30], and what [eret] takes as program
    counter, stack pointer and processor state.  These are the registers that
    the vector stores and [restore_current_context] loads; the vector registers, which
    the boot code opens to user mode, are stored and loaded by neither. *)
Record cpu : Type := MkCpu { gpr : list Z; elr_el1 : Z; sp_el0 : Z; spsr_el1 : Z }.

Record kernel : Type := MkKernel {
  k_sched : sched_state;
  k_heap : mm_gran;
  k_mem : wmem;
  k_vmas : gmap Z vm_area;
  k_gic : gic;
  k_irqs : list irq_info;         (* [g_irqvector] *)
  k_timer : timer_regs;
  g_current_time : Z;
  k_cpu : cpu;
  sp_el1 : option Z               (* the task whose context the vector stores to; the boot stack before the first restore *)
}.

Definition set_sched (k : kernel) (s : sched_state) : kernel :=
  MkKernel s (k_heap k) (k_mem k) (k_vmas k) (k_gic k) (k_irqs k) (k_timer k) (g_current_time k) (k_cpu k) (sp_el1 k).

Definition set_cpu (k : kernel) (c : cpu) (sp : option Z) : kernel :=
  MkKernel (k_sched k) (k_heap k) (k_mem k) (k_vmas k) (k_gic k) (k_irqs k) (k_timer k) (g_current_time k) c sp.

Definition set_irq (k : kernel) (g : gic) (v : list irq_info) : kernel :=
  MkKernel (k_sched k) (k_heap k) (k_mem k) (k_vmas k) g v (k_timer k) (g_current_time k) (k_cpu k) (sp_el1 k).

Definition set_timer (k : kernel) (r : timer_regs) : kernel :=
  MkKernel (k_sched k) (k_heap k) (k_mem k) (k_vmas k) (k_gic k) (k_irqs k) r (g_current_time k) (k_cpu k) (sp_el1 k).

(** [this_task()] *)
Definition this_task (k : kernel) : Z := g_current_task (k_sched k).

(** ** Saving and restoring registers *)

(** The 34 words that [store_context] writes. *)
Definition frame_of (c : cpu) : context := gpr c ++ [elr_el1 c; sp_el0 c; spsr_el1 c].

(** The registers that [restore_current_context] loads; [x9] to [x11], which it
    uses on the way, are loaded last. *)
Definition cpu_of (c : context) : cpu := MkCpu (take 31 c) (reg c PC) (reg c SP) (reg c PSTATE).

(** The macro stores at the stack pointer of EL1, which [restore_current_context] left
    at the control block of the task that it entered.  It is still there when that
    task traps: user code cannot move it, and the idle task, whose loop has no stack frame,
    does not.  Before the first restore it is inside the boot stack, and what is stored
    there is never loaded. *)
Definition store_context (k : kernel) : outcome kernel :=
  match sp_el1 k with
  | Some p =>
      let! t := get_task (k_sched k) p in
      Ok (set_sched k (put_task (k_sched k) p (set_ctx t (frame_of (k_cpu k)))))
  | None => Ok k
  end.

Definition restore_current_context (k : kernel) : outcome kernel :=
  let current := this_task k in
  assert! (negb (current =? 0)) in
  let! t := get_task (k_sched k) current in
  Ok (set_cpu k (cpu_of (ctx t)) (Some current)).

(** ** System calls *)

Definition ENOSYS : Z := 88.
Definition __NR_ioctl : Z := 29.
Definition __NR_writev : Z := 66.
Definition __NR_exit : Z := 93.
Definition __NR_exit_group : Z := 94.
Definition __NR_nanosleep : Z := 101.
Definition __NR_brk : Z := 214.
Definition __NR_munmap : Z := 215.
Definition __NR_mmap : Z := 222.
Definition SYSCALLS_NUM : Z := 446.

Definition sys_callback : Type := list Z -> kernel -> outcome (kernel * Z).

(** [params[i]] *)
Definition param (params : list Z) (i : nat) : Z := nth i params 0.

(** The memory manager's part of the state, for the running task. *)
Definition mm_of (k : kernel) : outcome mm_state :=
  let! t := get_task (k_sched k) (this_task k) in
  Ok (MkMM (k_heap k) (k_mem k) (links (k_sched k)) (k_vmas k) t (this_task k)).

Definition put_mm (k : kernel) (s : mm_state) : kernel :=
  MkKernel (put_task (set_links (k_sched k) (mm_links s)) (mm_self s) (mm_task s)) (mm_heap s) (mm_mem s) (mm_vmas s)
    (k_gic k) (k_irqs k) (k_timer k) (g_current_time k) (k_cpu k) (sp_el1 k).

Definition with_mm (f : mm_state -> outcome (mm_state * Z)) (k : kernel) : outcome (kernel * Z) :=
  let! s := mm_of k in
  let! (s, ret) := f s in
  Ok (put_mm k s, ret).

(** A load of the kernel through a pointer: below [2^39] it goes through the
    tables of the running task, above through the linear map of the kernel. *)
Definition load_byte (k : kernel) (va : Z) : outcome Z :=
  if va <? 0x8000000000 then
    let! t := get_task (k_sched k) (this_task k) in
    match translate va (hw_walk (k_mem k) (addrspace t) va) with
    | Some (pa, _) => ldb (k_mem k) (pbase_to_vbase pa)
    | None => Fault
    end
  else ldb (k_mem k) va.

(** [n] bytes, the lowest first. *)
Fixpoint load_le (n : nat) (k : kernel) (va : Z) : outcome Z :=
  match n with
  | O => Ok 0
  | S n => let! b := load_byte k va in let! w := load_le n k (va + 1) in Ok (b + 256 * w)
  end.

Definition load_long (k : kernel) (va : Z) : outcome Z := load_le 8 k va.

Definition vsys_ioctl : sys_callback := fun params k => Ok (k, 0).
Definition vsys_writev : sys_callback := fun params k => Ok (k, 0).
Definition vsys_exit : sys_callback := fun params k => Ok (k, 0).
Definition vsys_exit_group : sys_callback := fun params k => Ok (k, 0).
Definition vsys_brk : sys_callback := fun params => with_mm (fun s => sys_brk s (param params 0)).
Definition vsys_mmap : sys_callback := fun params =>
  with_mm (fun s => sys_mmap s (param params 0) (param params 1) (param params 2) (param params 3) (param params 4) (param params 5)).
Definition vsys_munmap : sys_callback := fun params => with_mm (fun s => sys_munmap s (param params 0) (param params 1)).

Section Handlers.
Context `{KernelLayout}.
(** Fuel for the list walks of the scheduler; what the controller's registers
    return; the counter as the handler and then the scheduler read it. *)
Variables (fuel : nat) (hardware : nat -> port -> Z) (now : Z) (time : nat -> Z).

(** The two fields of the request, then the request itself. *)
Definition vsys_nanosleep : sys_callback := fun params k =>
  let req := param params 0 in
  let! tv_sec := load_long k req in
  let! tv_nsec := load_long k (req + 8) in
  let! (s, ret) := sys_nanosleep (k_sched k) now tv_sec tv_nsec in
  Ok (set_sched k s, ret).

(** The entries of the table; the others are [NULL]. *)
Definition svc_handlers (sn : Z) : option sys_callback :=
  if sn =? __NR_ioctl then Some vsys_ioctl
  else if sn =? __NR_writev then Some vsys_writev
  else if sn =? __NR_brk then Some vsys_brk
  else if sn =? __NR_mmap then Some vsys_mmap
  else if sn =? __NR_munmap then Some vsys_munmap
  else if sn =? __NR_exit then Some vsys_exit
  else if sn =? __NR_exit_group then Some vsys_exit_group
  else if sn =? __NR_nanosleep then Some vsys_nanosleep
  else None.

Definition svc_handler (k : kernel) : outcome kernel :=
  let current := this_task k in
  assert! (negb (current =? 0)) in
  let! t := get_task (k_sched k) current in
  let sn := reg (ctx t) X8 in
  let! (k, ret) :=
    (if sn <? SYSCALLS_NUM then
       match svc_handlers sn with Some f => f (ctx t) k | None => Ok (k, neg ENOSYS) end
     else Ok (k, neg ENOSYS)) in
  let! t := get_task (k_sched k) current in
  let k := set_sched k (put_task (k_sched k) current (set_ctx t (context_set_retcode (ctx t) ret))) in
  let! s := schedule fuel time (k_sched k) in
  restore_current_context (set_sched k s).

(** ** Faults *)

(** A function that may leave by [eret] instead of returning. *)
Inductive flow : Type := Eret (k : kernel) | Return (k : kernel).

Definition do_page_fault (addr : Z) (k : kernel) : outcome flow :=
  let! t := get_task (k_sched k) (this_task k) in
  if (start_brk (mm t) <=? addr) && (addr <? brk (mm t)) then
    let! s := schedule fuel time (k_sched k) in
    let! k := restore_current_context (set_sched k s) in
    Ok (Eret k)
  else Ok (Return k).

Definition ESR_EC_SHIFT : Z := 26.
Definition ESR_EC_LEL_DABT : Z := 0x24.
Definition ESR_EC_LEL_IABT : Z := 0x20.
Definition ESR_EC_LEL_SVC64 : Z := 0x15.
Definition ESR_EC_LEL_HVC64 : Z := 0x16.

(** Whatever returns here runs into [PANIC]. *)
Definition lel_sync_traps (esr far : Z) (k : kernel) : outcome kernel :=
  let ec := Z.shiftr esr ESR_EC_SHIFT in
  let! f :=
    (if ec =? ESR_EC_LEL_DABT then do_page_fault far k
     else if ec =? ESR_EC_LEL_IABT then Ok (Return k)
     else if ec =? ESR_EC_LEL_SVC64 then let! k := svc_handler k in Ok (Eret k)
     else if ec =? ESR_EC_LEL_HVC64 then Ok (Return k)
     else Ok (Return k)) in
  match f with Eret k => Ok k | Return _ => Halt end.

(** An exception of the kernel itself. *)
Definition cel_sync_traps (esr far : Z) (k : kernel) : outcome kernel := Halt.

(** ** Interrupts *)

Definition timer_update_timestamp (k : kernel) : kernel :=
  MkKernel (k_sched k) (k_heap k) (k_mem k) (k_vmas k) (k_gic k) (k_irqs k) (k_timer k) now (k_cpu k) (sp_el1 k).

Definition timer_reset (timeslice : Z) (k : kernel) : kernel := set_timer k (generic_timer_reset timeslice).

(** The table entry is called with the interrupt's number and its argument. *)
Definition call_isr (isr : xcpt_t) (k : kernel) : outcome kernel :=
  match isr with
  | timer_isr =>
      let! (r, s) := timer_handler fuel time (k_timer k) (k_sched k) in
      Ok (set_timer (set_sched k s) r)
  | irq_unexpected_isr => Halt
  end.

Definition dispatch (irq : Z) (k : kernel) : outcome kernel :=
  let! (v, isr) := irq_dispatch (k_irqs k) irq in
  let k := set_irq k (k_gic k) v in
  match isr with Some (f, _) => call_isr f k | None => Ok k end.

Definition decode_irq (k : kernel) : outcome kernel :=
  let k := timer_update_timestamp k in
  let (g, icciar1) := MRS hardware ICC_IAR1_EL1 (k_gic k) in
  let k := set_irq k g (k_irqs k) in
  let irq := Z.land icciar1 INTID_MASK in
  assert! ((irq <? NR_IRQS) || (irq =? 1023)) in
  let! k := (if irq <? NR_IRQS then dispatch irq k else Ok k) in
  let k := set_irq k (MSR ICC_EOIR1_EL1 icciar1 (k_gic k)) (k_irqs k) in
  restore_current_context k.

(** [cntfrq] is the frequency register. *)
Definition timer_init (cntfrq : Z) (k : kernel) : outcome kernel :=
  let (r, t) := generic_timer_init cntfrq in
  let k := set_timer k r in
  let! (v, _) := irq_attach (k_irqs k) (timer_irq t) (Some timer_isr) 0 in
  Ok (set_irq k (irq_enable hardware (timer_irq t) (k_gic k)) v).

(** ** The vector *)

Definition lower_el_sync (esr far : Z) (k : kernel) : outcome kernel :=
  let! k := store_context k in lel_sync_traps esr far k.

Definition lower_el_irq (k : kernel) : outcome kernel :=
  let! k := store_context k in decode_irq k.

Definition cur_el_irq (k : kernel) : outcome kernel :=
  let! k := store_context k in decode_irq k.
End Handlers.

(** ** The registers of a task *)

Definition context_at (k : kernel) (x : Z) : option context := ctx <$> tasks (k_sched k) !! x.

(** While user code runs the registers of the running task are in the
    processor; the other tasks' are in their control blocks. *)
Definition registers (k : kernel) (x : Z) : option context :=
  if x =? this_task k then Some (frame_of (k_cpu k)) else context_at k x.

(** A task is running: the kernel's invariants hold, the vector will store to
    the control block of that task, and every frame has its 34 words. *)
Record running `{KernelLayout} (now g : Z) (k : kernel) (qs : Z -> list Z) : Prop := {
  rn_sys : sys_inv now g (k_sched k) qs;
  rn_sp : sp_el1 k = Some (this_task k);
  rn_regs : length (gpr (k_cpu k)) = 31%nat;
  rn_frames : forall x c, context_at k x = Some c -> length c = 34%nat
}.

Lemma cpu_of_frame c : length (gpr c) = 31%nat -> cpu_of (frame_of c) = c.
Proof.
  intros Hl. destruct c as [g e s p]. cbn in Hl. do 31 (destruct g as [|? g]; [done|]). by destruct g.
Qed.

Lemma frame_of_cpu c : length c = 34%nat -> frame_of (cpu_of c) = c /\ length (gpr (cpu_of c)) = 31%nat.
Proof. intros Hl. do 34 (destruct c as [|? c]; [done|]). by destruct c. Qed.

Lemma frame_length c : length (gpr c) = 31%nat -> length (frame_of c) = 34%nat.
Proof. intros Hl. unfold frame_of. rewrite length_app, Hl. done. Qed.

Section Laws.
Context `{KernelLayout}.

(** Writing a task's frame. *)
Definition put_context (k : kernel) (x : Z) (c : context) : kernel :=
  match tasks (k_sched k) !! x with
  | Some t => set_sched k (put_task (k_sched k) x (set_ctx t c))
  | None => k
  end.

Lemma put_context_ok now g k qs x c : sys_inv now g (k_sched k) qs -> is_Some (tasks (k_sched k) !! x) ->
  sys_inv now g (k_sched (put_context k x c)) qs /\ dom (tasks (k_sched (put_context k x c))) = dom (tasks (k_sched k)) /\
  this_task (put_context k x c) = this_task k /\ asids (k_sched (put_context k x c)) = asids (k_sched k) /\
  forall y, context_at (put_context k x c) y = if y =? x then Some c else context_at k y.
Proof.
  intros Hs [t Ht]. unfold put_context. rewrite Ht. cbn. split; [|split; [|split; [done|split; [done|]]]].
  - eapply sys_inv_frame; [by eapply (same_sched_put _ qs x t)| |done]. intros y. cbn. destruct (decide (y = x)) as [->|].
    + by rewrite lookup_insert_eq, Ht.
    + by rewrite lookup_insert_ne.
  - apply dom_insert_lookup_L. by exists t.
  - intros y. unfold context_at. cbn. destruct (Z.eqb_spec y x) as [->|]; [by rewrite lookup_insert_eq|].
    by rewrite lookup_insert_ne.
Qed.

(** The current task exists. *)
Lemma current_task now g k qs : sys_inv now g (k_sched k) qs -> this_task k <> 0 /\ is_Some (tasks (k_sched k) !! this_task k).
Proof.
  intros Hs. pose proof (ki_cur _ _ _ (sys_kernel _ _ _ _ Hs)) as Hc. split; [|by apply elem_of_dom].
  by apply (si_nodes _ _ _ (ki_sched _ _ _ (sys_kernel _ _ _ _ Hs)) _ Hc).
Qed.

Lemma store_context_ok now g k qs : running now g k qs ->
  store_context k = Ok (put_context k (this_task k) (frame_of (k_cpu k))).
Proof.
  intros [Hs Hsp _ _]. destruct (current_task _ _ _ _ Hs) as [_ [t Ht]].
  unfold store_context, put_context, get_task. by rewrite Hsp, Ht.
Qed.

(** The last step of every handler, in a state that has all frames stored. *)
Lemma restore_ok now g k qs : sys_inv now g (k_sched k) qs -> (forall x c, context_at k x = Some c -> length c = 34%nat) ->
  exists k', restore_current_context k = Ok k' /\ running now g k' qs /\ (forall x, registers k' x = context_at k x) /\
    this_task k' = this_task k /\ k' = set_cpu k (k_cpu k') (Some (this_task k)).
Proof.
  intros Hs Hf. destruct (current_task _ _ _ _ Hs) as [Hc [t Ht]].
  assert (Hl : context_at k (this_task k) = Some (ctx t)) by (unfold context_at; by rewrite Ht).
  destruct (frame_of_cpu (ctx t) (Hf _ _ Hl)) as [E1 E2].
  unfold restore_current_context, get_task. rewrite (proj2 (Z.eqb_neq _ _) Hc), Ht. cbn [obind negb].
  eexists. split; [done|]. split; [by constructor|]. split; [|done]. intros x. unfold registers.
  change (this_task (set_cpu _ _ _)) with (this_task k). cbn [set_cpu k_cpu].
  destruct (Z.eqb_spec x (this_task k)) as [->|]; [|done]. by rewrite E1, Hl.
Qed.

(** What the scheduler does to the frames: nothing. *)
Lemma schedule_frames fuel time now t1 g k qs :
  sys_inv now g (k_sched k) qs -> (forall i, now <= time i <= t1) -> t1 < 2 ^ 63 -> now <= t1 ->
  (g + 1) * num_asids (asids (k_sched k)) < 2 ^ 32 -> (size (tasks (k_sched k)) < fuel)%nat ->
  exists s' qs' g', schedule fuel time (k_sched k) = Ok s' /\ sys_inv t1 g' s' qs' /\ (g' = g \/ g' = g + 1) /\
    num_asids (asids s') = num_asids (asids (k_sched k)) /\ dom (tasks s') = dom (tasks (k_sched k)) /\
    (forall x, context_at (set_sched k s') x = context_at k x) /\
    evolves (this_task k) (g_current_task s') (tasks (k_sched k)) (tasks s') /\ keeps_nodes (k_sched k) s'.
Proof.
  intros. destruct (schedule_sys fuel time now t1 g (k_sched k) qs) as (s' & qs' & g' & E & ? & ? & ? & ? & He); try done.
  exists s', qs', g'. do 5 (split; [done|]). split; [|split; [done|by eapply schedule_links]].
  intros x. unfold context_at. cbn [set_sched k_sched]. specialize (He x).
  destruct (tasks (k_sched k) !! x), (tasks s' !! x); try done. by destruct He as [(st & v & ->) _].
Qed.
End Laws.

Section Handling.
Context `{KernelLayout}.

(** One entry of the table. *)
Lemma irq_dispatch_ok v i isr a n : 0 <= i < NR_IRQS -> v !! Z.to_nat i = Some (MkIrq (Some isr) a n) ->
  irq_dispatch v i = Ok (<[Z.to_nat i := MkIrq (Some isr) a (u64 (n + 1))]> v, Some (isr, a)).
Proof.
  intros Hi Hv. unfold irq_dispatch. rewrite (proj2 (Z.leb_gt _ _)) by lia.
  rewrite (aget_lookup _ _ _ (proj1 Hi) Hv). cbn [obind handler arg count].
  rewrite aset_ok; [done|]. split; [lia|]. apply lookup_lt_Some in Hv. lia.
Qed.

(** The interrupt of the timer, from a state with all frames stored. *)
Lemma decode_timer fuel hardware T time now t1 g k qs a n :
  let iar := hardware (nreads (k_gic k)) (Sys ICC_IAR1_EL1) in
  sys_inv now g (k_sched k) qs -> (forall x c, context_at k x = Some c -> length c = 34%nat) ->
  Z.land iar INTID_MASK = IRQN_EL1_VIRT_TIMER -> k_irqs k !! 27%nat = Some (MkIrq (Some timer_isr) a n) ->
  (forall i, now <= time i <= t1) -> t1 < 2 ^ 63 -> now <= t1 ->
  (g + 1) * num_asids (asids (k_sched k)) < 2 ^ 32 -> (size (tasks (k_sched k)) < fuel)%nat ->
  exists k' g' qs', decode_irq fuel hardware T time k = Ok k' /\ schedule fuel time (k_sched k) = Ok (k_sched k') /\ running t1 g' k' qs' /\
    (forall x, registers k' x = context_at k x) /\ (g' = g \/ g' = g + 1) /\
    dom (tasks (k_sched k')) = dom (tasks (k_sched k)) /\ num_asids (asids (k_sched k')) = num_asids (asids (k_sched k)) /\
    writes (k_gic k') = (Sys ICC_EOIR1_EL1, iar) :: writes (k_gic k) /\ k_timer k' = generic_timer_reset CONFIG_RR_INTERVAL /\
    k_irqs k' = <[27%nat := MkIrq (Some timer_isr) a (u64 (n + 1))]> (k_irqs k) /\
    g_current_time k' = T /\ k_heap k' = k_heap k /\ k_mem k' = k_mem k /\ k_vmas k' = k_vmas k.
Proof.
  intros iar Hs Hf Hid Hv Htime Ht1 Hle Hroom Hfuel. unfold decode_irq, MRS, get. cbn [k_gic timer_update_timestamp].
  fold iar. rewrite Hid. change (IRQN_EL1_VIRT_TIMER <? NR_IRQS) with true. cbn [orb]. unfold dispatch. cbn [k_irqs set_irq timer_update_timestamp].
  rewrite (irq_dispatch_ok _ IRQN_EL1_VIRT_TIMER timer_isr a n) by (done || (unfold IRQN_EL1_VIRT_TIMER, NR_IRQS; lia)).
  cbn [obind call_isr]. unfold timer_handler. cbn [k_sched set_irq timer_update_timestamp].
  destruct (schedule_frames fuel time now t1 g k qs) as (s' & qs' & g' & Hsch & Hs' & Hg & Ha & Hd & Hfr & _); try done.
  rewrite Hsch. cbn [obind]. set (k1 := set_irq (set_timer _ _) _ _).
  destruct (restore_ok t1 g' k1 qs') as (k' & -> & Hrun & Hreg & _ & E); [done| |].
  - intros x c Hx. apply (Hf x). rewrite <- Hfr. exact Hx.
  - exists k', g', qs'. split; [done|]. split; [by rewrite E|]. split; [done|]. split; [intros x; rewrite Hreg; apply Hfr|]. rewrite E. done.
Qed.

(** A handler kept the kernel's invariants and all frames. *)
Record served (k k1 : kernel) (T g : Z) (qs1 : Z -> list Z) : Prop := {
  sv_sys : sys_inv T g (k_sched k1) qs1;
  sv_task : this_task k1 = this_task k;
  sv_asids : asids (k_sched k1) = asids (k_sched k);
  sv_dom : dom (tasks (k_sched k1)) = dom (tasks (k_sched k));
  sv_frames : forall x, context_at k1 x = context_at k x
}.

(** The rest of [svc_handler] after a handler that returned [ret]. *)
Lemma svc_ok fuel now T time t1 g k qs c ret k1 qs1 :
  sys_inv now g (k_sched k) qs -> (forall x c, context_at k x = Some c -> length c = 34%nat) ->
  context_at k (this_task k) = Some c ->
  (if reg c X8 <? SYSCALLS_NUM then
     match svc_handlers T (reg c X8) with Some f => f c k | None => Ok (k, neg ENOSYS) end
   else Ok (k, neg ENOSYS)) = Ok (k1, ret) ->
  served k k1 T g qs1 -> (forall i, T <= time i <= t1) -> t1 < 2 ^ 63 -> T <= t1 ->
  (g + 1) * num_asids (asids (k_sched k)) < 2 ^ 32 -> (size (tasks (k_sched k)) < fuel)%nat ->
  exists k' g' qs', svc_handler fuel T time k = Ok k' /\ running t1 g' k' qs' /\ (g' = g \/ g' = g + 1) /\
    (forall x, registers k' x = if x =? this_task k then Some (context_set_retcode c ret) else context_at k x) /\
    dom (tasks (k_sched k')) = dom (tasks (k_sched k)) /\ num_asids (asids (k_sched k')) = num_asids (asids (k_sched k)) /\
    k' = set_cpu (set_sched k1 (k_sched k')) (k_cpu k') (Some (this_task k')) /\
    (forall x t, tasks (k_sched k1) !! x = Some t -> exists t', tasks (k_sched k') !! x = Some t' /\
      readytime t' = readytime t /\ addrspace t' = addrspace t /\ mm t' = mm t) /\ keeps_nodes (k_sched k1) (k_sched k').
Proof.
  intros Hs Hf Hc Hh [S1 S2 S3 S4 S5] Htime Ht1 Hle Hroom Hfuel.
  destruct (current_task _ _ _ _ Hs) as [Hne [t Ht]].
  unfold context_at in Hc. rewrite Ht in Hc. injection Hc as Hc.
  unfold svc_handler, get_task. rewrite (proj2 (Z.eqb_neq _ _) Hne), Ht. cbn [obind negb]. rewrite Hc, Hh. cbn [obind].
  destruct (current_task _ _ _ _ S1) as [_ Hin]. pose proof Hin as [u Hu]. rewrite S2 in Hu. rewrite Hu. cbn [obind].
  assert (Hcu : ctx u = c).
  { specialize (S5 (this_task k)). unfold context_at in S5. rewrite Hu, Ht in S5. cbn in S5. congruence. }
  rewrite Hcu. set (k2 := set_sched k1 _).
  destruct (put_context_ok T g k1 qs1 (this_task k) (context_set_retcode c ret) S1) as (P1 & P2 & P3 & P4 & P5);
    [by exists u|].
  assert (E2 : put_context k1 (this_task k) (context_set_retcode c ret) = k2) by (unfold put_context; by rewrite Hu).
  rewrite E2 in P1, P2, P3, P4, P5.
  destruct (schedule_frames fuel time T t1 g k2 qs1) as (s' & qs' & g' & -> & Hs' & Hg & Ha & Hd & Hfr & Hev & Hkn); try done.
  { by rewrite P4, S3. } { rewrite <- (size_dom (D := gset Z)), P2, S4, size_dom. done. }
  cbn [obind]. destruct (restore_ok t1 g' (set_sched k2 s') qs') as (k' & -> & Hrun & Hreg & Htt & E); [done| |].
  { intros x d. rewrite Hfr, P5. destruct (Z.eqb_spec x (this_task k)); [|rewrite S5; apply Hf].
    intros [= <-]. unfold context_set_retcode, set_reg.
    etrans; [apply length_insert|]. apply (Hf (this_task k)). unfold context_at.
    rewrite Ht. cbn. by rewrite Hc. }
  exists k', g', qs'. split; [done|]. split; [done|]. split; [done|]. split; [|split; [|split; [|split; [|split]]]].
  - intros x. rewrite Hreg, Hfr, P5. destruct (x =? this_task k); [done|]. apply S5.
  - rewrite E. cbn. rewrite Hd, P2. done.
  - rewrite E. cbn. rewrite Ha, P4, S3. done.
  - rewrite Htt. rewrite E at 1. rewrite E. done.
  - intros x w Hw. assert (exists w2, tasks (k_sched k2) !! x = Some w2 /\ readytime w2 = readytime w /\
      addrspace w2 = addrspace w /\ mm w2 = mm w) as (w2 & Hw2 & R1 & R2 & R3).
    { cbn. destruct (decide (x = this_task k)) as [->|]; [rewrite lookup_insert_eq; eexists; split; [done|]; by simplify_eq|].
      rewrite lookup_insert_ne by done. by exists w. }
    rewrite E. cbn. specialize (Hev x). rewrite Hw2 in Hev. destruct (tasks s' !! x) as [w'|]; [|done].
    destruct Hev as [(st & v & ->) _]. eexists. done.
  - intros x v Hx Hh2 Hv. rewrite E. apply (Hkn x v); [by rewrite P2|done|exact Hv].
Qed.
End Handling.

Section SystemCalls.
Context `{KernelLayout}.

Lemma sys_inv_later now T g k qs : sys_inv now g k qs -> now <= T -> sys_inv T g k qs.
Proof.
  intros [H1 H2 H3 H4] HT. constructor; [done|done| |lia]. intros x t Hx. destruct (H3 x t Hx) as [R1 R2].
  split; [done|]. intros Hr. specialize (R2 Hr). lia.
Qed.

Lemma served_same now T g k qs : sys_inv now g (k_sched k) qs -> now <= T -> served k k T g qs.
Proof. intros Hs HT. constructor; try done. by eapply sys_inv_later. Qed.

(** What the calls that look at no state return. *)
Definition plain_result (sn : Z) : option Z :=
  if bool_decide (sn ∈ [__NR_ioctl; __NR_writev; __NR_exit; __NR_exit_group; __NR_munmap]) then Some 0
  else if bool_decide (sn ∈ [__NR_brk; __NR_mmap; __NR_nanosleep]) then None
  else Some (neg ENOSYS).

Lemma put_mm_same k t : tasks (k_sched k) !! this_task k = Some t ->
  put_mm k (MkMM (k_heap k) (k_mem k) (links (k_sched k)) (k_vmas k) t (this_task k)) = k.
Proof.
  intros Ht. destruct k as [[l ts cur bm gr ti as_ h]]. unfold put_mm, put_task, set_tasks, set_links, this_task in *. cbn in *.
  by rewrite insert_id.
Qed.

Lemma plain_call T k c r : is_Some (tasks (k_sched k) !! this_task k) -> plain_result (reg c X8) = Some r ->
  (if reg c X8 <? SYSCALLS_NUM then
     match svc_handlers T (reg c X8) with Some f => f c k | None => Ok (k, neg ENOSYS) end
   else Ok (k, neg ENOSYS)) = Ok (k, r).
Proof.
  intros [t Ht] Hr. set (sn := reg c X8) in *. unfold plain_result in Hr. case_bool_decide as H1.
  - injection Hr as <-. rewrite !elem_of_cons in H1. destruct H1 as [E|[E|[E|[E|[E|E]]]]]; [..|by apply not_elem_of_nil in E];
      rewrite E; try done. change (__NR_munmap <? SYSCALLS_NUM) with true.
    change (svc_handlers T __NR_munmap) with (Some vsys_munmap). cbv beta iota.
    unfold vsys_munmap, with_mm, mm_of, get_task. rewrite Ht. cbn [obind sys_munmap]. by rewrite put_mm_same.
  - case_bool_decide as H2; [done|]. injection Hr as <-. destruct (sn <? SYSCALLS_NUM); [|done].
    unfold svc_handlers. rewrite !not_elem_of_cons in H1. rewrite !not_elem_of_cons in H2.
    rewrite !(proj2 (Z.eqb_neq _ _)); [done|tauto..].
Qed.

(** Loads look at memory and at the running task's tables. *)
Lemma load_byte_put k x c a : load_byte (put_context k x c) a = load_byte k a.
Proof.
  unfold put_context. destruct (tasks (k_sched k) !! x) as [t|] eqn:Ht; [|done]. unfold load_byte, get_task.
  change (this_task (set_sched _ _)) with (this_task k). cbn [set_sched k_sched k_mem put_task set_tasks tasks].
  destruct (decide (x = this_task k)) as [->|E]; [by rewrite lookup_insert_eq, Ht|by rewrite lookup_insert_ne].
Qed.

Lemma load_le_put n k x c : forall a, load_le n (put_context k x c) a = load_le n k a.
Proof. induction n as [|n IH]; intros a; [done|]. cbn [load_le]. by rewrite IH, load_byte_put. Qed.

Lemma nanosleep_call now T g k qs c sec nsec :
  sys_inv now g (k_sched k) qs -> now <= T -> reg c X8 = __NR_nanosleep ->
  load_long k (param c 0) = Ok sec -> load_long k (param c 0 + 8) = Ok nsec ->
  0 <= sec -> 0 <= nsec < 1000000000 -> T + sec * TICKS_PER_S < 2 ^ 63 ->
  exists k1 qs1, (if reg c X8 <? SYSCALLS_NUM then
     match svc_handlers T (reg c X8) with Some f => f c k | None => Ok (k, neg ENOSYS) end
   else Ok (k, neg ENOSYS)) = Ok (k1, 0) /\ served k k1 T g qs1 /\ k1 = set_sched k (k_sched k1) /\
   readytime <$> tasks (k_sched k1) !! this_task k = Some (T + sec * TICKS_PER_S) /\
   keeps_nodes (k_sched k) (k_sched k1) /\ forall x t, tasks (k_sched k) !! x = Some t ->
     exists t', tasks (k_sched k1) !! x = Some t' /\ addrspace t' = addrspace t /\ mm t' = mm t.
Proof.
  intros Hs HT Hsn Hl1 Hl2 H1 H2 H3. rewrite Hsn. change (__NR_nanosleep <? SYSCALLS_NUM) with true.
  change (svc_handlers T __NR_nanosleep) with (Some (vsys_nanosleep T)). cbv beta iota. unfold vsys_nanosleep.
  rewrite Hl1. cbn [obind]. rewrite Hl2. cbn [obind].
  destruct (nanosleep_sys now T sec nsec g (k_sched k) qs) as (s' & qs' & Hn & Hs' & Ha & Hd & Hc & t & Ht & Ets); try done.
  rewrite Hn. cbn [obind]. exists (set_sched k s'), qs'. split; [done|]. split.
  - constructor; try done. intros x. unfold context_at. cbn. rewrite Ets. destruct (decide (x = g_current_task (k_sched k))) as [->|].
    + by rewrite lookup_insert_eq, Ht.
    + by rewrite lookup_insert_ne.
  - split; [done|]. cbn. unfold this_task. rewrite Ets, lookup_insert_eq. split; [done|]. split; [by eapply nanosleep_links|].
    intros x u Hu. destruct (decide (x = g_current_task (k_sched k))) as [->|].
    + rewrite lookup_insert_eq. eexists. split; [done|]. rewrite Ht in Hu. by injection Hu as <-.
    + rewrite lookup_insert_ne by done. by exists u.
Qed.

(** The task's memory manager when its frame is stored. *)
Definition mm_view (k : kernel) (t : tcb) : mm_state :=
  MkMM (k_heap k) (k_mem k) (links (k_sched k)) (k_vmas k) t (this_task k).

(** List nodes of the scheduler are neither areas of the task nor free memory. *)
Definition apart (k : kernel) (xs : list Z) : Prop :=
  forall x, x ∈ dom (tasks (k_sched k)) \/ is_head x -> (x ∉ this_task k + MM_LINK_OFFSET :: xs) /\ ~ free_page (k_heap k) x.

Lemma mmap_served now T g k qs t R xs len prot flags p q rest s' R' :
  sys_inv now g (k_sched k) qs -> now <= T -> tasks (k_sched k) !! this_task k = Some t -> apart k xs ->
  mmapped (mm_view k t) R xs len prot flags p q rest s' R' -> served k (put_mm k s') T g qs.
Proof.
  intros Hs HT Ht Hap Hm. pose proof (mp_task _ _ _ _ _ _ _ _ _ _ _ Hm) as E1. pose proof (mp_self _ _ _ _ _ _ _ _ _ _ _ Hm) as E2.
  pose proof (mp_links _ _ _ _ _ _ _ _ _ _ _ Hm) as [L1 L2]. pose proof (mp_node _ _ _ _ _ _ _ _ _ _ _ Hm) as Hp.
  cbn [mm_view mm_task mm_self mm_links mm_heap area_head] in *.
  assert (Ek : k_sched (put_mm k s') = set_links (k_sched k) (mm_links s')).
  { destruct k as [[l ts cur bm gr ti as_ h]]. unfold put_mm, put_task, set_tasks, set_links, this_task in *. cbn in *.
    rewrite E1, E2, insert_id by done. done. }
  constructor; rewrite ?Ek; try done.
  - eapply (sys_inv_frame _ _ (k_sched k)); [|done|by eapply sys_inv_later]. constructor; try done; [|intros x _ Hx; by apply L1].
    intros i x Hi Hx. apply L2. assert (Hn : x ∈ dom (tasks (k_sched k)) \/ is_head x).
    { apply elem_of_cons in Hx as [->|Hx]; [right; by exists i|left].
      by apply (si_tasks _ _ _ (ki_sched _ _ _ (sys_kernel _ _ _ _ Hs)) i). }
    destruct (Hap x Hn) as [Hx1 Hx2]. intros [->|Hin]%elem_of_cons; [done|]. by apply Hx1.
  - intros x. unfold context_at. by rewrite Ek.
Qed.

(** [brk] changes the layout of the running task and nothing the scheduler looks at. *)
Lemma brk_served now T g k qs t a gr m :
  sys_inv now g (k_sched k) qs -> now <= T -> tasks (k_sched k) !! this_task k = Some t ->
  served k (put_mm k (MkMM gr m (links (k_sched k)) (k_vmas k) (set_mm t a) (this_task k))) T g qs.
Proof.
  intros Hs HT Ht. set (k' := put_mm _ _).
  assert (Hx : forall x, tasks (k_sched k') !! x = if x =? this_task k then Some (set_mm t a) else tasks (k_sched k) !! x).
  { intros x. cbn. destruct (Z.eqb_spec x (this_task k)) as [->|]; [apply lookup_insert_eq|by apply lookup_insert_ne]. }
  assert (Hv : forall A (f : tcb -> A), f (set_mm t a) = f t ->
    forall x, f <$> tasks (k_sched k') !! x = f <$> tasks (k_sched k) !! x).
  { intros A f Ef x. rewrite Hx. destruct (Z.eqb_spec x (this_task k)) as [->|]; [by rewrite Ht; cbn; rewrite Ef|done]. }
  constructor; try done.
  - eapply (sys_inv_frame _ _ (k_sched k)); [|by apply Hv|by eapply sys_inv_later]. constructor; try done. by apply Hv.
  - eapply (view_dom ctx). by apply Hv.
  - intros x. unfold context_at. by apply (Hv _ ctx).
Qed.

(** What a system call with result [r] leaves behind, for the program. *)
Definition returned (k k' : kernel) (t1 g r : Z) : Prop :=
  exists g' qs', running t1 g' k' qs' /\ (g' = g \/ g' = g + 1) /\ dom (tasks (k_sched k')) = dom (tasks (k_sched k)) /\
    forall x, registers k' x = if x =? this_task k then Some (context_set_retcode (frame_of (k_cpu k)) r) else registers k x.

(** The state in which a handler starts. *)
Lemma stored_ok now g k qs : running now g k qs ->
  let k1 := put_context k (this_task k) (frame_of (k_cpu k)) in
  store_context k = Ok k1 /\ sys_inv now g (k_sched k1) qs /\ dom (tasks (k_sched k1)) = dom (tasks (k_sched k)) /\
  this_task k1 = this_task k /\ asids (k_sched k1) = asids (k_sched k) /\ k1 = set_sched k (k_sched k1) /\
  (forall x, context_at k1 x = registers k x) /\ forall x c, context_at k1 x = Some c -> length c = 34%nat.
Proof.
  intros Hrun k1. pose proof (store_context_ok _ _ _ _ Hrun) as Hst. destruct Hrun as [Hs Hsp Hr Hf].
  destruct (current_task _ _ _ _ Hs) as [_ Hin].
  destruct (put_context_ok now g k qs (this_task k) (frame_of (k_cpu k)) Hs Hin) as (P1 & P2 & P3 & P4 & P5).
  fold k1 in P1, P2, P3, P4, P5, Hst. do 5 (split; [done|]).
  split; [unfold k1, put_context; by destruct Hin as [t ->]|]. split; [done|].
  intros x c. rewrite P5. destruct (x =? this_task k); [intros [= <-]; by apply frame_length|apply Hf].
Qed.

(** The whole trap, around a handler that kept the invariants. *)
Lemma svc_trap fuel T time now t1 g k qs esr far k2 qs2 r :
  running now g k qs -> Z.shiftr esr ESR_EC_SHIFT = ESR_EC_LEL_SVC64 -> (forall i, T <= time i <= t1) -> t1 < 2 ^ 63 ->
  (g + 1) * num_asids (asids (k_sched k)) < 2 ^ 32 -> (size (tasks (k_sched k)) < fuel)%nat ->
  let frame := frame_of (k_cpu k) in let k1 := put_context k (this_task k) frame in
  (if reg frame X8 <? SYSCALLS_NUM then
     match svc_handlers T (reg frame X8) with Some f => f frame k1 | None => Ok (k1, neg ENOSYS) end
   else Ok (k1, neg ENOSYS)) = Ok (k2, r) -> served k1 k2 T g qs2 ->
  exists k', lower_el_sync fuel T time esr far k = Ok k' /\ returned k k' t1 g r /\
    k' = set_cpu (set_sched k2 (k_sched k')) (k_cpu k') (Some (this_task k')) /\
    (forall x t, tasks (k_sched k2) !! x = Some t -> exists t', tasks (k_sched k') !! x = Some t' /\
      readytime t' = readytime t /\ addrspace t' = addrspace t /\ mm t' = mm t) /\ keeps_nodes (k_sched k2) (k_sched k').
Proof.
  intros Hrun Hesr Htime Ht1 Hroom Hfuel frame k1 Hh Hsv.
  destruct (stored_ok _ _ _ _ Hrun) as (Hst & P1 & P2 & P3 & P4 & _ & P5 & P6). 
  fold frame k1 in Hst, P1, P2, P3, P4, P5, P6.
  destruct (svc_ok fuel now T time t1 g k1 qs frame r k2 qs2 P1 P6) as (k' & g' & qs' & Hk & H1 & H2 & H3 & H4 & H5 & H6 & H7); try done.
  { rewrite P5, P3. unfold registers. by rewrite Z.eqb_refl. }
  { specialize (Htime 0%nat). lia. } { by rewrite P4. } { rewrite <- (size_dom (D := gset Z)), P2, size_dom. done. }
  exists k'. split; [|split; [|done]].
  - unfold lower_el_sync. rewrite Hst. cbn [obind]. unfold lel_sync_traps. rewrite Hesr.
    cbn [Z.eqb ESR_EC_LEL_SVC64 ESR_EC_LEL_DABT ESR_EC_LEL_IABT]. by rewrite Hk.
  - exists g', qs'. split; [done|]. split; [done|]. split; [by rewrite H4|].
    intros x. rewrite H3, P3, P5. by destruct (x =? this_task k).
Qed.
End SystemCalls.

(** ** A machine with a user task running *)

Module Machine.
#[local] Existing Instance Demo.layout.

(** A frame, an address space and a memory layout for the tasks of [Demo]. *)
Definition equip (t : tcb) : tcb :=
  MkTcb (tid t) (tgid t) (sched_priority t) (init_priority t) (entry t) (task_state t) (name t) (stack t)
    (stack_size t) (readytime t) (timeslice t) (type t) (replicate REGS_COUNT 0) Sample.root Program.area (asid t).

(** The user task got the processor. *)
Definition picked : sched_state := match schedule 3 (fun _ => 7) Demo.booted with Ok k => k | _ => Demo.start end.

Definition head : Z := Demo.root + MM_LINK_OFFSET.

Definition sched : sched_state :=
  MkSched (<[head := MkNode head head]> (links picked)) (equip <$> tasks picked) (g_current_task picked)
    (g_priority_bitmap picked) (g_priority_group picked) (tids picked) (asids picked) (hw picked).

Definition irqs : list irq_info := <[27%nat := MkIrq (Some timer_isr) 0 4]> (replicate 33 (MkIrq None 0 0)).

(** The user task is about to trap with these registers. *)
Definition user (regs : list Z) : kernel :=
  MkKernel sched Sample.heap Sample.memory ∅ (MkGic [] 0 256) irqs (MkTimer 1 1) 0
    (MkCpu (regs ++ replicate (31 - length regs) 0) 0x400100 0x7ffffff000 PSTATE_USER) (Some Demo.root).

Lemma picked_sys : exists g qs, sys_inv 7 g picked qs /\ (g = 1 \/ g = 2) /\ num_asids (asids picked) = 256 /\
  dom (tasks picked) = {[ Demo.idle; Demo.root ]} /\ g_current_task picked = Demo.root.
Proof.
  destruct (boot_sys _ _ _ _ _ _ 5 Demo.boot_ready) as (k & qs & Hk & Hs & _ & Ha & Hd); [lia|].
  assert (E : Demo.booted = k) by (unfold Demo.booted; by rewrite Hk).
  destruct (schedule_sys 3 (fun _ => 7) 5 7 1 k qs Hs) as (k' & qs' & g' & Hk' & Hs' & Hg & Ha' & Hd' & _);
    [lia|lia|lia|rewrite Ha; by vm_compute|rewrite <- E; vm_compute; lia|].
  assert (E' : picked = k') by (unfold picked; by rewrite E, Hk').
  exists g', qs'. rewrite E'. split; [done|]. split; [lia|]. split; [by rewrite Ha', Ha|]. split; [by rewrite Hd'|].
  rewrite <- E'. by vm_compute.
Qed.

#[local] Opaque picked Sample.memory Sample.heap.

Lemma in_picked x : is_head x \/ x ∈ ({[ Demo.idle; Demo.root ]} : gset Z) -> 0 < x < 40000 /\ x <> head.
Proof.
  intros [(i & Hi & ->)|Hx].
  - unfold qhead, ready_head, qidx, PEND, head, Demo.root, MM_LINK_OFFSET in *. simpl. destruct (i =? -1); lia.
  - apply elem_of_union in Hx as [->%elem_of_singleton| ->%elem_of_singleton];
      unfold head, Demo.idle, Demo.root, MM_LINK_OFFSET; lia.
Qed.

Lemma user_starts regs : (length regs <= 31)%nat -> exists g qs, (g = 1 \/ g = 2) /\ running 7 g (user regs) qs /\
  (g + 1) * num_asids (asids (k_sched (user regs))) < 2 ^ 32 /\ (size (tasks (k_sched (user regs))) < 3)%nat /\
  this_task (user regs) = Demo.root.
Proof.
  intros Hl. destruct picked_sys as (g & qs & Hs & Hg & Ha & Hd & Hc). exists g, qs. split; [exact Hg|].
  assert (Ht : forall x, tasks sched !! x = equip <$> tasks picked !! x) by (intros x; apply lookup_fmap).
  split; [|split; [|split; [|exact Hc]]]; cbn [k_sched user].
  2: { change (asids sched) with (asids picked). rewrite Ha. lia. }
  2: { cbn [tasks sched]. rewrite <- (size_dom (D := gset Z)), dom_fmap_L, Hd. vm_compute. lia. }
  constructor.
  - eapply (sys_inv_frame _ _ picked); [|intros x; cbn [k_sched user]; rewrite Ht; by destruct (tasks picked !! x)|done].
    constructor; [reflexivity|split; reflexivity|reflexivity|..].
    + intros x. cbn [k_sched user]. rewrite Ht. by destruct (tasks picked !! x).
    + intros i x Hi Hx. apply lookup_insert_ne. intros <-.
      apply (in_picked head); [|exact eq_refl]. apply elem_of_cons in Hx as [E|Hx]; [left; exists i; split; [exact Hi|exact E]|right].
      rewrite <- Hd. by apply (si_tasks _ _ _ (ki_sched _ _ _ (sys_kernel _ _ _ _ Hs)) i).
    + intros x _ Hx. cbn [links k_sched user sched]. rewrite dom_insert_L. by apply elem_of_union_r.
  - exact (eq_sym (f_equal Some Hc)).
  - cbn [user k_cpu gpr]. rewrite length_app, length_replicate. lia.
  - intros x c. unfold context_at. cbn [k_sched user]. rewrite Ht. destruct (tasks picked !! x) as [t|]; [|done].
    cbn. intros [= <-]. done.
Qed.

Lemma user_running regs : (length regs <= 31)%nat -> exists g qs, running 7 g (user regs) qs /\
  (g + 1) * num_asids (asids (k_sched (user regs))) < 2 ^ 32 /\ (size (tasks (k_sched (user regs))) < 3)%nat /\
  this_task (user regs) = Demo.root.
Proof. intros Hl. destruct (user_starts regs Hl) as (g & qs & _ & H1). by exists g, qs. Qed.

Lemma user_task regs : exists t, tasks (k_sched (user regs)) !! Demo.root = Some (equip t) /\ this_task (user regs) = Demo.root /\
  dom (tasks (k_sched (user regs))) = {[ Demo.idle; Demo.root ]}.
Proof.
  destruct picked_sys as (g & qs & _ & _ & _ & Hd & Hc). assert (Hr : is_Some (tasks picked !! Demo.root)).
  { rewrite <- (elem_of_dom (D := gset Z) (tasks picked) Demo.root), Hd. apply elem_of_union_r, elem_of_singleton. exact eq_refl. }
  destruct Hr as [t Ht]. exists t. cbn [k_sched user sched tasks]. rewrite lookup_fmap, Ht, dom_fmap_L, Hd.
  split; [reflexivity|]. split; [exact Hc|reflexivity].
Qed.

Lemma not_free x : 0 < x < 40000 -> ~ free_page Sample.heap x.
Proof.
  intros Hx (i & Hi & _ & ->). revert Hx. with_strategy transparent [Sample.heap] (unfold granaddr; cbn). unfold RAM_VBASE. lia.
Qed.

Lemma user_areas regs t : this_task (user regs) = Demo.root -> areas (mm_view (user regs) (equip t)) {[ Sample.root := Root ]} [].
Proof.
  intros Hc. destruct Program.start_areas as [A1 A2 A3 _ _ A6 A7 A8]. constructor; try assumption;
    unfold area_head, mm_view; cbn [mm_self mm_links mm_heap]; rewrite Hc; fold head.
  - assert (El : links (k_sched (user regs)) !! head = Some (MkNode head head)) by apply lookup_insert_eq.
    revert El. generalize (links (k_sched (user regs))). intros m El. split; [apply NoDup_singleton|]. cbn. unfold linked. rewrite El.
    split; [split; reflexivity|exact I].
  - intros x Hx%list_elem_of_singleton. subst x. apply not_free. unfold head, Demo.root, MM_LINK_OFFSET. lia.
Qed.

Lemma user_apart regs : apart (user regs) [].
Proof.
  destruct (user_task regs) as (t & _ & Hc & Hd). intros x. rewrite Hc, Hd. intros Hx. fold head.
  destruct (in_picked x) as [H1 H2]; [tauto|]. split; [|by apply not_free]. by rewrite list_elem_of_singleton.
Qed.
End Machine.

Module TrapSpec.

(** C6: the timer interrupt, from user mode to user mode.  When the controller
    reports the timer's interrupt and the timer's handler is attached, the
    vector returns to a task: every task has exactly the register frame it had
    before ([x0] to [x30], program counter, stack pointer, processor state), the
    interrupted one and the one that runs next included; all invariants hold; the
    timer is set to fire again in 10 ms, the interrupt is counted and its end
    reported with the value that was read; memory and heap are untouched. *)
Theorem timer_interrupt `{KernelLayout} fuel hardware T time now t1 g k qs a n :
  let iar := hardware (nreads (k_gic k)) (Sys ICC_IAR1_EL1) in
  running now g k qs -> Z.land iar INTID_MASK = IRQN_EL1_VIRT_TIMER ->
  k_irqs k !! 27%nat = Some (MkIrq (Some timer_isr) a n) ->
  (forall i, now <= time i <= t1) -> t1 < 2 ^ 63 ->
  (g + 1) * num_asids (asids (k_sched k)) < 2 ^ 32 -> (size (tasks (k_sched k)) < fuel)%nat ->
  exists k' g' qs', lower_el_irq fuel hardware T time k = Ok k' /\ cur_el_irq fuel hardware T time k = Ok k' /\
    running t1 g' k' qs' /\ (forall x, registers k' x = registers k x) /\ (g' = g \/ g' = g + 1) /\
    dom (tasks (k_sched k')) = dom (tasks (k_sched k)) /\
    writes (k_gic k') = (Sys ICC_EOIR1_EL1, iar) :: writes (k_gic k) /\
    k_timer k' = generic_timer_reset CONFIG_RR_INTERVAL /\
    k_irqs k' = <[27%nat := MkIrq (Some timer_isr) a (u64 (n + 1))]> (k_irqs k) /\
    g_current_time k' = T /\ k_heap k' = k_heap k /\ k_mem k' = k_mem k /\ k_vmas k' = k_vmas k.
Proof.
  intros iar Hrun Hid Hv Htime Ht1 Hroom Hfuel.
  destruct (stored_ok _ _ _ _ Hrun) as (Hst & P1 & P2 & P3 & P4 & E1 & P5 & P6). set (k1 := put_context _ _ _) in *.
  destruct (decode_timer fuel hardware T time now t1 g k1 qs a n) as (k' & g' & qs' & Hk & _ & H1 & H2 & H3 & H4 & H5 & H6);
    rewrite ?P2, ?P4; try done; try (by rewrite E1).
  - specialize (Htime 0%nat). lia.
  - rewrite <- (size_dom (D := gset Z)), P2, size_dom. done.
  - exists k', g', qs'. unfold lower_el_irq, cur_el_irq. rewrite Hst. cbn [obind]. do 3 (split; [done|]).
    split; [intros x; by rewrite H2, P5|]. split; [done|]. split; [by rewrite H4, P2|]. rewrite E1 in H6. exact H6.
Qed.

#[local] Existing Instance Demo.layout.

(** A controller that reports interrupt 27. *)
Definition ticking (k : nat) (p : port) : Z := 27.

Lemma timer_interrupt_witness : exists k', lower_el_irq 3 ticking 9 (fun _ => 10) (Machine.user [5; 6]) = Ok k' /\
  k_timer k' = MkTimer 625000 1 /\ writes (k_gic k') = [(Sys ICC_EOIR1_EL1, 27)] /\
  registers k' Demo.root = registers (Machine.user [5; 6]) Demo.root.
Proof.
  destruct (Machine.user_running [5; 6]) as (g & qs & Hr & Hg & Hz & Hc); [cbn; lia|].
  destruct (timer_interrupt 3 ticking 9 (fun _ => 10) 7 10 g (Machine.user [5; 6]) qs 0 4 Hr)
    as (k' & g' & qs' & H1 & _ & _ & H2 & _ & _ & H3 & H4 & _).
  - reflexivity.
  - reflexivity.
  - intros i. lia.
  - reflexivity.
  - exact Hg.
  - exact Hz.
  - exists k'. split; [exact H1|]. split; [exact H4|]. split; [exact H3|apply H2].
Defined.

(** C5: system calls return to their caller.  A call that looks at no state
    gives 0, or -ENOSYS for a number that the kernel does not know;
    [nanosleep] with a request that the kernel can read puts the caller to sleep until
    the counter has advanced by the whole seconds of its request and gives 0.  In
    each case the trap returns to a task, the invariants hold, the caller has the
    register frame it had ([x0] to [x30], program counter, stack pointer and processor
    state) but for the result in [x0], and every other task has exactly the frame
    it had. *)
Theorem system_call_returns `{KernelLayout} fuel T time now t1 g k qs esr far :
  running now g k qs -> Z.shiftr esr ESR_EC_SHIFT = ESR_EC_LEL_SVC64 -> now <= T ->
  (forall i, T <= time i <= t1) -> t1 < 2 ^ 63 ->
  (g + 1) * num_asids (asids (k_sched k)) < 2 ^ 32 -> (size (tasks (k_sched k)) < fuel)%nat ->
  let frame := frame_of (k_cpu k) in
  (forall r, plain_result (reg frame X8) = Some r ->
     exists k', lower_el_sync fuel T time esr far k = Ok k' /\ returned k k' t1 g r /\ k_mem k' = k_mem k /\ k_heap k' = k_heap k) /\
  (forall sec nsec, reg frame X8 = __NR_nanosleep ->
     load_long k (param frame 0) = Ok sec -> load_long k (param frame 0 + 8) = Ok nsec ->
     0 <= sec -> 0 <= nsec < 1000000000 -> T + sec * TICKS_PER_S < 2 ^ 63 ->
     exists k', lower_el_sync fuel T time esr far k = Ok k' /\ returned k k' t1 g 0 /\ k_mem k' = k_mem k /\ k_heap k' = k_heap k /\
       readytime <$> tasks (k_sched k') !! this_task k = Some (T + sec * TICKS_PER_S)).
Proof.
  intros Hrun Hesr HT Htime Ht1 Hroom Hfuel frame.
  destruct (stored_ok _ _ _ _ Hrun) as (_ & P1 & _ & P3 & _ & E1 & _). fold frame in P1, P3, E1. set (k1 := put_context _ _ _) in *. split.
  - intros r Hr0. destruct (svc_trap fuel T time now t1 g k qs esr far k1 qs r Hrun) as (k' & E & Hk' & Ek & _); try done.
    + apply plain_call; [by apply (current_task now g k1 qs)|done].
    + by eapply served_same.
    + exists k'. split; [done|]. split; [done|]. by rewrite Ek, E1.
  - intros sec nsec Hsn Hl1 Hl2 Hs1 Hs2 Hs3.
    destruct (nanosleep_call now T g k1 qs frame sec nsec) as (k2 & qs2 & Hh & Hsv & E2 & Hrt & _); try done;
      [unfold load_long, k1; by rewrite load_le_put..|].
    destruct (svc_trap fuel T time now t1 g k qs esr far k2 qs2 0 Hrun) as (k' & E & Hk' & Ek & Ht & _); try done.
    exists k'. split; [done|]. split; [done|]. rewrite P3 in Hrt. apply fmap_Some in Hrt as (t & Hx & Er).
    destruct (Ht _ _ Hx) as (t' & Hx' & R & _). rewrite Hx'. cbn. rewrite R, <- Er. rewrite Ek, E2, E1. done.
Qed.

Lemma system_call_returns_witness :
  (exists k', lower_el_sync 3 8 (fun _ => 10) (Z.shiftl 0x15 26) 0 (Machine.user [1; 2; 3; 4; 5; 6; 7; 8; 1000]) = Ok k' /\
     reg (default [] (registers k' Demo.root)) X0 = neg ENOSYS) /\
  exists k', lower_el_sync 3 8 (fun _ => 10) (Z.shiftl 0x15 26) 0 (Machine.user [Sample.root; 2; 3; 4; 5; 6; 7; 8; 101]) = Ok k' /\
     readytime <$> tasks (k_sched k') !! Demo.root = Some 8.
Proof.
  split.
  - destruct (Machine.user_running [1; 2; 3; 4; 5; 6; 7; 8; 1000]) as (g & qs & Hr & Hg & Hz & Hc); [cbn; lia|].
    destruct (system_call_returns 3 8 (fun _ => 10) 7 10 g _ qs (Z.shiftl 0x15 26) 0 Hr) as [H1 _].
    + reflexivity.
    + lia.
    + intros i. lia.
    + reflexivity.
    + exact Hg.
    + exact Hz.
    + destruct (H1 (neg ENOSYS)) as (k' & E & (g' & qs' & _ & _ & _ & H2) & _); [reflexivity|].
      exists k'. split; [exact E|]. rewrite H2, Hc, Z.eqb_refl. reflexivity.
  - destruct (Machine.user_running [Sample.root; 2; 3; 4; 5; 6; 7; 8; 101]) as (g & qs & Hr & Hg & Hz & Hc); [cbn; lia|].
    destruct (system_call_returns 3 8 (fun _ => 10) 7 10 g _ qs (Z.shiftl 0x15 26) 0 Hr) as [_ H1].
    + reflexivity.
    + lia.
    + intros i. lia.
    + reflexivity.
    + exact Hg.
    + exact Hz.
    + destruct (H1 0 0) as (k' & E & _ & _ & _ & H2); [reflexivity|vm_compute; reflexivity|vm_compute; reflexivity|lia|lia|reflexivity|].
      exists k'. split; [exact E|]. rewrite Hc in H2. exact H2.
Defined.

(** C17: [mmap] as a program sees it.  A program that traps with a request for an
    anonymous mapping without an address, of at most 128 KiB, that the heap can serve
    gets, with all the other words of its register frame, the address of the mapping in
    [x0]; through the tables of the program the range shows zeroed memory that was
    free before, and every other address translates as before.  The trap returns to a
    task with the invariants of the scheduler and its queues (the call ends in
    [schedule], which may have moved tasks between them), the same set of tasks, and
    the register frame of every other task as it was, although the list of areas
    grew in the same memory. *)
Theorem mmap_system_call `{KernelLayout} fuel T time now t1 g k qs esr far t R xs p q rest :
  running now g k qs -> Z.shiftr esr ESR_EC_SHIFT = ESR_EC_LEL_SVC64 -> now <= T ->
  (forall i, T <= time i <= t1) -> t1 < 2 ^ 63 ->
  (g + 1) * num_asids (asids (k_sched k)) < 2 ^ 32 -> (size (tasks (k_sched k)) < fuel)%nat ->
  tasks (k_sched k) !! this_task k = Some t -> areas (mm_view k t) R xs -> apart k xs ->
  let frame := frame_of (k_cpu k) in
  let len := param frame 1 in let prot := param frame 2 in let flags := param frame 3 in
  reg frame X8 = __NR_mmap -> param frame 0 = 0 ->
  Z.land flags MAP_PRIVATE <> 0 \/ Z.land flags MAP_SHARED <> 0 -> 0 < len <= 0x20000 ->
  let low := lowest (k_vmas k) (mmap_base (mm t)) xs in
  let size := 4096 * pages_of len in
  size <= low -> grants (k_heap k) size (pages_needed (low - size) low (vbase_to_pbase q) + rest) p q ->
  exists k' s' R', lower_el_sync fuel T time esr far k = Ok k' /\ returned k k' t1 g (low - size) /\
    mmapped (mm_view k (set_ctx t frame)) R xs size prot flags p q rest s' R' /\
    k_heap k' = mm_heap s' /\ k_mem k' = mm_mem s' /\ k_vmas k' = mm_vmas s' /\
    addrspace <$> tasks (k_sched k') !! this_task k = Some (addrspace t).
Proof.
  intros Hrun Hesr HT Htime Ht1 Hroom Hfuel Ht HA Hap frame len prot flags Hsn Hz Hfl Hlen low size Hlow Hg.
  destruct (stored_ok _ _ _ _ Hrun) as (_ & P1 & P2 & P3 & _ & _). fold frame in P1, P2, P3. set (k1 := put_context _ _ _) in *.
  assert (E1 : k1 = set_sched k (put_task (k_sched k) (this_task k) (set_ctx t frame))) by (unfold k1, put_context; by rewrite Ht).
  set (u := set_ctx t frame) in *.
  assert (Hu : tasks (k_sched k1) !! this_task k1 = Some u) by (rewrite P3, E1; apply lookup_insert_eq).
  assert (Ev : mm_view k1 u = mm_view k u) by (unfold mm_view; rewrite P3; by rewrite E1).
  assert (HA1 : areas (mm_view k u) R xs) by (by destruct HA).
  destruct (sys_mmap_ok (mm_view k u) R xs len prot flags (param frame 4) (param frame 5) p q rest) as (s' & R' & Hm & Hmp & _); try done.
  cbn [mm_view mm_vmas mm_task u mm set_ctx] in Hm, Hmp. fold low size in Hm, Hmp.
  destruct (svc_trap fuel T time now t1 g k qs esr far (put_mm k1 s') qs (low - size) Hrun) as (k' & E & Hk' & Ek & Hts & _); try done.
  - fold frame k1. rewrite Hsn. change (__NR_mmap <? SYSCALLS_NUM) with true. change (svc_handlers T __NR_mmap) with (Some vsys_mmap).
    cbv beta iota. unfold vsys_mmap, with_mm, mm_of, get_task. rewrite Hu. cbn [obind]. fold (mm_view k1 u). rewrite Ev, Hz.
    fold len prot flags. by rewrite Hm.
  - eapply (mmap_served now); [done|done|done| |by rewrite Ev].
    intros x Hx. rewrite P2, P3 in *. specialize (Hap x Hx). by rewrite E1.
  - exists k', s', R'. split; [done|]. split; [done|]. split; [done|]. rewrite Ek. do 3 (split; [done|]). rewrite <- Ek.
    destruct (Hts (this_task k) u) as (t' & -> & _ & Ha & _); [|cbn; by rewrite Ha].
    cbn. rewrite (mp_task _ _ _ _ _ _ _ _ _ _ _ Hmp), (mp_self _ _ _ _ _ _ _ _ _ _ _ Hmp). apply lookup_insert_eq.
Qed.

Lemma mmap_system_call_witness : exists k' s',
  lower_el_sync 3 8 (fun _ => 10) (Z.shiftl 0x15 26) 0 (Machine.user [0; 0x2345; 3; 0x22; -1; 0; 7; 8; 222]) = Ok k' /\
  reg (default [] (registers k' Demo.root)) X0 = 0x7fffffb000 /\ k_mem k' = mm_mem s' /\
  byte (mm_mem s') (granaddr Sample.heap 1) = Some 0.
Proof.
  destruct (Machine.user_running [0; 0x2345; 3; 0x22; -1; 0; 7; 8; 222]) as (g & qs & Hr & Hg & Hz & Hc); [cbn; lia|].
  destruct (Machine.user_task [0; 0x2345; 3; 0x22; -1; 0; 7; 8; 222]) as (t & Ht & _).
  destruct (mmap_system_call 3 8 (fun _ => 10) 7 10 g _ qs (Z.shiftl 0x15 26) 0 (Machine.equip t) {[ Sample.root := Root ]} []
              (granaddr Sample.heap 0) (granaddr Sample.heap 1) 34 Hr) as (k' & s' & R' & H1 & (g' & qs' & _ & _ & _ & H2) & H3 & _ & H4 & _).
  - reflexivity.
  - lia.
  - intros i. lia.
  - reflexivity.
  - exact Hg.
  - exact Hz.
  - rewrite Hc. exact Ht.
  - apply Machine.user_areas, Hc.
  - apply Machine.user_apart.
  - reflexivity.
  - reflexivity.
  - left. vm_compute. discriminate.
  - split; vm_compute; congruence.
  - vm_compute. discriminate.
  - apply Program.start_grants.
  - exists k', s'. split; [exact H1|]. split; [rewrite H2, Hc, Z.eqb_refl; reflexivity|]. split; [exact H4|].
    destruct (mp_sees _ _ _ _ _ _ _ _ _ _ _ H3 0x7fffffb000) as (at_ & _ & _ & Hb); [split; vm_compute; congruence|exact Hb].
Defined.

(** C21: [brk] as a program sees it.  A program that traps with [brk] gets back, with
    the other words of its register frame and the frames of all other tasks
    unchanged, its break being below 2 GiB: the old break when it asks for one below
    its heap; the new break,
    recorded and nothing unmapped, when it shrinks the heap; and when it grows a
    page-aligned heap by at most 128 KiB that the kernel can serve, the new break and
    writable, non-executable memory in whole pages from the old break on.  The bytes
    up to the new break are zero; the bytes from there to the end of the page, which
    become visible too, are what the heap held in them.  Every other address
    translates as before, and no word outside the block and the tables is written. *)
Theorem brk_system_call `{KernelLayout} fuel T time now t1 g k qs esr far t R :
  running now g k qs -> Z.shiftr esr ESR_EC_SHIFT = ESR_EC_LEL_SVC64 -> now <= T ->
  (forall i, T <= time i <= t1) -> t1 < 2 ^ 63 ->
  (g + 1) * num_asids (asids (k_sched k)) < 2 ^ 32 -> (size (tasks (k_sched k)) < fuel)%nat ->
  tasks (k_sched k) !! this_task k = Some t ->
  let frame := frame_of (k_cpu k) in let b := param frame 0 in
  let a := mm t in let root := addrspace t in
  reg frame X8 = __NR_brk ->
  pt_inv root (k_heap k) (k_mem k) R -> gran_wf (k_heap k) -> log2gran (k_heap k) = 12 ->
  0 <= start_brk a <= brk a -> brk a < 2 ^ 31 ->
  let call k' r := lower_el_sync fuel T time esr far k = Ok k' /\ returned k k' t1 g r in
  let break k' := (fun t => brk (mm t)) <$> tasks (k_sched k') !! this_task k in
  (b < start_brk a -> exists k', call k' (brk a) /\ k_heap k' = k_heap k /\ k_mem k' = k_mem k /\ break k' = Some (brk a)) /\
  (start_brk a <= b <= brk a -> exists k', call k' b /\ k_heap k' = k_heap k /\ k_mem k' = k_mem k /\ break k' = Some b) /\
  (forall g1 q rest, let r := area_region q (brk a) (b - brk a) in
     brk a mod 4096 = 0 -> brk a < b <= brk a + 0x20000 ->
     gran_alloc (k_heap k) (b - brk a) = Ok (g1, q) -> q <> 0 ->
     no_section 0 root (k_mem k) (brk a) (region_end r) ->
     page_supply g1 (pages_needed (brk a) (region_end r) (vbase_to_pbase q) + rest) ->
     exists k' R', call k' b /\ break k' = Some b /\ page_supply (k_heap k') rest /\
       fresh_mapping root (k_heap k) (k_mem k) R (k_heap k') (k_mem k') R' r q (Z.lor PROT_READ PROT_WRITE)).
Proof.
  intros Hrun Hesr HT Htime Ht1 Hroom Hfuel Ht frame b a root Hsn Hi W H12 Hb0 Hb1 call break.
  destruct (stored_ok _ _ _ _ Hrun) as (_ & P1 & P2 & P3 & _ & _). fold frame in P1, P2, P3. set (k1 := put_context _ _ _) in *.
  assert (E1 : k1 = set_sched k (put_task (k_sched k) (this_task k) (set_ctx t frame))) by (unfold k1, put_context; by rewrite Ht).
  set (u := set_ctx t frame) in *.
  assert (Hu : tasks (k_sched k1) !! this_task k1 = Some u) by (rewrite P3, E1; apply lookup_insert_eq).
  assert (Ev : mm_view k1 u = mm_view k u) by (unfold mm_view; rewrite P3; by rewrite E1).
  (* whatever [sys_brk] does, the trap comes back with it *)
  assert (Htrap : forall gr m a' r,
    sys_brk (mm_view k u) b = Ok (MkMM gr m (links (k_sched k)) (k_vmas k) (set_mm u a') (this_task k), r) ->
    exists k', call k' r /\ k_heap k' = gr /\ k_mem k' = m /\ break k' = Some (brk a')).
  { intros gr m a' r Hs. set (s' := MkMM gr m _ _ _ _) in *.
    destruct (svc_trap fuel T time now t1 g k qs esr far (put_mm k1 s') qs r Hrun) as (k' & E & Hk' & Ek & Hts & _); try done.
    - fold frame k1. rewrite Hsn. change (__NR_brk <? SYSCALLS_NUM) with true. change (svc_handlers T __NR_brk) with (Some vsys_brk).
      cbv beta iota. unfold vsys_brk, with_mm, mm_of, get_task. rewrite Hu. cbn [obind]. fold (mm_view k1 u). fold b. by rewrite Ev, Hs.
    - replace s' with (MkMM gr m (links (k_sched k1)) (k_vmas k1) (set_mm u a') (this_task k1)) by (unfold s'; by rewrite P3, E1).
      by eapply (brk_served now).
    - exists k'. split; [done|]. rewrite Ek. do 2 (split; [done|]). rewrite <- Ek. unfold break.
      destruct (Hts (this_task k) (set_mm u a')) as (t' & -> & _ & _ & Hm); [cbn; apply lookup_insert_eq|]. cbn. by rewrite Hm. }
  destruct (sys_brk_ok (mm_view k u) R b) as (B1 & B2 & B3); try done.
  cbn [mm_view mm_task mm_heap mm_mem u set_ctx mm addrspace] in B1, B2, B3. fold a root in B1, B2, B3.
  split; [|split].
  - intros Hb. apply (Htrap _ _ a). rewrite B1 by done. unfold mm_view. by destruct t.
  - intros Hb. destruct (Htrap _ _ _ _ (B2 Hb)) as (k' & Hc & H1 & H2 & H3). exists k'. done.
  - intros g1 q rest r H1 H2 H3 H4 H5 H6. destruct (B3 g1 q rest H1 H2 H3 H4 H5 H6) as (g' & m' & R' & Hs & Hsup & Hf).
    destruct (Htrap _ _ _ _ Hs) as (k' & Hc & Eh & Em & Hbr). exists k', R'. rewrite Eh, Em. done.
Qed.

Lemma brk_system_call_witness : exists k',
  lower_el_sync 3 8 (fun _ => 10) (Z.shiftl 0x15 26) 0 (Machine.user [0x422345; 2; 3; 4; 5; 6; 7; 8; 214]) = Ok k' /\
  reg (default [] (registers k' Demo.root)) X0 = 0x422345 /\ byte (k_mem k') (granaddr Sample.heap 0) = Some 0.
Proof.
  destruct (Machine.user_running [0x422345; 2; 3; 4; 5; 6; 7; 8; 214]) as (g & qs & Hr & Hg & Hz & Hc); [cbn; lia|].
  destruct (Machine.user_task [0x422345; 2; 3; 4; 5; 6; 7; 8; 214]) as (t & Ht & _).
  destruct (gran_alloc Sample.heap 0x2345) as [[g1 q]| | |] eqn:E1; try (vm_compute in E1; discriminate E1).
  pose proof (gran_alloc_wf _ _ _ _ Sample.heap_wf E1) as [W1 _].
  destruct (brk_system_call 3 8 (fun _ => 10) 7 10 g _ qs (Z.shiftl 0x15 26) 0 (Machine.equip t) {[ Sample.root := Root ]} Hr)
    as (_ & _ & H).
  - reflexivity.
  - lia.
  - intros i. lia.
  - reflexivity.
  - exact Hg.
  - exact Hz.
  - rewrite Hc. exact Ht.
  - reflexivity.
  - apply Sample.inv.
  - apply Sample.heap_wf.
  - reflexivity.
  - vm_compute. split; discriminate.
  - reflexivity.
  - vm_compute in E1. injection E1 as <- <-.
    destruct (H (MkGran 12 40 (heapstart Sample.heap) [7; 0; 0]) (granaddr Sample.heap 0) 34%nat)
      as (k' & R' & [H1 (g' & qs' & _ & _ & _ & H2)] & _ & _ & H3).
    + reflexivity.
    + split; vm_compute; congruence.
    + vm_compute. reflexivity.
    + vm_compute. discriminate.
    + apply Sample.no_sections.
    + apply (Program.supply_from _ 3); [exact W1|reflexivity|vm_compute; reflexivity].
    + exists k'. split; [exact H1|]. split; [rewrite H2, Hc, Z.eqb_refl; reflexivity|].
      apply (fm_zero _ _ _ _ _ _ _ _ _ _ H3). split; vm_compute; congruence.
Defined.

(** Every other exception of a user program stops the machine: only system calls
    and data aborts inside the heap come back. *)
Lemma user_fault_halts `{KernelLayout} fuel T time now g k qs esr far t :
  running now g k qs -> tasks (k_sched k) !! this_task k = Some t ->
  Z.shiftr esr ESR_EC_SHIFT <> ESR_EC_LEL_SVC64 ->
  Z.shiftr esr ESR_EC_SHIFT <> ESR_EC_LEL_DABT \/ far < start_brk (mm t) \/ brk (mm t) <= far ->
  lower_el_sync fuel T time esr far k = Halt.
Proof.
  intros Hrun Ht H1 H2. destruct (stored_ok _ _ _ _ Hrun) as (Hst & _ & _ & P3 & _). unfold lower_el_sync. rewrite Hst. cbn [obind].
  unfold lel_sync_traps. set (ec := Z.shiftr esr ESR_EC_SHIFT) in *. rewrite (proj2 (Z.eqb_neq _ _) H1).
  destruct (Z.eqb_spec ec ESR_EC_LEL_DABT) as [E|_].
  - unfold do_page_fault, get_task. rewrite P3. unfold put_context. rewrite Ht. cbn [set_sched k_sched put_task set_tasks tasks].
    rewrite lookup_insert_eq. cbn [obind set_ctx mm].
    destruct (Z.leb_spec (start_brk (mm t)) far), (Z.ltb_spec far (brk (mm t))); try done. lia.
  - by destruct (ec =? ESR_EC_LEL_IABT), (ec =? ESR_EC_LEL_HVC64).
Qed.

(** The request of [nanosleep] is read without a check of the pointer: here it
    lies in an unmapped page. *)
Example nanosleep_bad_pointer :
  lower_el_sync 3 8 (fun _ => 10) (Z.shiftl 0x15 26) 0 (Machine.user [0; 2; 3; 4; 5; 6; 7; 8; 101]) = Fault.
Proof. vm_compute. reflexivity. Qed.

(** A program that exits goes on with the next instruction. *)
Example exit_returns : plain_result __NR_exit = Some 0 /\ plain_result __NR_exit_group = Some 0.
Proof. split; reflexivity. Qed.

(** A shared interrupt that was enabled stops the kernel when it arrives, since
    the table ends at 33. *)
Example spi_halts : decode_irq 3 (fun _ _ => 48) 8 (fun _ => 10) (Machine.user []) = Halt.
Proof. vm_compute. reflexivity. Qed.
End TrapSpec.
