(* ===== verification/Init.v ===== *)
(** * Starting the kernel (core/init/init.c, arch/arm64/cpu.c)

    [init_kernel] runs on the boot stack once the boot tables are on.  It clears
    the kernel's variables, lays out the heap behind the user image, brings up
    the interrupt controller and the kernel's own tables, makes the idle task
    and the first user task from the program in the image, and starts the
    timer.  The file composes the components in that order. *)

From Stdlib Require Import ZArith Lia Bool.
From stdpp Require Import base numbers list gmap.
From S2P Require Import Prelude Board Gran GranInfo Bitmap KList Task Sched Timer PageTable AddrSpace Boot Bytes Mmap Elf ElfLoad Gic Traps.
#[local] Open Scope Z_scope.

(** ** What the linker decides *)

(** The symbols of kernel.lds and the addresses of the variables. *)
Record symbols : Type := MkSymbols {
  kernel_start : Z;
  kernel_code_start : Z; kernel_code_end : Z;
  kernel_rodata_start : Z; kernel_rodata_end : Z;
  kernel_data_start : Z; kernel_data_end : Z;
  kernel_bss_start : Z; kernel_bss_end : Z;
  user_start : Z; user_end : Z;
  vector : Z; idle : Z; idle_stack : Z;
  idle_task : Z; root_task : Z; user_elf : Z;
  kernel_addrspace : Z; user_addrspace : Z
}.

Definition CONFIG_DEFAULT_TASK_STACKSIZE : Z := 8192.
Definition USER_STACK_TOP : Z := Z.shiftl 1 39 - CONFIG_DEFAULT_TASK_STACKSIZE.
Definition UART_PBASE : Z := MMIO_PBASE + 0x09000000.

(** Offset of [segs] in [struct chin_elf]; [link_head] is at offset 0. *)
Definition ELF_SEGS_OFFSET : Z := 104.

(** ** Memory *)

Definition clear_bss (y : symbols) (m : wmem) : outcome wmem :=
  let size := u64 (kernel_bss_end y - kernel_bss_start y) in
  mem_fill (Z.to_nat size) m (kernel_bss_start y) 0.

Definition section (start end_ : Z) : mem_region := MkRegion (vbase_to_pbase start) start (u64 (end_ - start)).

(** [kernel_image] and [user_elf_region] *)
Definition init_image_info (y : symbols) : image_region * mem_region :=
  (MkImage (section (kernel_code_start y) (kernel_code_end y)) (section (kernel_rodata_start y) (kernel_rodata_end y))
     (section (kernel_data_start y) (kernel_data_end y)) (section (kernel_bss_start y) (kernel_bss_end y)),
   section (user_start y) (user_end y)).

(** Half a word of memory. *)
Definition mem32 (m : wmem) (a : Z) : Z :=
  Z.land (Z.shiftr (default 0 (m !! word a)) (8 * (a mod 8))) 0xffffffff.

(** The heap, its region, and the figures that are printed. *)
Definition mm_initialize (y : symbols) (m : wmem) : outcome (mm_gran * mem_region * graninfo) :=
  let p_heapstart := user_end y in
  let p_heapend := u64 (RAM_SIZE + kernel_start y) in
  let heapsize := u64 (p_heapend - p_heapstart) in
  let! g := gran_initialize (mem32 m) p_heapstart heapsize 12 12 in
  let region := MkRegion (vbase_to_pbase p_heapstart) p_heapstart heapsize in
  let! info := gran_dump g in
  Ok (g, region, info).

(** ** The processor *)

(** The exception level whose vector base register is written. *)
Definition relocate_vector (y : symbols) (CurrentEL : Z) : option (Z * Z) :=
  let current_el := bitfield_get CurrentEL 2 2 in
  if current_el =? 1 then Some (1, vector y)
  else if current_el =? 2 then Some (2, vector y)
  else if current_el =? 3 then Some (3, vector y)
  else None.

Definition cpu_init (y : symbols) (CurrentEL : Z) : option (Z * Z) := relocate_vector y CurrentEL.

(** ** Tasks *)

Definition idle_name : list Z := [105; 100; 108; 101].
Definition root_name : list Z := [114; 111; 111; 116; 32; 116; 97; 115; 107].

Definition set_tids (k : sched_state) (ids : tid_state) : sched_state :=
  MkSched (links k) (tasks k) (g_current_task k) (g_priority_bitmap k) (g_priority_group k) ids (asids k) (hw k).

Section Tasks.
Context `{KernelLayout}.

(** [task_create] for a control block of the kernel, and [task_set_tgid]. *)
Definition create_task (k : sched_state) (p ent : Z) (nm : list Z) (priority stk stk_size ty as_ : Z) : outcome sched_state :=
  let! (ids, l, t) := task_create (tids k) (links k) p ent (Some nm) priority stk stk_size ty as_ in
  Ok (put_task (set_tids (set_links k l) ids) p (set_tgid t (tid t))).

Definition idle_task_initialize (y : symbols) (k : sched_state) : outcome sched_state :=
  let! k := create_task k (idle_task y) (idle y) idle_name (CONFIG_MAX_TASK_PRIORITY - 1) (idle_stack y)
              CONFIG_IDLE_TASK_STACKSIZE TASK_TYPE_KERNEL (kernel_addrspace y) in
  sched_init k (idle_task y).

(** The image is parsed and loaded into the address space of the task. *)
Definition boot_user_elf (y : symbols) (p : Z) (k : kernel) : outcome kernel :=
  let! l := INIT_LIST_HEAD (links (k_sched k)) (user_elf y) in
  let! l := INIT_LIST_HEAD l (user_elf y + ELF_SEGS_OFFSET) in
  let e := MkElf false false (user_start y) (u64 (user_end y - user_start y)) 0 0 0 0 0 0 0 0 0 0 in
  let! t := get_task (k_sched k) p in
  let! (s, ret) := elf_initialize (MkLoad (k_heap k) (k_mem k) l ∅ e (user_elf y + ELF_SEGS_OFFSET) t) in
  if ret <? 0 then Halt
  else
    Ok (MkKernel (put_task (set_links (k_sched k) (el_links s)) p (el_task s)) (el_heap s) (el_mem s) (k_vmas k)
          (k_gic k) (k_irqs k) (k_timer k) (g_current_time k) (k_cpu k) (sp_el1 k)).

Definition dev_region : mem_region := MkRegion UART_PBASE 0x0000000f00000000 0x1000.

Definition set_heap_memory (k : kernel) (g : mm_gran) (m : wmem) : kernel :=
  MkKernel (k_sched k) g m (k_vmas k) (k_gic k) (k_irqs k) (k_timer k) (g_current_time k) (k_cpu k) (sp_el1 k).

(** The entry of the image is not known when the task is created; the loader
    stores it in the frame.  [PF_R | PF_W] is given for the protection. *)
Definition root_task_create (y : symbols) (k : kernel) : outcome kernel :=
  let! s := create_task (k_sched k) (root_task y) 0 root_name CONFIG_DEFAULT_TASK_PRIORITY USER_STACK_TOP
              CONFIG_DEFAULT_TASK_STACKSIZE TASK_TYPE_USER (user_addrspace y) in
  let k := set_sched k s in
  let! k := boot_user_elf y (root_task y) k in
  let! (g, m, _) := as_map (k_heap k) (k_mem k) (user_addrspace y) dev_region 0 RAM_DEVICE in
  let! (g, stack) := gran_alloc g CONFIG_DEFAULT_TASK_STACKSIZE in
  let stack_region := MkRegion (vbase_to_pbase stack) USER_STACK_TOP CONFIG_DEFAULT_TASK_STACKSIZE in
  let! (g, m, _) := as_map g m (user_addrspace y) stack_region (Z.lor PF_R PF_W) RAM_NORMAL in
  let! s := sched_attach (k_sched k) (root_task y) in
  Ok (set_heap_memory (set_sched k s) g m).

(** ** The whole *)

Definition zero_tcb : tcb := MkTcb 0 0 0 0 0 TSTATE_TASK_INVALID [] 0 0 0 0 0 [] 0 zero_mm 0.

(** The list nodes among the variables of the kernel. *)
Definition static_nodes (y : symbols) : list Z :=
  g_pendingtasks :: map ready_head (seqZ 0 32) ++
  [idle_task y; idle_task y + MM_LINK_OFFSET; root_task y; root_task y + MM_LINK_OFFSET; user_elf y; user_elf y + ELF_SEGS_OFFSET].

(** The scheduler's variables after [clear_bss]; [g_lasttid] starts at -1. *)
Definition zero_sched (y : symbols) : sched_state :=
  MkSched (list_to_map (map (fun x => (x, MkNode 0 0)) (static_nodes y)))
    (<[idle_task y := zero_tcb]> {[ root_task y := zero_tcb ]}) 0 [0; 0; 0; 0] 0 tid_initial (MkAsid 0 0 [] 1 false) (MkMmu 0 0).

Definition set_asids (k : sched_state) (a : asid_state) : sched_state :=
  MkSched (links k) (tasks k) (g_current_task k) (g_priority_bitmap k) (g_priority_group k) (tids k) a (hw k).

(** [asid_initialize] with the block that [asid_calloc] takes for the bitmap. *)
Definition asid_start (g : mm_gran) (m : wmem) (ID_AA64MMFR0_EL1 : Z) : outcome (mm_gran * wmem * asid_state) :=
  let! bits := get_cpu_asid_bits ID_AA64MMFR0_EL1 in
  let! (g, m, _) := heap_calloc g m (Z.shiftl 1 bits) in
  let! a := asid_initialize ID_AA64MMFR0_EL1 in
  Ok (g, m, a).

(** What the start of the kernel leaves: its state, [TTBR1_EL1], the vector base
    that was written, and the regions of the image and the heap. *)
Record started : Type := MkStarted {
  st_kernel : kernel; st_ttbr1 : Z; st_vbar : option (Z * Z);
  st_image : image_region; st_user : mem_region; st_heap : mem_region
}.

(** [hardware] answers the reads of the interrupt controller; the other
    arguments are the system registers that are read, and the registers that
    the processor happens to have when [idle] waits for the first interrupt. *)
Definition init_kernel (y : symbols) (hardware : nat -> port -> Z) (CurrentEL ID_AA64MMFR0_EL1 cntfrq : Z) (c : cpu)
    (m : wmem) : outcome started :=
  let! m := clear_bss y m in
  let '(image, user_elf_region) := init_image_info y in
  let vbar := cpu_init y CurrentEL in
  let! (g, kernel_heap_region, _) := mm_initialize y m in
  let! (v, gic) := irq_initialize hardware (MkGic [] 0 0) in
  let! (g, m, ttbr1) := as_initialize g m (kernel_addrspace y) image user_elf_region kernel_heap_region kernel_dev_ram in
  let! (g, m, a) := asid_start g m ID_AA64MMFR0_EL1 in
  let! s := idle_task_initialize y (set_asids (zero_sched y) a) in
  let k := MkKernel s g m ∅ gic v (MkTimer 0 0) 0 c None in
  let! k := root_task_create y k in
  let! k := timer_init hardware cntfrq k in
  Ok (MkStarted k ttbr1 vbar image user_elf_region kernel_heap_region).
End Tasks.
