(* ===== verification/Start.v ===== *)
(** * The start of the kernel is sound

    Proofs about [init_kernel]: from the layout that kernel.lds produces, zeroed
    memory behind the image and a valid user program, every step returns and
    establishes what the next one needs, up to the state in which the first
    interrupt arrives. *)

From Stdlib Require Import ZArith Lia Bool.
From stdpp Require Import base numbers list gmap.
From S2P Require Import Prelude Board Gran GranInfo Bitmap KList Task Sched Timer SchedFrame PageTable AddrSpace Boot Bytes Space Mmap Elf ElfLoad UserMem Gic Traps Init.
#[local] Open Scope Z_scope.

Definition RAM_END : Z := RAM_VBASE + RAM_SIZE.

(** ** The layout of the image *)

Record linked `{KernelLayout} (y : symbols) : Prop := {
  ld_start : kernel_start y = RAM_VBASE;
  ld_low : RAM_VBASE <= kernel_code_start y;
  ld_code : kernel_code_start y < kernel_code_end y <= kernel_rodata_start y;
  ld_rodata : kernel_rodata_start y < kernel_rodata_end y <= kernel_data_start y;
  ld_data : kernel_data_start y < kernel_data_end y <= kernel_bss_start y;
  ld_bss : kernel_bss_start y < kernel_bss_end y <= user_start y;
  ld_user : user_start y < user_end y <= RAM_END - 0x3000;
  ld_align : Forall (fun a => a mod 4096 = 0)
    [kernel_code_start y; kernel_rodata_start y; kernel_data_start y; kernel_bss_start y; kernel_bss_end y; user_start y; user_end y];
  ld_sections : Forall (fun a => a mod 4096 = 0) [kernel_code_end y; kernel_rodata_end y; kernel_data_end y];
  ld_roots : Forall (fun a => a mod 4096 = 0 /\ kernel_bss_start y <= a /\ a + 4096 <= kernel_bss_end y)
    [kernel_addrspace y; user_addrspace y];
  ld_two : kernel_addrspace y <> user_addrspace y;
  ld_nodes : NoDup (static_nodes y) /\ Forall (fun x => kernel_bss_start y <= x < kernel_bss_end y) (static_nodes y)
}.

(** ** Clearing the variables *)

Definition words_bounded (m : wmem) : Prop := forall x w, m !! x = Some w -> 0 <= w < 2 ^ 64.

Lemma put_byte_bound w a v : 0 <= w < 2 ^ 64 -> 0 <= put_byte w a v < 2 ^ 64.
Proof.
  intros Hw. unfold put_byte. assert (Ho : 0 <= 8 * (a mod 8) <= 56) by (Z.div_mod_to_equations; lia).
  set (o := 8 * (a mod 8)) in *. apply lor_bound; [lia|by apply ldiff_bound; lia|].
  assert (H255 : 0 <= Z.land v 255 < 2 ^ 8).
  { change 255 with (Z.ones 8). rewrite Z.land_ones by lia. apply Z.mod_pos_bound. lia. }
  rewrite Z.shiftl_mul_pow2 by lia. split; [nia|].
  apply Z.lt_le_trans with (2 ^ 8 * 2 ^ o); [nia|]. rewrite <- Z.pow_add_r by lia. apply Z.pow_le_mono_r; lia.
Qed.

Lemma mem_fill_bounded c n : forall m a m', words_bounded m -> mem_fill n m a c = Ok m' -> words_bounded m'.
Proof.
  induction n as [|n IH]; intros m a m' Hb; cbn [mem_fill]; [by intros [= <-]|].
  unfold stb, ldw, stw. destruct (m !! word a) as [w|] eqn:E; [|done]. cbn [obind]. apply IH.
  intros x v. destruct (decide (x = word a)) as [->|]; [|rewrite lookup_insert_ne by done; apply Hb].
  rewrite lookup_insert_eq. intros [= <-]. apply put_byte_bound. by apply (Hb (word a)).
Qed.

Lemma word_of_bytes w : 0 <= w < 2 ^ 64 -> (forall i, 0 <= i < 8 -> byte_in w i = 0) -> w = 0.
Proof.
  intros Hw Hb. apply Z.bits_inj'. intros i Hi. rewrite Z.bits_0. destruct (Z.lt_ge_cases i 64).
  - specialize (Hb (i / 8) ltac:(Z.div_mod_to_equations; lia)). apply (f_equal (fun z => Z.testbit z (i mod 8))) in Hb.
    rewrite Z.bits_0 in Hb. unfold byte_in in Hb. rewrite Z.land_spec, Z.shiftr_spec, ff_bit in Hb by (Z.div_mod_to_equations; lia).
    replace (i mod 8 + 8 * ((i / 8) mod 8)) with i in Hb by (Z.div_mod_to_equations; lia).
    rewrite (proj2 (Z.ltb_lt (i mod 8) 8)), andb_true_r in Hb by (Z.div_mod_to_equations; lia). done.
  - apply testbit_high with 64; lia.
Qed.

(** A range of whole words that was filled with zeros. *)
Lemma zero_range m m' lo n x : words_bounded m' -> bytes_written m m' lo n (fun _ => Some 0) -> lo mod 8 = 0 -> n mod 8 = 0 ->
  x mod 8 = 0 ->
  (lo <= x < lo + n -> is_Some (m !! x) -> m' !! x = Some 0) /\ (~ (lo <= x < lo + n) -> m' !! x = m !! x).
Proof.
  intros Hb [Hd Hby Hw] Hlo Hn Hx. split.
  - intros Hin Hs. apply elem_of_dom in Hs. rewrite <- Hd in Hs. apply elem_of_dom in Hs as [w Hw']. rewrite Hw'. f_equal.
    apply word_of_bytes; [by apply (Hb x)|]. intros i Hi. specialize (Hby (x + i)).
    unfold in_range in Hby. rewrite (proj2 (Z.leb_le _ _)), (proj2 (Z.ltb_lt _ _)) in Hby by (Z.div_mod_to_equations; lia).
    cbn [andb] in Hby. unfold byte in Hby. replace (word (x + i)) with x in Hby by (unfold word; Z.div_mod_to_equations; lia).
    rewrite Hw' in Hby. injection Hby as Hby. unfold byte_in in *. by replace (i mod 8) with ((x + i) mod 8) by (Z.div_mod_to_equations; lia).
  - intros Hout. apply Hw. intros z Hz ->. unfold word in *. apply Hout. Z.div_mod_to_equations. lia.
Qed.

(** ** List nodes: the primitives map and unmap none *)

Lemma set_next_dom s p v s' : set_next s p v = Ok s' -> dom s' = dom s.
Proof. unfold set_next. destruct (s !! p) eqn:E; [|done]. intros [= <-]. apply dom_insert_lookup_L. by eexists. Qed.

Lemma set_prev_dom s p v s' : set_prev s p v = Ok s' -> dom s' = dom s.
Proof. unfold set_prev. destruct (s !! p) eqn:E; [|done]. intros [= <-]. apply dom_insert_lookup_L. by eexists. Qed.

Ltac list_dom := repeat first
  [ match goal with H : obind ?o _ = Ok _ |- _ => let E := fresh "E" in destruct o eqn:E; [cbn [obind] in H|discriminate H..] end
  | match goal with H : set_next _ _ _ = Ok _ |- _ => apply set_next_dom in H end
  | match goal with H : set_prev _ _ _ = Ok _ |- _ => apply set_prev_dom in H end ].

Lemma INIT_LIST_HEAD_dom s h s' : INIT_LIST_HEAD s h = Ok s' -> dom s' = dom s.
Proof. unfold INIT_LIST_HEAD. intros E. list_dom. congruence. Qed.

Lemma list_add_tail_dom s p h s' : list_add_tail s p h = Ok s' -> dom s' = dom s.
Proof. unfold list_add_tail, __list_add. intros E. list_dom. congruence. Qed.

Lemma init_heads_dom `{KernelLayout} n : forall s i s', init_heads n s i = Ok s' -> dom s' = dom s.
Proof.
  induction n as [|n IH]; intros s i s' E; cbn [init_heads] in E; [by injection E as <-|]. list_dom.
  rewrite (IH _ _ _ E). by eapply INIT_LIST_HEAD_dom.
Qed.

Lemma sched_init_dom `{KernelLayout} k p k' : sched_init k p = Ok k' -> dom (links k') = dom (links k).
Proof.
  unfold sched_init. destruct (negb (p =? 0)); [|done]. intros E. list_dom. injection E as <-. cbn.
  apply init_heads_dom in E0. apply INIT_LIST_HEAD_dom in E1. unfold sched_attach in E2.
  destruct (negb (p =? 0)); [|done]. list_dom. apply list_add_tail_dom in E3. cbn in E3.
  unfold priority_set in E2. destr_if; list_dom; injection E2 as <-; cbn; congruence.
Qed.

(** ** Memory before and after *)

Record power_on (y : symbols) (m : wmem) : Prop := {
  po_words : words_bounded m;
  po_ram : forall x, x mod 8 = 0 -> kernel_bss_start y <= x < RAM_END -> is_Some (m !! x);
  po_heap : forall x, x mod 8 = 0 -> user_end y <= x < RAM_END -> m !! x = Some 0
}.

Section Start.
Context `{KernelLayout} (y : symbols) (HL : linked y).

Lemma layout_bounds : RAM_VBASE <= kernel_bss_start y < kernel_bss_end y /\ kernel_bss_end y <= user_start y /\
  user_start y < user_end y /\ user_end y + 0x3000 <= RAM_END /\
  kernel_bss_start y mod 4096 = 0 /\ kernel_bss_end y mod 4096 = 0 /\ user_start y mod 4096 = 0 /\ user_end y mod 4096 = 0.
Proof.
  destruct HL as [_ ? ? ? ? ? ? Ha _ _ _ _]. rewrite !Forall_cons in Ha. destruct Ha as (_ & _ & _ & ? & ? & ? & ? & _). lia.
Qed.

Lemma clear_bss_ok m : power_on y m -> exists m1, clear_bss y m = Ok m1 /\ dom m1 = dom m /\ words_bounded m1 /\
  (forall x, x mod 8 = 0 -> kernel_bss_start y <= x < kernel_bss_end y -> m1 !! x = Some 0) /\
  (forall x, x mod 8 = 0 -> ~ (kernel_bss_start y <= x < kernel_bss_end y) -> m1 !! x = m !! x) /\
  (forall x, kernel_bss_end y <= x -> byte m1 x = byte m x).
Proof.
  intros [Hb Hr _]. pose proof layout_bounds as HB. unfold RAM_END, RAM_VBASE, RAM_SIZE in *. unfold clear_bss. rewrite u64_id by lia.
  set (n := kernel_bss_end y - kernel_bss_start y).
  destruct (mem_fill_ok 0 (Z.to_nat n) m (kernel_bss_start y)) as (m1 & Hf & Hw).
  { intros x Hx. apply Hr; [unfold word; Z.div_mod_to_equations; lia|]. unfold word, n in *. Z.div_mod_to_equations. lia. }
  rewrite Z2Nat.id in Hw by (unfold n; lia). change (Z.land 0 255) with 0 in Hw.
  pose proof (mem_fill_bounded _ _ _ _ _ Hb Hf) as Hb1.
  exists m1. split; [done|]. split; [apply Hw|]. split; [done|].
  assert (Hz : forall x, x mod 8 = 0 -> _) by (intros x Hx; apply (zero_range m m1 (kernel_bss_start y) n x Hb1 Hw);
    [Z.div_mod_to_equations; lia|unfold n; Z.div_mod_to_equations; lia|exact Hx]).
  split; [|split].
  - intros x Hx Hin. apply (proj1 (Hz x Hx)); [unfold n; lia|]. apply Hr; [done|lia].
  - intros x Hx Hout. apply (proj2 (Hz x Hx)). unfold n. lia.
  - intros x Hx. rewrite (bw_byte _ _ _ _ _ Hw). unfold in_range. by rewrite (proj2 (Z.ltb_ge x _)), andb_false_r by (unfold n; lia).
Qed.

(** ** The heap *)

Definition heap_size : Z := RAM_END - user_end y.
Definition heap_base : Z := (user_end y + SIZEOF_MM_GRAN (heap_size / 4096) + 4095) / 4096 * 4096.
Definition heap_pages : Z := (RAM_END - heap_base) / 4096.

Definition heap_region : mem_region := MkRegion (vbase_to_pbase (user_end y)) (user_end y) heap_size.

Record heap_ok (g : mm_gran) : Prop := {
  hp_wf : gran_wf g;
  hp_log : log2gran g = 12;
  hp_count : ngranules g = heap_pages;
  hp_start : heapstart g = heap_base;
  hp_range : user_end y < heap_base /\ heap_base mod 4096 = 0 /\ heap_base + 4096 * heap_pages <= RAM_END
}.

Lemma mm_initialize_ok m : (forall x, x mod 8 = 0 -> user_end y <= x < RAM_END -> m !! x = Some 0) ->
  exists g info, mm_initialize y m = Ok (g, heap_region, info) /\ heap_ok g /\ tail_free g (Z.to_nat heap_pages).
Proof.
  intros Hz. pose proof layout_bounds as HB. assert (HS : kernel_start y = RAM_VBASE) by apply HL.
  assert (Hends : u64 (RAM_SIZE + kernel_start y) = RAM_END) by (rewrite HS, u64_id; unfold RAM_END, RAM_VBASE, RAM_SIZE; lia).
  unfold mm_initialize. rewrite Hends. rewrite (u64_id (RAM_END - user_end y)) by (unfold RAM_END, RAM_VBASE, RAM_SIZE in *; lia).
  fold heap_size. assert (Hsz : 0x3000 <= heap_size <= 2 ^ 31) by (unfold heap_size, RAM_END, RAM_VBASE, RAM_SIZE in *; lia).
  assert (He : user_end y + heap_size = RAM_END) by (unfold heap_size; lia).
  assert (Hn0 : (user_end y + heap_size - (user_end y + 2 ^ 12 - 1) / 2 ^ 12 * 2 ^ 12) / 2 ^ 12 = heap_size / 4096).
  { change (2 ^ 12) with 4096. f_equal. Z.div_mod_to_equations. lia. }
  assert (Hd : 3 <= heap_size / 4096 <= 2 ^ 19) by (Z.div_mod_to_equations; lia).
  assert (Hhd : forall f, gran_initialize f (user_end y) heap_size 12 12 = Ok (MkGran 12 heap_pages heap_base
     (map (fun i => f (user_end y + GAT_OFFSET + 4 * i)) (seqZ 0 ((heap_size / 4096 + 31) / 32 + 1)))) /\
     SIZEOF_MM_GRAN (heap_size / 4096) = 20 + 4 * ((heap_size / 4096 + 31) / 32) /\
     user_end y + SIZEOF_MM_GRAN (heap_size / 4096) <= heap_base).
  { intros f. destruct (gran_initialize_ok f (user_end y) heap_size 12 12) as (Hg & Hst & Hh & Hn);
      rewrite ?Hn0 in *; try lia; try (unfold RAM_END, RAM_VBASE, RAM_SIZE in *; lia).
    - rewrite header_size by lia. Z.div_mod_to_equations. lia.
    - rewrite Hg, He. change (2 ^ 12) with 4096 in *. assert (Eb : (user_end y + SIZEOF_MM_GRAN (heap_size / 4096) + 4096 - 1) / 4096 * 4096 = heap_base).
      { unfold heap_base. do 2 f_equal. lia. }
      rewrite Eb in *. split; [done|]. split; [exact Hh|lia]. }
  destruct (Hhd (fun _ => 0)) as (H0 & Hs1 & Hs2). destruct (Hhd (mem32 m)) as (H1 & _ & _).
  assert (Heq : map (fun i => mem32 m (user_end y + GAT_OFFSET + 4 * i)) (seqZ 0 ((heap_size / 4096 + 31) / 32 + 1)) =
                map (fun _ => 0) (seqZ 0 ((heap_size / 4096 + 31) / 32 + 1))).
  { apply map_ext_in. intros i Hi%list_elem_of_In%elem_of_seqZ. unfold mem32, GAT_OFFSET. rewrite Hz.
    - by rewrite Z.shiftr_0_l.
    - unfold word. Z.div_mod_to_equations. lia.
    - unfold word. split; Z.div_mod_to_equations; lia. }
  rewrite Heq, <- H0 in H1. destruct (gran_initialize_heap (fun _ => 0) (user_end y) heap_size 12 12) as (g & Hg & W & Ha & Hlo & Hhi & Hfree);
    try lia; try (unfold RAM_END, RAM_VBASE, RAM_SIZE in *; lia).
  { destruct (gran_extent_spec (user_end y) heap_size 12 12) as (E & _); try lia; try (unfold RAM_END, RAM_VBASE, RAM_SIZE in *; lia).
    - change (2 ^ 12) with 4096. Z.div_mod_to_equations. lia.
    - rewrite E. cbn [snd]. rewrite Hn0, Hs1. change (2 ^ 12) with 4096. Z.div_mod_to_equations. lia. }
  rewrite Hg in H0. injection H0 as Eg. destruct (gran_dump_ok g W) as (mx & Hdump & _).
  rewrite H1, Hg. cbn [obind]. rewrite Hdump. eexists _, _. split; [done|].
  assert (Eh : heapstart g = heap_base /\ ngranules g = heap_pages /\ log2gran g = 12) by (rewrite Eg; done).
  destruct Eh as (E1 & E2 & E3). unfold granaddr in Hhi. rewrite E1, E2, E3 in *. change (2 ^ 12) with 4096 in *.
  split; [constructor; try done|].
  - unfold heap_base in *. split; [Z.div_mod_to_equations; lia|]. split; [done|]. lia.
  - split; [done|]. split; [done|]. rewrite E2. pose proof (wf_ngran g W). split; [lia|]. intros j Hj. apply Hfree; [done|lia].
Qed.

(** ** Pages and tables *)

Lemma heap_ok_same g g' : heap_ok g -> same_params g g' -> gran_wf g' -> heap_ok g'.
Proof. intros [W H1 H2 H3 H4] (P1 & P2 & P3) W'. constructor; try done; congruence. Qed.

Lemma free_range g p : heap_ok g -> free_page g p -> user_end y < p /\ p + 4096 <= RAM_END /\ p mod 4096 = 0.
Proof.
  intros [W H1 H2 H3 (R1 & R2 & R3)] (i & Hi & _ & ->). unfold granaddr. rewrite H1, H3. rewrite H2 in Hi. change (2 ^ 12) with 4096.
  split; [lia|]. split; [lia|]. rewrite Z.add_mod, (Z.mul_comm i), Z.mul_mod, R2 by lia. done.
Qed.

Definition mapped_ram (m : wmem) : Prop := forall x, x mod 8 = 0 -> kernel_bss_start y <= x < RAM_END -> is_Some (m !! x).

Lemma free_ready g m p : heap_ok g -> mapped_ram m -> free_page g p -> tbl_ok p /\ mapped_page m p.
Proof.
  intros Hg Hm Hp. pose proof layout_bounds as HB. destruct (free_range g p Hg Hp) as (P1 & P2 & P3). split.
  - split; [done|]. unfold RAM_END in *. lia.
  - intros k Hk. apply Hm; [Z.div_mod_to_equations; lia|]. lia.
Qed.

(** A table of the kernel's variables that is still empty. *)
Lemma root_inv g m root : heap_ok g -> mapped_ram m -> root ∈ [kernel_addrspace y; user_addrspace y] -> empty_top m root ->
  pt_inv root g m {[ root := Root ]}.
Proof.
  intros Hg Hm Hin Hz. pose proof layout_bounds as HB. destruct HL as [_ _ _ _ _ _ _ _ _ Hr _ _]. rewrite Forall_forall in Hr.
  destruct (Hr root Hin) as (R1 & R2 & R3). apply empty_inv; [|done|].
  - split; [done|]. unfold RAM_END in *. lia.
  - intros p Hp. destruct (free_ready g m p Hg Hm Hp). destruct (free_range g p Hg Hp). split; [done|]. split; [done|]. lia.
Qed.

Lemma section_region a b : RAM_VBASE <= a -> a < b <= RAM_END -> a mod 4096 = 0 -> b mod 4096 = 0 ->
  region_ok RAM_VBASE (Init.section a b) /\ (forall x, in_region (Init.section a b) x <-> a <= x < b).
Proof.
  intros H1 H2 H3 H4. unfold Init.section, RAM_END, RAM_VBASE, RAM_SIZE in *. rewrite (u64_id (b - a)) by lia.
  assert (E : region_end (MkRegion (vbase_to_pbase a) a (b - a)) = b) by (unfold region_end; cbn; Z.div_mod_to_equations; lia).
  assert (Ep : vbase_to_pbase a = a - RAM_VBASE + RAM_PBASE) by (apply vbase_ram; unfold RAM_VBASE, RAM_SIZE; lia).
  unfold RAM_VBASE, RAM_PBASE in Ep. split.
  - constructor; rewrite ?E; cbn; try lia. rewrite Ep. Z.div_mod_to_equations. lia.
  - intros x. unfold in_region. rewrite E. done.
Qed.

Definition image : image_region := fst (init_image_info y).
Definition user_region : mem_region := snd (init_image_info y).
Definition regions : list (mem_region * Z) := kernel_regions image user_region heap_region [mmio_region].

(** What the kernel sees through its own tables. *)
Definition kernel_sees (m : wmem) : Prop := forall r attr, (r, attr) ∈ regions -> sees m (kernel_addrspace y) r attr.

Lemma mmio_region_ok : region_ok RAM_VBASE mmio_region /\ forall x, in_region mmio_region x <-> 0xffffff8f00000000 <= x < 0xffffff8f40000000.
Proof.
  split; [constructor; vm_compute; intuition congruence|]. intros x. unfold in_region.
  change (region_end mmio_region) with 0xffffff8f40000000. done.
Qed.

(** Sections follow one another; the devices are elsewhere. *)
Lemma regions_spans : exists spans, spans = [(kernel_code_start y, kernel_code_end y); (kernel_rodata_start y, kernel_rodata_end y);
    (kernel_data_start y, kernel_data_end y); (kernel_bss_start y, kernel_bss_end y); (user_start y, user_end y); (user_end y, RAM_END)] /\
  map fst regions = map (fun ab => Init.section (fst ab) (snd ab)) spans ++ [mmio_region] /\
  Forall (fun ab => region_ok RAM_VBASE (Init.section (fst ab) (snd ab)) /\
    forall x, in_region (Init.section (fst ab) (snd ab)) x <-> fst ab <= x < snd ab) spans.
Proof.
  eexists. split; [done|]. pose proof layout_bounds as HB. split.
  - unfold regions, kernel_regions, image, user_region, init_image_info. cbn. do 5 f_equal.
    unfold heap_region, Init.section, heap_size. rewrite u64_id; [done|]. unfold RAM_END, RAM_VBASE, RAM_SIZE in *. lia.
  - assert (He : RAM_END mod 4096 = 0) by reflexivity.
    destruct HL as [_ ? ? ? ? ? ? Ha Hs _ _ _]. rewrite !Forall_cons in Ha. rewrite !Forall_cons in Hs.
    destruct Ha as (? & ? & ? & ? & ? & ? & ? & _), Hs as (? & ? & ? & _).
    repeat (apply Forall_cons; split; [apply section_region; cbn; lia|]).
    done.
Qed.

Lemma regions_ok r attr : (r, attr) ∈ regions -> region_ok RAM_VBASE r /\ attr_ok attr.
Proof.
  intros Hin. split; [|by eapply kernel_regions_attr]. destruct regions_spans as (spans & _ & E & Hf).
  apply (list_elem_of_fmap_2 fst) in Hin.
  change (r ∈ map fst regions) in Hin. rewrite E, elem_of_app in Hin. destruct Hin as [Hin|Hin%list_elem_of_singleton].
  - apply list_elem_of_fmap in Hin as (ab & -> & Hab). rewrite Forall_forall in Hf. by apply Hf.
  - rewrite Hin. apply mmio_region_ok.
Qed.

Lemma disjoint_fst (rs : list (mem_region * Z)) : ForallOrdPairs (fun r r' => forall x, in_region r x -> ~ in_region r' x) (map fst rs) ->
  disjoint_regions rs.
Proof.
  induction rs as [|[r attr] rs IH]; [done|]. cbn [map fst]. intros Hf. inversion Hf as [|? ? H1 H2]; subst. split; [|by apply IH].
  intros r' attr' Hin. rewrite List.Forall_forall in H1. apply H1, list_elem_of_In. by apply (list_elem_of_fmap_2 fst) in Hin.
Qed.

Lemma regions_disjoint : disjoint_regions regions.
Proof.
  apply disjoint_fst. destruct regions_spans as (spans & E & -> & Hf). destruct mmio_region_ok as [_ Hm].
  assert (HB : kernel_code_end y <= kernel_rodata_start y /\ kernel_rodata_start y < kernel_rodata_end y <= kernel_data_start y /\
    kernel_data_start y < kernel_data_end y <= kernel_bss_start y /\ kernel_bss_start y < kernel_bss_end y <= user_start y /\
    user_start y < user_end y <= RAM_END - 0x3000) by (destruct HL; lia).
  assert (He : RAM_END = 0xffffff8080000000) by reflexivity.
  subst spans. rewrite !Forall_cons in Hf. cbn [fst snd] in Hf.
  destruct Hf as ([_ F1] & [_ F2] & [_ F3] & [_ F4] & [_ F5] & [_ F6] & _). cbn [map app fst snd].
  repeat (constructor; [repeat (apply List.Forall_cons; [intros x; rewrite ?F1, ?F2, ?F3, ?F4, ?F5, ?F6, ?Hm; lia|]); apply List.Forall_nil|]).
  constructor.
Qed.

(** The mapping code under the source that counts pages at the end of the heap. *)
Lemma map_all_source g0 root rs : forall g m, map_all root g m rs = map_all (H0 := tail_source g0) root g m rs.
Proof.
  induction rs as [|[r attr] rs IH]; intros g m; [done|]. cbn [map_all].
  rewrite (pt_map_source heap_source (tail_source g0)) by done.
  match goal with |- obind ?o _ = _ => generalize o end. intros [[[g1 m1] z]| | |]; cbn [obind]; [apply IH|reflexivity..].
Qed.

Lemma kernel_tables g m n : heap_ok g -> tail_free g (supply_for regions + n) -> mapped_ram m -> empty_top m (kernel_addrspace y) ->
  exists g' m' RK, as_initialize g m (kernel_addrspace y) image user_region heap_region kernel_dev_ram =
      Ok (g', m', vbase_to_pbase (kernel_addrspace y)) /\
    heap_ok g' /\ tail_free g' n /\ pt_inv (kernel_addrspace y) g' m' RK /\ kernel_sees m' /\ same_params g g' /\
    grown g m {[ kernel_addrspace y := Root ]} g' m' RK.
Proof.
  intros Hg Ht Hm Hz. pose proof (root_inv g m _ Hg Hm ltac:(by left) Hz) as Hi.
  destruct (map_all_ok (H0 := tail_source g) RAM_VBASE (kernel_addrspace y) Sample.kernel_window regions g m
              {[ kernel_addrspace y := Root ]} n) as (g' & m' & RK & Hmap & Hi' & Hgr & [Ht' Hp] & Hsee & _).
  - by apply (pt_inv_tail g).
  - exact regions_ok.
  - exact regions_disjoint.
  - intros r attr _. by apply (empty_no_section (H := kernel_space)).
  - split; [exact Ht|done].
  - exists g', m', RK. split; [|split; [|split; [exact Ht'|split; [by apply (pt_inv_tail g)|split; [exact Hsee|split; [exact Hp|]]]]]].
    + change kernel_dev_ram with ([mmio_region] ++ [MkRegion 0 0 0]). rewrite as_initialize_all; [|by repeat constructor|done].
      rewrite (map_all_source g). fold regions. rewrite Hmap. done.
    + eapply heap_ok_same; [exact Hg|exact Hp|apply Ht'].
    + destruct Hgr as [G1 G2 G3 G4]. by constructor.
Qed.

(** ** The steps that follow: one address space for the user *)

(** The heap, its free pages, and the tables [R] of the user. *)
Record stage (g : mm_gran) (m : wmem) (R : gmap Z role) (n : nat) : Prop := {
  sg_heap : heap_ok g;
  sg_tail : tail_free g n;
  sg_user : pt_inv (user_addrspace y) g m R
}.

Lemma grown_keeps g m R g' m' R' : grown g m R g' m' R' -> same_params g g' -> keeps g m R g' m' R'.
Proof.
  intros [G1 G2 G3 [G4 G5]] Hp. constructor; [done|done|]. intros w [S1 S2].
  assert (Hn : forall p r k, R' !! p = Some r -> 0 <= k < 512 -> w <> p + 8 * k).
  { intros p r k Hr Hk. destruct (G2 p r Hr); [by eapply S2|by apply S1]. }
  split; [by apply G5|]. split; [|done]. intros p k Hf. by apply S1, G3.
Qed.

(** The kernel's tables are no tables of the user. *)
Definition kernel_kept (m m' : wmem) (RK : gmap Z role) : Prop :=
  forall p r k, RK !! p = Some r -> 0 <= k < 512 -> m' !! (p + 8 * k) = m !! (p + 8 * k).

Lemma kernel_still_sees (g : mm_gran) m m' RK : pt_inv (kernel_addrspace y) g m RK -> kernel_kept m m' RK -> kernel_sees m -> kernel_sees m'.
Proof.
  intros Hi Hk Hs r attr Hin. eapply sees_frame; [by apply Hs|]. intros x _. eapply walk_frame; [apply Hi|].
  intros p ro k Hp Hk2 _. by eapply Hk.
Qed.

Lemma user_root : user_addrspace y mod 4096 = 0 /\ kernel_addrspace y mod 4096 = 0 /\
  kernel_bss_start y <= user_addrspace y < user_end y /\ kernel_bss_start y <= kernel_addrspace y < user_end y.
Proof.
  pose proof layout_bounds as HB. destruct HL as [_ _ _ _ _ _ _ _ _ Hr _ _]. rewrite !Forall_cons in Hr.
  destruct Hr as ((? & ? & ?) & (? & ? & ?) & _). lia.
Qed.

(** After the kernel's tables, the user's are still empty and everything of the
    kernel is out of reach of the steps that follow. *)
Lemma user_stage g m n g' m' RK : heap_ok g -> mapped_ram m -> empty_top m (user_addrspace y) ->
  heap_ok g' -> tail_free g' n -> pt_inv (kernel_addrspace y) g' m' RK ->
  grown g m {[ kernel_addrspace y := Root ]} g' m' RK ->
  stage g' m' {[ user_addrspace y := Root ]} n /\
  (forall p r k, RK !! p = Some r -> 0 <= k < 512 -> solid g' {[ user_addrspace y := Root ]} (p + 8 * k)) /\
  empty_top m' (user_addrspace y) /\ mapped_ram m'.
Proof.
  intros Hg Hm Hz Hg' Ht Hi [G1 G2 G3 [G4 G5]]. destruct user_root as (U1 & U2 & U3 & U4).
  assert (Hrole : forall p r, RK !! p = Some r -> p mod 4096 = 0 /\ p <> user_addrspace y).
  { intros p r Hp. destruct (G2 p r Hp) as [E|Hf].
    - apply lookup_singleton_Some in E as [<- _]. split; [done|apply HL].
    - destruct (free_range g p Hg Hf) as (P1 & P2 & P3). split; [done|lia]. }
  assert (Hm' : mapped_ram m').
  { intros x Hx Hr. apply elem_of_dom. rewrite G4. apply elem_of_dom. by apply Hm. }
  assert (Hz' : empty_top m' (user_addrspace y)).
  { intros i Hi2. rewrite G5; [by apply Hz|]. intros p r k Hp Hk E. destruct (Hrole p r Hp) as [P1 P2].
    destruct (page_word (user_addrspace y) p i k) as [E2 _]; [done..|]. by rewrite E2 in P2. }
  assert (Hu : pt_inv (user_addrspace y) g' m' {[ user_addrspace y := Root ]}).
  { apply root_inv; try done. right. by left. }
  split; [by constructor|]. split; [|done]. intros p r k Hp Hk. destruct (Hrole p r Hp) as [P1 P2].
  eapply page_solid; try done.
  - intros Hf. by rewrite (pt_free_unused _ _ _ _ Hi p Hf) in Hp.
  - by apply lookup_singleton_None.
Qed.

(** ** Address space identifiers *)

Lemma asid_initialize_ok id bits : get_cpu_asid_bits id = Ok bits ->
  exists a, asid_initialize id = Ok a /\ asid_wf 1 a /\ num_asids a = 2 ^ bits.
Proof.
  intros Hb. assert (H2 : bits = 8 \/ bits = 16) by (unfold get_cpu_asid_bits in Hb; repeat destr_if; simplify_eq; auto).
  unfold asid_initialize. rewrite Hb. cbn [obind]. rewrite Z.shiftl_1_l. unfold bitmap_zero.
  set (N := Z.to_nat (2 ^ bits / 8)). set (L := Z.to_nat (BITS_TO_LONGS (2 ^ bits))).
  assert (HN : (L <= N)%nat /\ Z.of_nat N = 2 ^ bits / 8) by (subst N L; destruct H2 as [-> | ->]; split; vm_compute; lia || done).
  rewrite length_replicate, (proj2 (Nat.leb_le L N)) by lia. cbn [obind]. eexists. split; [done|]. split; [|done].
  assert (E : replicate L 0 ++ drop L (replicate N 0) = replicate N 0).
  { rewrite drop_replicate, <- replicate_add. f_equal. lia. }
  rewrite E. assert (Hs : 256 <= 2 ^ bits <= 65536) by (destruct H2 as [-> | ->]; lia).
  constructor; unfold num_asids; cbn [asid_bits asid_generation asid_bitmap cur_idx]; try lia.
  - unfold words_ok. apply Forall_replicate. lia.
  - rewrite length_replicate, (proj2 HN). Z.div_mod_to_equations. lia.
Qed.

Definition asid_pages (bits : Z) : nat := Z.to_nat (pages_of (2 ^ bits)).

Lemma asid_start_ok g m R n id bits : get_cpu_asid_bits id = Ok bits -> stage g m R (asid_pages bits + n) ->
  exists g' m' a, asid_start g m id = Ok (g', m', a) /\ stage g' m' R n /\ keeps g m R g' m' R /\
    (forall x, hw_walk m' (user_addrspace y) x = hw_walk m (user_addrspace y) x) /\ asid_wf 1 a /\ num_asids a = 2 ^ bits.
Proof.
  intros Hb [Hg Ht Hi]. assert (H2 : bits = 8 \/ bits = 16) by (unfold get_cpu_asid_bits in Hb; repeat destr_if; simplify_eq; auto).
  assert (Hsz : 0 < 2 ^ bits <= 0x20000) by (destruct H2 as [-> | ->]; lia).
  unfold asid_start. rewrite Hb. cbn [obind]. rewrite Z.shiftl_1_l.
  destruct (tail_alloc g _ (2 ^ bits) Ht Hsz) as (g' & p & Ha & Hp & Ht').
  { unfold asid_pages. destruct H2 as [-> | ->]; cbn; lia. }
  destruct (calloc_ok (user_addrspace y) g m R (2 ^ bits) g' p) as (m' & -> & Hw & Hbt & Hi' & Hwalk); try done; [apply Hg..|].
  destruct (block_ram _ _ _ _ _ _ _ Hi Hbt) as (Hp4 & _); [destruct H2 as [-> | ->]; reflexivity|].
  destruct (gran_alloc_wf _ _ _ _ (hp_wf _ Hg) Ha) as [W' Hpar].
  destruct (asid_initialize_ok id bits Hb) as (a & -> & Haw & Hna).
  cbn [obind]. eexists g', m', a. split; [done|]. split; [|split; [|done]].
  - constructor; [by eapply heap_ok_same| |done]. eapply tail_less; [|exact Ht']. unfold asid_pages. lia.
  - eapply calloc_keeps; try done. lia.
Qed.

(** ** Tasks *)

(** A task that is in no queue changes; so may list nodes outside the queues. *)
Lemma sched_inv_other ex k k' qs x t : sched_inv ex k qs -> ~ queued qs x -> x ∈ dom (tasks k) ->
  tasks k' = <[x := t]> (tasks k) -> 0 <= sched_priority t < 32 ->
  g_priority_bitmap k' = g_priority_bitmap k -> g_priority_group k' = g_priority_group k ->
  (forall i z, qidx i -> z ∈ qhead i :: qs i -> links k' !! z = links k !! z) -> dom (links k) ⊆ dom (links k') ->
  sched_inv ex k' qs.
Proof.
  intros [HY HQ HN HP HT HR HB Hlost Hstale] Hq Hx Et Hp Eb Eg En Ed.
  assert (Hdom : dom (tasks k') = dom (tasks k)) by (rewrite Et; apply dom_insert_lookup_L; by apply elem_of_dom).
  constructor; rewrite ?Eb, ?Eg, ?Hdom; try done.
  - destruct HQ as [Q1 Q2 Q3]. constructor; [|done..]. intros i Hi. apply (dlist_ext (links k)); [by apply Q1|].
    intros z Hz. by apply (En i).
  - intros z Hz. destruct (HN z Hz) as [H1 H2]. split; [by apply Ed|done].
  - intros z u. rewrite Et. destruct (decide (z = x)) as [->|]; [rewrite lookup_insert_eq; by intros [= <-]|].
    rewrite lookup_insert_ne by done. apply HP.
  - intros i z u Hi Hz. rewrite Et. rewrite lookup_insert_ne; [by apply HR|]. intros ->. apply Hq. exists i.
    split; [unfold qidx; lia|done].
Qed.

Lemma static_dom x : x ∈ static_nodes y -> x ∈ dom (links (zero_sched y)).
Proof.
  intros Hx. unfold zero_sched. cbn [links]. rewrite dom_list_to_map_L, elem_of_list_to_set, <- list_fmap_compose.
  apply list_elem_of_fmap. by exists x.
Qed.

Lemma static_head i : qidx i -> qhead i ∈ g_pendingtasks :: map ready_head (seqZ 0 32).
Proof.
  intros Hi. unfold qhead, qidx, PEND in *. destruct (Z.eqb_spec i (-1)); [by left|right].
  apply list_elem_of_fmap. exists i. split; [done|]. apply elem_of_seqZ. lia.
Qed.

(** The nodes that are not heads of queues. *)
Definition other_nodes : list Z :=
  [idle_task y; idle_task y + MM_LINK_OFFSET; root_task y; root_task y + MM_LINK_OFFSET; user_elf y; user_elf y + ELF_SEGS_OFFSET].

Lemma other_no_head x : x ∈ other_nodes -> ~ is_head x /\ x ∈ static_nodes y /\ x <> 0.
Proof.
  intros Hx. destruct HL as [_ _ _ _ _ _ _ _ _ _ _ [Hn Hb]]. pose proof layout_bounds as HB.
  assert (Hin : x ∈ static_nodes y) by (apply (elem_of_app (g_pendingtasks :: map ready_head (seqZ 0 32))); by right).
  split; [|split; [done|]].
  - intros (i & Hi & ->). apply (NoDup_app (g_pendingtasks :: map ready_head (seqZ 0 32))) in Hn as (_ & Hn & _).
    by apply (Hn (qhead i)); [apply static_head|].
  - rewrite Forall_forall in Hb. specialize (Hb x Hin). unfold RAM_VBASE in *. lia.
Qed.

Lemma nodes_layout : layout_ok.
Proof.
  intros p Hp E. destruct HL as [_ _ _ _ _ _ _ _ _ _ _ [Hn _]]. apply NoDup_cons in Hn as [Hn _]. apply Hn, elem_of_app. left.
  apply list_elem_of_fmap. exists p. split; [done|]. apply elem_of_seqZ. lia.
Qed.

Lemma nodes_differ : NoDup other_nodes.
Proof.
  destruct HL as [_ _ _ _ _ _ _ _ _ _ _ [Hn _]].
  by apply (NoDup_app (g_pendingtasks :: map ready_head (seqZ 0 32))) in Hn as (_ & _ & Hn).
Qed.

(** The head of the areas of the user task. *)
Lemma mm_node : let x := root_task y + MM_LINK_OFFSET in
  ~ is_head x /\ x ∈ static_nodes y /\ x <> idle_task y /\ x <> root_task y /\ x ∉ [user_elf y; user_elf y + ELF_SEGS_OFFSET].
Proof.
  intros x. destruct (other_no_head x) as (H1 & H2 & _); [do 3 right; by left|]. pose proof nodes_differ as Hnd. unfold other_nodes in Hnd.
  fold x in Hnd. rewrite !NoDup_cons, !not_elem_of_cons in Hnd. destruct Hnd as ((_ & _ & N1 & _) & _ & (N2 & _) & (N3 & N4 & _) & _).
  split; [done|]. split; [done|]. split; [congruence|]. split; [congruence|]. rewrite !not_elem_of_cons. split; [done|]. split; [done|].
  apply not_elem_of_nil.
Qed.

(** ** The idle task *)

Definition idle_tcb : tcb :=
  let t := fresh_tcb 0 (idle y) (Some idle_name) 31 (idle_stack y) CONFIG_IDLE_TASK_STACKSIZE TASK_TYPE_KERNEL (kernel_addrspace y) in
  set_tgid t (tid t).

Record idling (a : asid_state) (k : sched_state) : Prop := {
  id_inv : sched_inv (fun _ => False) k (only 31 (idle_task y));
  id_current : g_current_task k = idle_task y;
  id_asids : asids k = a;
  id_tasks : tasks k = <[idle_task y := set_task_state idle_tcb TSTATE_TASK_READYTORUN]> {[ root_task y := zero_tcb ]};
  id_tids : tid_wf (tids k) /\ g_lasttid (tids k) = 0 /\ wbit (task_bitmap (tids k)) 1 = false;
  id_nodes : forall x, x ∈ static_nodes y -> x ∈ dom (links k)
}.

Lemma idle_ok a : exists k, idle_task_initialize y (set_asids (zero_sched y) a) = Ok k /\ idling a k.
Proof.
  pose proof nodes_differ as Hnd. unfold idle_task_initialize, create_task.
  destruct (task_create_ok tid_initial (links (zero_sched y)) (idle_task y) (idle y) (Some idle_name) 31 (idle_stack y)
              CONFIG_IDLE_TASK_STACKSIZE TASK_TYPE_KERNEL (kernel_addrspace y)) as (bm & l & id & Hc & Hw & Hid & _ & Hlow & Hu & _ & _ & Hd & _).
  { apply tid_initial_inv. }
  { apply static_dom, other_no_head. by left. } { apply static_dom, other_no_head. right. by left. }
  { done. } { exists 0. split; [by vm_compute|]. apply wbit_replicate_zero. }
  assert (E0 : id = 0).
  { change (g_lasttid tid_initial) with (-1) in *. destruct (Z.lt_ge_cases 0 id); [|lia].
    specialize (Hlow 0 ltac:(lia)). unfold tid_initial, task_bitmap in Hlow. by rewrite wbit_replicate_zero in Hlow. }
  subst id. cbn [set_asids tids links]. change (CONFIG_MAX_TASK_PRIORITY - 1) with 31.
  change (tids (zero_sched y)) with tid_initial. rewrite Hc. cbn [obind]. fold idle_tcb.
  match goal with |- context [sched_init ?x _] => set (k0 := x) end.
  assert (Hdom : dom (links k0) = dom (links (zero_sched y))) by exact Hd.
  assert (Hne : idle_task y <> root_task y) by (intros E; apply NoDup_cons in Hnd as [Hnd _]; apply Hnd; rewrite E; right; by left).
  assert (Ht0 : tasks k0 = <[idle_task y := idle_tcb]> {[ root_task y := zero_tcb ]}) by apply insert_insert_eq.
  destruct (sched_init_ok k0 (idle_task y) idle_tcb) as (k & Hk & Hi & Hcur & Ha & _ & Hids & Ht).
  { constructor; [exact nodes_layout| | | | |done].
    - intros i Hi. rewrite Hdom. apply static_dom. apply (elem_of_app (g_pendingtasks :: map ready_head (seqZ 0 32))). left.
      by apply static_head.
    - rewrite Ht0. apply lookup_insert_eq.
    - intros x. rewrite Ht0, dom_insert_L, dom_singleton_L, elem_of_union, !elem_of_singleton, Hdom. intros Hx.
      destruct (other_no_head x) as (H1 & H2 & H3); [|split; [by apply static_dom|done]].
      destruct Hx as [-> | ->]; [by left|do 2 right; by left].
    - intros x u. rewrite Ht0. intros [[<- <-]|[_ [<- <-]%lookup_singleton_Some]]%lookup_insert_Some; done. }
  pose proof (sched_init_dom _ _ _ Hk) as Hdk. exists k. split; [done|]. constructor; try done.
  - by rewrite Ht, Ht0, insert_insert_eq.
  - rewrite Hids. split; [done|]. split; [done|]. cbn. destruct Hu as (_ & _ & ->); [|done]. apply wbit_replicate_zero.
  - intros x Hx. rewrite Hdk, Hdom. by apply static_dom.
Qed.
(** ** Mappings of the user *)

(** A small region, with the free pages at the end paying for its tables. *)
Lemma user_map_ok g m R n r prot type : stage g m R (4 + n) -> region_ok 0 r -> region_end r <= vbase r + 0x200000 ->
  no_section 0 (user_addrspace y) m (vbase r) (region_end r) ->
  exists g' m' R', as_map g m (user_addrspace y) r prot type = Ok (g', m', 0) /\ stage g' m' R' n /\ keeps g m R g' m' R' /\
    sees m' (user_addrspace y) r (as_attr prot type) /\
    (forall x, window 0 x -> ~ in_region r x -> hw_walk m' (user_addrspace y) x = hw_walk m (user_addrspace y) x) /\
    (forall p ro, R' !! p = Some ro -> R !! p = Some ro \/ free_page g p) /\ (forall p, free_page g' p -> free_page g p).
Proof.
  intros [Hg Ht Hi] Hr He Hns. destruct (as_attr_spec prot type) as (Hat & _).
  destruct (region_map_ok (H0 := tail_source g) 0 (user_addrspace y) Sample.user_window g m R r (as_attr prot type) n)
    as (g' & m' & R' & Hm & Hi2%pt_inv_tail & [G1 G2 G3 G4] & [Ht' Hp'] & Hsee & Hfr); try done.
  { by apply (pt_inv_tail g). }
  { split; [|done]. eapply tail_less; [|exact Ht]. destruct Hr as [Hs Hlo _ Hv _ _].
    pose proof (pages_needed_small (vbase r) (region_end r) (pbase r)). unfold region_end in *.
    assert (vbase r < (vbase r + rsize r + 4095) / 4096 * 4096) by (Z.div_mod_to_equations; lia). lia. }
  exists g', m', R'. split; [by rewrite <- Hm; apply pt_map_source|]. split; [|split; [|done]].
  - constructor; [eapply heap_ok_same; [exact Hg|exact Hp'|apply Ht']|done|done].
  - apply grown_keeps; [by constructor|done].
Qed.

(** A block that is taken and not cleared. *)
Lemma user_alloc_ok g m R n size : stage g m R (Z.to_nat (pages_of size) + n) -> 0 < size <= 0x20000 ->
  exists g' p, gran_alloc g size = Ok (g', p) /\ stage g' m R n /\ keeps g m R g' m R /\
    block_taken g g' p (pages_of size) /\
    p mod 4096 = 0 /\ RAM_VBASE <= p /\ p + 4096 * pages_of size <= RAM_VBASE + RAM_SIZE /\
    vbase_to_pbase p = p - RAM_VBASE + RAM_PBASE.
Proof.
  intros [Hg Ht Hi] Hs. assert (Hpos : 0 < pages_of size) by (unfold pages_of; Z.div_mod_to_equations; lia).
  destruct (tail_alloc g _ size Ht Hs) as (g' & p & Ha & Hp & Ht'); [lia|].
  pose proof (block_alloc g size g' p (hp_wf _ Hg) (hp_log _ Hg) Hs Ha Hp) as Hb.
  destruct (gran_alloc_wf _ _ _ _ (hp_wf _ Hg) Ha) as [W' Hpar].
  assert (Hfree : forall q, free_page g' q -> free_page g q) by (intros q Hq; by apply (bt_free _ _ _ _ Hb)).
  exists g', p. split; [done|]. split; [|split; [|split; [done|by eapply block_ram]]].
  - constructor; [by eapply heap_ok_same|eapply tail_less; [|exact Ht']; lia|].
    destruct Hi as [I1 I2 I3]. constructor; [done|auto|auto].
  - constructor; [done|done|]. intros w [S1 S2]. split; [done|]. split; [|done]. intros q k Hq. by apply S1, Hfree.
Qed.

(** ** The program *)

(** The image in memory: a header that is accepted, and loadable segments that
    are aligned, apart, small enough, and below the device page. *)
Record program (m : wmem) (h : Elf64_Ehdr) (hs : list Elf64_Phdr) : Prop := {
  pr_header : read_ehdr m (user_start y) = Ok h;
  pr_valid : valid_header h;
  pr_count : h_phnum h = Z.of_nat (length hs);
  pr_inside : 0 <= h_phoff h /\ h_phoff h + SIZEOF_PHDR * h_phnum h <= user_end y - user_start y;
  pr_phdrs : forall i ph, hs !! i = Some ph -> read_phdr m (user_start y + h_phoff h + SIZEOF_PHDR * Z.of_nat i) = Ok ph;
  pr_phdrs_ok : Forall header_ok hs;
  pr_segs : forall sg, sg ∈ collect hs [] -> is_load sg = true ->
    seg_ok (user_end y - user_start y) sg /\ sg_vaddr sg + span sg <= vbase dev_region;
  pr_apart : ElfLoad.apart (collect hs [])
}.

Definition file_kept (m m' : wmem) : Prop := forall x, user_start y <= x < user_end y -> byte m' x = byte m x.

Lemma bytes_at_ext m m' n : forall a, (forall x, a <= x < a + Z.of_nat n -> byte m' x = byte m x) -> bytes_at n m' a = bytes_at n m a.
Proof.
  induction n as [|n IH]; intros a Hx; [done|]. cbn [bytes_at]. rewrite !ldb_eq, (Hx a) by lia. rewrite IH; [done|].
  intros x Hr. apply Hx. lia.
Qed.

Lemma read_ehdr_ext m m' a : (forall x, a <= x < a + 64 -> byte m' x = byte m x) -> read_ehdr m' a = read_ehdr m a.
Proof.
  intros Hx. unfold read_ehdr. rewrite (bytes_at_ext m m') by (intros x Hr; apply Hx; lia).
  rewrite !(field_ext m m'); [done|intros x Hr; apply Hx; lia..].
Qed.

Lemma program_kept m m' h hs : file_kept m m' -> program m h hs -> program m' h hs.
Proof.
  intros Hk [P1 P2 P3 P4 P5 P6 P7 P8]. pose proof layout_bounds as HB. constructor; try done.
  - rewrite <- P1. apply read_ehdr_ext. intros x Hx. apply Hk. Z.div_mod_to_equations. lia.
  - intros i ph Hi. rewrite <- (P5 i ph Hi). apply read_phdr_ext. intros x Hx. apply Hk.
    apply lookup_lt_Some in Hi. unfold SIZEOF_PHDR in *. lia.
Qed.

Definition root_tcb : tcb :=
  let t := fresh_tcb 1 0 (Some root_name) CONFIG_DEFAULT_TASK_PRIORITY USER_STACK_TOP CONFIG_DEFAULT_TASK_STACKSIZE
             TASK_TYPE_USER (user_addrspace y) in
  set_tgid t (tid t).

Lemma root_create_ok a k : idling a k ->
  exists l ids, create_task k (root_task y) 0 root_name CONFIG_DEFAULT_TASK_PRIORITY USER_STACK_TOP CONFIG_DEFAULT_TASK_STACKSIZE
      TASK_TYPE_USER (user_addrspace y) = Ok (put_task (set_tids (set_links k l) ids) (root_task y) root_tcb) /\
    touches (links k) l [root_task y; root_task y + MM_LINK_OFFSET] /\ dlist l (root_task y + MM_LINK_OFFSET) [].
Proof.
  intros [_ _ _ _ (T1 & T2 & T3) Hn]. unfold create_task.
  assert (Hin : forall x, x ∈ other_nodes -> x ∈ dom (links k)) by (intros x Hx; by apply Hn, other_no_head).
  destruct (task_create_ok (tids k) (links k) (root_task y) 0 (Some root_name) CONFIG_DEFAULT_TASK_PRIORITY USER_STACK_TOP
              CONFIG_DEFAULT_TASK_STACKSIZE TASK_TYPE_USER (user_addrspace y)) as (bm & l & id & Hc & _ & Hid & _ & Hlow & _ & _ & Hd & Ht).
  { done. } { apply Hin. do 2 right. by left. } { apply Hin. do 3 right. by left. } { done. }
  { exists 1. rewrite T2. split; [by vm_compute|done]. }
  assert (id = 1) as ->.
  { rewrite T2 in *. destruct (Z.lt_ge_cases 1 id); [|lia]. rewrite Hlow in T3 by lia. done. }
  rewrite Hc. cbn [obind]. eexists l, _. by split.
Qed.

(** The task after its program has been loaded. *)
Definition loaded_tcb (h : Elf64_Ehdr) (a : mm_area) : tcb :=
  set_mm (set_ctx root_tcb (context_set_entry (ctx root_tcb) (h_entry h))) a.

Lemma layout_only_mm sgs : forall t t', layout t sgs = Ok t' -> exists a, t' = set_mm t a.
Proof.
  induction sgs as [|sg sgs IH]; intros t t' E; cbn [layout] in E.
  { injection E as <-. exists (mm t). by destruct t. }
  destruct (is_load sg); [|by apply IH]. destruct (segment_mm t sg) as [a| | |]; try done. cbn [obind] in E.
  destruct (IH _ _ E) as [b ->]. by exists b.
Qed.

(** The numbers of the task that the memory calls start from. *)
Definition area_ok (a : mm_area) : Prop := (mmap_base a = 0 \/ mmap_base a = USER_STACK_TOP) /\ 0 <= start_brk a <= brk a.

Lemma layout_area sgs : forall t t', layout t sgs = Ok t' -> stack t = USER_STACK_TOP -> area_ok (mm t) -> area_ok (mm t').
Proof.
  induction sgs as [|sg sgs IH]; intros t t' E Hst Ha; cbn [layout] in E; [by injection E as <-|].
  destruct (is_load sg); [|by apply (IH t)]. destruct (segment_mm t sg) as [a| | |] eqn:Em; try done. cbn [obind] in E.
  apply (IH _ _ E Hst). cbn. unfold segment_mm in Em. destruct (_ =? _).
  - injection Em as <-. split; [by right|]. apply Ha.
  - destruct (_ =? _); [|done]. injection Em as <-. split; [apply Ha|]. cbn [start_brk brk]. unfold PAGE_ALIGN, ALIGN, u64.
    pose proof (Z.mod_pos_bound) as Hp. split; [apply Z.mod_pos_bound; lia|lia].
Qed.

Lemma file_solid g m root : heap_ok g -> mapped_ram m -> root ∈ [kernel_addrspace y; user_addrspace y] ->
  forall x, user_start y <= x < user_end y -> solid g {[ root := Root ]} (word x) /\ is_Some (m !! word x).
Proof.
  intros Hg Hm Hroot x Hx. pose proof layout_bounds as HB. destruct HL as [_ _ _ _ _ _ _ _ _ Hr _ _]. rewrite Forall_forall in Hr.
  destruct (Hr root Hroot) as (? & ? & ?). split; [split|].
  - intros p k Hp Hk E. destruct (free_range g p Hg Hp) as (P1 & P2 & P3). unfold word in E. Z.div_mod_to_equations. lia.
  - intros p r k Hp Hk E. apply lookup_singleton_Some in Hp as [<- _]. unfold word in E. Z.div_mod_to_equations. lia.
  - apply Hm; unfold word; [Z.div_mod_to_equations; lia|]. split; Z.div_mod_to_equations; lia.
Qed.

Lemma static_not_free g x : heap_ok g -> x ∈ static_nodes y -> ~ free_page g x.
Proof.
  intros Hg Hx Hf. pose proof layout_bounds as HB. destruct HL as [_ _ _ _ _ _ _ _ _ _ _ [_ Hn]]. rewrite Forall_forall in Hn.
  specialize (Hn x Hx). destruct (free_range g x Hg Hf). cbn in Hn. lia.
Qed.

(** Loading it: everything the kernel has in use stays. *)
Lemma boot_user_elf_ok k h hs n :
  let R := {[ user_addrspace y := Root ]} in
  stage (k_heap k) (k_mem k) R (wanted_count hs + (load_cost (collect hs []) + n)) -> program (k_mem k) h hs ->
  (forall x, hw_walk (k_mem k) (user_addrspace y) x = LNone) -> mapped_ram (k_mem k) -> tasks (k_sched k) !! root_task y = Some root_tcb ->
  (forall x, x ∈ static_nodes y -> x ∈ dom (links (k_sched k))) ->
  exists l a g' m' R', boot_user_elf y (root_task y) k =
      Ok (set_heap_memory (set_sched k (put_task (set_links (k_sched k) l) (root_task y) (loaded_tcb h a))) g' m') /\
    stage g' m' R' n /\ keeps (k_heap k) (k_mem k) R g' m' R' /\
    (forall sg, sg ∈ collect hs [] -> is_load sg = true ->
       in_place (k_mem k) (user_start y) g' m' R' [] (user_addrspace y) sg) /\
    (forall x, window 0 x -> vbase dev_region <= x -> hw_walk m' (user_addrspace y) x = LNone) /\
    private (user_addrspace y) g' m' R' [] /\ area_ok a /\ dom (links (k_sched k)) ⊆ dom l /\
    (forall x, x ∈ static_nodes y -> x ∉ [user_elf y; user_elf y + ELF_SEGS_OFFSET] -> l !! x = links (k_sched k) !! x).
Proof.
  intros R Hst HP Hz Hm Ht Hn. pose proof layout_bounds as HB. pose proof Hst as [Hg Htl Hi].
  assert (Hin : forall x, x ∈ other_nodes -> x ∈ dom (links (k_sched k))) by (intros x Hx; by apply Hn, other_no_head).
  unfold boot_user_elf. destruct (INIT_LIST_HEAD_ok (links (k_sched k)) (user_elf y)) as (l1 & -> & _ & T1).
  { apply Hin. do 4 right. by left. } cbn [obind].
  destruct (INIT_LIST_HEAD_ok l1 (user_elf y + ELF_SEGS_OFFSET)) as (l2 & -> & D2 & T2).
  { rewrite (proj1 T1). apply Hin. do 5 right. by left. } cbn [obind]. unfold get_task. rewrite Ht. cbn [obind].
  rewrite u64_id by (unfold RAM_END, RAM_VBASE, RAM_SIZE in *; lia).
  set (s := MkLoad _ _ _ _ _ _ _).
  destruct HP as [P1 P2%header_checks P3 P4 P5 P6 P7 P8].
  destruct (elf_initialize_ok s R n h hs) as (s' & R' & -> & HL' & _ & [B1 B2 B3 B4] & Hpl & Hrest & _ & Hlay & Hpriv).
  { constructor; try done; [|apply P2..]. cbn. unfold RAM_END, RAM_VBASE, RAM_SIZE in *. lia. }
  { intros x Hx. cbn in *. apply file_solid; try done; [right; by left|lia]. }
  { constructor; cbn; [done|done|done| |by intros x ?%not_elem_of_nil].
    apply static_not_free; [done|]. apply other_no_head. do 5 right. by left. }
  { intros sg Hsg Hl. split; [by apply P7|]. cbn. intros x _ _ d. by rewrite Hz. }
  { done. }
  destruct (layout_only_mm _ _ _ Hlay) as [a Ea]. cbn [obind Z.ltb Z.compare].
  exists (el_links s'), a, (el_heap s'), (el_mem s'), R'. split; [by rewrite Ea|]. destruct HL' as [L1 L2 L3 L4 L5].
  assert (Eas : addrspace (el_task s') = user_addrspace y) by (by rewrite Ea). rewrite Eas in L1.
  split; [constructor; [eapply heap_ok_same; [exact Hg|apply B1|apply L2]|done|done]|]. split; [exact B1|]. split; [exact Hpl|].
  split; [|split; [|split; [|split]]].
  - intros x Hx Hd. change (addrspace (el_task s)) with (user_addrspace y) in Hrest. rewrite Hrest; [apply Hz|done|].
    intros sg Hsg Hl [_ Hr]. destruct (P7 sg Hsg Hl) as [_ Hlow]. lia.
  - apply Hpriv. by apply private_empty.
  - pose proof (layout_area _ _ _ Hlay eq_refl) as Hao. rewrite Ea in Hao. apply Hao. split; [by left|done].
  - destruct T1 as [T1 _], T2 as [T2 _]. cbn in B3. by rewrite T2, T1 in B3.
  - intros x Hx Hno. rewrite B4; [|by apply static_not_free|cbn; intros ->; apply Hno; right; by left].
    cbn. rewrite (proj2 T2), (proj2 T1); [done|..]; intros ->%list_elem_of_singleton; apply Hno; [by left|right; by left].
Qed.

(** ** The first user task *)

Lemma dev_region_ok : region_ok 0 dev_region /\ forall x, in_region dev_region x <-> 0xf00000000 <= x < 0xf00001000.
Proof. split; [constructor; vm_compute; intuition congruence|]. intros x. done. Qed.

Definition stack_region (p : Z) : mem_region := MkRegion p USER_STACK_TOP CONFIG_DEFAULT_TASK_STACKSIZE.

Lemma stack_region_ok p : 0 <= p -> p + 8192 <= 2 ^ 48 -> p mod 4096 = 0 ->
  region_ok 0 (stack_region p) /\ forall x, in_region (stack_region p) x <-> 0x7fffffe000 <= x < 0x8000000000.
Proof.
  intros H1 H2 H3. assert (E : region_end (stack_region p) = 0x8000000000) by reflexivity.
  assert (Ev : vbase (stack_region p) = 0x7fffffe000) by reflexivity. split.
  - constructor; rewrite ?E, ?Ev; cbn [rsize pbase stack_region]; unfold CONFIG_DEFAULT_TASK_STACKSIZE; lia || done.
  - intros x. unfold in_region. rewrite E, Ev. done.
Qed.

(** What user code of the first task finds. *)
Record user_space (m0 : wmem) (hs : list Elf64_Phdr) (g : mm_gran) (m : wmem) (R : gmap Z role) : Prop := {
  us_segments : forall sg, sg ∈ collect hs [] -> is_load sg = true -> in_place m0 (user_start y) g m R [] (user_addrspace y) sg;
  us_device : sees m (user_addrspace y) dev_region (as_attr 0 RAM_DEVICE);
  us_stack : exists p, RAM_PBASE <= p /\ p + CONFIG_DEFAULT_TASK_STACKSIZE <= RAM_PBASE + RAM_SIZE /\
    sees m (user_addrspace y) (stack_region p) (as_attr (Z.lor PF_R PF_W) RAM_NORMAL);
  us_private : private (user_addrspace y) g m R []
}.

(** Pages: the device's tables, the stack and its tables. *)
Definition extra : nat := 4 + (2 + 4).

(** The stack is a block that was free. *)
Lemma stack_private g m R (g1 : mm_gran) g' m' R' p attr :
  private (user_addrspace y) g m R [] -> pt_inv (user_addrspace y) g m R -> block_taken g g1 p 2 ->
  pt_inv (user_addrspace y) g' m' R' -> keeps g m R g' m' R' -> sees m' (user_addrspace y) (stack_region (vbase_to_pbase p)) attr ->
  (forall x, in_region (stack_region (vbase_to_pbase p)) x <-> 0x7fffffe000 <= x < 0x8000000000) ->
  (forall x, window 0 x -> ~ in_region (stack_region (vbase_to_pbase p)) x -> hw_walk m' (user_addrspace y) x = hw_walk m (user_addrspace y) x) ->
  (forall q r, R' !! q = Some r -> R !! q = Some r \/ free_page g1 q) -> (forall q, free_page g' q -> free_page g1 q) ->
  private (user_addrspace y) g' m' R' [].
Proof.
  intros HP Hi Hb Hi' K Hsee Hin Hrest Hro Hfr. apply (extends_private (lo := 0x7fffffe000) (n := 2) (size := 0) (q := p) Hi); try done.
  - constructor; try done.
    + intros x Hx. destruct (Hsee x) as (at_ & Ht & _); [by apply Hin|]. exists at_. exact Ht.
    + intros i Hx. lia.
    + intros k Hk. pose proof (bt_was _ _ _ _ Hb k Hk) as Hf. assert (Hn1 : ~ free_page g1 k) by (by intros [_ ?]%(bt_free _ _ _ _ Hb)).
      split; [done|]. split; [|by intros ?%Hfr]. destruct (R' !! k) as [r|] eqn:E; [|done]. destruct (Hro k r E) as [E2|]; [|done].
      by rewrite (pt_free_unused _ _ _ _ Hi k Hf) in E2.
    + apply K.
    + apply K.
  - by intros q k ?%not_elem_of_nil.
Qed.

(** The two mappings that follow the program. *)
Lemma user_regions_ok g m R n m0 hs : stage g m R (extra + n) ->
  (forall sg, sg ∈ collect hs [] -> is_load sg = true ->
     seg_ok (user_end y - user_start y) sg /\ sg_vaddr sg + span sg <= vbase dev_region) ->
  (forall sg, sg ∈ collect hs [] -> is_load sg = true -> in_place m0 (user_start y) g m R [] (user_addrspace y) sg) ->
  (forall x, window 0 x -> vbase dev_region <= x -> hw_walk m (user_addrspace y) x = LNone) -> private (user_addrspace y) g m R [] ->
  exists g1 m1 g2 p g3 m3 R3, as_map g m (user_addrspace y) dev_region 0 RAM_DEVICE = Ok (g1, m1, 0) /\
    gran_alloc g1 CONFIG_DEFAULT_TASK_STACKSIZE = Ok (g2, p) /\
    as_map g2 m1 (user_addrspace y) (stack_region (vbase_to_pbase p)) (Z.lor PF_R PF_W) RAM_NORMAL = Ok (g3, m3, 0) /\
    stage g3 m3 R3 n /\ keeps g m R g3 m3 R3 /\ user_space m0 hs g3 m3 R3.
Proof.
  intros Hst Hseg Hpl Hnone Hpriv. destruct dev_region_ok as [Hdo Hdr].
  destruct (user_map_ok g m R (2 + 4 + n) dev_region 0 RAM_DEVICE Hst Hdo) as (g1 & m1 & R1 & E1 & S1 & K1 & See1 & F1 & _).
  { by vm_compute. } { intros x Hx [Hr _] d. by rewrite Hnone. }
  destruct (user_alloc_ok g1 m1 R1 (4 + n) CONFIG_DEFAULT_TASK_STACKSIZE) as (g2 & p & E2 & S2 & K2 & Hbt & Hp4 & Hp1 & Hp2 & Ep).
  { exact S1. } { by vm_compute. }
  change (pages_of CONFIG_DEFAULT_TASK_STACKSIZE) with 2 in Hp2.
  assert (Hpb : RAM_PBASE <= vbase_to_pbase p /\ vbase_to_pbase p + CONFIG_DEFAULT_TASK_STACKSIZE <= RAM_PBASE + RAM_SIZE /\
                vbase_to_pbase p mod 4096 = 0).
  { rewrite Ep. unfold RAM_VBASE, RAM_PBASE, RAM_SIZE, CONFIG_DEFAULT_TASK_STACKSIZE in *. Z.div_mod_to_equations. lia. }
  destruct Hpb as (B1 & B2 & B3).
  destruct (stack_region_ok (vbase_to_pbase p)) as [Hso Hsr]; [unfold RAM_PBASE, RAM_SIZE, CONFIG_DEFAULT_TASK_STACKSIZE in *; lia..|done|].
  destruct (user_map_ok g2 m1 R1 n (stack_region (vbase_to_pbase p)) (Z.lor PF_R PF_W) RAM_NORMAL S2)
    as (g3 & m3 & R3 & E3 & S3 & K3 & See3 & F3 & Hro & Hfr).
  { done. } { by vm_compute. }
  { intros x Hx Hr d. apply (proj1 (Hsr x)) in Hr. rewrite F1; [rewrite Hnone; [done|done|]|done|].
    - change (vbase dev_region) with 0xf00000000. lia.
    - intros Hd%(proj1 (Hdr _)). lia. }
  exists g1, m1, g2, p, g3, m3, R3. do 4 (split; [done|]).
  pose proof (keeps_trans _ _ _ _ _ _ _ _ _ K1 (keeps_trans _ _ _ _ _ _ _ _ _ K2 K3)) as K. split; [exact K|].
  constructor.
  - intros sg Hin Hl. destruct (Hseg sg Hin Hl) as [Hok Hlow]. change (vbase dev_region) with 0xf00000000 in Hlow.
    destruct (span_facts _ _ Hok) as (Hsp & _). eapply in_place_keep; [by apply Hpl|exact K|]. intros i Hi.
    assert (Hw : window 0 (sg_vaddr sg + i)) by (eapply seg_window; [exact Hok|unfold seg_range; lia]).
    rewrite F3; [apply F1; [done|]|done|].
    + intros Hd%(proj1 (Hdr _)). lia.
    + intros Hd%(proj1 (Hsr _)). lia.
  - eapply sees_frame; [exact See1|]. intros x Hx%(proj1 (Hdr _)). apply F3; [split; [done|lia]|]. intros Hd%(proj1 (Hsr _)). lia.
  - by exists (vbase_to_pbase p).
  - eapply (stack_private g1 m1 R1 g2 g3 m3 R3 p); try done; [|apply S1|apply S3|by eapply keeps_trans].
    eapply (private_device _ g m R g1 m1 R1 [] dev_region (as_attr 0 RAM_DEVICE)); [exact Hpriv|vm_compute; congruence|vm_compute; congruence|exact See1|exact F1|apply K1|]. intros w Hw. by apply K1.
Qed.

Lemma fresh_asids a ts : asid_wf 1 a -> (forall x t, ts !! x = Some t -> asid t = 0) -> asid_inv 1 a ts.
Proof.
  intros W Hz. destruct (num_asids_bounds 1 a W) as [Hn _].
  assert (Hno : forall x t, ts !! x = Some t -> ~ in_gen a t 1) by (intros x t Ht (low & E & Hl); rewrite (Hz x t Ht) in E; lia).
  constructor; [done|..].
  - intros p t Ht _. left. by apply (Hz p).
  - intros p t Ht _ Hg. by destruct (Hno p t Ht).
  - intros p q t u Ht _ _ _ _ Hg _. by destruct (Hno p t Ht).
Qed.

(** The two tasks of the running kernel. *)
Definition tasks_ready (h : Elf64_Ehdr) (a : mm_area) : gmap Z tcb :=
  <[root_task y := set_task_state (loaded_tcb h a) TSTATE_TASK_READYTORUN]>
    (<[idle_task y := set_task_state idle_tcb TSTATE_TASK_READYTORUN]> {[ root_task y := loaded_tcb h a ]}).

Lemma ready_dom h a : dom (tasks_ready h a) = {[ idle_task y; root_task y ]}.
Proof.
  unfold tasks_ready. rewrite !dom_insert_L, dom_singleton_L.
  by rewrite (union_comm_L {[ idle_task y ]}), union_assoc_L, union_idemp_L, union_comm_L.
Qed.

Lemma queue_nodes i z : qidx i -> z ∈ qhead i :: only 31 (idle_task y) i ->
  z ∈ static_nodes y /\ (z ∉ [root_task y; root_task y + MM_LINK_OFFSET]) /\ z ∉ [user_elf y; user_elf y + ELF_SEGS_OFFSET].
Proof.
  intros Hi Hz. assert (Hcase : is_head z \/ z = idle_task y).
  { apply elem_of_cons in Hz as [->|Hz]; [left; by exists i|right]. unfold only, upd in Hz.
    destruct (i =? 31); [by apply list_elem_of_singleton in Hz|by apply not_elem_of_nil in Hz]. }
  pose proof nodes_differ as Hnd. destruct Hcase as [Hh| ->].
  - split; [|split].
    + destruct Hh as (j & Hj & ->). apply (elem_of_app (g_pendingtasks :: map ready_head (seqZ 0 32))). left. by apply static_head.
    + intros Hx. destruct (other_no_head z) as [Hno _]; [|done]. do 2 right. apply (elem_of_app [_; _]). by left.
    + intros Hx. destruct (other_no_head z) as [Hno _]; [|done]. do 4 right. done.
  - apply NoDup_cons in Hnd as [Hnd _]. split; [apply other_no_head; by left|]. rewrite !not_elem_of_cons in Hnd.
    destruct Hnd as (_ & H1 & H2 & H3 & H4 & _). rewrite !not_elem_of_cons. pose proof (not_elem_of_nil (idle_task y)). tauto.
Qed.

(** [sched_attach] of the first task, whatever happened to its control block. *)
Lemma root_attach a k l ids h am now : idling a k -> asid_wf 1 a -> 0 < now ->
  dom (links k) ⊆ dom l -> (forall i z, qidx i -> z ∈ qhead i :: only 31 (idle_task y) i -> l !! z = links k !! z) ->
  let k1 := put_task (set_tids (set_links k l) ids) (root_task y) (loaded_tcb h am) in
  exists k' qs, sched_attach k1 (root_task y) = Ok k' /\ sys_inv now 1 k' qs /\ g_current_task k' = idle_task y /\
    asids k' = a /\ tasks k' = tasks_ready h am /\ keeps_nodes k1 k'.
Proof.
  intros [Hi Hc Ha Ht Hids Hn] W Hnow Hd Hl k1. pose proof nodes_differ as Hnd.
  assert (Hne : idle_task y <> root_task y) by (intros E; apply NoDup_cons in Hnd as [Hnd _]; apply Hnd; rewrite E; right; by left).
  assert (Et1 : tasks k1 = <[idle_task y := set_task_state idle_tcb TSTATE_TASK_READYTORUN]> {[ root_task y := loaded_tcb h am ]}).
  { cbn. rewrite Ht, insert_insert_ne by done. by rewrite insert_singleton_eq. }
  assert (Hnq : ~ queued (only 31 (idle_task y)) (root_task y)).
  { intros (i & _ & Hx). unfold only, upd in Hx.
    destruct (i =? 31); [by apply list_elem_of_singleton in Hx|by apply not_elem_of_nil in Hx]. }
  assert (Hi1 : sched_inv (fun _ => False) k1 (only 31 (idle_task y))).
  { apply (sched_inv_other _ k k1 _ (root_task y) (loaded_tcb h am)); try done.
    rewrite Ht, dom_insert_L, dom_singleton_L, elem_of_union. right. by apply elem_of_singleton. }
  destruct (second_task k1 (idle_task y) (root_task y) idle_tcb (loaded_tcb h am) 1 now) as (k' & qs & Hk & Hs & Hc' & Ha' & Ht' & _); try done.
  { change (asids k1) with (asids k). rewrite Ha. apply fresh_asids; [done|]. intros x t. rewrite Et1.
    intros [[_ <-]|[_ [_ <-]%lookup_singleton_Some]]%lookup_insert_Some; done. }
  exists k', qs. split; [exact Hk|]. split; [exact Hs|]. split; [exact Hc'|]. split; [by rewrite Ha'|].
  split; [by rewrite Ht', Et1|]. eapply attach_links; [exact Hi1|apply lookup_insert_eq|exact Hnq|exact Hk].
Qed.

Lemma root_task_create_ok a k h hs n now :
  let R := {[ user_addrspace y := Root ]} in
  idling a (k_sched k) -> asid_wf 1 a -> 0 < now ->
  stage (k_heap k) (k_mem k) R (wanted_count hs + (load_cost (collect hs []) + (extra + n))) -> program (k_mem k) h hs ->
  (forall x, hw_walk (k_mem k) (user_addrspace y) x = LNone) -> mapped_ram (k_mem k) ->
  exists s' g' m' R' qs am, root_task_create y k = Ok (set_heap_memory (set_sched k s') g' m') /\
    sys_inv now 1 s' qs /\ g_current_task s' = idle_task y /\ asids s' = a /\ tasks s' = tasks_ready h am /\
    stage g' m' R' n /\ keeps (k_heap k) (k_mem k) R g' m' R' /\ user_space (k_mem k) hs g' m' R' /\
    area_ok am /\ dlist (links s') (root_task y + MM_LINK_OFFSET) [].
Proof.
  intros R Hid W Hnow Hst HP Hz Hm. destruct (root_create_ok a (k_sched k) Hid) as (l & ids & Hc & Tc & Hmm).
  pose proof (pr_segs _ _ _ HP) as Hseg. unfold root_task_create. rewrite Hc. cbn [obind].
  set (k1 := set_sched k _).
  destruct (boot_user_elf_ok k1 h hs (extra + n)) as (l2 & am & g1 & m1 & R1 & -> & S1 & K1 & Hpl & Hnone & Hpriv & Hao & D2 & L2); try done.
  { cbn. apply lookup_insert_eq. } { intros x Hx. cbn. rewrite (proj1 Tc). by apply (id_nodes _ _ Hid). }
  cbn [obind k_heap k_mem set_heap_memory k_sched].
  destruct (user_regions_ok g1 m1 R1 n (k_mem k) hs S1 Hseg Hpl Hnone Hpriv) as (g2 & m2 & g3 & p & g4 & m4 & R4 & -> & H2 & H3 & S4 & K4 & HU).
  cbn [obind]. rewrite H2. cbn [obind]. fold (stack_region (vbase_to_pbase p)). rewrite H3. cbn [obind].
  destruct (root_attach a (k_sched k) l2 ids h am now Hid W Hnow) as (s' & qs & Hs & Hsys & Hcur & Ha & Ht & Hkn).
  { cbn in D2. by rewrite (proj1 Tc) in D2. }
  { intros i z Hi Hz2. destruct (queue_nodes i z Hi Hz2) as (Q1 & Q2 & Q3). rewrite L2 by done. cbn. by apply Tc. }
  assert (E : put_task (set_links (k_sched k1) l2) (root_task y) (loaded_tcb h am) =
              put_task (set_tids (set_links (k_sched k) l2) ids) (root_task y) (loaded_tcb h am)).
  { unfold k1, put_task, set_links, set_tids, set_tasks. cbn. by rewrite insert_insert_eq. }
  cbn [set_sched k_sched]. rewrite E, Hs. cbn [obind]. exists s', g4, m4, R4, qs, am.
  split; [done|]. do 5 (split; [done|]). split; [by eapply keeps_trans|]. split; [done|]. split; [done|].
  destruct mm_node as (Hmh & Hms & Hm1 & Hm2 & Hm3).
  apply (dlist_ext l); [done|]. intros x ->%list_elem_of_singleton.
  destruct (proj1 (elem_of_dom _ _) (dlist_dom _ _ _ _ Hmm (list_elem_of_here _ _))) as [v Hv]. rewrite Hv.
  apply Hkn; [|done|cbn; by rewrite L2].
  cbn. rewrite (id_tasks _ _ Hid), !dom_insert_L, dom_singleton_L, !not_elem_of_union, !not_elem_of_singleton. done.
Qed.

(** ** Interrupts *)

(** A controller of a version that the driver knows, whose redistributor wakes up. *)
Definition gic_answers (hardware : nat -> port -> Z) : Prop := forall k,
  bitfield_get (u32 (hardware k (Mmio GICD_PIDR2))) 4 4 ∈ [ARCH_REV_GICV3; ARCH_REV_GICV4] /\
  Z.land (u32 (hardware k (Mmio (GICR_WAKER 0)))) GICR_WAKER_ChildrenAsleep = 0.

Lemma irq_initialize_ok hardware : gic_answers hardware ->
  exists s, irq_initialize hardware (MkGic [] 0 0) = Ok (replicate 33 (MkIrq None 0 0), s) /\ 32 <= gic_max_int s <= 1024 /\
    forall init n, 0 <= n < gic_max_int s -> enabled init (writes s) n = false.
Proof.
  intros Hh. unfold irq_initialize.
  destruct (gic_initialize_cases hardware (MkGic [] 0 0)) as [(_ & [Hno|[k Hk]])|(s' & k1 & k2 & w & sre & c & -> & H2 & H3)].
  - destruct Hno. apply Hh.
  - destruct Hk. apply Hh.
  - set (max := spi_max _) in *. destruct (spi_max_ok (bitfield_get (u32 (hardware k1 (Mmio GICD_TYPER))) 0 5)) as (Hm & Hmod & _); [apply field5|].
    exists s'. cbn [obind]. split; [done|]. rewrite H2, H3. split; [exact Hm|]. intros init n Hn.
    by apply (all_disabled init max (affinity_of (hardware k2 (Sys MPIDR_EL1))) w sre c).
Qed.

Lemma timer_init_ok hardware cntfrq k : k_irqs k = replicate 33 (MkIrq None 0 0) ->
  timer_init hardware cntfrq k = Ok (set_irq (set_timer k (MkTimer (TICKS_PER_MS * 1000) 1))
    (irq_enable hardware IRQN_EL1_VIRT_TIMER (k_gic k)) (<[27%nat := MkIrq (Some timer_isr) 0 0]> (k_irqs k))).
Proof. intros E. unfold timer_init, irq_attach. cbn [generic_timer_init timer_irq k_irqs set_timer]. by rewrite E. Qed.

(** ** The whole start *)

(** The state in which the first interrupt finds the machine. *)
Record booted (m0 : wmem) (h : Elf64_Ehdr) (hs : list Elf64_Phdr) (now : Z) (st : started) : Prop := {
  bo_sys : exists qs, sys_inv now 1 (k_sched (st_kernel st)) qs;
  bo_current : this_task (st_kernel st) = idle_task y;
  bo_tasks : exists a, tasks (k_sched (st_kernel st)) = tasks_ready h a;
  bo_heap : gran_wf (k_heap (st_kernel st));
  bo_ttbr1 : st_ttbr1 st = vbase_to_pbase (kernel_addrspace y);
  bo_kernel : kernel_sees (k_mem (st_kernel st));
  bo_segments : forall sg, sg ∈ collect hs [] -> is_load sg = true ->
    user_sees m0 (user_start y) (k_mem (st_kernel st)) (user_addrspace y) sg;
  bo_device : sees (k_mem (st_kernel st)) (user_addrspace y) dev_region (as_attr 0 RAM_DEVICE);
  bo_stack : exists p, RAM_PBASE <= p /\ p + CONFIG_DEFAULT_TASK_STACKSIZE <= RAM_PBASE + RAM_SIZE /\
    sees (k_mem (st_kernel st)) (user_addrspace y) (stack_region p) (as_attr (Z.lor PF_R PF_W) RAM_NORMAL);
  bo_timer : k_irqs (st_kernel st) = <[27%nat := MkIrq (Some timer_isr) 0 0]> (replicate 33 (MkIrq None 0 0)) /\
    k_timer (st_kernel st) = MkTimer (TICKS_PER_MS * 1000) 1;
  bo_enabled : forall init n, 0 <= n < gic_max_int (k_gic (st_kernel st)) ->
    enabled init (writes (k_gic (st_kernel st))) n = (n =? IRQN_EL1_VIRT_TIMER);
  bo_waiting : sp_el1 (st_kernel st) = None;
  bo_program : let k := st_kernel st in exists R t, tasks (k_sched k) !! root_task y = Some t /\
    isolated (MkMM (k_heap k) (k_mem k) (links (k_sched k)) (k_vmas k) t (root_task y)) R [];
  bo_apart : forall x, x ∈ dom (tasks (k_sched (st_kernel st))) \/ is_head x ->
    x <> root_task y + MM_LINK_OFFSET /\ ~ free_page (k_heap (st_kernel st)) x
}.

(** The program has its memory to itself when the start is over. *)
Lemma program_isolated g m R n l h a : stage g m R n -> private (user_addrspace y) g m R [] -> area_ok a ->
  dlist l (root_task y + MM_LINK_OFFSET) [] ->
  isolated (MkMM g m l ∅ (set_task_state (loaded_tcb h a) TSTATE_TASK_READYTORUN) (root_task y)) R [].
Proof.
  intros [Hg Ht Hi] HP [Hb Hbrk] Hd. assert (Hbase : 0 <= mmap_base a <= 0x8000000000 /\ mmap_base a mod 4096 = 0).
  { by destruct Hb as [-> | ->]. }
  constructor; [constructor|exact HP|exact Hbrk]; cbn; try done; [apply Hg|apply Hg| |].
  - intros x ->%list_elem_of_singleton. apply static_not_free; [done|]. apply mm_node.
  - intros x Hx Hr. apply (pv_pages _ _ _ _ _ HP x Hx). lia.
Qed.

Lemma tasks_apart g h a x : heap_ok g -> x ∈ dom (tasks_ready h a) \/ is_head x -> x <> root_task y + MM_LINK_OFFSET /\ ~ free_page g x.
Proof.
  intros Hg Hx. destruct mm_node as (Hmh & Hms & Hm1 & Hm2 & _).
  assert (Hc : is_head x \/ x = idle_task y \/ x = root_task y).
  { destruct Hx as [Hx|Hx]; [right|by left].
    by rewrite ready_dom, elem_of_union, !elem_of_singleton in Hx. }
  split; [intros ->; destruct Hc as [?|[?|?]]; done|]. apply static_not_free; [done|]. destruct Hc as [(j & Hj & ->)|[-> | ->]].
  - apply (elem_of_app (g_pendingtasks :: map ready_head (seqZ 0 32))). left. by apply static_head.
  - apply other_no_head. by left.
  - apply other_no_head. do 2 right. by left.
Qed.

(** Pages that the start takes from the heap, at most. *)
Definition boot_pages (bits : Z) (hs : list Elf64_Phdr) : nat :=
  supply_for regions + (asid_pages bits + (wanted_count hs + (load_cost (collect hs []) + extra))).

Lemma keeps_file g m root g' m' R' : heap_ok g -> mapped_ram m -> root ∈ [kernel_addrspace y; user_addrspace y] ->
  keeps g m {[ root := Root ]} g' m' R' -> file_kept m m'.
Proof.
  intros Hg Hm Hr K x Hx. destruct (file_solid g m root Hg Hm Hr x Hx) as [Hs _]. unfold byte.
  by rewrite (proj1 (kp_solid _ _ _ _ _ _ K _ Hs)).
Qed.

Lemma mapped_dom m m' : mapped_ram m -> dom m' = dom m -> mapped_ram m'.
Proof. intros Hm Hd x Hx Hr. apply elem_of_dom. rewrite Hd. apply elem_of_dom. by apply Hm. Qed.

(** Memory when the kernel's tables are done: [m0] is the memory at power on. *)
Record prepared (m0 : wmem) (g : mm_gran) (m : wmem) (RK : gmap Z role) (n : nat) : Prop := {
  pd_stage : stage g m {[ user_addrspace y := Root ]} n;
  pd_ram : mapped_ram m;
  pd_file : file_kept m0 m;
  pd_empty : forall x, hw_walk m (user_addrspace y) x = LNone;
  pd_kernel : exists (g1 : mm_gran) m1, pt_inv (kernel_addrspace y) g1 m1 RK /\ kernel_sees m1 /\ kernel_kept m1 m RK;
  pd_solid : forall p r k, RK !! p = Some r -> 0 <= k < 512 -> solid g {[ user_addrspace y := Root ]} (p + 8 * k)
}.

(** Up to the kernel's tables. *)
Lemma memory_start m n : power_on y m -> (supply_for regions + n <= Z.to_nat heap_pages)%nat ->
  exists m1 g0 info g2 m2 RK, clear_bss y m = Ok m1 /\ mm_initialize y m1 = Ok (g0, heap_region, info) /\
    as_initialize g0 m1 (kernel_addrspace y) image user_region heap_region kernel_dev_ram =
      Ok (g2, m2, vbase_to_pbase (kernel_addrspace y)) /\ prepared m g2 m2 RK n.
Proof.
  intros HP Hn. pose proof layout_bounds as HB. destruct (clear_bss_ok m HP) as (m1 & E1 & D1 & _ & Z1 & O1 & F1).
  assert (Hm1 : mapped_ram m1) by (apply (mapped_dom m); [by destruct HP|done]).
  destruct (mm_initialize_ok m1) as (g0 & info & E2 & Hg0 & Ht0).
  { intros x Hx Hr. rewrite O1; [by apply HP|done|lia]. }
  assert (Hroots : forall root, root ∈ [kernel_addrspace y; user_addrspace y] -> empty_top m1 root).
  { intros root Hr k Hk. destruct HL as [_ _ _ _ _ _ _ _ _ Ha _ _]. rewrite Forall_forall in Ha. destruct (Ha root Hr) as (? & ? & ?).
    apply Z1; [Z.div_mod_to_equations; lia|lia]. }
  destruct (kernel_tables g0 m1 n Hg0) as (g2 & m2 & RK & E3 & Hg2 & Ht2 & HK & Hsee & Hpar & Hgr); try done.
  { eapply tail_less; [|exact Ht0]. lia. } { apply Hroots. by left. }
  destruct (user_stage g0 m1 n g2 m2 RK) as (Hst & Hsol & Hz & Hm2); try done.
  { apply Hroots. right. by left. }
  exists m1, g0, info, g2, m2, RK. do 3 (split; [done|]). constructor; try done.
  - intros x Hx. rewrite <- (F1 x) by lia.
    apply (keeps_file g0 m1 (kernel_addrspace y) g2 m2 RK); [done|done|by left|by apply grown_keeps|done].
  - intros x. by apply empty_walk.
  - by exists g2, m2.
Qed.

(** A step that keeps what is in use, and the walks of the user. *)
Lemma prepared_step m0 g m RK n g' m' n' : prepared m0 g m RK n -> stage g' m' {[ user_addrspace y := Root ]} n' ->
  keeps g m {[ user_addrspace y := Root ]} g' m' {[ user_addrspace y := Root ]} ->
  (forall x, hw_walk m' (user_addrspace y) x = hw_walk m (user_addrspace y) x) -> prepared m0 g' m' RK n'.
Proof.
  intros [S1 S2 S3 S4 (g1 & m1 & K1 & K2 & K3) S6] Hst K Hw. constructor; [done|..].
  - by apply (mapped_dom m); [|apply K].
  - intros x Hx. rewrite <- (S3 x Hx). eapply keeps_file; [apply S1|exact S2|right; by left|exact K|done].
  - intros x. by rewrite Hw.
  - exists g1, m1. split; [done|]. split; [done|]. intros p r k Hp Hk. rewrite <- (K3 p r k Hp Hk). by eapply K, S6.
  - intros p r k Hp Hk. by eapply (kp_solid _ _ _ _ _ _ K), S6.
Qed.

Lemma init_kernel_ok hardware CurrentEL id cntfrq c m bits h hs now :
  power_on y m -> program m h hs -> gic_answers hardware -> get_cpu_asid_bits id = Ok bits ->
  (boot_pages bits hs <= Z.to_nat heap_pages)%nat -> 0 < now ->
  exists st, init_kernel y hardware CurrentEL id cntfrq c m = Ok st /\ booted m h hs now st.
Proof.
  intros HP Hprog Hgic Hid Hn Hnow. unfold boot_pages in Hn.
  set (n2 := (load_cost (collect hs []) + (extra + 0))%nat).
  destruct (memory_start m (asid_pages bits + (wanted_count hs + n2)) HP) as (m1 & g0 & info & g2 & m2 & RK & E1 & E2 & E3 & PD).
  { unfold n2. lia. }
  destruct (irq_initialize_ok hardware Hgic) as (gic & E4 & Hmax & Hdis).
  destruct (asid_start_ok g2 m2 _ (wanted_count hs + n2) id bits Hid (pd_stage _ _ _ _ _ PD)) as (g3 & m3 & a & E5 & S3 & K3 & W3 & Haw & _).
  pose proof (prepared_step _ _ _ _ _ _ _ _ PD S3 K3 W3) as PD3.
  destruct (idle_ok a) as (s & E6 & Hidle).
  destruct (root_task_create_ok a (MkKernel s g3 m3 ∅ gic (replicate 33 (MkIrq None 0 0)) (MkTimer 0 0) 0 c None) h hs 0 now)
    as (s' & g' & m' & R' & qs & am & E7 & Hsys & Hcur & Has & Htasks & S' & K' & [U1 U2 U3 U4] & Hao & Hmm); try done.
  { apply (program_kept m); [apply PD3|done]. } { apply PD3. } { apply PD3. }
  eexists. split.
  - unfold init_kernel. rewrite E1. cbn [obind]. rewrite (surjective_pairing (init_image_info y)). fold image user_region.
    rewrite E2. cbn [obind]. rewrite E4. cbn [obind]. rewrite E3. cbn [obind]. rewrite E5. cbn [obind]. rewrite E6. cbn [obind].
    rewrite E7. cbn [obind]. rewrite timer_init_ok by done. cbn [obind]. done.
  - constructor; cbn [st_kernel st_ttbr1 set_irq set_timer set_heap_memory set_sched k_sched k_heap k_mem k_irqs k_timer k_gic sp_el1]; try done.
    + by exists qs.
    + by exists am.
    + apply S'.
    + destruct (pd_kernel _ _ _ _ _ PD3) as (g1 & mk & K1 & K2 & K3'). eapply kernel_still_sees; [exact K1| |exact K2].
      intros p r k Hp Hk. rewrite <- (K3' p r k Hp Hk). by eapply (kp_solid _ _ _ _ _ _ K'), (pd_solid _ _ _ _ _ PD3).
    + intros sg Hin Hl. destruct (pr_segs _ _ _ Hprog sg Hin Hl) as [Hok _]. eapply in_place_sees; [exact Hok|].
      eapply in_place_file; [exact Hok| |by apply U1]. intros x Hx. apply (pd_file _ _ _ _ _ PD3). lia.
    + intros init n0 Hn0. destruct (up_enable_wrote hardware IRQN_EL1_VIRT_TIMER gic) as [[_ Em] _]; [done|lia|].
      change (up_enable_irq hardware IRQN_EL1_VIRT_TIMER gic) with (irq_enable hardware IRQN_EL1_VIRT_TIMER gic) in Em. rewrite Em in Hn0.
      destruct (irq_enable_set hardware init gic IRQN_EL1_VIRT_TIMER n0) as (-> & _); [done|lia|lia|].
      rewrite Hdis by lia. apply orb_false_r.
    + exists R', (set_task_state (loaded_tcb h am) TSTATE_TASK_READYTORUN). rewrite Htasks. split; [apply lookup_insert_eq|].
      by apply (program_isolated g' m' R' 0 (links s') h am).
    + intros x Hx. rewrite Htasks in Hx. apply (tasks_apart g' h am x); [apply S'|done].
Qed.

(** ** The first interrupt *)

Lemma idle_not_root : idle_task y <> root_task y.
Proof. pose proof nodes_differ as Hnd. intros E. apply NoDup_cons in Hnd as [Hnd _]. apply Hnd. rewrite E. right. by left. Qed.

Lemma ready_lookup h a x t : tasks_ready h a !! x = Some t ->
  (x = root_task y /\ t = set_task_state (loaded_tcb h a) TSTATE_TASK_READYTORUN) \/
  (x = idle_task y /\ t = set_task_state idle_tcb TSTATE_TASK_READYTORUN).
Proof.
  unfold tasks_ready. intros [[<- <-]|[Hr Hx]]%lookup_insert_Some; [by left|right].
  apply lookup_insert_Some in Hx as [[<- <-]|[_ Hx]]; [done|]. by apply lookup_singleton_Some in Hx as [? _].
Qed.

Lemma ready_root h a : tasks_ready h a !! root_task y = Some (set_task_state (loaded_tcb h a) TSTATE_TASK_READYTORUN).
Proof. apply lookup_insert_eq. Qed.

Lemma ready_size h a : base.size (tasks_ready h a) = 2%nat.
Proof.
  unfold tasks_ready. rewrite map_size_insert_Some, map_size_insert_None, map_size_singleton; [done|..].
  - apply lookup_singleton_ne. intros E. by apply idle_not_root.
  - rewrite lookup_insert_ne by apply idle_not_root. rewrite lookup_singleton_eq. by eexists.
Qed.

Lemma pick_none cur l x : pick cur l = None -> x ∈ l -> x = cur.
Proof.
  induction l as [|z l IH]; [by intros _ ?%not_elem_of_nil|]. cbn [pick]. destruct (Z.eqb_spec cur z) as [<-|]; [|done].
  intros Hp [->|Hx]%elem_of_cons; [done|by apply IH].
Qed.

(** Who is ready at a priority, after the pending tasks have been looked at. *)
Lemma ready_has ex time k qs q x : sched_inv ex k qs -> 0 <= q < 32 ->
  x ∈ qs q ++ of_prio (tasks k) q (woken time 0 (tasks k) (qs PEND)) -> exists t, tasks k !! x = Some t /\ sched_priority t = q.
Proof.
  intros Hsi Hq [Hx|Hx]%elem_of_app.
  - pose proof (si_tasks _ _ _ Hsi q x ltac:(unfold qidx; lia) Hx) as [t Hx2]%elem_of_dom. exists t. split; [done|].
    by apply (si_ready _ _ _ Hsi q x t).
  - apply elem_of_prio in Hx as [Hp [Hx _]%woken_due].
    pose proof (si_tasks _ _ _ Hsi PEND x qidx_pend Hx) as [t Hx2]%elem_of_dom. exists t. split; [done|].
    unfold prio_of in Hp. by rewrite Hx2 in Hp.
Qed.

(** The scheduler leaves the idle task for the user's. *)
Lemma first_switch fuel time now t1 k qs h a k' : sys_inv now 1 k qs -> g_current_task k = idle_task y -> tasks k = tasks_ready h a ->
  (forall i, now <= time i <= t1) -> t1 < 2 ^ 63 -> 0 < now -> (2 < fuel)%nat -> schedule fuel time k = Ok k' ->
  g_current_task k' = root_task y.
Proof.
  intros [Hki Hqd _ _] Hc Ht Htime Ht1 Hnow Hf Hk. pose proof (ki_sched _ _ _ Hki) as Hsi.
  assert (Hprio : forall x t, tasks k !! x = Some t -> (x = root_task y /\ sched_priority t = 10) \/ (x = idle_task y /\ sched_priority t = 31)).
  { intros x t. rewrite Ht. by intros [[-> ->]|[-> ->]]%ready_lookup; [left|right]. }
  assert (Hdue : forall x t i, tasks k !! x = Some t -> due time i (tasks k) x = true).
  { intros x t i Hx. assert (readytime t = 0) by (rewrite Ht in Hx; by apply ready_lookup in Hx as [[_ ->]|[_ ->]]).
    apply (due_iff time i _ x t now Hx); [lia| |specialize (Htime i); lia]. intros j. specialize (Htime j). lia. }
  destruct (num_asids_bounds 1 (asids k)) as [Hna _]; [apply (ki_asid _ _ _ Hki)|].
  destruct (schedule_ok fuel time 1 k qs Hki) as (k2 & qs2 & g2 & E & _ & _ & _ & Hs & _); [|lia| |].
  { intros i (Hin & t & Hx & _). apply in_woken; [|done]. intros j. by apply (Hdue _ t). }
  { by rewrite Ht, ready_size. }
  rewrite Hk in E. injection E as <-. set (ready := fun p => _) in Hs.
  assert (Hin : forall q x, 0 <= q < 32 -> x ∈ ready q -> exists t, tasks k !! x = Some t /\ sched_priority t = q)
    by (intros; by eapply ready_has).
  assert (Hroot : root_task y ∈ ready 10).
  { assert (Hr : tasks k !! root_task y = Some (set_task_state (loaded_tcb h a) TSTATE_TASK_READYTORUN)) by (rewrite Ht; apply ready_root).
    destruct (Hqd (root_task y)) as (i & Hi & Hx); [apply elem_of_dom; by eexists|]. apply elem_of_app.
    destruct (Z.eq_dec i PEND) as [->|Hne]; [right|left].
    - apply elem_of_prio. split; [by unfold prio_of; rewrite Hr|]. apply in_woken; [|done]. intros j. by eapply Hdue.
    - assert (Hi2 : 0 <= i < 32) by (unfold qidx, PEND in *; lia). by destruct (si_ready _ _ _ Hsi i _ _ Hi2 Hx Hr) as [<- _]. }
  destruct Hs as [[Hall _]|(p & Hp & Hne & Hlow & Hpick)]; [rewrite Hall in Hroot by lia; by apply not_elem_of_nil in Hroot|].
  assert (p = 10) as ->.
  { destruct (ready p) as [|x l] eqn:Er; [done|]. destruct (Hin p x Hp) as (t & Hx & Hpt); [rewrite Er; by left|].
    destruct (Z.lt_ge_cases 10 p); [rewrite Hlow in Hroot by lia; by apply not_elem_of_nil in Hroot|].
    destruct (Hprio x t Hx); lia. }
  rewrite Hc in Hpick. destruct (pick (idle_task y) (ready 10)) as [x|] eqn:Epick.
  - destruct Hpick as [-> _]. destruct (pick_split _ _ _ Epick) as (l1 & l2 & El & Hxi).
    destruct (Hin 10 x) as (t & Hx & _); [lia|rewrite El; apply elem_of_app; right; by left|]. by destruct (Hprio x t Hx) as [[? _]|[? _]].
  - exfalso. apply idle_not_root. symmetry. by apply (pick_none _ (ready 10)).
Qed.
End Start.

(** What the first timer interrupt finds and leaves. *)
Section FirstTick.
Context `{KernelLayout} (y : symbols) (HL : linked y).

Lemma first_tick_ok m0 h hs now st hardware' T time t1 fuel : booted y m0 h hs now st -> 0 < now ->
  (forall k, Z.land (hardware' k (Sys ICC_IAR1_EL1)) INTID_MASK = IRQN_EL1_VIRT_TIMER) ->
  (forall i, now <= time i <= t1) -> t1 < 2 ^ 63 -> (2 < fuel)%nat ->
  exists k' g qs, cur_el_irq fuel hardware' T time (st_kernel st) = Ok k' /\ running t1 g k' qs /\ g <= 2 /\ this_task k' = root_task y /\
    elr_el1 (k_cpu k') = h_entry h /\ sp_el0 (k_cpu k') = 2 ^ 39 /\ spsr_el1 (k_cpu k') = PSTATE_USER /\
    k_mem k' = k_mem (st_kernel st) /\ dom (tasks (k_sched k')) = {[ idle_task y; root_task y ]} /\
    k_irqs k' = <[27%nat := MkIrq (Some timer_isr) 0 1]> (replicate 33 (MkIrq None 0 0)) /\
    schedule fuel time (k_sched (st_kernel st)) = Ok (k_sched k') /\ k_heap k' = k_heap (st_kernel st) /\ k_vmas k' = k_vmas (st_kernel st).
Proof.
  intros [(qs & Hsys) Hcur (a & Ht) _ _ _ _ _ _ [Htm _] _ Hw _ _] Hnow Hiar Htime Ht1 Hf. set (k := st_kernel st) in *.
  destruct (num_asids_bounds 1 (asids (k_sched k))) as [Hna _]; [apply (ki_asid _ _ _ (sys_kernel _ _ _ _ Hsys))|].
  assert (Hctx : forall x f, context_at k x = Some f -> length f = 34%nat).
  { intros x f. unfold context_at. rewrite Ht. intros (t & Hx & ->)%fmap_Some.
    by apply (ready_lookup y) in Hx as [[_ ->]|[_ ->]]. }
  destruct (decode_timer fuel hardware' T time now t1 1 k qs 0 0)
    as (k' & g' & qs' & Hk & Hsch & Hrun & Hreg & Hg & Hd & _ & _ & _ & Hv & _ & Hh & Hm & Hvm); try done; [by rewrite Htm| | | |].
  { specialize (Htime 0%nat). lia. } { lia. } { by rewrite Ht, ready_size. }
  assert (Hroot : this_task k' = root_task y) by (by eapply first_switch).
  exists k', g', qs'. split; [unfold cur_el_irq, store_context; fold k; by rewrite Hw|]. split; [done|]. split; [lia|]. split; [done|].
  specialize (Hreg (root_task y)). unfold registers, context_at in Hreg. rewrite Hroot, Z.eqb_refl, Ht, ready_root in Hreg.
  injection Hreg as Hreg. rewrite <- (cpu_of_frame (k_cpu k')) by apply Hrun. rewrite Hreg. do 4 (split; [done|]). split; [|split; [|done]].
  - rewrite Hd, Ht. apply ready_dom.
  - by rewrite Hv, Htm.
Qed.
End FirstTick.

(** Where a start can succeed: the layout, memory at power on, a program, a
    controller that answers, and enough pages. *)
Record startable `{KernelLayout} (y : symbols) (hardware : nat -> port -> Z) (id : Z) (m : wmem) (bits : Z)
    (h : Elf64_Ehdr) (hs : list Elf64_Phdr) : Prop := {
  sa_linked : linked y;
  sa_memory : power_on y m;
  sa_program : program y m h hs;
  sa_gic : gic_answers hardware;
  sa_asid : get_cpu_asid_bits id = Ok bits;
  sa_pages : (boot_pages y bits hs <= Z.to_nat (heap_pages y))%nat
}.

(** ** A small machine *)

(** The image and the heap fill the last 384 KiB of memory; the program is the
    one of [TinyElf]. *)
Module SmallImage.
Definition base : Z := RAM_END - 0x60000.

#[local] Instance layout : KernelLayout := {| g_readytorun := base + 0x5000; g_pendingtasks := base + 0x5800 |}.

Definition y : symbols := MkSymbols RAM_VBASE base (base + 0x1000) (base + 0x1000) (base + 0x2000) (base + 0x2000) (base + 0x3000)
  (base + 0x3000) (base + 0x7000) (base + 0x7000) (base + 0x8000) base (base + 0x400) (base + 0x6800)
  (base + 0x5a00) (base + 0x5e00) (base + 0x6200) (base + 0x3000) (base + 0x4000).

Definition words : list Z := map (fun i => base + 0x3000 + 8 * i) (seqZ 0 (0x5d000 / 8)).
Definition file : wmem := list_to_map (TinyElf.words 24 (base + 0x7000) (TinyElf.image TinyElf.text (TinyElf.bss 0x402000))).
Definition memory : wmem := file ∪ gset_to_gmap 0 (list_to_set words).

Definition header : Elf64_Ehdr := MkEhdr [0x7f; 69; 76; 70; 2; 1; 1; 0; 0; 0; 0; 0; 0; 0; 0; 0] 2 183 1 0x400000 64 0 0 64 56 2 64 1 0.

Lemma small_linked : linked y.
Proof.
  constructor; try (cbn; unfold base, RAM_END, RAM_VBASE, RAM_SIZE; lia).
  - repeat constructor.
  - repeat constructor.
  - repeat constructor; cbn; unfold base, RAM_END, RAM_VBASE, RAM_SIZE; lia.
  - split; [apply (bool_decide_unpack _); by vm_compute|]. apply Forall_forall. intros x Hx.
    assert (Hf : forallb (fun z => (kernel_bss_start y <=? z) && (z <? kernel_bss_end y)) (static_nodes y) = true) by (by vm_compute).
    rewrite forallb_forall in Hf. specialize (Hf x). rewrite <- list_elem_of_In in Hf. specialize (Hf Hx). breflect. lia.
Qed.

Lemma file_bounds x w : file !! x = Some w -> base + 0x7000 <= x < base + 0x7000 + 192 /\ 0 <= w < 2 ^ 64.
Proof.
  intros Hx. apply elem_of_list_to_map_2 in Hx.
  assert (Hf : forallb (fun xw => (base + 0x7000 <=? xw.1) && (xw.1 <? base + 0x7000 + 192) && (0 <=? xw.2) && (xw.2 <? 2 ^ 64))
    (TinyElf.words 24 (base + 0x7000) (TinyElf.image TinyElf.text (TinyElf.bss 0x402000))) = true) by (by vm_compute).
  rewrite forallb_forall in Hf. specialize (Hf (x, w)). rewrite <- list_elem_of_In in Hf. specialize (Hf Hx). cbn [fst snd] in Hf.
  breflect. lia.
Qed.

Lemma zero_word x : x mod 8 = 0 -> base + 0x3000 <= x < RAM_END -> gset_to_gmap 0 (list_to_set words : gset Z) !! x = Some 0.
Proof.
  intros Hx Hr. apply lookup_gset_to_gmap_Some. split; [|done]. apply elem_of_list_to_set, list_elem_of_fmap.
  exists ((x - (base + 0x3000)) / 8). unfold base, RAM_END, RAM_VBASE, RAM_SIZE in *.
  split; [|apply elem_of_seqZ; change (0x5d000 / 8) with 0xba00]; Z.div_mod_to_equations; lia.
Qed.

Lemma small_power_on : power_on y memory.
Proof.
  constructor.
  - intros x w [Hx|[_ Hx]]%lookup_union_Some_raw; [exact (proj2 (file_bounds _ _ Hx))|].
    apply lookup_gset_to_gmap_Some in Hx as [_ <-]. done.
  - intros x Hx Hr. unfold memory. rewrite lookup_union, (zero_word x Hx Hr). destruct (file !! x); by eexists.
  - intros x Hx Hr. unfold memory. rewrite lookup_union_r; [apply zero_word; [done|cbn in Hr; lia]|].
    destruct (file !! x) as [w|] eqn:E; [|done]. apply file_bounds in E as [E _]. cbn in Hr. lia.
Qed.

Lemma byte_union (f z : wmem) x : is_Some (f !! word x) -> byte (f ∪ z) x = byte f x.
Proof. intros [w Hw]. unfold byte. by rewrite (lookup_union_Some_l _ _ _ _ Hw), Hw. Qed.

(** The bytes of the program are those of the file. *)
Lemma file_bytes x : base + 0x7000 <= x < base + 0x7000 + 192 -> byte memory x = byte file x.
Proof.
  intros Hx. apply byte_union.
  assert (Hf : forallb (fun k => bool_decide (is_Some (file !! (base + 0x7000 + 8 * k)))) (seqZ 0 24) = true) by (by vm_compute).
  rewrite forallb_forall in Hf. specialize (Hf ((x - (base + 0x7000)) / 8)). apply bool_decide_eq_true in Hf.
  - replace (word x) with (base + 0x7000 + 8 * ((x - (base + 0x7000)) / 8)); [exact Hf|].
    unfold word, base, RAM_END, RAM_VBASE, RAM_SIZE. Z.div_mod_to_equations. lia.
  - apply list_elem_of_In, elem_of_seqZ. Z.div_mod_to_equations. lia.
Qed.

Lemma small_program : program y memory header TinyElf.hs.
Proof.
  constructor.
  - rewrite (read_ehdr_ext file); [by vm_compute|]. intros x Hx. apply file_bytes. cbn in Hx. lia.
  - apply header_checks. by vm_compute.
  - done.
  - split; vm_compute; congruence.
  - intros i ph Hi. rewrite (read_phdr_ext file).
    + destruct i as [|[|i]]; [| |discriminate Hi]; injection Hi as <-; by vm_compute.
    + intros x Hx. apply file_bytes. apply lookup_lt_Some in Hi. cbn in Hx, Hi. unfold SIZEOF_PHDR in *. lia.
  - repeat constructor; vm_compute; congruence.
  - intros sg Hin _. apply elem_of_cons in Hin as [->|Hin]; [|apply list_elem_of_singleton in Hin as ->];
      (split; [constructor; [first [left; reflexivity|right; reflexivity]|..]|]; vm_compute; intuition congruence).
  - cbn [ElfLoad.apart collect TinyElf.hs]. split; [|split; [|exact I]].
    + intros sg Hin _ _ x Hx Hx2. apply list_elem_of_singleton in Hin as ->.
      change (0x402000 <= x < 0x402000 + 0x1000) in Hx. change (0x400000 <= x < 0x400000 + 0x1000) in Hx2. lia.
    + intros sg Hin. by apply not_elem_of_nil in Hin.
Qed.

Lemma small_pages : (boot_pages y 8 TinyElf.hs <= Z.to_nat (heap_pages y))%nat.
Proof. apply Nat.leb_le. by vm_compute. Qed.

Lemma small_startable : startable y GicSpec.quiet 0 memory 8 header TinyElf.hs.
Proof.
  constructor; [exact small_linked|exact small_power_on|exact small_program| |reflexivity|exact small_pages].
  intros k. split; [left|reflexivity].
Qed.
End SmallImage.

Module StartSpec.

(** C1: the kernel boots.  From the layout of the linker script, memory in which
    the heap is zero, a valid program in the image and an interrupt controller
    that answers, with enough pages behind the image, [init_kernel] returns: no
    assertion fails, no address faults, no loop runs away.  All invariants of
    the scheduler hold, the idle task is current and the user task ready with
    its entry point, stack and mode; the heap is well formed; the kernel sees its
    sections, the heap and the devices through its own tables with their
    permissions; user code finds every byte of its program, the device page and
    the stack, and none of its addresses leads to a table, to a free page or to the
    byte of another; the timer is set, and its interrupt is attached and the only one
    enabled. *)
Theorem init_kernel_boots `{KernelLayout} y hardware CurrentEL id cntfrq c m bits h hs now :
  startable y hardware id m bits h hs -> 0 < now ->
  exists st, init_kernel y hardware CurrentEL id cntfrq c m = Ok st /\ booted y m h hs now st.
Proof. intros [HL HP Hprog Hgic Hid Hn]. by eapply init_kernel_ok. Qed.

#[local] Existing Instance SmallImage.layout.

Definition registers_at_reset : cpu := MkCpu (replicate 31 0) 0 0 0.

(** The small machine: user code can read the second byte of the segment at
    0x402000, and nothing but the timer interrupts. *)
Lemma init_kernel_boots_witness : exists st,
  init_kernel SmallImage.y GicSpec.quiet 4 0 62500000 registers_at_reset SmallImage.memory = Ok st /\
  this_task (st_kernel st) = SmallImage.base + 0x5a00 /\
  (exists pa at_, translate 0x402001 (hw_walk (k_mem (st_kernel st)) (SmallImage.base + 0x4000) 0x402001) = Some (pa, at_) /\
     writable at_ = true /\ byte (k_mem (st_kernel st)) (pbase_to_vbase pa) = Some 12) /\
  k_timer (st_kernel st) = MkTimer 62500000 1.
Proof.
  destruct (init_kernel_boots SmallImage.y GicSpec.quiet 4 0 62500000 registers_at_reset SmallImage.memory 8
              SmallImage.header TinyElf.hs 1) as (st & Hst & [_ Hcur _ _ _ _ Hseg _ _ [_ Htm] _ _ _ _]).
  - exact SmallImage.small_startable.
  - lia.
  - exists st. split; [exact Hst|]. split; [exact Hcur|]. split; [|exact Htm].
    destruct (Hseg (segment_of (TinyElf.bss 0x402000))) with (i := 1) as (pa & at_ & Ht & Hp & Hb & _).
    + left.
    + reflexivity.
    + split; vm_compute; congruence.
    + exists pa, at_. split; [exact Ht|]. split; [apply Hp|]. rewrite Hb. change (1 <? sg_filesz (segment_of (TinyElf.bss 0x402000))) with true.
      cbv iota. rewrite SmallImage.file_bytes by (split; vm_compute; congruence). vm_compute. reflexivity.
Defined.

(** C4: the first instruction of the program.  When the timer fires for the
    first time after the start, the vector leaves the idle task and enters the
    user task in user mode at the entry point of its image, with its stack
    pointer at the top of the user window; the invariants hold, and memory is as
    [init_kernel] left it. *)
Theorem first_user_instruction `{KernelLayout} y hardware hardware' CurrentEL id cntfrq c m bits h hs now T time t1 fuel :
  startable y hardware id m bits h hs -> 0 < now ->
  (forall k, Z.land (hardware' k (Sys ICC_IAR1_EL1)) INTID_MASK = IRQN_EL1_VIRT_TIMER) ->
  (forall i, now <= time i <= t1) -> t1 < 2 ^ 63 -> (2 < fuel)%nat ->
  exists st k' g qs, init_kernel y hardware CurrentEL id cntfrq c m = Ok st /\
    cur_el_irq fuel hardware' T time (st_kernel st) = Ok k' /\ running t1 g k' qs /\ this_task k' = root_task y /\
    elr_el1 (k_cpu k') = h_entry h /\ sp_el0 (k_cpu k') = 2 ^ 39 /\ spsr_el1 (k_cpu k') = PSTATE_USER /\
    k_mem k' = k_mem (st_kernel st).
Proof.
  intros [HL HP Hprog Hgic Hid Hn] Hnow Hiar Htime Ht1 Hf.
  destruct (init_kernel_ok y HL hardware CurrentEL id cntfrq c m bits h hs now) as (st & Hst & HB); try done.
  destruct (first_tick_ok y HL m h hs now st hardware' T time t1 fuel) as (k' & g & qs & Hk & Hr & _ & Hroot & He & Hsp & Hps & Hm & _); try done.
  by exists st, k', g, qs.
Qed.

Lemma first_user_instruction_witness : exists st k',
  init_kernel SmallImage.y GicSpec.quiet 4 0 62500000 registers_at_reset SmallImage.memory = Ok st /\
  cur_el_irq 3 TrapSpec.ticking 9 (fun _ => 10) (st_kernel st) = Ok k' /\ elr_el1 (k_cpu k') = 0x400000.
Proof.
  destruct (first_user_instruction SmallImage.y GicSpec.quiet TrapSpec.ticking 4 0 62500000 registers_at_reset SmallImage.memory 8
              SmallImage.header TinyElf.hs 1 9 (fun _ => 10) 10 3) as (st & k' & g & qs & H1 & H2 & _ & _ & H3 & _).
  - exact SmallImage.small_startable.
  - lia.
  - intros k. reflexivity.
  - lia.
  - lia.
  - lia.
  - exists st, k'. split; [exact H1|]. split; [exact H2|exact H3].
Defined.

(** The stack of the program is executable: the protection bits are the ELF
    flags, which mean something else. *)
Theorem user_stack_executable `{KernelLayout} y m0 h hs now st : booted y m0 h hs now st ->
  forall x, USER_STACK_TOP <= x < USER_STACK_TOP + CONFIG_DEFAULT_TASK_STACKSIZE -> exists pa at_,
    translate x (hw_walk (k_mem (st_kernel st)) (user_addrspace y) x) = Some (pa, at_) /\
    user_access at_ = true /\ writable at_ = true /\ user_exec at_ = true.
Proof.
  intros HB x Hx. destruct (bo_stack _ _ _ _ _ _ HB) as (p & _ & _ & Hs). destruct (Hs x) as (at_ & Ht & E).
  { unfold in_region. change (region_end (stack_region p)) with (USER_STACK_TOP + CONFIG_DEFAULT_TASK_STACKSIZE). exact Hx. }
  eexists _, at_. split; [exact Ht|]. unfold user_access, writable, user_exec. rewrite !(attr_same _ _ _ E) by lia. done.
Qed.
End StartSpec.
