(* ===== verification/System.v ===== *)
(** * The running system

    After the start the kernel is entered by exceptions only.  The file puts the
    handlers of [Traps] into one step relation, with user code in between, and
    shows that the machine that [Start] boots never stops. *)

From Stdlib Require Import ZArith Lia Bool.
From stdpp Require Import base numbers list gmap.
From S2P Require Import Prelude Board Gran KList Task Sched Timer SchedFrame PageTable AddrSpace Bytes Mmap Elf ElfLoad Gic Traps Init Start.
#[local] Open Scope Z_scope.

(** ** Steps *)

(** User code runs: any registers, any contents of memory. *)
Definition user_runs (k : kernel) (c : cpu) (m : wmem) : kernel :=
  MkKernel (k_sched k) (k_heap k) m (k_vmas k) (k_gic k) (k_irqs k) (k_timer k) (g_current_time k) c (sp_el1 k).

Section Steps.
Context `{KernelLayout}.
Variable fuel : nat.

(** A request of [nanosleep] that the kernel can read, in the range of the clock. *)
Definition sleep_request (k : kernel) (T : Z) : Prop :=
  let frame := frame_of (k_cpu k) in
  reg frame X8 = __NR_nanosleep /\ exists sec nsec,
    load_long k (param frame 0) = Ok sec /\ load_long k (param frame 0 + 8) = Ok nsec /\
    0 <= sec /\ 0 <= nsec < 1000000000 /\ T + sec * TICKS_PER_S < 2 ^ 63.

(** A request of [brk] that does not grow the heap: a query or a smaller break. *)
Definition brk_request (k : kernel) : Prop :=
  let frame := frame_of (k_cpu k) in let b := param frame 0 in
  reg frame X8 = __NR_brk /\ exists t, tasks (k_sched k) !! this_task k = Some t /\
    (b < start_brk (mm t) \/ s32 (b - brk (mm t)) <= 0).

(** [step k now o t]: something that can happen in [k] at time [now], what the
    kernel does then, and a time by which it is done.  [hardware] answers the
    reads of the controller, [time] those of the counter. *)
Inductive step (k : kernel) (now : Z) : outcome kernel -> Z -> Prop :=
| step_user c m : length (gpr c) = 31%nat -> step k now (Ok (user_runs k c m)) now
| step_irq hardware T time t :
    let irq := Z.land (hardware (nreads (k_gic k)) (Sys ICC_IAR1_EL1)) INTID_MASK in
    irq < NR_IRQS \/ irq = 1023 -> (forall i, now <= time i <= t) -> t < 2 ^ 63 ->
    step k now (lower_el_irq fuel hardware T time k) t
| step_call T time t esr far :
    Z.shiftr esr ESR_EC_SHIFT = ESR_EC_LEL_SVC64 ->
    is_Some (plain_result (reg (frame_of (k_cpu k)) X8)) \/ sleep_request k T \/ brk_request k ->
    now <= T -> (forall i, T <= time i <= t) -> t < 2 ^ 63 ->
    step k now (lower_el_sync fuel T time esr far k) t.

(** [n] steps, each of which the kernel finished. *)
Inductive steps (k0 : kernel) (now0 : Z) : nat -> kernel -> Z -> Prop :=
| steps_zero : steps k0 now0 0 k0 now0
| steps_more n k now k' t : steps k0 now0 n k now -> step k now (Ok k') t -> steps k0 now0 (S n) k' t.

(** ** The invariant *)

(** Only the timer's interrupt has a handler. *)
Definition irqs_ok (v : list irq_info) : Prop :=
  length v = 33%nat /\ forall i e, v !! i = Some e -> handler e = if decide (i = 27%nat) then Some timer_isr else None.

(** The tasks of the system; the list walks have fuel for them. *)
Variable D : gset Z.
Hypothesis HD : (base.size D < fuel)%nat.

(** [n] is the number of times the identifiers may still roll over. *)
Record alive (n : Z) (k : kernel) (now : Z) : Prop := {
  al_running : exists g qs, running now g k qs /\ g + n < 65536;
  al_irqs : irqs_ok (k_irqs k);
  al_tasks : dom (tasks (k_sched k)) = D
}.

Lemma alive_less n n' k now : n' <= n -> alive n k now -> alive n' k now.
Proof. intros Hn [(g & qs & Hr & Hg) H2 H3]. constructor; try done. exists g, qs. split; [done|lia]. Qed.

Lemma irqs_count v i e c : irqs_ok v -> v !! i = Some e -> irqs_ok (<[i := MkIrq (handler e) (arg e) c]> v).
Proof.
  intros [Hl Hh] Hi. split; [by rewrite length_insert|]. intros j e'. destruct (decide (j = i)) as [->|].
  - rewrite list_lookup_insert_eq by (by eapply lookup_lt_Some). intros [= <-]. by apply (Hh i e).
  - rewrite list_lookup_insert_ne by done. apply Hh.
Qed.

(** Nothing happened to the memory of any task: the heap, its contents, the areas
    and their lists, and the layouts. *)
Record quiet (k k' : kernel) : Prop := {
  qt_heap : k_heap k' = k_heap k;
  qt_mem : k_mem k' = k_mem k;
  qt_vmas : k_vmas k' = k_vmas k;
  qt_dom : dom (tasks (k_sched k')) = dom (tasks (k_sched k));
  qt_spaces : forall x t, tasks (k_sched k) !! x = Some t ->
    exists t', tasks (k_sched k') !! x = Some t' /\ addrspace t' = addrspace t /\ mm t' = mm t;
  qt_nodes : keeps_nodes (k_sched k) (k_sched k')
}.

Lemma quiet_refl k : quiet k k.
Proof. constructor; auto. intros x t Ht. by exists t. Qed.

Lemma quiet_trans k1 k2 k3 : quiet k1 k2 -> quiet k2 k3 -> quiet k1 k3.
Proof.
  intros [A1 A2 A3 A4 A5 A6] [B1 B2 B3 B4 B5 B6]. constructor; try congruence.
  - intros x t Ht. destruct (A5 x t Ht) as (t2 & H2 & E1 & E2). destruct (B5 x t2 H2) as (t3 & H3 & E3 & E4). exists t3. split; [done|]. split; congruence.
  - intros x v Hx Hh Hv. apply B6; [by rewrite A4|done|]. by apply A6.
Qed.

(** The scheduler's part of it. *)
Lemma quiet_sched k k' s : k_heap k' = k_heap k -> k_mem k' = k_mem k -> k_vmas k' = k_vmas k -> k_sched k' = s ->
  dom (tasks s) = dom (tasks (k_sched k)) -> keeps_nodes (k_sched k) s ->
  (forall x t, tasks (k_sched k) !! x = Some t -> exists t', tasks s !! x = Some t' /\ addrspace t' = addrspace t /\ mm t' = mm t) -> quiet k k'.
Proof. intros E1 E2 E3 <- Hd Hn Ht. by constructor. Qed.

Lemma evolves_spaces c c' ts ts' x t : evolves c c' ts ts' -> ts !! x = Some t ->
  exists t', ts' !! x = Some t' /\ addrspace t' = addrspace t /\ mm t' = mm t.
Proof.
  intros He Ht. specialize (He x). rewrite Ht in He. destruct (ts' !! x) as [t'|]; [|done]. destruct He as [(st & v & ->) _]. by eexists.
Qed.

(** Storing the frame of the running task. *)
Lemma stored_quiet now g k qs : running now g k qs -> quiet k (put_context k (this_task k) (frame_of (k_cpu k))).
Proof.
  intros Hr. destruct (stored_ok _ _ _ _ Hr) as (_ & _ & P2 & _ & _ & E1 & _). set (k1 := put_context _ _ _) in *.
  constructor; [by rewrite E1..|done| |].
  2: { unfold k1, put_context. destruct (tasks (k_sched k) !! this_task k); exact (keeps_nodes_refl (k_sched k)). }
  - intros x t Ht. unfold k1, put_context. destruct (tasks (k_sched k) !! this_task k) as [w|] eqn:Ew; [|by exists t].
    cbn. destruct (decide (x = this_task k)) as [->|]; [|rewrite lookup_insert_ne by done; by exists t].
    rewrite lookup_insert_eq. rewrite Ht in Ew. injection Ew as <-. by eexists.
Qed.

(** The generations fit while the budget lasts. *)
Lemma room now g k qs n : running now g k qs -> g + n < 65536 -> 1 <= n -> (g + 1) * num_asids (asids (k_sched k)) < 2 ^ 32.
Proof.
  intros [Hs _ _ _] Hg Hn. pose proof (asid_inv_wf _ _ _ (ki_asid _ _ _ (sys_kernel _ _ _ _ Hs))) as W.
  destruct (num_asids_bounds g _ W) as [Hb _]. pose proof (asid_gen_pos _ _ W). nia.
Qed.

Lemma tasks_fuel k : dom (tasks (k_sched k)) = D -> (base.size (tasks (k_sched k)) < fuel)%nat.
Proof. intros E. by rewrite <- (size_dom (D := gset Z)), E. Qed.

(** ** The handlers keep it *)

Lemma user_alive n k now c m : alive n k now -> length (gpr c) = 31%nat -> alive n (user_runs k c m) now.
Proof. intros [(g & qs & [R1 R2 _ R4] & Hg) H2 H3] Hc. constructor; [|done|done]. exists g, qs. split; [by constructor|done]. Qed.

(** Any interrupt but the timer's is counted, if it has an entry, and nothing more. *)
Lemma decode_other hardware T time now g k qs :
  let irq := Z.land (hardware (nreads (k_gic k)) (Sys ICC_IAR1_EL1)) INTID_MASK in
  sys_inv now g (k_sched k) qs -> (forall x c, context_at k x = Some c -> length c = 34%nat) -> irqs_ok (k_irqs k) ->
  irq < NR_IRQS \/ irq = 1023 -> irq <> IRQN_EL1_VIRT_TIMER ->
  exists k', decode_irq fuel hardware T time k = Ok k' /\ running now g k' qs /\ irqs_ok (k_irqs k') /\ k_sched k' = k_sched k /\ quiet k k'.
Proof.
  intros irq Hs Hf Hv Hirq Hne. unfold decode_irq, MRS, get. cbn [k_gic timer_update_timestamp]. fold irq.
  assert (Hpos : 0 <= irq) by (apply Z.land_nonneg; right; done).
  replace ((irq <? NR_IRQS) || (irq =? 1023)) with true by (symmetry; apply orb_true_iff; rewrite Z.ltb_lt, Z.eqb_eq; done).
  assert (Hfin : forall k1, k_sched k1 = k_sched k -> k_heap k1 = k_heap k /\ k_mem k1 = k_mem k /\ k_vmas k1 = k_vmas k -> irqs_ok (k_irqs k1) ->
    exists k', restore_current_context k1 = Ok k' /\ running now g k' qs /\ irqs_ok (k_irqs k') /\ k_sched k' = k_sched k /\ quiet k k').
  { intros k1 E1 (M1 & M2 & M3) Hv1. destruct (restore_ok now g k1 qs) as (k' & Hk & Hr & _ & _ & E).
    - by rewrite E1.
    - intros x c. unfold context_at. rewrite E1. apply Hf.
    - exists k'. split; [done|]. split; [done|]. rewrite E. split; [done|]. split; [done|].
      constructor; cbn [set_cpu k_heap k_mem k_vmas k_sched]; rewrite ?E1; auto. intros x t Ht. by exists t. }
  destruct (Z.ltb_spec irq NR_IRQS) as [Hlt|]; [|by apply Hfin].
  unfold dispatch, irq_dispatch. cbn [k_irqs set_irq timer_update_timestamp]. rewrite (proj2 (Z.leb_gt _ _)) by done.
  destruct (k_irqs k !! Z.to_nat irq) as [e|] eqn:E.
  2: { apply lookup_ge_None in E. destruct Hv as [Hl _]. unfold NR_IRQS in *. lia. }
  rewrite (aget_lookup _ _ _ Hpos E). cbn [obind].
  rewrite aset_ok by (split; [done|]; destruct Hv as [Hl _]; rewrite Hl; unfold NR_IRQS in *; lia). cbn [obind].
  rewrite (proj2 Hv _ _ E), decide_False by (unfold IRQN_EL1_VIRT_TIMER in *; lia). cbn [obind].
  apply Hfin; [done|done|]. cbn. pose proof (irqs_count _ _ _ (u64 (count e + 1)) Hv E) as Hc.
  by rewrite (proj2 Hv _ _ E), decide_False in Hc by (unfold IRQN_EL1_VIRT_TIMER in *; lia).
Qed.

Lemma irq_alive n hardware T time k now t :
  let irq := Z.land (hardware (nreads (k_gic k)) (Sys ICC_IAR1_EL1)) INTID_MASK in
  alive n k now -> 1 <= n -> irq < NR_IRQS \/ irq = 1023 -> (forall i, now <= time i <= t) -> t < 2 ^ 63 ->
  exists k', lower_el_irq fuel hardware T time k = Ok k' /\ alive (n - 1) k' t /\ quiet k k'.
Proof.
  intros irq [(g & qs & Hr & Hg) Hv Hz] Hn Hirq Htime Ht. pose proof (room _ _ _ _ _ Hr Hg Hn) as Hroom.
  assert (Hle : now <= t) by (specialize (Htime 0%nat); lia).
  destruct (stored_ok _ _ _ _ Hr) as (Hst & P1 & P2 & P3 & P4 & E1 & P5 & P6). set (k1 := put_context _ _ _) in *.
  unfold lower_el_irq. rewrite Hst. cbn [obind].
  assert (Hg1 : k_gic k1 = k_gic k) by (by rewrite E1). assert (Hv1 : k_irqs k1 = k_irqs k) by (by rewrite E1).
  destruct (decide (irq = IRQN_EL1_VIRT_TIMER)) as [Ei|Hne].
  - destruct (k_irqs k !! 27%nat) as [[h a c]|] eqn:E27.
    2: { apply lookup_ge_None in E27. destruct Hv as [Hl _]. lia. }
    pose proof (proj2 Hv _ _ E27) as Eh. cbn in Eh. subst h.
    destruct (decode_timer fuel hardware T time now t g k1 qs a c) as (k' & g' & qs' & Hk & Hsch & H1 & _ & H3 & H4 & _ & _ & _ & H7 & _ & M1 & M2 & M3);
      rewrite ?Hg1, ?Hv1, ?P4; try done; [apply tasks_fuel; by rewrite P2|].
    exists k'. split; [done|]. split.
    + constructor; [exists g', qs'; split; [done|lia]| |by rewrite H4, P2].
      rewrite H7, Hv1. by apply (irqs_count _ _ _ (u64 (c + 1)) Hv E27).
    + eapply quiet_trans; [by eapply stored_quiet|]. fold k1.
      destruct (schedule_frames fuel time now t g k1 qs) as (s' & _ & _ & Es & _ & _ & _ & Hd & _ & He & Hkn);
        rewrite ?P4; try done; [apply tasks_fuel; by rewrite P2|].
      rewrite Hsch in Es. injection Es as Es. eapply quiet_sched; try done; rewrite ?Es; try done. intros x w. by apply evolves_spaces with (this_task k1) (g_current_task s').
  - destruct (decode_other hardware T time now g k1 qs) as (k' & Hk & H1 & H2 & H3 & Hq); rewrite ?Hg1, ?Hv1; try done.
    exists k'. split; [done|]. split; [|eapply quiet_trans; [by eapply stored_quiet|done]]. constructor; [|done|by rewrite H3, P2].
    exists g, qs. split; [|lia]. destruct H1. constructor; try done. by eapply sys_inv_later.
Qed.

Lemma set_sched_same k : k = set_sched k (k_sched k).
Proof. by destruct k. Qed.

Lemma brk_call k frame T now g qs :
  sys_inv now g (k_sched k) qs -> now <= T ->
  (reg frame X8 = __NR_brk /\ exists t, tasks (k_sched k) !! this_task k = Some t /\
     (param frame 0 < start_brk (mm t) \/ s32 (param frame 0 - brk (mm t)) <= 0)) ->
  exists k2 r, (if reg frame X8 <? SYSCALLS_NUM then
     match svc_handlers T (reg frame X8) with Some f => f frame k | None => Ok (k, neg ENOSYS) end
   else Ok (k, neg ENOSYS)) = Ok (k2, r) /\ served k k2 T g qs /\ k2 = set_sched k (k_sched k2).
Proof.
  intros Hs HT (-> & t & Ht & Hb). change (__NR_brk <? SYSCALLS_NUM) with true. change (svc_handlers T __NR_brk) with (Some vsys_brk).
  cbv beta iota. unfold vsys_brk, with_mm, mm_of, get_task. rewrite Ht. cbn [obind]. set (b := param frame 0) in *.
  unfold sys_brk. cbn [mm_task].
  destruct (Z.ltb_spec b (start_brk (mm t))) as [|Hge].
  - eexists _, _. split; [reflexivity|]. rewrite put_mm_same by done. split; [by eapply served_same|apply set_sched_same].
  - rewrite (proj2 (Z.ltb_ge 0 _)) by lia. eexists _, _. split; [reflexivity|].
    split; [by eapply (brk_served now)|done].
Qed.

(** The trap around a handler that kept the invariants. *)
Lemma call_done n T time k now t esr far g qs k2 qs2 r :
  running now g k qs -> g + n < 65536 -> 1 <= n -> irqs_ok (k_irqs k) -> dom (tasks (k_sched k)) = D ->
  Z.shiftr esr ESR_EC_SHIFT = ESR_EC_LEL_SVC64 -> (forall i, T <= time i <= t) -> t < 2 ^ 63 ->
  let frame := frame_of (k_cpu k) in let k1 := put_context k (this_task k) frame in
  (if reg frame X8 <? SYSCALLS_NUM then
     match svc_handlers T (reg frame X8) with Some f => f frame k1 | None => Ok (k1, neg ENOSYS) end
   else Ok (k1, neg ENOSYS)) = Ok (k2, r) -> served k1 k2 T g qs2 -> k_irqs k2 = k_irqs k1 ->
  exists k', lower_el_sync fuel T time esr far k = Ok k' /\ alive (n - 1) k' t /\ quiet k2 k'.
Proof.
  intros Hr Hg Hn Hv Hz Hesr Htime Ht frame k1 Hh Hsv E2. pose proof (room _ _ _ _ _ Hr Hg Hn) as Hroom.
  destruct (stored_ok _ _ _ _ Hr) as (_ & P1 & P2 & P3 & P4 & E1 & _). fold frame k1 in P1, P2, P3, P4, E1.
  destruct (svc_trap fuel T time now t g k qs esr far k2 qs2 r Hr) as (k' & E & (g' & qs' & R1 & R2 & R3 & _) & Ek & Hsp & Hkn);
    try done; [by apply tasks_fuel|].
  exists k'. split; [done|]. split.
  - constructor; [exists g', qs'; split; [done|lia]| |by rewrite R3]. rewrite Ek. cbn. by rewrite E2, E1.
  - eapply (quiet_sched k2 k'); try done; try (by rewrite Ek).
    + by rewrite R3, (sv_dom _ _ _ _ _ Hsv), P2.
    + intros x w Hw. destruct (Hsp x w Hw) as (w' & Hw' & _ & E3 & E4). by exists w'.
Qed.

Lemma call_alive n T time k now t esr far :
  alive n k now -> 1 <= n -> Z.shiftr esr ESR_EC_SHIFT = ESR_EC_LEL_SVC64 ->
  is_Some (plain_result (reg (frame_of (k_cpu k)) X8)) \/ sleep_request k T \/ brk_request k ->
  now <= T -> (forall i, T <= time i <= t) -> t < 2 ^ 63 ->
  exists k', lower_el_sync fuel T time esr far k = Ok k' /\ alive (n - 1) k' t.
Proof.
  intros [(g & qs & Hr & Hg) Hv Hz] Hn Hesr Hcall HT Htime Ht. pose proof (room _ _ _ _ _ Hr Hg Hn) as Hroom.
  destruct (stored_ok _ _ _ _ Hr) as (_ & P1 & P2 & P3 & P4 & E1 & _). set (k1 := put_context _ _ _) in *.
  assert (Hdone : forall k2 qs2 r, served k1 k2 T g qs2 -> k2 = set_sched k1 (k_sched k2) ->
    (if reg (frame_of (k_cpu k)) X8 <? SYSCALLS_NUM then
       match svc_handlers T (reg (frame_of (k_cpu k)) X8) with Some f => f (frame_of (k_cpu k)) k1 | None => Ok (k1, neg ENOSYS) end
     else Ok (k1, neg ENOSYS)) = Ok (k2, r) -> exists k', lower_el_sync fuel T time esr far k = Ok k' /\ alive (n - 1) k' t).
  { intros k2 qs2 r Hsv E2 Hh. destruct (call_done n T time k now t esr far g qs k2 qs2 r) as (k' & E & Ha & _); try done; [by rewrite E2|].
    by exists k'. }
  destruct Hcall as [[r Hp]|[(Hsn & sec & nsec & L1 & L2 & B1 & B2 & B3)|Hbrk]].
  - apply (Hdone k1 qs r); [by eapply served_same|apply set_sched_same|]. apply plain_call; [by apply (current_task now g k1 qs)|done].
  - destruct (nanosleep_call now T g k1 qs (frame_of (k_cpu k)) sec nsec) as (k2 & qs2 & Hh & Hsv & E2 & _); try done;
      [unfold load_long, k1; by rewrite load_le_put..|]. by apply (Hdone k2 qs2 0).
  - destruct (brk_call k1 (frame_of (k_cpu k)) T now g qs) as (k2 & r & Hh & Hsv & E2); try done.
    + destruct Hbrk as (Hsn & t0 & Ht0 & Hb). split; [done|]. rewrite P3. exists (set_ctx t0 (frame_of (k_cpu k))).
      split; [|done]. unfold k1, put_context. rewrite Ht0. apply lookup_insert_eq.
    + by apply (Hdone k2 qs r).
Qed.

Lemma step_alive n k now o t : alive n k now -> 1 <= n -> step k now o t -> exists k', o = Ok k' /\ alive (n - 1) k' t.
Proof.
  intros Ha Hn Hs. destruct Hs.
  - eexists. split; [done|]. apply (alive_less n); [lia|]. by apply user_alive.
  - destruct (irq_alive n hardware T time k now t) as (k' & E & Ha' & _); try done. by exists k'.
  - by eapply call_alive.
Qed.

(** Every state that is reached in fewer steps than the budget. *)
Lemma steps_alive b k0 now0 n k now : alive b k0 now0 -> steps k0 now0 n k now -> Z.of_nat n <= b -> alive (b - Z.of_nat n) k now.
Proof.
  intros Ha Hs. induction Hs as [|n k now k' t Hs IH Hstep]; intros Hb; [by apply (alive_less b); [lia|]|].
  destruct (step_alive (b - Z.of_nat n) k now (Ok k') t) as (k2 & [= <-] & Ha'); [apply IH; lia|lia|done|].
  apply (alive_less (b - Z.of_nat n - 1)); [lia|done].
Qed.
End Steps.

Lemma start_irqs c : irqs_ok (<[27%nat := MkIrq (Some timer_isr) 0 c]> (replicate 33 (MkIrq None 0 0))).
Proof.
  split; [done|]. intros i e. destruct (decide (i = 27%nat)) as [->|Hi].
  - rewrite list_lookup_insert_eq by (by rewrite length_replicate; lia). by intros [= <-].
  - rewrite list_lookup_insert_ne by done. by intros [-> _]%lookup_replicate.
Qed.

Lemma pair_fuel (x z : Z) fuel : (2 < fuel)%nat -> (base.size ({[ x; z ]} : gset Z) < fuel)%nat.
Proof.
  intros Hf. eapply Nat.le_lt_trans; [|exact Hf]. rewrite size_union_alt, size_singleton. apply le_n_S.
  etransitivity; [apply subseteq_size, subseteq_difference_l; done|]. by rewrite size_singleton.
Qed.

Module SystemSpec.

(** C3: the system keeps running.  Boot the kernel and take the first timer
    interrupt.  Then the following may happen, in any order and up to 65000 times,
    while the counter stays below 2^63: user code computes and writes any memory; the
    controller reports an interrupt number of the table or the spurious one; a task
    makes a system call that needs no state, calls [nanosleep] with a request that the
    kernel can read, whose seconds are not negative, whose nanoseconds are below
    10^9 and whose end is below 2^63, or calls [brk] with an address that does not grow
    its heap.  In every state that is reached the invariants hold and both tasks
    exist, and whichever of these comes next, the kernel finishes it: no failed
    assertion, no fault, no endless loop.  (A [nanosleep] with a bad pointer is not
    among them: it faults in the kernel, [nanosleep_bad_pointer].) *)
Theorem system_keeps_running `{KernelLayout} y hardware hardware' CurrentEL id cntfrq c m bits h hs now T time t1 fuel :
  startable y hardware id m bits h hs -> 0 < now ->
  (forall k, Z.land (hardware' k (Sys ICC_IAR1_EL1)) INTID_MASK = IRQN_EL1_VIRT_TIMER) ->
  (forall i, now <= time i <= t1) -> t1 < 2 ^ 63 -> (2 < fuel)%nat ->
  exists st k1, init_kernel y hardware CurrentEL id cntfrq c m = Ok st /\
    cur_el_irq fuel hardware' T time (st_kernel st) = Ok k1 /\
    forall n k t, steps fuel k1 t1 n k t -> Z.of_nat n < 65000 ->
      (exists g qs, running t g k qs) /\ dom (tasks (k_sched k)) = {[ idle_task y; root_task y ]} /\
      forall o t', step fuel k t o t' -> exists k', o = Ok k'.
Proof.
  intros [HL HP Hprog Hgic Hid Hn] Hnow Hiar Htime Ht1 Hf.
  destruct (init_kernel_ok y HL hardware CurrentEL id cntfrq c m bits h hs now) as (st & Hst & HB); try done.
  destruct (first_tick_ok y HL m h hs now st hardware' T time t1 fuel) as (k1 & g & qs & Hk & Hr & Hg & _ & _ & _ & _ & _ & Hd & Hv & _); try done.
  exists st, k1. split; [done|]. split; [done|]. intros n k t Hs Hb.
  set (D := {[ idle_task y; root_task y ]} : gset Z).
  assert (HD : (base.size D < fuel)%nat) by (by apply pair_fuel).
  assert (Ha : alive D 65001 k1 t1) by (constructor; [exists g, qs; split; [done|lia]|rewrite Hv; apply start_irqs|done]).
  pose proof (steps_alive _ D HD _ _ _ _ _ _ Ha Hs ltac:(lia)) as Hal.
  split; [|split].
  - destruct Hal as [(g' & qs' & Hr' & _) _ _]. by exists g', qs'.
  - apply Hal.
  - intros o t' Hstep. destruct (step_alive _ D HD _ _ _ _ _ Hal ltac:(lia) Hstep) as (k' & -> & _). by exists k'.
Qed.

#[local] Existing Instance SmallImage.layout.

Definition registers_with (xs : list Z) : cpu := MkCpu (take 31 (xs ++ replicate 31 0)) 0x400000 0 0.

(** The program of the small machine makes a call that the kernel does not know. *)
Lemma system_keeps_running_witness : exists st k1 k',
  init_kernel SmallImage.y GicSpec.quiet 4 0 62500000 StartSpec.registers_at_reset SmallImage.memory = Ok st /\
  cur_el_irq 3 TrapSpec.ticking 9 (fun _ => 10) (st_kernel st) = Ok k1 /\
  lower_el_sync 3 11 (fun _ => 12) (Z.shiftl 0x15 26) 0 (user_runs k1 (registers_with [1; 2; 3; 4; 5; 6; 7; 8; 1000]) ∅) = Ok k'.
Proof.
  destruct (system_keeps_running SmallImage.y GicSpec.quiet TrapSpec.ticking 4 0 62500000 StartSpec.registers_at_reset SmallImage.memory 8
              SmallImage.header TinyElf.hs 1 9 (fun _ => 10) 10 3) as (st & k1 & H1 & H2 & H3).
  - exact SmallImage.small_startable.
  - lia.
  - intros k. reflexivity.
  - lia.
  - lia.
  - lia.
  - set (k2 := user_runs k1 (registers_with [1; 2; 3; 4; 5; 6; 7; 8; 1000]) ∅).
    destruct (H3 1%nat k2 10) as (_ & _ & H4).
    + eapply steps_more; [apply steps_zero|]. apply step_user. reflexivity.
    + lia.
    + destruct (H4 (lower_el_sync 3 11 (fun _ => 12) (Z.shiftl 0x15 26) 0 k2) 12) as (k' & H5).
      * apply step_call; [reflexivity|left; eexists; reflexivity|lia|lia|lia].
      * exists st, k1, k'. split; [exact H1|]. split; [exact H2|exact H5].
Defined.
End SystemSpec.
