(* ===== verification/Session.v ===== *)
(** * A program in the running system

    [System] lets the whole machine run, [UserMem] one program in its memory.  Here
    the two meet: the user task computes, stores to its memory and traps for
    memory, while the timer interrupts it, it sleeps and the idle task runs in
    between.  Scheduling links its tasks through the same kind of nodes as the
    areas of the program, and tables, areas and program data come from one heap. *)

From Stdlib Require Import ZArith Lia Bool.
From stdpp Require Import base numbers list gmap.
From S2P Require Import Prelude Board Gran KList Task Sched Timer SchedFrame PageTable AddrSpace Bytes Space Mmap Elf ElfLoad UserMem Gic Traps Init Start System.
#[local] Open Scope Z_scope.

Section Session.
Context `{KernelLayout}.
Variable fuel : nat.
Variable D : gset Z.
Hypothesis HD : (base.size D < fuel)%nat.

(** The task with the program. *)
Variable u : Z.

(** The program's part of the machine. *)
Definition space (k : kernel) (t : tcb) : mm_state := MkMM (k_heap k) (k_mem k) (links (k_sched k)) (k_vmas k) t u.

Definition seen (k : kernel) (x : Z) : option Z :=
  match tasks (k_sched k) !! u with Some t => user_view (space k t) x | None => None end.

(** The nodes and pages of the program are not those of the scheduler. *)
Record hosted (k : kernel) (R : gmap Z role) (xs : list Z) : Prop := {
  ho_task : exists t, tasks (k_sched k) !! u = Some t /\ isolated (space k t) R xs;
  ho_apart : forall x, x ∈ dom (tasks (k_sched k)) \/ is_head x -> (x ∉ u + MM_LINK_OFFSET :: xs) /\ ~ free_page (k_heap k) x
}.

(** ** Steps *)

(** A store of the running program. *)
Definition program_store (k : kernel) (x v : Z) : outcome kernel :=
  let! t := get_task (k_sched k) u in
  let! s := user_store (space k t) x v in
  Ok (user_runs k (k_cpu k) (mm_mem s)).

(** A trap for memory, by the registers of the program. *)
Inductive mem_call (k : kernel) (t : tcb) : mem_op -> Prop :=
| mc_mmap low p q rest : let frame := frame_of (k_cpu k) in
    reg frame X8 = __NR_mmap -> param frame 0 = 0 -> mmap_request (space k t) (param frame 1) (param frame 3) low p q rest ->
    mem_call k t (mmap_op (param frame 1) low)
| mc_mmap_refused : let frame := frame_of (k_cpu k) in
    reg frame X8 = __NR_mmap -> mmap_refused (param frame 1) (param frame 3) -> mem_call k t OKeep
| mc_brk_keep : let frame := frame_of (k_cpu k) in
    reg frame X8 = __NR_brk -> brk_kept (space k t) (param frame 0) -> mem_call k t OKeep
| mc_brk_grow low g1 q rest : let frame := frame_of (k_cpu k) in
    reg frame X8 = __NR_brk -> brk_growth (space k t) (param frame 0) low g1 q rest ->
    mem_call k t (brk_op (space k t) (param frame 0) q).

(** What can happen: any task computes; the program stores a byte where it may; an
    interrupt; a call that needs no memory; a call of the program for memory. *)
Inductive sstep (k : kernel) (now : Z) : mem_op -> outcome kernel -> Z -> Prop :=
| ss_run c : length (gpr c) = 31%nat -> sstep k now OKeep (Ok (user_runs k c (k_mem k))) now
| ss_store t x v : this_task k = u -> tasks (k_sched k) !! u = Some t -> may_write (space k t) x = true ->
    sstep k now (OStore x v) (program_store k x v) now
| ss_irq hardware T time t :
    let irq := Z.land (hardware (nreads (k_gic k)) (Sys ICC_IAR1_EL1)) INTID_MASK in
    irq < NR_IRQS \/ irq = 1023 -> (forall i, now <= time i <= t) -> t < 2 ^ 63 ->
    sstep k now OKeep (lower_el_irq fuel hardware T time k) t
| ss_call T time t esr far :
    Z.shiftr esr ESR_EC_SHIFT = ESR_EC_LEL_SVC64 ->
    is_Some (plain_result (reg (frame_of (k_cpu k)) X8)) \/ sleep_request k T ->
    now <= T -> (forall i, T <= time i <= t) -> t < 2 ^ 63 ->
    sstep k now OKeep (lower_el_sync fuel T time esr far k) t
| ss_mem T time t esr far w o :
    Z.shiftr esr ESR_EC_SHIFT = ESR_EC_LEL_SVC64 -> this_task k = u -> tasks (k_sched k) !! u = Some w -> mem_call k w o ->
    now <= T -> (forall i, T <= time i <= t) -> t < 2 ^ 63 ->
    sstep k now o (lower_el_sync fuel T time esr far k) t.

Inductive ssteps (k0 : kernel) (now0 : Z) : list mem_op -> kernel -> Z -> Prop :=
| sss_nil : ssteps k0 now0 [] k0 now0
| sss_snoc os k now o k' t : ssteps k0 now0 os k now -> sstep k now o (Ok k') t -> ssteps k0 now0 (os ++ [o]) k' t.

(** ** Quiet steps *)

(** The program depends on its layout and its root, on the nodes of its areas,
    and on nothing else of the scheduler. *)
Lemma isolated_same s s' R xs :
  mm_heap s' = mm_heap s -> mm_mem s' = mm_mem s -> mm_vmas s' = mm_vmas s -> mm_self s' = mm_self s ->
  addrspace (mm_task s') = addrspace (mm_task s) -> mm (mm_task s') = mm (mm_task s) ->
  (forall x, x ∈ area_head s :: xs -> mm_links s' !! x = mm_links s !! x) ->
  isolated s R xs -> isolated s' R xs /\ forall x, user_view s' x = user_view s x.
Proof.
  intros E1 E2 E3 E4 E5 E6 El [HA HP HB].
  assert (Eh : area_head s' = area_head s) by (unfold area_head; by rewrite E4).
  split; [|intros x; unfold user_view, root_of; by rewrite E2, E5]. destruct HA as [A1 A2 A3 A4 A5 A6 A7 A8]. constructor.
  - constructor; rewrite ?Eh, ?E1, ?E2, ?E3, ?E5, ?E6; try done. by apply (dlist_ext (mm_links s)).
  - unfold root_of. rewrite E1, E2, E5. exact HP.
  - by rewrite E6.
Qed.

Lemma hosted_quiet k k' R xs : hosted k R xs -> quiet k k' -> hosted k' R xs /\ forall x, seen k' x = seen k x.
Proof.
  intros [(t & Ht & HP) Hap] [Q1 Q2 Q3 Q4 Q5 Q6]. destruct (Q5 u t Ht) as (t' & Ht' & E1 & E2).
  destruct (isolated_same (space k t) (space k' t') R xs) as [HP' Hv]; try done.
  { intros x Hx. pose proof (dlist_dom _ _ _ _ (ar_list _ _ _ (pr_areas _ _ _ HP)) Hx) as [v Hv]%elem_of_dom. cbn [space mm_links] in *.
    rewrite Hv. change (area_head (space k t)) with (u + MM_LINK_OFFSET) in Hx.
    apply Q6; [| |done]; intros Hd; [destruct (Hap x (or_introl Hd)) as [Hn _]|destruct (Hap x (or_intror Hd)) as [Hn _]]; by apply Hn. }
  split; [|intros x; unfold seen; rewrite Ht, Ht'; apply Hv].
  constructor; [by exists t'|]. rewrite Q4, Q1. apply Hap.
Qed.

(** ** Calls for memory *)

(** What [sys_brk] changes: the heap, its contents and the layout. *)
Lemma sys_brk_shape s b s' r : sys_brk s b = Ok (s', r) ->
  exists gr m a, s' = MkMM gr m (mm_links s) (mm_vmas s) (set_mm (mm_task s) a) (mm_self s).
Proof.
  unfold sys_brk. destruct (b <? _).
  - intros [= <- _]. exists (mm_heap s), (mm_mem s), (mm (mm_task s)). destruct s as [? ? ? ? [] ?]. done.
  - destruct (0 <? _); cbn [obind]; [|intros [= <- _]; by eexists _, _, _].
    unfold mmap_calloc. destruct (heap_calloc _ _ _) as [[[g m] p]| | |]; try done. cbn [obind].
    destruct (as_map _ _ _ _ _ _) as [[[g2 m2] z]| | |]; try done. cbn [obind]. intros [= <- _]. by eexists _, _, _.
Qed.

(** The state in which the handler of the program's call starts. *)
Lemma stored_space k t : this_task k = u -> tasks (k_sched k) !! u = Some t ->
  let k1 := put_context k (this_task k) (frame_of (k_cpu k)) in let t1 := set_ctx t (frame_of (k_cpu k)) in
  this_task k1 = u /\ tasks (k_sched k1) !! u = Some t1 /\ mm_view k1 t1 = space k t1 /\ k_irqs k1 = k_irqs k.
Proof.
  intros Hu Ht. unfold put_context. rewrite Hu, Ht. split; [exact Hu|]. split; [apply lookup_insert_eq|].
  split; [|done]. unfold mm_view, space. f_equal. exact Hu.
Qed.

(** A memory manager's result, put back for the running program. *)
Lemma put_hosted k s R xs : this_task k = u -> mm_self s = u -> isolated s R xs ->
  (forall x, x ∈ dom (tasks (k_sched k)) \/ is_head x -> (x ∉ u + MM_LINK_OFFSET :: xs) /\ ~ free_page (mm_heap s) x) ->
  is_Some (tasks (k_sched k) !! u) -> hosted (put_mm k s) R xs /\ forall x, seen (put_mm k s) x = user_view s x.
Proof.
  intros Hu Hself HP Hap Hin. assert (Et : tasks (k_sched (put_mm k s)) !! u = Some (mm_task s)).
  { cbn. rewrite Hself. apply lookup_insert_eq. }
  assert (Es : space (put_mm k s) (mm_task s) = s) by (unfold space; cbn; rewrite <- Hself; by destruct s).
  split; [constructor|].
  - exists (mm_task s). split; [done|]. by rewrite Es.
  - intros x. cbn. rewrite Hself, dom_insert_lookup_L by done. apply Hap.
  - intros x. unfold seen. by rewrite Et, Es.
Qed.

(** The entries of the table. *)
Lemma brk_handler T c k : reg c X8 = __NR_brk ->
  (if reg c X8 <? SYSCALLS_NUM then match svc_handlers T (reg c X8) with Some f => f c k | None => Ok (k, neg ENOSYS) end
   else Ok (k, neg ENOSYS)) = vsys_brk c k.
Proof. by intros ->. Qed.

Lemma mmap_handler T c k : reg c X8 = __NR_mmap ->
  (if reg c X8 <? SYSCALLS_NUM then match svc_handlers T (reg c X8) with Some f => f c k | None => Ok (k, neg ENOSYS) end
   else Ok (k, neg ENOSYS)) = vsys_mmap c k.
Proof. by intros ->. Qed.

(** The rest of the trap after the handler of a memory call. *)
Lemma mem_done n T time k now t esr far g qs w s' R' xs' r o :
  running now g k qs -> g + n < 65536 -> 1 <= n -> irqs_ok (k_irqs k) -> dom (tasks (k_sched k)) = D ->
  Z.shiftr esr ESR_EC_SHIFT = ESR_EC_LEL_SVC64 -> (forall i, T <= time i <= t) -> t < 2 ^ 63 ->
  this_task k = u -> tasks (k_sched k) !! u = Some w ->
  let frame := frame_of (k_cpu k) in let k1 := put_context k (this_task k) frame in
  (if reg frame X8 <? SYSCALLS_NUM then
     match svc_handlers T (reg frame X8) with Some f => f frame k1 | None => Ok (k1, neg ENOSYS) end
   else Ok (k1, neg ENOSYS)) = Ok (put_mm k1 s', r) -> served k1 (put_mm k1 s') T g qs ->
  mm_self s' = u -> isolated s' R' xs' ->
  (forall x, x ∈ dom (tasks (k_sched k)) \/ is_head x -> (x ∉ u + MM_LINK_OFFSET :: xs') /\ ~ free_page (mm_heap s') x) ->
  mem_spec o (user_view (space k w)) (user_view s') ->
  exists k', lower_el_sync fuel T time esr far k = Ok k' /\ alive D (n - 1) k' t /\ hosted k' R' xs' /\ mem_spec o (seen k) (seen k').
Proof.
  intros Hr Hg Hn Hv Hz Hesr Htime Ht Hu Hw frame k1 Hh Hsv Hself HP Hap Hspec.
  destruct (stored_space k w Hu Hw) as (U1 & U2 & _ & U4). fold frame k1 in U1, U2, U4.
  destruct (stored_ok _ _ _ _ Hr) as (_ & _ & P2 & _). fold frame k1 in P2.
  destruct (call_done fuel D HD n T time k now t esr far g qs (put_mm k1 s') qs r) as (k' & E & Ha & Hq); try done.
  destruct (put_hosted k1 s' R' xs') as [Hho Hse]; try done; [rewrite P2; exact Hap|].
  destruct (hosted_quiet _ _ _ _ Hho Hq) as [Hho' Hse']. exists k'. split; [done|]. split; [done|]. split; [done|].
  assert (E0 : pointwise_relation Z (=) (seen k) (user_view (space k w))) by (intros x; unfold seen; by rewrite Hw).
  assert (E1 : pointwise_relation Z (=) (seen k') (user_view s')) by (intros x; by rewrite Hse', Hse).
  by rewrite E0, E1.
Qed.

Lemma mem_call_ok n T time k now t esr far w o R xs :
  alive D n k now -> 1 <= n -> hosted k R xs -> Z.shiftr esr ESR_EC_SHIFT = ESR_EC_LEL_SVC64 ->
  this_task k = u -> tasks (k_sched k) !! u = Some w -> mem_call k w o -> now <= T -> (forall i, T <= time i <= t) -> t < 2 ^ 63 ->
  exists k' R' xs', lower_el_sync fuel T time esr far k = Ok k' /\ alive D (n - 1) k' t /\ hosted k' R' xs' /\ mem_spec o (seen k) (seen k').
Proof.
  intros [(g & qs & Hr & Hg) Hv Hz] Hn [(w' & Hw' & HP) Hap] Hesr Hu Hw Hc HT Htime Ht. rewrite Hw in Hw'. injection Hw' as <-.
  destruct (stored_ok _ _ _ _ Hr) as (_ & P1 & P2 & P3 & _). destruct (stored_space k w Hu Hw) as (U1 & U2 & U3 & U4).
  set (frame := frame_of (k_cpu k)) in *. set (k1 := put_context k (this_task k) frame) in *. set (t1 := set_ctx w frame) in *.
  destruct (isolated_same (space k w) (space k t1) R xs) as [HP1 HV1]; try done.
  assert (Hap1 : apart k1 xs).
  { intros x. rewrite P2, U1. rewrite (qt_heap k k1 (stored_quiet _ _ _ _ Hr)). apply Hap. }
  assert (Hbrk : forall s' R' x, reg frame X8 = __NR_brk -> sys_brk (space k t1) (param frame 0) = Ok (s', x) ->
    isolated s' R' xs -> (forall p, free_page (mm_heap s') p -> free_page (k_heap k) p) -> mem_spec o (user_view (space k t1)) (user_view s') ->
    exists k', lower_el_sync fuel T time esr far k = Ok k' /\ alive D (n - 1) k' t /\ hosted k' R' xs /\ mem_spec o (seen k) (seen k')).
  { intros s' R' x Hsn Hs HP' Hfree Hsp. destruct (sys_brk_shape _ _ _ _ Hs) as (gr & m & a & Es).
    eapply (mem_done n T time k now t esr far g qs w s' R' xs x o); try done.
    - fold frame k1. rewrite (brk_handler _ _ _ Hsn). unfold vsys_brk, with_mm, mm_of, get_task. rewrite U1, U2. cbn [obind].
      change (MkMM _ _ _ _ t1 u) with (space k1 t1). unfold mm_view in U3. rewrite U1 in U3. unfold space at 1. rewrite U3. by rewrite Hs.
    - fold frame k1. rewrite Es. unfold mm_view in U3. rewrite U1 in U3. injection U3 as E1 E2 E3 E4.
      cbn [space mm_links mm_vmas mm_task mm_self]. rewrite <- E3, <- E4, <- U1. eapply (brk_served now); [done|done|]. by rewrite U1.
    - by rewrite Es.
    - intros y Hy. destruct (Hap y Hy) as [H1 H2]. split; [done|]. by intros ?%Hfree. }
  destruct Hc as [low p q rest f Hsn Hz0 Hreq|f Hsn Href|f Hsn Hk|low g1 q rest f Hsn Hreq]; fold frame in f; subst f.
  - destruct (mmap_step_ok (space k t1) R xs (param frame 1) (param frame 2) (param frame 3) (param frame 4) (param frame 5) low p q rest HP1 Hreq)
      as (s' & R' & Hs & HP' & HM & Hsp).
    destruct (mem_done n T time k now t esr far g qs w s' R' (p :: xs) (low - 4096 * pages_of (param frame 1)) (mmap_op (param frame 1) low))
      as (k' & H1); try done; [| | | |by exists k', R', (p :: xs)].
    + fold frame k1. rewrite (mmap_handler _ _ _ Hsn). unfold vsys_mmap, with_mm, mm_of, get_task. rewrite U1, U2. cbn [obind].
      unfold mm_view in U3. rewrite U1 in U3. rewrite U3, Hz0. by rewrite Hs.
    + fold frame k1. rewrite <- U3 in HM. eapply (mmap_served now T g k1 qs t1 R xs); [done|done|by rewrite U1|exact Hap1|exact HM].
    + by rewrite (mp_self _ _ _ _ _ _ _ _ _ _ _ HM).
    + intros y Hy. destruct (Hap y Hy) as [H1 H2]. split; [|by intros ?%(mp_free _ _ _ _ _ _ _ _ _ _ _ HM)].
      rewrite not_elem_of_cons in H1. rewrite !not_elem_of_cons. split; [apply H1|]. split; [|apply H1]. intros ->.
      apply H2, (mp_node _ _ _ _ _ _ _ _ _ _ _ HM).
  - destruct (mem_done n T time k now t esr far g qs w (space k t1) R xs (neg EINVAL) OKeep) as (k' & H1); try done; [| |by exists k', R, xs].
    + fold frame k1. rewrite (mmap_handler _ _ _ Hsn). unfold vsys_mmap, with_mm, mm_of, get_task. rewrite U1, U2. cbn [obind].
      unfold mm_view in U3. rewrite U1 in U3. rewrite U3. by rewrite mmap_refused_ok.
    + fold frame k1. rewrite <- U3. unfold mm_view. rewrite put_mm_same by (by rewrite U1). by eapply served_same.
  - destruct (brk_keep_ok (space k t1) R xs (param frame 0) HP1 Hk) as (s' & x & Hs & HP' & Eh & Hsp).
    destruct (Hbrk s' R x) as (k' & H1); try done; [by rewrite Eh|]. by exists k', R, xs.
  - destruct (brk_grow_ok (space k t1) R xs (param frame 0) low g1 q rest HP1 Hreq) as (s' & R' & x & Hs & HP' & Hfree & Hsp).
    destruct (Hbrk s' R' x) as (k' & H1); try done. by exists k', R', xs.
Qed.

(** ** Every step *)

Lemma user_store_shape s x v s' : user_store s x v = Ok s' -> s' = set_heap_mem s (mm_heap s) (mm_mem s').
Proof.
  unfold user_store. destruct (at_user s x) as [[pa at_]|]; [|done]. destruct (_ && _); [|done].
  destruct (stb _ _ _) as [m| | |]; try done. cbn [obind]. by intros [= <-].
Qed.

Lemma store_hosted n k now t x v R xs : alive D n k now -> hosted k R xs -> tasks (k_sched k) !! u = Some t -> may_write (space k t) x = true ->
  exists k', program_store k x v = Ok k' /\ alive D n k' now /\ hosted k' R xs /\ mem_spec (OStore x v) (seen k) (seen k').
Proof.
  intros Ha [(t' & Ht' & HP) Hap] Ht Hw. rewrite Ht in Ht'. injection Ht' as <-.
  destruct (prog_step_ok _ _ _ _ _ HP (ps_store _ x v Hw)) as (s1 & _ & _ & E1 & _ & Hsp).
  destruct (store_ok (space k t) R xs x v HP Hw) as (s' & Es & HP' & _). rewrite Es in E1. injection E1 as <-.
  pose proof (user_store_shape _ _ _ _ Es) as Esh. unfold program_store, get_task. rewrite Ht. cbn [obind]. rewrite Es. cbn [obind].
  eexists. split; [done|]. assert (Esp : space (user_runs k (k_cpu k) (mm_mem s')) t = s') by (by rewrite Esh).
  split; [apply user_alive; [done|destruct Ha as [(g & qs & Hr & _) _ _]; apply Hr]|]. split; [constructor; [|done]|].
  - exists t. split; [done|]. by rewrite Esp.
  - assert (E0 : pointwise_relation Z (=) (seen k) (user_view (space k t))) by (intros y; unfold seen; by rewrite Ht).
    assert (E2 : pointwise_relation Z (=) (seen (user_runs k (k_cpu k) (mm_mem s'))) (user_view s')).
    { intros y. unfold seen. cbn [user_runs k_sched]. by rewrite Ht, Esp. }
    by rewrite E0, E2.
Qed.

(** A quiet step in terms of the abstract memory. *)
Lemma quiet_step k k' R xs : hosted k R xs -> quiet k k' -> hosted k' R xs /\ mem_spec OKeep (seen k) (seen k').
Proof. intros Hh Hq. by destruct (hosted_quiet _ _ _ _ Hh Hq). Qed.

Lemma call_quiet n T time k now t esr far :
  alive D n k now -> 1 <= n -> Z.shiftr esr ESR_EC_SHIFT = ESR_EC_LEL_SVC64 ->
  is_Some (plain_result (reg (frame_of (k_cpu k)) X8)) \/ sleep_request k T -> now <= T -> (forall i, T <= time i <= t) -> t < 2 ^ 63 ->
  exists k', lower_el_sync fuel T time esr far k = Ok k' /\ alive D (n - 1) k' t /\ quiet k k'.
Proof.
  intros [(g & qs & Hr & Hg) Hv Hz] Hn Hesr Hcall HT Htime Ht. destruct (stored_ok _ _ _ _ Hr) as (_ & P1 & _).
  pose proof (stored_quiet _ _ _ _ Hr) as Hq1. set (k1 := put_context _ _ _) in *.
  destruct Hcall as [[r Hp]|(Hsn & sec & nsec & L1 & L2 & B1 & B2 & B3)].
  - destruct (call_done fuel D HD n T time k now t esr far g qs k1 qs r) as (k' & E & Ha & Hq); try done.
    + apply plain_call; [by apply (current_task now g k1 qs)|done].
    + by eapply served_same.
    + exists k'. split; [done|]. split; [done|]. by eapply quiet_trans.
  - destruct (nanosleep_call now T g k1 qs (frame_of (k_cpu k)) sec nsec) as (k2 & qs2 & Hh & Hsv & E2 & _ & Hkn & Hsp); try done;
      [unfold load_long, k1; by rewrite load_le_put..|].
    destruct (call_done fuel D HD n T time k now t esr far g qs k2 qs2 0) as (k' & E & Ha & Hq); try done; [by rewrite E2|].
    exists k'. split; [done|]. split; [done|]. eapply quiet_trans; [exact Hq1|]. eapply quiet_trans; [|exact Hq].
    constructor; try done; try (by rewrite E2). apply (sv_dom _ _ _ _ _ Hsv).
Qed.

Lemma sstep_ok n k now o out t R xs : alive D n k now -> 1 <= n -> hosted k R xs -> sstep k now o out t ->
  exists k' R' xs', out = Ok k' /\ alive D (n - 1) k' t /\ hosted k' R' xs' /\ mem_spec o (seen k) (seen k').
Proof.
  intros Ha Hn Hh Hs. destruct Hs as [c Hc|w x v Hu Hw Hm|hardware T time t irq Hi Htime Ht|T time t esr far Hesr Hcall HT Htime Ht
    |T time t esr far w o Hesr Hu Hw Hc HT Htime Ht].
  - destruct (quiet_step k (user_runs k c (k_mem k)) R xs Hh) as [Hh' Hsp]; [constructor; auto; intros x t Hx; by exists t|].
    exists (user_runs k c (k_mem k)), R, xs. split; [done|]. split; [|done]. apply (alive_less fuel D HD n); [lia|]. by apply user_alive.
  - destruct (store_hosted n k now w x v R xs Ha Hh Hw Hm) as (k' & -> & Ha' & Hh' & Hsp). exists k', R, xs. split; [done|].
    split; [|done]. apply (alive_less fuel D HD n); [lia|done].
  - destruct (irq_alive fuel D HD n hardware T time k now t) as (k' & -> & Ha' & Hq); try done.
    destruct (quiet_step k k' R xs Hh Hq) as [Hh' Hsp]. by exists k', R, xs.
  - destruct (call_quiet n T time k now t esr far) as (k' & -> & Ha' & Hq); try done.
    destruct (quiet_step k k' R xs Hh Hq) as [Hh' Hsp]. by exists k', R, xs.
  - destruct (mem_call_ok n T time k now t esr far w o R xs) as (k' & R' & xs' & -> & H1); try done. by exists k', R', xs'.
Qed.

Lemma ssteps_ok b k0 now0 R0 xs0 os k now : alive D b k0 now0 -> hosted k0 R0 xs0 -> ssteps k0 now0 os k now -> Z.of_nat (length os) <= b ->
  exists R xs, alive D (b - Z.of_nat (length os)) k now /\ hosted k R xs /\ spec_run (seen k0) os (seen k).
Proof.
  intros Ha Hh Hs. induction Hs as [|os k now o k' t Hs IH Hstep]; intros Hb.
  - exists R0, xs0. split; [apply (alive_less fuel D HD b); [lia|done]|]. split; [done|]. by constructor.
  - rewrite length_app in *. cbn [length] in *. destruct IH as (R & xs & Ha' & Hh' & Hsr); [lia|].
    destruct (sstep_ok _ k now o (Ok k') t R xs Ha' ltac:(lia) Hh' Hstep) as (k2 & R2 & xs2 & [= <-] & Ha2 & Hh2 & Hsp).
    exists R2, xs2. split; [apply (alive_less fuel D HD (b - Z.of_nat (length os) - 1)); [lia|done]|]. split; [done|]. by eapply sr_snoc.
Qed.
End Session.

(** From any state in which the program is hosted. *)
Lemma session_ok `{KernelLayout} fuel D u b k0 now0 R0 xs0 os k now :
  (base.size D < fuel)%nat -> alive D b k0 now0 -> hosted u k0 R0 xs0 ->
  ssteps fuel u k0 now0 os k now -> Z.of_nat (length os) < b ->
  (exists g qs, running now g k qs) /\ spec_run (seen u k0) os (seen u k) /\ (exists R xs, hosted u k R xs) /\
  forall o out t, sstep fuel u k now o out t -> exists k', out = Ok k' /\ mem_spec o (seen u k) (seen u k').
Proof.
  intros HD Ha Hh Hs Hb. destruct (ssteps_ok fuel D HD u b k0 now0 R0 xs0 os k now Ha Hh Hs ltac:(lia)) as (R & xs & Ha' & Hh' & Hsr).
  split; [destruct Ha' as [(g & qs & Hr & _) _ _]; by exists g, qs|]. split; [done|]. split; [by exists R, xs|].
  intros o out t Hst. destruct (sstep_ok fuel D HD u _ k now o out t R xs Ha' ltac:(lia) Hh' Hst) as (k' & _ & _ & -> & _ & _ & Hm). by exists k'.
Qed.

(** ** From the start *)

(** [init_kernel] hosts the program of the image, and the first interrupt leaves
    it alone. *)
Lemma booted_hosted `{KernelLayout} y m h hs now st : booted y m h hs now st -> exists R, hosted (root_task y) (st_kernel st) R [].
Proof.
  intros HB. destruct (bo_program _ _ _ _ _ _ HB) as (R & t & Ht & HI). exists R. constructor; [by exists t|].
  intros x Hx. destruct (bo_apart _ _ _ _ _ _ HB x Hx) as [H1 H2]. split; [|done]. by intros ?%list_elem_of_singleton.
Qed.

Lemma first_tick_quiet `{KernelLayout} y m h hs now st k1 time t1 fuel : booted y m h hs now st -> (2 < fuel)%nat ->
  (forall i, now <= time i <= t1) -> t1 < 2 ^ 63 -> schedule fuel time (k_sched (st_kernel st)) = Ok (k_sched k1) ->
  k_heap k1 = k_heap (st_kernel st) -> k_mem k1 = k_mem (st_kernel st) -> k_vmas k1 = k_vmas (st_kernel st) ->
  dom (tasks (k_sched k1)) = {[ idle_task y; root_task y ]} -> quiet (st_kernel st) k1.
Proof.
  intros HB Hf Htime Ht1 Hsch E1 E2 E3 Hd. destruct (bo_sys _ _ _ _ _ _ HB) as (qs & Hsys).
  destruct (num_asids_bounds 1 (asids (k_sched (st_kernel st)))) as [Hna _]; [apply (ki_asid _ _ _ (sys_kernel _ _ _ _ Hsys))|].
  destruct (bo_tasks _ _ _ _ _ _ HB) as (a & Ht).
  assert (Hd0 : dom (tasks (k_sched (st_kernel st))) = {[ idle_task y; root_task y ]}).
  { rewrite Ht. apply ready_dom. }
  destruct (schedule_frames fuel time now t1 1 (st_kernel st) qs) as (s' & _ & _ & Es & _ & _ & _ & _ & _ & He & Hkn); try done.
  { specialize (Htime 0%nat). lia. } { lia. } { rewrite <- (size_dom (D := gset Z)), Hd0. by apply pair_fuel. }
  rewrite Hsch in Es. injection Es as Es. apply (quiet_sched _ _ s'); try done.
  - by rewrite <- Es, Hd, Hd0.
  - intros x w. by apply evolves_spaces with (this_task (st_kernel st)) (g_current_task s').
Qed.

(** ** A call in a session *)

Module SessionDemo.
#[local] Existing Instance Demo.layout.

Lemma user_hosted regs : hosted Demo.root (Machine.user regs) {[ Sample.root := Root ]} [].
Proof.
  destruct (Machine.user_task regs) as (t & Ht & Hc & Hd). constructor.
  - exists (Machine.equip t). split; [exact Ht|]. constructor.
    + pose proof (Machine.user_areas regs t Hc) as HA. unfold mm_view in HA. rewrite Hc in HA. exact HA.
    + apply private_empty. exact UserMemSpec.start_walk.
    + cbn. lia.
  - intros x Hx. pose proof (Machine.user_apart regs x Hx) as Hap. rewrite Hc in Hap. exact Hap.
Qed.

Lemma user_alive_start regs : (length regs <= 31)%nat -> alive {[ Demo.idle; Demo.root ]} 1000 (Machine.user regs) 7.
Proof.
  intros Hl. destruct (Machine.user_starts regs Hl) as (g & qs & Hg & Hr & _). destruct (Machine.user_task regs) as (t & _ & _ & Hd).
  constructor; [exists g, qs; split; [exact Hr|lia]|apply start_irqs|exact Hd].
Qed.

(** A program that maps three pages finds them cleared, and nothing where it mapped nothing. *)
Example map_session : exists k',
  lower_el_sync 3 8 (fun _ => 10) (Z.shiftl 0x15 26) 0 (Machine.user [0; 0x2345; 3; 0x22; -1; 0; 7; 8; 222]) = Ok k' /\
  seen Demo.root k' 0x7fffffb000 = Some 0 /\ seen Demo.root k' 0x400000 = None.
Proof.
  set (regs := [0; 0x2345; 3; 0x22; -1; 0; 7; 8; 222]).
  destruct (session_ok 3 {[ Demo.idle; Demo.root ]} Demo.root 1000 (Machine.user regs) 7 {[ Sample.root := Root ]} [] []
              (Machine.user regs) 7) as (_ & _ & _ & H1).
  - vm_compute. lia.
  - apply user_alive_start. cbn. lia.
  - apply user_hosted.
  - apply sss_nil.
  - cbn. lia.
  - destruct (Machine.user_task regs) as (t & Ht & Hc & _).
    destruct (H1 (mmap_op 0x2345 0x7fffffe000) (lower_el_sync 3 8 (fun _ => 10) (Z.shiftl 0x15 26) 0 (Machine.user regs)) 10) as (k' & E & Hm).
    + apply ss_mem with (w := Machine.equip t); [reflexivity|exact Hc|exact Ht| |lia|intros i; lia|reflexivity].
      apply (mc_mmap Demo.root (Machine.user regs) (Machine.equip t) 0x7fffffe000 (granaddr Sample.heap 0) (granaddr Sample.heap 1) 34);
        [reflexivity|reflexivity|].
      split; [left; vm_compute; discriminate|]. split; [split; vm_compute; congruence|]. split; [|split; [vm_compute; discriminate|apply Program.start_grants]].
      pose proof (ar_list _ _ _ (Machine.user_areas regs t Hc)) as Hl. unfold mm_view in Hl. rewrite Hc in Hl.
      apply (find_free_vma_ok (space Demo.root (Machine.user regs) (Machine.equip t)) [] 0 Hl I); [split; vm_compute; congruence|vm_compute; congruence].
    + exists k'. split; [exact E|]. destruct Hm as (Z1 & _ & Z2). split; [apply Z1; vm_compute; split; congruence|].
      rewrite Z2 by (vm_compute; intros [A _]; apply A; reflexivity). unfold seen. rewrite Ht. unfold user_view, byte_at.
      change (ram_at _ _ 0x400000) with (at_user Program.start 0x400000). rewrite UserMemSpec.start_unmapped. reflexivity.
Qed.
End SessionDemo.

Module SessionSpec.

(** C2: a program in the running system.  Boot the kernel from the layout of the
    linker script with a valid program in the image and take the first timer interrupt.
    The program is entered at its entry point and finds its image in memory.  Then
    the following may happen, in any order and up to 65000 times, while the counter
    stays below 2^63: tasks compute; the program stores to a byte it may write; an
    interrupt of the table or a spurious one arrives; a task makes a call that needs
    no state, or sleeps with a request that the kernel can read (seconds not
    negative, nanoseconds below 10^9, the end below 2^63); the program calls
    [mmap] without an address, kind given, for at most 128 KiB, or with arguments
    that [mmap] refuses; it keeps or lowers its break, or grows a page-aligned one
    by at most 128 KiB below its areas (the break being below 2 GiB); where a call takes memory, the heap has it.
    The kernel finishes every such step, all invariants hold, and what the program
    finds in its memory is its image and what its own steps did to it: no interrupt,
    no switch to another task and no call changes a byte of it, except that a new range
    shows cleared bytes, followed, for a break inside a page, by what the heap held
    in the rest of that page.  No address of the program leads to a page table, to a
    free page of the kernel or to the byte of another of its addresses. *)
Theorem program_in_system `{KernelLayout} y hardware hardware' CurrentEL id cntfrq c m bits h hs now T time t1 fuel :
  startable y hardware id m bits h hs -> 0 < now ->
  (forall k, Z.land (hardware' k (Sys ICC_IAR1_EL1)) INTID_MASK = IRQN_EL1_VIRT_TIMER) ->
  (forall i, now <= time i <= t1) -> t1 < 2 ^ 63 -> (2 < fuel)%nat ->
  let u := root_task y in
  exists st k1, init_kernel y hardware CurrentEL id cntfrq c m = Ok st /\
    cur_el_irq fuel hardware' T time (st_kernel st) = Ok k1 /\ this_task k1 = u /\ elr_el1 (k_cpu k1) = h_entry h /\
    (forall sg i, sg ∈ collect hs [] -> is_load sg = true -> 0 <= i < sg_memsz sg ->
       seen u k1 (sg_vaddr sg + i) = if i <? sg_filesz sg then byte m (user_start y + sg_offset sg + i) else Some 0) /\
    forall os k t, ssteps fuel u k1 t1 os k t -> Z.of_nat (length os) < 65000 ->
      (exists g qs, running t g k qs) /\ spec_run (seen u k1) os (seen u k) /\ (exists R xs, hosted u k R xs) /\
      forall o out t', sstep fuel u k t o out t' -> exists k', out = Ok k' /\ mem_spec o (seen u k) (seen u k').
Proof.
  intros [HL HP Hprog Hgic Hid Hn] Hnow Hiar Htime Ht1 Hf u.
  destruct (init_kernel_ok y HL hardware CurrentEL id cntfrq c m bits h hs now) as (st & Hst & HB); try done.
  destruct (first_tick_ok y HL m h hs now st hardware' T time t1 fuel)
    as (k1 & g & qs & Hk & Hr & Hg & Hu & He & _ & _ & Hm & Hd & Hv & Hsch & Hh & Hvm); try done.
  exists st, k1. do 4 (split; [done|]). destruct (booted_hosted _ _ _ _ _ _ HB) as (R & Hho).
  destruct (hosted_quiet u _ k1 R [] Hho) as [Hho1 Hseen]; [by eapply first_tick_quiet|]. split.
  - intros sg i Hin Hl Hi. rewrite Hseen. destruct (bo_segments _ _ _ _ _ _ HB sg Hin Hl i Hi) as (pa & at_ & Ht & _ & <- & Hram).
    destruct (ho_task _ _ _ _ Hho) as (t & Et & _). destruct (bo_tasks _ _ _ _ _ _ HB) as (a & Ea).
    unfold seen. fold u in Et. rewrite Et. rewrite Ea in Et. unfold u in Et. rewrite ready_root in Et. injection Et as <-. unfold user_view, byte_at.
    rewrite (proj2 (ram_at_some _ _ _ pa at_)); [done|]. split; [|done].
    destruct (pr_segs _ _ _ _ Hprog sg Hin Hl) as [Hok _]. eapply seg_window; [exact Hok|].
    destruct (span_facts _ _ Hok) as (Hsp & _). unfold seg_range. lia.
  - intros os k t Hs Hb. eapply (session_ok fuel {[ idle_task y; root_task y ]} u 65001 k1 t1); try done; [by apply pair_fuel| |lia].
    constructor; [exists g, qs; split; [done|lia]|rewrite Hv; apply start_irqs|done].
Qed.

#[local] Existing Instance SmallImage.layout.

(** The small machine: the program finds its data, also after another timer
    interrupt. *)
Lemma program_in_system_witness : exists st k1 k2,
  init_kernel SmallImage.y GicSpec.quiet 4 0 62500000 StartSpec.registers_at_reset SmallImage.memory = Ok st /\
  cur_el_irq 3 TrapSpec.ticking 9 (fun _ => 10) (st_kernel st) = Ok k1 /\
  lower_el_irq 3 TrapSpec.ticking 11 (fun _ => 12) k1 = Ok k2 /\
  seen (SmallImage.base + 0x5e00) k2 0x402001 = Some 12 /\ seen (SmallImage.base + 0x5e00) k2 0x402010 = Some 0.
Proof.
  destruct (program_in_system SmallImage.y GicSpec.quiet TrapSpec.ticking 4 0 62500000 StartSpec.registers_at_reset SmallImage.memory 8
              SmallImage.header TinyElf.hs 1 9 (fun _ => 10) 10 3) as (st & k1 & Hst & Hk1 & Hu & _ & Himg & Hrun).
  - exact SmallImage.small_startable.
  - lia.
  - reflexivity.
  - intros i. lia.
  - reflexivity.
  - lia.
  - destruct (Hrun [] k1 10 (sss_nil _ _ _ _) ltac:(reflexivity)) as (_ & _ & _ & Hstep).
    destruct (Hstep OKeep (lower_el_irq 3 TrapSpec.ticking 11 (fun _ => 12) k1) 12) as (k2 & E & Hsame).
    { apply ss_irq; [left; reflexivity|intros i; lia|reflexivity]. }
    exists st, k1, k2. split; [exact Hst|]. split; [exact Hk1|]. split; [exact E|]. cbn [mem_spec] in Hsame.
    change (SmallImage.base + 0x5e00) with (root_task SmallImage.y). rewrite !Hsame.
    split.
    + etransitivity; [exact (Himg (segment_of (TinyElf.bss 0x402000)) 1 ltac:(left) eq_refl ltac:(split; vm_compute; congruence))|].
      change (1 <? sg_filesz (segment_of (TinyElf.bss 0x402000))) with true. cbv iota.
      rewrite SmallImage.file_bytes by (split; vm_compute; congruence). vm_compute. reflexivity.
    + exact (Himg (segment_of (TinyElf.bss 0x402000)) 16 ltac:(left) eq_refl ltac:(split; vm_compute; congruence)).
Defined.
End SessionSpec.
