(* ===== verification/Stubs.v ===== *)
(** * System call stubs (arch/arm64/include/syscall.h)

    The user side of a system call: the number goes to [x8], the arguments to
    [x0] up to [x5], the trap is taken, and the result is what [x0] holds when the
    task runs on.  The theorems connect the stubs with the handlers of [Traps]. *)

From Stdlib Require Import ZArith Lia Bool.
From stdpp Require Import base numbers list gmap.
From S2P Require Import Prelude KList Task Sched Timer PageTable Gic Traps System.
#[local] Open Scope Z_scope.

(** [register long x<r> = v]. *)
Definition set_x (r : nat) (v : Z) (c : cpu) : cpu := MkCpu (<[r := u64 v]> (gpr c)) (elr_el1 c) (sp_el0 c) (spsr_el1 c).

(** The registers at the trap of each stub. *)
Definition __syscall0 (n : Z) (r : cpu) : cpu := set_x 8 n r.
Definition __syscall1 (n a : Z) (r : cpu) : cpu := set_x 0 a (set_x 8 n r).
Definition __syscall2 (n a b : Z) (r : cpu) : cpu := set_x 1 b (set_x 0 a (set_x 8 n r)).
Definition __syscall3 (n a b c : Z) (r : cpu) : cpu := set_x 2 c (set_x 1 b (set_x 0 a (set_x 8 n r))).
Definition __syscall4 (n a b c d : Z) (r : cpu) : cpu := set_x 3 d (set_x 2 c (set_x 1 b (set_x 0 a (set_x 8 n r)))).
Definition __syscall5 (n a b c d e : Z) (r : cpu) : cpu :=
  set_x 4 e (set_x 3 d (set_x 2 c (set_x 1 b (set_x 0 a (set_x 8 n r))))).
Definition __syscall6 (n a b c d e f : Z) (r : cpu) : cpu :=
  set_x 5 f (set_x 4 e (set_x 3 d (set_x 2 c (set_x 1 b (set_x 0 a (set_x 8 n r)))))).

(** Which stub a list of arguments selects, as the [__syscall] macro counts them. *)
Definition __syscall (n : Z) (args : list Z) (r : cpu) : option cpu :=
  match args with
  | [] => Some (__syscall0 n r)
  | [a] => Some (__syscall1 n a r)
  | [a; b] => Some (__syscall2 n a b r)
  | [a; b; c] => Some (__syscall3 n a b c r)
  | [a; b; c; d] => Some (__syscall4 n a b c d r)
  | [a; b; c; d; e] => Some (__syscall5 n a b c d e r)
  | [a; b; c; d; e; f] => Some (__syscall6 n a b c d e f r)
  | _ => None
  end.

(** What the stub returns: [x0] of the task, as a [long]. *)
Definition result (k : kernel) (x : Z) : option Z := (fun c => s64 (reg c X0)) <$> registers k x.

(** ** Calling convention *)

Lemma set_x_length r v c : length (gpr c) = 31%nat -> length (gpr (set_x r v c)) = 31%nat.
Proof. intros Hl. cbn. by rewrite length_insert. Qed.

(** A register of the frame, under the last one that was set. *)
Lemma frame_set_x r v c i : length (gpr c) = 31%nat -> (r < 31)%nat -> (i < 31)%nat ->
  frame_of (set_x r v c) !! i = if decide (i = r) then Some (u64 v) else frame_of c !! i.
Proof.
  intros Hl Hr Hi. unfold frame_of, context. cbn [set_x gpr elr_el1 sp_el0 spsr_el1]. rewrite !lookup_app_l by (rewrite ?length_insert; lia). destruct (decide (i = r)) as [->|Hn].
  - apply list_lookup_insert_eq. lia.
  - by apply list_lookup_insert_ne.
Qed.

Lemma frame_nth c i v : frame_of c !! i = Some v -> param (frame_of c) i = v.
Proof. intros E. unfold param. by apply nth_lookup_Some. Qed.

Ltac stub Hl :=
  unfold __syscall0, __syscall1, __syscall2, __syscall3, __syscall4, __syscall5, __syscall6;
  repeat (rewrite frame_set_x; [|repeat (apply set_x_length); exact Hl|lia|lia]); cbn; reflexivity.

(** The kernel finds the number and the arguments where the stub put them, and no
    other register has changed. *)
Lemma stub_frame n args r r' : length (gpr r) = 31%nat -> __syscall n args r = Some r' ->
  length (gpr r') = 31%nat /\ reg (frame_of r') X8 = u64 n /\
  (forall i a, args !! i = Some a -> param (frame_of r') i = u64 a) /\
  (forall i, (length args <= i < 31)%nat -> i <> 8%nat -> gpr r' !! i = gpr r !! i) /\
  elr_el1 r' = elr_el1 r /\ sp_el0 r' = sp_el0 r /\ spsr_el1 r' = spsr_el1 r.
Proof.
  intros Hl. destruct args as [|a [|b [|c [|d [|e [|f [|x args]]]]]]]; cbn [__syscall]; try done; intros [= <-];
    (split; [repeat (apply set_x_length); exact Hl|]); (split; [unfold reg; change (Z.to_nat X8) with 8%nat; stub Hl|]);
    (split; [intros i v Hi; do 6 (destruct i as [|i]; [try done; injection Hi as <-; apply frame_nth; stub Hl|]); done|]);
    (split; [cbn [length]; intros i Hi H8; cbn; rewrite ?list_lookup_insert_ne by lia; reflexivity|done]).
Qed.

Module StubSpec.

(** A call from its stub to its result.  A task that calls a stub with the number
    of a call that needs no state gets the result of that call, and its
    other registers are those at the trap; every other task keeps its registers. *)
Lemma stub_call `{KernelLayout} fuel T time now t1 g k qs far n args r r0 :
  running now g k qs -> __syscall n args (k_cpu k) = Some r0 -> plain_result (u64 n) = Some r -> now <= T ->
  (forall i, T <= time i <= t1) -> t1 < 2 ^ 63 ->
  (g + 1) * num_asids (asids (k_sched k)) < 2 ^ 32 -> (size (tasks (k_sched k)) < fuel)%nat ->
  exists k', lower_el_sync fuel T time (Z.shiftl ESR_EC_LEL_SVC64 ESR_EC_SHIFT) far (user_runs k r0 (k_mem k)) = Ok k' /\
    result k' (this_task k) = Some (s64 r) /\ k_mem k' = k_mem k /\ k_heap k' = k_heap k /\
    forall x, x <> this_task k -> registers k' x = registers k x.
Proof.
  intros Hrun Hst Hr HT Htime Ht1 Hroom Hfuel.
  assert (Hl : length (gpr (k_cpu k)) = 31%nat) by apply Hrun.
  destruct (stub_frame n args (k_cpu k) r0 Hl Hst) as (Hl0 & H8 & _). set (ku := user_runs k r0 (k_mem k)).
  assert (Hru : running now g ku qs) by (destruct Hrun as [R1 R2 _ R4]; by constructor).
  destruct (stored_ok _ _ _ _ Hru) as (_ & P1 & _ & P3 & _ & E1 & _).
  destruct (svc_trap fuel T time now t1 g ku qs (Z.shiftl ESR_EC_LEL_SVC64 ESR_EC_SHIFT) far (put_context ku (this_task ku) (frame_of (k_cpu ku))) qs r Hru)
    as (k' & E & (g' & qs' & _ & _ & _ & Hreg) & Ek & _); try done.
  { apply plain_call; [by apply (current_task now g _ qs)|]. cbn [k_cpu ku user_runs]. by rewrite H8. }
  { by eapply served_same. }
  exists k'. split; [exact E|]. split; [|split; [by rewrite Ek, E1|split; [by rewrite Ek, E1|]]].
  - unfold result. change (this_task k) with (this_task ku). rewrite Hreg, Z.eqb_refl. cbn [fmap option_fmap option_map].
    f_equal. f_equal. unfold context_set_retcode, set_reg, reg, context. rewrite list_lookup_insert_eq; [done|].
    cbn [ku user_runs k_cpu]. rewrite (frame_length _ Hl0). unfold X0. lia.
  - intros x Hx. rewrite Hreg. change (this_task ku) with (this_task k). rewrite (proj2 (Z.eqb_neq _ _) Hx).
    unfold registers. change (this_task ku) with (this_task k). by rewrite (proj2 (Z.eqb_neq _ _) Hx).
Qed.
End StubSpec.
