(* ===== verification/Crt.v ===== *)
(** * Start-up code of a program (app/crt/crt1.c)

    The code runs in user mode on the memory that the program sees, here a partial
    map from addresses to bytes as in [UserMem].  The functions it calls are
    events of a trace; [main] is a parameter. *)

From Stdlib Require Import ZArith Lia Bool.
From stdpp Require Import base numbers list gmap.
From S2P Require Import Prelude KList Task Sched Timer PageTable AddrSpace Bytes Space Mmap Elf ElfLoad UserMem Gic Traps Init Start System Session.
#[local] Open Scope Z_scope.

Inductive event : Type :=
| EInit                          (* _init *)
| EInitLibc                      (* init_libc *)
| ECall (f : Z)                  (* a function of the init array *)
| EMain (argc argv : Z)
| EExit (ret : Z).

(** [n] bytes of the program's memory, little-endian; an address that shows nothing
    is a fault. *)
Fixpoint fetch_le (V : Z -> option Z) (n : nat) (a : Z) : outcome Z :=
  match n with
  | O => Ok 0
  | S n =>
      match V a with
      | Some b => let! r := fetch_le V n (a + 1) in Ok (b + 256 * r)
      | None => Fault
      end
  end.

Definition load64 (V : Z -> option Z) (a : Z) : outcome Z := fetch_le V 8 a.

(** [for (; a < &__init_array_end; a += sizeof(void ( * )()))]. *)
Fixpoint init_loop (fuel : nat) (V : Z -> option Z) (a stop : Z) : outcome (list event) :=
  match fuel with
  | O => Diverge
  | S fuel =>
      if a <? stop then
        let! f := load64 V a in
        let! tr := init_loop fuel V (u64 (a + 8)) stop in
        Ok (ECall f :: tr)
      else Ok []
  end.

Section Crt.
(** The two weak symbols. *)
Variables (__init_array_start __init_array_end : Z).
Variable main : Z -> Z -> Z.

Definition libc_start_init (V : Z -> option Z) : outcome (list event) :=
  let! tr := init_loop (S (Z.to_nat ((__init_array_end - __init_array_start + 7) / 8))) V __init_array_start __init_array_end in
  Ok (EInit :: tr).

Definition crt_start (V : Z -> option Z) (p : Z) : outcome (list event) :=
  let! w := load64 V p in
  let argc := s32 w in
  let argv := u64 (p + 8) in
  let! tr := libc_start_init V in
  let ret := main argc argv in
  Ok ([EInitLibc] ++ tr ++ [EMain argc argv; EExit ret]).

(** The array holds the functions [fs]. *)
Fixpoint array_at (V : Z -> option Z) (a : Z) (fs : list Z) : Prop :=
  match fs with [] => True | f :: fs => load64 V a = Ok f /\ array_at V (a + 8) fs end.

Lemma init_loop_ok V fs : forall a fuel, array_at V a fs -> 0 <= a -> a + 8 * Z.of_nat (length fs) < 2 ^ 64 -> (length fs < fuel)%nat ->
  init_loop fuel V a (a + 8 * Z.of_nat (length fs)) = Ok (map ECall fs).
Proof.
  induction fs as [|f fs IH]; intros a [|fuel] Hat Ha Hb Hf; cbn [length] in *; try lia; cbn [init_loop].
  - by rewrite (proj2 (Z.ltb_ge _ _)) by lia.
  - destruct Hat as [Hl Hat]. rewrite (proj2 (Z.ltb_lt _ _)) by lia. rewrite Hl. cbn [obind]. rewrite u64_id by lia.
    replace (a + 8 * Z.of_nat (S (length fs))) with (a + 8 + 8 * Z.of_nat (length fs)) by lia.
    rewrite IH by (done || lia). done.
Qed.

(** The start-up code calls [_init], every function of the array once and in order,
    then [main] and then [exit] with its result. *)
Lemma crt_start_order V p w fs :
  load64 V p = Ok w -> array_at V __init_array_start fs -> 0 <= __init_array_start -> __init_array_end < 2 ^ 64 ->
  __init_array_end = __init_array_start + 8 * Z.of_nat (length fs) ->
  crt_start V p = Ok ([EInitLibc; EInit] ++ map ECall fs ++
    [EMain (s32 w) (u64 (p + 8)); EExit (main (s32 w) (u64 (p + 8)))]).
Proof.
  intros Hw Hat H0 Hb E. unfold crt_start, libc_start_init. rewrite Hw. cbn [obind].
  rewrite E, init_loop_ok; [done|done|done|lia|]. apply Nat.lt_succ_r. rewrite <- (Nat2Z.id (length fs)) at 1. apply Z2Nat.inj_le; [lia|..].
  - Z.div_mod_to_equations. lia.
  - Z.div_mod_to_equations. lia.
Qed.
End Crt.

Module CrtSpec.

(** The kernel enters the program with every general register zero, so the
    argument of [_start] is the null pointer. *)
Lemma entered_with_null `{KernelLayout} y h a : gpr (cpu_of (ctx (loaded_tcb y h a))) = replicate 31 0.
Proof. reflexivity. Qed.

(** Programs are linked at address 0, so what [_start] takes for [argc] is its first
    instruction: here [stp x29, x30, [sp, #-32]!] and [mov x29, sp]. *)
Definition code_at_zero (x : Z) : option Z :=
  if x <? 0 then None else [0xfd; 0x7b; 0xbe; 0xa9; 0xfd; 0x03; 0x00; 0x91] !! Z.to_nat x.

Example argc_is_code : crt_start 0 0 (fun argc _ => argc) code_at_zero 0 = Ok [EInitLibc; EInit; EMain (-1447134211) 8; EExit (-1447134211)].
Proof. reflexivity. Qed.
End CrtSpec.
