(* ===== verification/Cache.v ===== *)
(** * Cache maintenance by set and way (os/arch/arm64/cache.c)

    The geometry of a cache is read from the processor and every line of it is
    cleaned, one set/way operand at a time.  [clidr] and [ccsidr] stand for the
    identification registers; the operations are logged in order. *)

From Stdlib Require Import ZArith Lia Bool.
From stdpp Require Import base numbers list.
From S2P Require Import Prelude.
#[local] Open Scope Z_scope.

Definition bitmask (n : Z) : Z := Z.shiftl 1 n - 1.
Definition LOUU (x : Z) : Z := Z.land (Z.shiftr x 27) (bitmask 3).
Definition LOC (x : Z) : Z := Z.land (Z.shiftr x 24) (bitmask 3).
Definition CTYPE (x n : Z) : Z := Z.land (Z.shiftr x (n * 3)) (bitmask 3).
Definition LINEBITS (s : Z) : Z := Z.land s (bitmask 3) + 4.
Definition ASSOC (s : Z) : Z := Z.land (Z.shiftr s 3) (bitmask 10) + 1.
Definition NSETS (s : Z) : Z := Z.land (Z.shiftr s 13) (bitmask 15) + 1.
Definition ARMCacheI : Z := 1.

(** [__builtin_clzl] is undefined at 0. *)
Definition clzl (x : Z) : outcome Z := if x =? 0 then Fault else Ok (63 - Z.log2 x).

Inductive cache_op : Type :=
| CleanWSL (wsl : Z)
| CleanInvalidateWSL (wsl : Z)
| InvalidateI
| Dsb.

Record cache_hw : Type := MkHw { csselr : Z; ops : list cache_op }.

Definition log_op (o : cache_op) (h : cache_hw) : cache_hw := MkHw (csselr h) (ops h ++ [o]).

Section Processor.
Context (clidr : Z) (ccsidr : Z -> Z).

Definition readCLID : Z := clidr.

(** The size register shows the cache that [csselr] selects. *)
Definition readCacheSize (level instruction : Z) (h : cache_hw) : Z * cache_hw :=
  let csselr_old := csselr h in
  let h := MkHw (Z.lor (Z.shiftl level 1) instruction) (ops h) in
  let size := ccsidr (csselr h) in
  (size, MkHw csselr_old (ops h)).

(** The operand: [int] arithmetic, converted to [unsigned long]. *)
Definition wsl (w s l lbits assoc_bits : Z) : Z :=
  u64 (Z.lor (Z.lor (s32 (Z.shiftl w (32 - assoc_bits))) (s32 (Z.shiftl s lbits))) (s32 (Z.shiftl l 1))).

(** The two loops; [op] is the instruction. *)
Fixpoint sets_loop (n : nat) (op : Z -> cache_op) (w s l lbits ab : Z) (h : cache_hw) : cache_hw :=
  match n with
  | O => h
  | S n => sets_loop n op w (s + 1) l lbits ab (log_op (op (wsl w s l lbits ab)) h)
  end.

Fixpoint ways_loop (n : nat) (op : Z -> cache_op) (nsets : nat) (w l lbits ab : Z) (h : cache_hw) : cache_hw :=
  match n with
  | O => h
  | S n => ways_loop n op nsets (w + 1) l lbits ab (sets_loop nsets op w 0 l lbits ab h)
  end.

(** The body that [cleanInvalidate_D_by_level] and [clean_D_PoU] share. *)
Definition by_level (op : Z -> cache_op) (l : Z) (h : cache_hw) : outcome cache_hw :=
  let (lsize, h) := readCacheSize l 0 h in
  let lbits := LINEBITS lsize in
  let assoc := ASSOC lsize in
  let! z := clzl (assoc - 1) in
  let assoc_bits := 64 - z in
  let nsets := NSETS lsize in
  Ok (ways_loop (Z.to_nat assoc) op (Z.to_nat nsets) 0 l lbits assoc_bits h).

Definition cleanInvalidate_D_by_level (l : Z) (h : cache_hw) : outcome cache_hw := by_level CleanInvalidateWSL l h.

(** [for (int l = 0; l < n; l++) if (CTYPE(clid, l) > ARMCacheI) ...]; [n] levels are left. *)
Fixpoint levels_loop (n : nat) (op : Z -> cache_op) (clid l : Z) (h : cache_hw) : outcome cache_hw :=
  match n with
  | O => Ok h
  | S n =>
      let! h := (if ARMCacheI <? CTYPE clid l then by_level op l h else Ok h) in
      levels_loop n op clid (l + 1) h
  end.

Definition clean_D_PoU (h : cache_hw) : outcome cache_hw :=
  let clid := s32 readCLID in levels_loop (Z.to_nat (LOUU clid)) CleanWSL clid 0 h.

Definition cleanInvalidate_D_PoC (h : cache_hw) : outcome cache_hw :=
  let clid := s32 readCLID in levels_loop (Z.to_nat (LOC clid)) CleanInvalidateWSL clid 0 h.

Definition cleanInvalidate_L1D (h : cache_hw) : outcome cache_hw := cleanInvalidate_D_by_level 0 h.

Definition cleanInvalidateL1Caches (h : cache_hw) : outcome cache_hw :=
  let h := log_op Dsb h in
  let! h := cleanInvalidate_D_PoC h in
  Ok (log_op Dsb (log_op InvalidateI (log_op Dsb h))).

(** ** Which line an operand names *)

(** Way in the top [ab] of 32 bits, set from bit [lbits] on, level in bits 3 to 1. *)
Definition line_of (lbits ab x : Z) : Z * Z * Z :=
  (Z.shiftr (u32 x) (32 - ab), Z.land (Z.shiftr x lbits) (Z.ones (32 - ab - lbits)), Z.land (Z.shiftr x 1) (Z.ones 3)).

(** All lines of a cache, in the order of the loops. *)
Definition zrange (a : Z) (n : nat) : list Z := map (fun i => a + Z.of_nat i) (seq 0 n).
Definition lines (l assoc nsets : Z) : list (Z * Z * Z) :=
  flat_map (fun w => map (fun s => (w, s, l)) (zrange 0 (Z.to_nat nsets))) (zrange 0 (Z.to_nat assoc)).

(** The fields of a set/way operand of this geometry do not overlap. *)
Definition fits (lsize : Z) : Prop :=
  2 <= ASSOC lsize /\ NSETS lsize <= 2 ^ (32 - (Z.log2 (ASSOC lsize - 1) + 1) - LINEBITS lsize) /\
  0 <= 32 - (Z.log2 (ASSOC lsize - 1) + 1) - LINEBITS lsize.

Lemma s32_bit x i : 0 <= i < 32 -> Z.testbit (s32 x) i = Z.testbit x i.
Proof.
  intros Hi. assert (H : s32 x mod 2 ^ 32 = x mod 2 ^ 32).
  { unfold s32. destr_if; [by rewrite Z.mod_mod|].
    replace (x mod 2 ^ 32 - 2 ^ 32) with (x mod 2 ^ 32 + (-1) * 2 ^ 32) by lia. by rewrite Z.mod_add, Z.mod_mod. }
  rewrite <- (Z.mod_pow2_bits_low (s32 x) 32 i), <- (Z.mod_pow2_bits_low x 32 i) by lia. by rewrite H.
Qed.

Lemma wsl_bit w s l lbits ab i : 0 <= i < 32 ->
  Z.testbit (wsl w s l lbits ab) i =
  Z.testbit (Z.shiftl w (32 - ab)) i || Z.testbit (Z.shiftl s lbits) i || Z.testbit (Z.shiftl l 1) i.
Proof.
  intros Hi. unfold wsl, u64. rewrite Z.mod_pow2_bits_low by lia. rewrite !Z.lor_spec, !s32_bit by lia. done.
Qed.

Lemma wsl_line w s l lbits ab :
  4 <= lbits -> 0 < ab -> 0 <= 32 - ab - lbits -> 0 <= w < 2 ^ ab -> 0 <= s < 2 ^ (32 - ab - lbits) -> 0 <= l < 8 ->
  line_of lbits ab (wsl w s l lbits ab) = (w, s, l).
Proof.
  intros Hlb Hab Hf Hw Hs Hl. unfold line_of.
  assert (Bw : forall i, ab <= i -> Z.testbit w i = false) by (intros; eapply testbit_high; [|done|done]; lia).
  assert (Bs : forall i, 32 - ab - lbits <= i -> Z.testbit s i = false) by (intros; eapply testbit_high; [|done|done]; lia).
  assert (Bl : forall i, 3 <= i -> Z.testbit l i = false) by (intros; eapply (testbit_high 3); [lia|exact Hl|lia]).
  f_equal; [f_equal|]; apply Z.bits_inj'; intros i Hi.
  - rewrite Z.shiftr_spec by lia. unfold u32. destruct (Z.lt_ge_cases i ab).
    + rewrite Z.mod_pow2_bits_low, wsl_bit by lia. rewrite !Z.shiftl_spec by lia.
      rewrite Bs, Bl by lia. rewrite !orb_false_r. f_equal. lia.
    + rewrite Z.mod_pow2_bits_high, Bw by lia. done.
  - rewrite Z.land_spec, Z.shiftr_spec, Z.testbit_ones_nonneg by lia. destruct (Z.ltb_spec i (32 - ab - lbits)).
    + rewrite wsl_bit by lia. rewrite !Z.shiftl_spec by lia. rewrite (Z.testbit_neg_r w), Bl by lia.
      rewrite orb_false_l, orb_false_r, andb_true_r. f_equal. lia.
    + rewrite Bs, andb_false_r by lia. done.
  - rewrite Z.land_spec, Z.shiftr_spec, Z.testbit_ones_nonneg by lia. destruct (Z.ltb_spec i 3).
    + rewrite wsl_bit by lia. rewrite !Z.shiftl_spec by lia. rewrite (Z.testbit_neg_r w), (Z.testbit_neg_r s) by lia.
      rewrite !orb_false_l, andb_true_r. f_equal. lia.
    + rewrite Bl, andb_false_r by lia. done.
Qed.

Lemma zrange_S a n : zrange a (S n) = a :: zrange (a + 1) n.
Proof.
  unfold zrange. cbn [seq map]. rewrite Z.add_0_r. f_equal. rewrite <- seq_shift, map_map. apply map_ext. intros i. lia.
Qed.

Lemma sets_ops n op w l lbits ab : forall s h,
  sets_loop n op w s l lbits ab h =
  MkHw (csselr h) (ops h ++ map (fun s => op (wsl w s l lbits ab)) (zrange s n)).
Proof.
  induction n as [|n IH]; intros s h; cbn [sets_loop].
  - rewrite app_nil_r. by destruct h.
  - rewrite IH, zrange_S. cbn [csselr ops log_op map]. by rewrite <- app_assoc.
Qed.

Lemma ways_ops n op nsets l lbits ab : forall w h,
  ways_loop n op nsets w l lbits ab h =
  MkHw (csselr h) (ops h ++ flat_map (fun w => map (fun s => op (wsl w s l lbits ab)) (zrange 0 nsets)) (zrange w n)).
Proof.
  induction n as [|n IH]; intros w h; cbn [ways_loop].
  - rewrite app_nil_r. by destruct h.
  - rewrite IH, sets_ops, zrange_S. cbn [csselr ops flat_map]. by rewrite <- app_assoc.
Qed.

Lemma mask_bound n x : 0 <= n -> 0 <= Z.land x (bitmask n) < 2 ^ n.
Proof.
  intros Hn. unfold bitmask. rewrite Z.shiftl_mul_pow2, Z.mul_1_l, Z.sub_1_r, <- Z.ones_equiv, Z.land_ones by lia.
  apply Z.mod_pos_bound, Z.pow_pos_nonneg; lia.
Qed.

(** The operations on one level. *)
Lemma by_level_ok op l h :
  let lsize := ccsidr (Z.shiftl l 1) in let ab := Z.log2 (ASSOC lsize - 1) + 1 in
  0 <= l < 8 -> fits lsize ->
  exists xs, by_level op l h = Ok (MkHw (csselr h) (ops h ++ map op xs)) /\
    map (line_of (LINEBITS lsize) ab) xs = lines l (ASSOC lsize) (NSETS lsize).
Proof.
  intros lsize ab Hl (Ha & Hn & Hf). fold ab in Hn, Hf. unfold by_level, readCacheSize. cbn [csselr ops].
  rewrite Z.lor_0_r. fold lsize. unfold clzl. rewrite (proj2 (Z.eqb_neq _ _)) by lia. cbn [obind].
  replace (64 - (63 - Z.log2 (ASSOC lsize - 1))) with ab by (unfold ab; lia). rewrite ways_ops. cbn [csselr ops].
  exists (flat_map (fun w => map (fun s => wsl w s l (LINEBITS lsize) ab) (zrange 0 (Z.to_nat (NSETS lsize))))
            (zrange 0 (Z.to_nat (ASSOC lsize)))).
  assert (Hlb : 4 <= LINEBITS lsize) by (unfold LINEBITS; pose proof (mask_bound 3 lsize); lia).
  assert (Hab : 0 < ab) by (unfold ab; pose proof (Z.log2_nonneg (ASSOC lsize - 1)); lia).
  assert (Hw : ASSOC lsize <= 2 ^ ab) by (unfold ab; pose proof (Z.log2_spec (ASSOC lsize - 1)); rewrite Z.add_1_r; lia).
  clearbody ab. split.
  - do 3 f_equal. rewrite flat_map_concat_map, flat_map_concat_map, concat_map, map_map. f_equal. apply map_ext. intros w. by rewrite map_map.
  - unfold lines. rewrite !flat_map_concat_map, concat_map, map_map. f_equal. apply map_ext_in. intros w Hin.
    rewrite map_map. apply map_ext_in. intros s Hs. unfold zrange in *.
    apply in_map_iff in Hin as (i & <- & Hi%in_seq). apply in_map_iff in Hs as (j & <- & Hj%in_seq).
    apply wsl_line; try done; lia.
Qed.
End Processor.

(** ** Theorems *)

Module CacheSpec.

(** Whether a level has a data or unified cache. *)
Definition data_level (clid l : Z) : bool := ARMCacheI <? CTYPE clid l.

(** C40: cleaning to the point of coherency touches every line once.  For every level
    below the level of coherency that has a data cache, in order, the operands name
    each way and set of that cache exactly once and nothing else, provided it has at
    least two ways and its way, set and level fields do not overlap in an operand
    (direct-mapped caches are not covered: the code takes the leading zeros of 0
    there); the cache size selector is left as it was and the instruction cache is
    invalidated last. *)
Theorem clean_to_PoC_covers clidr ccsidr h :
  let clid := s32 clidr in
  let levels := List.filter (data_level clid) (zrange 0 (Z.to_nat (LOC clid))) in
  (forall l, In l levels -> fits (ccsidr (Z.shiftl l 1))) ->
  exists xss,
    cleanInvalidateL1Caches clidr ccsidr h =
      Ok (MkHw (csselr h) (ops h ++ [Dsb] ++ map CleanInvalidateWSL (concat xss) ++ [Dsb; InvalidateI; Dsb])) /\
    Forall2 (fun l xs => let lsize := ccsidr (Z.shiftl l 1) in
      map (line_of (LINEBITS lsize) (Z.log2 (ASSOC lsize - 1) + 1)) xs = lines l (ASSOC lsize) (NSETS lsize)) levels xss.
Proof.
  intros clid levels Hfit.
  assert (Hloop : forall n l h, 0 <= l -> l + Z.of_nat n <= 8 ->
    (forall k, In k (List.filter (data_level clid) (zrange l n)) -> fits (ccsidr (Z.shiftl k 1))) ->
    exists xss, levels_loop ccsidr n CleanInvalidateWSL clid l h = Ok (MkHw (csselr h) (ops h ++ map CleanInvalidateWSL (concat xss))) /\
      Forall2 (fun l xs => let lsize := ccsidr (Z.shiftl l 1) in
        map (line_of (LINEBITS lsize) (Z.log2 (ASSOC lsize - 1) + 1)) xs = lines l (ASSOC lsize) (NSETS lsize))
        (List.filter (data_level clid) (zrange l n)) xss).
  { clear. induction n as [|n IH]; intros l h Hl Hn Hf.
    - exists []. cbn. rewrite app_nil_r. split; [by destruct h|constructor].
    - rewrite zrange_S in *. cbn [levels_loop List.filter] in *. unfold data_level at 1 in Hf. unfold data_level at 1.
      destruct (ARMCacheI <? CTYPE clid l).
      + destruct (by_level_ok ccsidr CleanInvalidateWSL l h) as (xs & -> & Hxs); [lia|apply Hf; by left|]. cbn [obind].
        destruct (IH (l + 1) (MkHw (csselr h) (ops h ++ map CleanInvalidateWSL xs))) as (xss & -> & Hxss);
          [lia|lia|intros k Hk; apply Hf; by right|].
        exists (xs :: xss). cbn [csselr ops concat]. rewrite map_app, app_assoc. split; [reflexivity|by constructor].
      + cbn [obind]. by apply IH; [lia|lia|]. }
  unfold cleanInvalidateL1Caches, cleanInvalidate_D_PoC, readCLID. fold clid.
  assert (Hloc : 0 <= LOC clid < 8) by (apply (mask_bound 3); lia).
  destruct (Hloop (Z.to_nat (LOC clid)) 0 (log_op Dsb h)) as (xss & -> & Hxss); [lia|lia|exact Hfit|].
  exists xss. unfold log_op. cbn [obind csselr ops]. rewrite <- !app_assoc. split; [reflexivity|exact Hxss].
Qed.

(** A core with 4-way 32 KiB caches of 64-byte lines at level 1 and a 16-way 1 MiB level 2. *)
Definition sample_clidr : Z := 0x2000023.
Definition sample_ccsidr (sel : Z) : Z := if sel =? 0 then 0xfe01a else 0x7fe07a.

Lemma clean_to_PoC_covers_witness : exists xss,
  cleanInvalidateL1Caches sample_clidr sample_ccsidr (MkHw 5 []) =
    Ok (MkHw 5 ([Dsb] ++ map CleanInvalidateWSL (concat xss) ++ [Dsb; InvalidateI; Dsb])) /\ length xss = 2%nat.
Proof.
  destruct (clean_to_PoC_covers sample_clidr sample_ccsidr (MkHw 5 [])) as (xss & H1 & H2).
  - intros l Hl. vm_compute in Hl. destruct Hl as [<-|[<-|[]]]; vm_compute; intuition discriminate.
  - exists xss. split; [exact H1|]. apply Forall2_length in H2. rewrite <- H2. reflexivity.
Defined.

(** A direct-mapped cache has one way, and the count of leading zeros of 0 is undefined. *)
Lemma direct_mapped_undefined ccsidr op l h : ASSOC (ccsidr (Z.shiftl l 1)) = 1 -> by_level ccsidr op l h = Fault.
Proof.
  intros Ha. unfold by_level, readCacheSize. cbn [csselr ops]. rewrite Z.lor_0_r, Ha. done.
Qed.

(** The way is shifted into the sign bit of an [int]: the operand gets ones in its upper half. *)
Example wsl_sign_extends : wsl 2 0 0 6 2 = 0xffffffff80000000.
Proof. vm_compute. reflexivity. Qed.
End CacheSpec.
