(* ===== verification/Uart.v ===== *)
(** * Serial port (os/dev/uart/pl011/uart.c)

    The driver polls the flag register of the PL011 and moves one character at a
    time.  [fr n] is what the [n]-th read of the flag register returns and
    [rx n] what the [n]-th read of the data register does: the device decides. *)

From Stdlib Require Import ZArith Lia Bool.
From stdpp Require Import base numbers list.
From S2P Require Import Prelude.
#[local] Open Scope Z_scope.

Definition UARTDR : Z := 0x000.
Definition UARTFR : Z := 0x018.
Definition UARTFR_TXFF : Z := Z.shiftl 1 5.
Definition UARTFR_RXFE : Z := Z.shiftl 1 4.

(** What the driver has done to the device: the register accesses, latest first. *)
Inductive access : Type :=
| ReadReg (a : Z)
| WriteReg (a v : Z).

Record uart_dev_t : Type := MkUart { base : Z; trace : list access }.

Definition uart_init (d : uart_dev_t) (b : Z) : uart_dev_t := MkUart b (trace d).

Section Device.
Context (fr rx : nat -> Z).

(** Reads of the register at [a] so far: the device's clock for [fr] and [rx]. *)
Definition is_read (a : Z) (x : access) : bool :=
  match x with ReadReg b => b =? a | WriteReg _ _ => false end.

Definition reads (a : Z) (d : uart_dev_t) : nat := length (List.filter (is_read a) (trace d)).

Definition read_fr (d : uart_dev_t) : Z * uart_dev_t :=
  let a := base d + UARTFR in (fr (reads a d), MkUart (base d) (ReadReg a :: trace d)).

Definition read_dr (d : uart_dev_t) : Z * uart_dev_t :=
  let a := base d + UARTDR in (rx (reads a d), MkUart (base d) (ReadReg a :: trace d)).

(** [while ((getreg64(pl011_dev.base + UARTFR) & mask) != 0);] *)
Fixpoint poll (fuel : nat) (mask : Z) (d : uart_dev_t) : outcome uart_dev_t :=
  match fuel with
  | O => Diverge
  | S fuel =>
      let (v, d) := read_fr d in
      if negb (Z.land v mask =? 0) then poll fuel mask d else Ok d
  end.

(** The part of [uart_putchar] after the test for a newline. *)
Definition put_raw (fuel : nat) (c : Z) (d : uart_dev_t) : outcome uart_dev_t :=
  let! d := poll fuel UARTFR_TXFF d in
  Ok (MkUart (base d) (WriteReg (base d + UARTDR) c :: trace d)).

Definition uart_putchar (fuel : nat) (c : Z) (d : uart_dev_t) : outcome uart_dev_t :=
  let! d := (if c =? 10 then put_raw fuel 13 d else Ok d) in
  put_raw fuel c d.

Definition uart_getchar (fuel : nat) (d : uart_dev_t) : outcome (Z * uart_dev_t) :=
  let! d := poll fuel UARTFR_RXFE d in
  let (v, d) := read_dr d in
  Ok (Z.land v 0xff, d).

(** A sequence of calls of [uart_putchar]. *)
Fixpoint put_all (fuel : nat) (cs : list Z) (d : uart_dev_t) : outcome uart_dev_t :=
  match cs with
  | [] => Ok d
  | c :: cs => let! d := uart_putchar fuel c d in put_all fuel cs d
  end.

(** ** What reaches the line *)

(** The characters written to the data register of a device at [b], in order. *)
Definition on_wire (b : Z) (x : access) : list Z :=
  match x with WriteReg a v => if a =? b + UARTDR then [v] else [] | ReadReg _ => [] end.

Definition sent (d : uart_dev_t) : list Z := flat_map (on_wire (base d)) (rev (trace d)).

(** A newline is preceded by a carriage return. *)
Definition crlf (c : Z) : list Z := if c =? 10 then [13; 10] else [c].

(** Every character is written when the transmitter has room: the flag register
    read just before does not have TXFF. *)
Fixpoint respects_fifo (b : Z) (tr : list access) : Prop :=
  match tr with
  | WriteReg a v :: ReadReg r :: tr' =>
      a = b + UARTDR /\ r = b + UARTFR /\
      Z.land (fr (length (List.filter (is_read r) tr'))) UARTFR_TXFF = 0 /\ respects_fifo b tr'
  | WriteReg _ _ :: _ => False
  | ReadReg _ :: tr' => respects_fifo b tr'
  | [] => True
  end.

(** The transmitter is never full for [n] reads in a row. *)
Definition drains (n : nat) : Prop :=
  forall t, exists k, (k < n)%nat /\ Z.land (fr (t + k)) UARTFR_TXFF = 0.

Lemma poll_ends (fuel k : nat) mask d :
  (k < fuel)%nat -> Z.land (fr (reads (base d + UARTFR) d + k)) mask = 0 ->
  exists d', poll fuel mask d = Ok d'.
Proof.
  revert k d. induction fuel as [|fuel IH]; intros k d Hk Hz; [lia|]. simpl.
  destr_if; breflect; [|eauto].
  destruct k as [|k]; [rewrite Nat.add_0_r in Hz; congruence|].
  eapply (IH k); [lia|]. simpl. unfold reads at 1. simpl. rewrite Z.eqb_refl. simpl.
  rewrite <- Nat.add_succ_r. exact Hz.
Qed.

(** [poll] only reads the flag register, and stops at a reading without [mask]. *)
Lemma poll_spec fuel mask d d' :
  poll fuel mask d = Ok d' ->
  base d' = base d /\ exists n tr, trace d' = ReadReg (base d + UARTFR) :: tr /\
    tr = replicate n (ReadReg (base d + UARTFR)) ++ trace d /\
    Z.land (fr (length (List.filter (is_read (base d + UARTFR)) tr))) mask = 0.
Proof.
  revert d. induction fuel as [|fuel IH]; intros d; simpl; [done|].
  destr_if; breflect; intros H.
  - apply IH in H as (Hb & n & tr & Ht & Htr & Hz). simpl in *. split; [done|].
    exists (S n), tr. split_and!; [done| |done].
    rewrite Htr, replicate_S_end, <- app_assoc. done.
  - simplify_eq. simpl. split; [done|]. exists 0%nat, (trace d). done.
Qed.

Lemma sent_reads b n tr :
  flat_map (on_wire b) (rev (replicate n (ReadReg (b + UARTFR)) ++ tr)) = flat_map (on_wire b) (rev tr).
Proof.
  rewrite rev_app_distr, flat_map_app.
  replace (flat_map (on_wire b) (rev (replicate n _))) with (@nil Z); [by rewrite app_nil_r|].
  induction n as [|n IH]; [done|]. simpl. by rewrite flat_map_app, <- IH.
Qed.

Lemma respects_reads b r n tr : respects_fifo b tr -> respects_fifo b (replicate n (ReadReg r) ++ tr).
Proof. induction n; simpl; auto. Qed.

Lemma put_raw_spec fuel c d :
  drains fuel -> respects_fifo (base d) (trace d) ->
  exists d', put_raw fuel c d = Ok d' /\ base d' = base d /\
    sent d' = sent d ++ [c] /\ respects_fifo (base d) (trace d').
Proof.
  intros Hd Hr. unfold put_raw.
  destruct (Hd (reads (base d + UARTFR) d)) as (k & Hk & Hz).
  destruct (poll_ends _ _ _ _ Hk Hz) as [d1 Hp]. rewrite Hp. simpl.
  apply poll_spec in Hp as (Hb & n & tr & Ht & Htr & Hlast).
  eexists. split_and!; [done|done| |].
  - unfold sent. simpl. rewrite Hb, Ht. simpl. rewrite !flat_map_app. simpl.
    rewrite Htr, sent_reads, Z.eqb_refl, !app_nil_r. done.
  - simpl. rewrite Hb, Ht. split_and!; [done..|]. rewrite Htr. by apply respects_reads.
Qed.

Lemma putchar_spec fuel c d :
  drains fuel -> respects_fifo (base d) (trace d) ->
  exists d', uart_putchar fuel c d = Ok d' /\ base d' = base d /\
    sent d' = sent d ++ crlf c /\ respects_fifo (base d) (trace d').
Proof.
  intros Hd Hr. unfold uart_putchar, crlf. destr_if; breflect; simpl; subst.
  - destruct (put_raw_spec fuel 13 d) as (d1 & -> & Hb & Hs & Hr1); [done..|]. simpl.
    destruct (put_raw_spec fuel 10 d1) as (d2 & -> & Hb2 & Hs2 & Hr2); [done|by rewrite Hb|].
    eexists. split_and!; [done|congruence|by rewrite Hs2, Hs, <- app_assoc|congruence].
  - destruct (put_raw_spec fuel c d) as (d1 & H & Hb & Hs & Hr1); [done..|]. eauto.
Qed.

Lemma put_all_spec fuel cs d :
  drains fuel -> respects_fifo (base d) (trace d) ->
  exists d', put_all fuel cs d = Ok d' /\ base d' = base d /\
    sent d' = sent d ++ flat_map crlf cs /\ respects_fifo (base d) (trace d').
Proof.
  intros Hd. revert d. induction cs as [|c cs IH]; intros d Hr; simpl.
  - eexists. rewrite app_nil_r. done.
  - destruct (putchar_spec fuel c d) as (d1 & -> & Hb & Hs & Hr1); [done..|]. simpl.
    rewrite <- Hb in Hr1. destruct (IH d1 Hr1) as (d2 & -> & Hb2 & Hs2 & Hr2).
    eexists. split_and!; [done|congruence|by rewrite Hs2, Hs, <- app_assoc|congruence].
Qed.

(** The receiver delivers within [n] reads of the flag register. *)
Lemma getchar_spec fuel d :
  (exists k, (k < fuel)%nat /\ Z.land (fr (reads (base d + UARTFR) d + k)) UARTFR_RXFE = 0) ->
  exists v d', uart_getchar fuel d = Ok (v, d') /\ v = rx (reads (base d + UARTDR) d) mod 256 /\
    sent d' = sent d /\ reads (base d + UARTDR) d' = S (reads (base d + UARTDR) d).
Proof.
  intros (k & Hk & Hz). unfold uart_getchar.
  destruct (poll_ends _ _ _ _ Hk Hz) as [d1 Hp]. rewrite Hp. simpl.
  apply poll_spec in Hp as (Hb & n & tr & Ht & Htr & Hlast).
  assert (Hreads : reads (base d + UARTDR) d1 = reads (base d + UARTDR) d).
  { unfold reads. rewrite Ht, Htr. rewrite (app_comm_cons _ _ (ReadReg _)).
    change (ReadReg (base d + UARTFR) :: replicate n _) with (replicate (S n) (ReadReg (base d + UARTFR))).
    rewrite List.filter_app, length_app. replace (List.filter _ (replicate _ _)) with (@nil access); [done|].
    symmetry. generalize (S n). induction n0 as [|n0 IH]; [done|]. simpl.
    rewrite (proj2 (Z.eqb_neq (base d + UARTFR) (base d + UARTDR))) by (unfold UARTFR, UARTDR; lia). done. }
  eexists _, _. split; [reflexivity|]. rewrite Hb. split_and!.
  - rewrite Hreads. change 0xff with (Z.ones 8). rewrite Z.land_ones by lia. done.
  - unfold sent. simpl. rewrite ?Hb, flat_map_app, app_nil_r, Ht. simpl.
    rewrite flat_map_app, app_nil_r, Htr. apply sent_reads.
  - unfold reads at 1. simpl. rewrite Z.eqb_refl. simpl. f_equal. exact Hreads.
Qed.

End Device.
