(* ===== verification/Dtoa.v ===== *)
(** * Floating point to decimal digits (os/lib/libc/k_dtoa_engine.c, k_dtoa_data.c)

    [__dtoa_engine] scales a double into [10^15, 10^16) with a table of powers of
    ten, rounds by adding half a unit of the last digit wanted, and takes the
    digits by integer division.  Doubles are those of the Standard Library's
    [SpecFloat] at the binary64 format, with its correctly rounded operations. *)

From Stdlib Require Import ZArith Lia Bool SpecFloat.
From stdpp Require Import base numbers list.
From S2P Require Import Prelude.
#[local] Open Scope Z_scope.

(** ** Doubles *)

Abbreviation double := spec_float.

Definition fmul : double -> double -> double := SFmul 53 1024.
Definition fadd : double -> double -> double := SFadd 53 1024.
Definition fdiv : double -> double -> double := SFdiv 53 1024.
Definition flt : double -> double -> bool := SFltb.
Definition fge (x y : double) : bool := SFleb y x.

(** The constant [d * 10^k] of the source, correctly rounded. *)
Definition const10 (d k : Z) : double :=
  if 0 <=? k then binary_normalize 53 1024 (d * 10 ^ k) 0 false
  else
    let '(q, e, l) := SFdiv_core_binary 53 1024 d 0 (10 ^ (- k)) 0 in
    binary_round_aux 53 1024 false q e l.

(** [(uint64_t) x] for a positive [x] in range. *)
Definition trunc (x : double) : Z :=
  match x with
  | S754_finite false m e => if 0 <=? e then Z.pos m * 2 ^ e else Z.pos m / 2 ^ (- e)
  | _ => 0
  end.

Definition signbit (x : double) : bool :=
  match x with
  | S754_zero s | S754_infinity s | S754_finite s _ _ => s
  | S754_nan => false
  end.

Definition isnan (x : double) : bool := negb (SFeqb x x).
Definition isinf (x : double) : bool := SFeqb x (S754_infinity false) || SFeqb x (S754_infinity true).

(** ** Constants *)

Definition DBL_DIG : Z := 15.
Definition DTOA_MAX_DIG : Z := DBL_DIG.
Definition DTOA_MINUS : Z := 1.
Definition DTOA_ZERO : Z := 2.
Definition DTOA_INF : Z := 4.
Definition DTOA_NAN : Z := 8.
Definition DTOA_CARRY : Z := 16.
Definition DTOA_SCALE_UP_NUM : nat := 9.
Definition DTOA_SCALE_DOWN_NUM : nat := 9.

Definition g_dtoa_scale_up : list double := map (const10 1) [1; 2; 4; 8; 16; 32; 64; 128; 256].
Definition g_dtoa_scale_down : list double := map (const10 1) [-1; -2; -4; -8; -16; -32; -64; -128; -256].
Definition g_dtoa_round : list double := map (const10 5) [15; 14; 13; 12; 11; 10; 9; 8; 7; 6; 5; 4; 3; 2; 1; 0].

Definition MIN_MANT : double := const10 1 DBL_DIG.
Definition MAX_MANT : double := fmul (const10 1 1) MIN_MANT.
Definition MIN_MANT_INT : Z := trunc MIN_MANT.
Definition MIN_MANT_EXP : Z := DBL_DIG.

(** ** The engine *)

(** [digits] has 16 elements. *)
Record dtoa_s : Type := MkDtoa { exp : Z; flags : Z; digits : list Z }.

(** The two loops that bring [x] into range; [i] counts down from [n - 1]. *)
Fixpoint scale_up (n : nat) (x : double) (e : Z) : outcome (double * Z) :=
  match n with
  | O => Ok (x, e)
  | S i =>
      let! s := aget g_dtoa_scale_up (Z.of_nat i) in
      let y := fmul x s in
      if flt y MAX_MANT then scale_up i y (e - Z.shiftl 1 (Z.of_nat i)) else scale_up i x e
  end.

Fixpoint scale_down (n : nat) (x : double) (e : Z) : outcome (double * Z) :=
  match n with
  | O => Ok (x, e)
  | S i =>
      let! s := aget g_dtoa_scale_down (Z.of_nat i) in
      let y := fmul x s in
      if fge y MIN_MANT then scale_down i y (e + Z.shiftl 1 (Z.of_nat i)) else scale_down i x e
  end.

(** [for (i = 0; i < max_digits; i++)]; [n] iterations are left. *)
Fixpoint fill_zero (n : nat) (i : Z) (ds : list Z) : outcome (list Z) :=
  match n with
  | O => Ok ds
  | S n => let! ds := aset ds i 48 in fill_zero n (i + 1) ds
  end.

Fixpoint take_digits (n : nat) (i mant decimal : Z) (ds : list Z) : outcome (list Z) :=
  match n with
  | O => Ok ds
  | S n =>
      let! ds := aset ds i (u8 (mant / decimal + 48)) in
      take_digits n (i + 1) (mant mod decimal) (decimal / 10) ds
  end.

(** The part for finite numbers other than 0: digits, exponent and [max_digits]. *)
Definition dtoa_finite (x : double) (ds : list Z) (max_digits max_decimals : Z) : outcome (list Z * Z * Z) :=
  let! (x, e) :=
    (if flt x MIN_MANT then scale_up DTOA_SCALE_UP_NUM x MIN_MANT_EXP
     else scale_down DTOA_SCALE_DOWN_NUM x MIN_MANT_EXP) in
  let max_digits :=
    if negb (max_decimals =? 0) then Z.min max_digits (max_decimals + Z.max (e + 1) 1) else max_digits in
  let! r := aget g_dtoa_round max_digits in
  let x := fadd x r in
  let (x, e) := if fge x MAX_MANT then (fdiv x (const10 1 1), e + 1) else (x, e) in
  let! ds := take_digits (Z.to_nat max_digits) 0 (trunc x) MIN_MANT_INT ds in
  Ok (ds, e, max_digits).

(** [ds] is what the array held before. *)
Definition __dtoa_engine (x : double) (ds : list Z) (max_digits max_decimals : Z) : outcome (dtoa_s * Z) :=
  let '(fl, x) := if signbit x then (DTOA_MINUS, SFopp x) else (0, x) in
  let! (ds, e, max_digits, fl) :=
    (if SFeqb x (S754_zero false) then
       let! ds := fill_zero (Z.to_nat max_digits) 0 ds in
       Ok (ds, 0, max_digits, Z.lor fl DTOA_ZERO)
     else if isnan x then Ok (ds, 0, max_digits, Z.lor fl DTOA_NAN)
     else if isinf x then Ok (ds, 0, max_digits, Z.lor fl DTOA_INF)
     else
       let! (ds, e, max_digits) := dtoa_finite x ds max_digits max_decimals in
       Ok (ds, e, max_digits, fl)) in
  let! ds := aset ds max_digits 0 in
  Ok (MkDtoa e fl ds, max_digits).

Example dtoa_pi : __dtoa_engine (const10 314159265 (-8)) (replicate 16 7) 6 0 =
  Ok (MkDtoa 0 0 ([51; 49; 52; 49; 53; 57; 0] ++ replicate 9 7), 6).
Proof. vm_compute. reflexivity. Qed.

(** ** Bounds *)

(** The scaling moves the exponent by less than [2^n]. *)
Lemma scale_up_ok n : forall x e, (n <= DTOA_SCALE_UP_NUM)%nat ->
  exists x' e', scale_up n x e = Ok (x', e') /\ e - 2 ^ Z.of_nat n < e' <= e.
Proof.
  induction n as [|i IH]; intros x e Hn; cbn [scale_up]; [exists x, e; split; [done|change (2 ^ Z.of_nat 0) with 1; lia]|].
  destruct (aget_is_ok g_dtoa_scale_up (Z.of_nat i)) as (s & -> & _).
  - unfold g_dtoa_scale_up, DTOA_SCALE_UP_NUM in *. rewrite length_map. simpl. lia.
  - cbn [obind]. rewrite Nat2Z.inj_succ, Z.pow_succ_r, Z.shiftl_1_l by lia. pose proof (pow2_pos (Z.of_nat i) ltac:(lia)).
    destr_if; [destruct (IH (fmul x s) (e - 2 ^ Z.of_nat i)) as (x' & e' & -> & He)|destruct (IH x e) as (x' & e' & -> & He)];
      try lia; eexists _, _; (split; [done|lia]).
Qed.

Lemma scale_down_ok n : forall x e, (n <= DTOA_SCALE_DOWN_NUM)%nat ->
  exists x' e', scale_down n x e = Ok (x', e') /\ e <= e' < e + 2 ^ Z.of_nat n.
Proof.
  induction n as [|i IH]; intros x e Hn; cbn [scale_down]; [exists x, e; split; [done|change (2 ^ Z.of_nat 0) with 1; lia]|].
  destruct (aget_is_ok g_dtoa_scale_down (Z.of_nat i)) as (s & -> & _).
  - unfold g_dtoa_scale_down, DTOA_SCALE_DOWN_NUM in *. rewrite length_map. simpl. lia.
  - cbn [obind]. rewrite Nat2Z.inj_succ, Z.pow_succ_r, Z.shiftl_1_l by lia. pose proof (pow2_pos (Z.of_nat i) ltac:(lia)).
    destr_if; [destruct (IH (fmul x s) (e + 2 ^ Z.of_nat i)) as (x' & e' & -> & He)|destruct (IH x e) as (x' & e' & -> & He)];
      try lia; eexists _, _; (split; [done|lia]).
Qed.

Lemma fill_zero_ok n : forall i ds, 0 <= i -> (Z.to_nat i + n <= length ds)%nat -> Forall (fun d => 0 <= d < 256) ds ->
  exists ds', fill_zero n i ds = Ok ds' /\ length ds' = length ds /\ Forall (fun d => 0 <= d < 256) ds'.
Proof.
  induction n as [|n IH]; intros i ds Hi Hn Hb; simpl; [eauto|].
  rewrite aset_ok by lia. simpl.
  destruct (IH (i + 1) (<[Z.to_nat i := 48]> ds)) as (ds' & -> & Hl & Hb');
    [lia|rewrite length_insert; lia|apply Forall_insert; [done|lia]|].
  rewrite length_insert in Hl. eauto.
Qed.

Lemma take_digits_ok n : forall i mant dec ds,
  0 <= i -> (Z.to_nat i + n <= length ds)%nat -> Forall (fun d => 0 <= d < 256) ds ->
  exists ds', take_digits n i mant dec ds = Ok ds' /\ length ds' = length ds /\ Forall (fun d => 0 <= d < 256) ds'.
Proof.
  induction n as [|n IH]; intros i mant dec ds Hi Hn Hb; simpl; [eauto|].
  rewrite aset_ok by lia. simpl.
  assert (Hu : 0 <= u8 (mant / dec + 48) < 256) by (apply Z.mod_pos_bound; lia).
  destruct (IH (i + 1) (mant mod dec) (dec / 10) (<[Z.to_nat i := u8 (mant / dec + 48)]> ds)) as (ds' & -> & Hl & Hb');
    [lia|rewrite length_insert; lia|by apply Forall_insert|].
  rewrite length_insert in Hl. eauto.
Qed.

Lemma dtoa_finite_ok x ds max_digits max_decimals :
  length ds = 16%nat -> Forall (fun d => 0 <= d < 256) ds -> 0 <= max_digits <= DTOA_MAX_DIG -> 0 <= max_decimals ->
  exists ds' e n, dtoa_finite x ds max_digits max_decimals = Ok (ds', e, n) /\
    length ds' = 16%nat /\ Forall (fun d => 0 <= d < 256) ds' /\ 0 <= n <= max_digits /\ Z.abs e <= 527.
Proof.
  intros Hl Hb Hm Hd. unfold DTOA_MAX_DIG, DBL_DIG in Hm. unfold dtoa_finite.
  assert (Hs : exists x1 e, (if flt x MIN_MANT then scale_up DTOA_SCALE_UP_NUM x MIN_MANT_EXP
     else scale_down DTOA_SCALE_DOWN_NUM x MIN_MANT_EXP) = Ok (x1, e) /\ Z.abs e <= 526).
  { unfold MIN_MANT_EXP, DBL_DIG. destruct (flt x MIN_MANT);
      [destruct (scale_up_ok DTOA_SCALE_UP_NUM x 15) as (x1 & e & -> & He)
      |destruct (scale_down_ok DTOA_SCALE_DOWN_NUM x 15) as (x1 & e & -> & He)]; try done;
      exists x1, e; (split; [done|]); unfold DTOA_SCALE_UP_NUM, DTOA_SCALE_DOWN_NUM in He; lia. }
  destruct Hs as (x1 & e & -> & He). cbn [obind].
  set (n := if negb (max_decimals =? 0) then Z.min max_digits (max_decimals + Z.max (e + 1) 1) else max_digits).
  assert (Hn : 0 <= n <= max_digits) by (unfold n; destr_if; lia). clearbody n.
  destruct (aget_is_ok g_dtoa_round n) as (r & -> & _).
  { unfold g_dtoa_round. rewrite length_map. cbn [length]. lia. }
  cbn [obind]. assert (He2 : Z.abs (if fge (fadd x1 r) MAX_MANT then (fdiv (fadd x1 r) (const10 1 1), e + 1) else (fadd x1 r, e)).2 <= 527)
    by (destruct (fge (fadd x1 r) MAX_MANT); cbn [snd]; lia).
  destruct (if fge (fadd x1 r) MAX_MANT then _ else _) as [x2 e2]. cbn [snd] in He2.
  destruct (take_digits_ok (Z.to_nat n) 0 (trunc x2) MIN_MANT_INT ds) as (ds' & -> & Hl' & Hb'); [lia|lia|done|].
  cbn [obind]. eexists _, _, _. split_and!; [done|congruence|done|lia|lia|lia].
Qed.

Lemma dtoa_engine_ok x ds max_digits max_decimals :
  length ds = 16%nat -> Forall (fun d => 0 <= d < 256) ds -> 0 <= max_digits <= DTOA_MAX_DIG -> 0 <= max_decimals ->
  exists d n, __dtoa_engine x ds max_digits max_decimals = Ok (d, n) /\
    length (digits d) = 16%nat /\ Forall (fun d => 0 <= d < 256) (digits d) /\ 0 <= n <= max_digits /\
    digits d !! Z.to_nat n = Some 0 /\ Z.abs (exp d) <= 527.
Proof.
  intros Hl Hb Hm Hd. unfold __dtoa_engine.
  destruct (if signbit x then _ else _) as [fl x1].
  match goal with |- context [obind ?m _] =>
    assert (Hr : exists ds' e n fl', m = Ok (ds', e, n, fl') /\
      length ds' = 16%nat /\ Forall (fun d => 0 <= d < 256) ds' /\ 0 <= n <= max_digits /\ Z.abs e <= 527) end.
  { destruct (SFeqb x1 (S754_zero false)).
    - destruct (fill_zero_ok (Z.to_nat max_digits) 0 ds) as (ds' & -> & Hl' & Hb'); [lia|unfold DTOA_MAX_DIG, DBL_DIG in *; lia|done|].
      eexists _, _, _, _. split_and!; [done|congruence|done|lia..].
    - destruct (isnan x1); [eexists _, _, _, _; split_and!; try done; lia|].
      destruct (isinf x1); [eexists _, _, _, _; split_and!; try done; lia|].
      destruct (dtoa_finite_ok x1 ds max_digits max_decimals) as (ds' & e & n & -> & Hl' & Hb' & Hn & He); [done..|].
      eexists _, _, _, _. split_and!; try done; lia. }
  destruct Hr as (ds' & e & n & fl' & -> & Hl' & Hb' & Hn & He). cbn [obind].
  unfold DTOA_MAX_DIG, DBL_DIG in Hm. rewrite aset_ok by lia. cbn [obind].
  eexists _, _. split_and!; [done|cbn [digits]; by rewrite length_insert|apply Forall_insert; [done|lia]|lia|lia| |done].
  cbn [digits]. apply list_lookup_insert_eq. lia.
Qed.
