(* ===== verification/Rand.v ===== *)
(** * Pseudo-random numbers (os/lib/libc/k_srand.c)

    A congruential generator of the first order ([CONFIG_LIB_RAND_ORDER] is 1)
    and numbers below a limit taken from it through a double; and the generators of
    the second and third order that other settings select. *)

From Stdlib Require Import ZArith Lia Bool SpecFloat.
From stdpp Require Import base numbers list.
From S2P Require Import Prelude Dtoa.
#[local] Open Scope Z_scope.

Definition RND1_CONSTK : Z := 470001.
Definition RND1_CONSTP : Z := 999563.

(** The state is [g_randint1]; the number generated and the new state. *)
Definition fgenerate1 (g_randint1 : Z) : Z * Z :=
  let randint := u64 (RND1_CONSTK * g_randint1) mod RND1_CONSTP in
  (randint, if randint =? 0 then 1 else randint).

(** The conversion of an [unsigned long]. *)
Definition of_ulong (n : Z) : double := const10 n 0.

Definition frand1 (g_randint1 : Z) : double * Z :=
  let (randint, g_randint1) := fgenerate1 g_randint1 in
  (fdiv (of_ulong randint) (of_ulong RND1_CONSTP), g_randint1).

Definition srand (seed : Z) : Z := u32 seed.

Fixpoint nrand (fuel : nat) (limit g_randint1 : Z) : outcome (Z * Z) :=
  match fuel with
  | O => Diverge
  | S fuel =>
      let (ratio, g_randint1) := frand1 g_randint1 in
      let result := trunc (fmul (of_ulong limit) ratio) in
      if limit <=? result then nrand fuel limit g_randint1 else Ok (result, g_randint1)
  end.

Definition INT_MAX : Z := 0x7fffffff.
Definition LONG_MAX : Z := 0x7fffffffffffffff.

Definition rand (fuel : nat) (g_randint1 : Z) : outcome (Z * Z) := nrand fuel INT_MAX g_randint1.
Definition random (fuel : nat) (g_randint1 : Z) : outcome (Z * Z) := nrand fuel LONG_MAX g_randint1.

(** ** The generators of higher order *)

Definition RND2_CONSTK1 : Z := 366528.
Definition RND2_CONSTK2 : Z := 508531.
Definition RND2_CONSTP : Z := 998917.
Definition RND3_CONSTK1 : Z := 360137.
Definition RND3_CONSTK2 : Z := 519815.
Definition RND3_CONSTK3 : Z := 616087.
Definition RND3_CONSTP : Z := 997783.

(** [g_randint1], [g_randint2], [g_randint3]. *)
Record rand_state : Type := MkRand { g_randint1 : Z; g_randint2 : Z; g_randint3 : Z }.

Definition fgenerate2 (g : rand_state) : Z * rand_state :=
  let randint := u64 (RND2_CONSTK1 * g_randint1 g + RND2_CONSTK2 * g_randint2 g) mod RND2_CONSTP in
  let r2 := g_randint1 g in
  let r1 := randint in
  let r2 := if (r2 =? 0) && (r1 =? 0) then 1 else r2 in
  (randint, MkRand r1 r2 (g_randint3 g)).

(** The third term has the multiplier of the second. *)
Definition fgenerate3 (g : rand_state) : Z * rand_state :=
  let randint := u64 (RND3_CONSTK1 * g_randint1 g + RND3_CONSTK2 * g_randint2 g + RND3_CONSTK2 * g_randint3 g) mod RND3_CONSTP in
  let r3 := g_randint2 g in
  let r2 := g_randint1 g in
  let r1 := randint in
  let r3 := if (r3 =? 0) && (r2 =? 0) && (r1 =? 0) then 1 else r3 in
  (randint, MkRand r1 r2 r3).

Definition frand2 (g : rand_state) : double * rand_state :=
  let (randint, g) := fgenerate2 g in (fdiv (of_ulong randint) (of_ulong RND2_CONSTP), g).

Definition frand3 (g : rand_state) : double * rand_state :=
  let (randint, g) := fgenerate3 g in (fdiv (of_ulong randint) (of_ulong RND3_CONSTP), g).

(** [srand] of the two builds: the lower generators stir the seed. *)
Definition srand2 (g : rand_state) (seed : Z) : rand_state :=
  MkRand (fgenerate1 (u32 seed)).2 (u32 seed) (g_randint3 g).

Definition srand3 (g : rand_state) (seed : Z) : rand_state :=
  let g := MkRand (fgenerate1 (u32 seed)).2 (u32 seed) (u32 seed) in (fgenerate2 g).2.

(** The loop of [nrand] over the generator of a build. *)
Fixpoint nrand_with {S : Type} (frand : S -> double * S) (fuel : nat) (limit : Z) (g : S) : outcome (Z * S) :=
  match fuel with
  | O => Diverge
  | Datatypes.S fuel =>
      let (ratio, g) := frand g in
      let result := trunc (fmul (of_ulong limit) ratio) in
      if limit <=? result then nrand_with frand fuel limit g else Ok (result, g)
  end.

Module RandSpec.

(** The state the generator can be in after the first number. *)
Definition seeded (g : Z) : Prop := 1 <= g < RND1_CONSTP.

Lemma generate_seeded g : 0 <= g -> seeded (fgenerate1 g).2.
Proof.
  intros Hg. unfold seeded, fgenerate1. cbn [snd].
  pose proof (Z.mod_pos_bound (u64 (RND1_CONSTK * g)) RND1_CONSTP ltac:(unfold RND1_CONSTP; lia)).
  unfold RND1_CONSTP in *. destruct (Z.eqb_spec (u64 (RND1_CONSTK * g) mod 999563) 0); lia.
Qed.

(** From a seeded state the product does not wrap and the number is never 0: the
    modulus has no factor in common with the multiplier. *)
Lemma generate_nonzero g : seeded g ->
  fgenerate1 g = (RND1_CONSTK * g mod RND1_CONSTP, RND1_CONSTK * g mod RND1_CONSTP) /\ 0 < RND1_CONSTK * g mod RND1_CONSTP.
Proof.
  intros Hg. unfold seeded in Hg. pose proof (Z.mod_pos_bound (RND1_CONSTK * g) RND1_CONSTP ltac:(unfold RND1_CONSTP; lia)).
  assert (Hne : RND1_CONSTK * g mod RND1_CONSTP <> 0).
  { intros E. apply Z.mod_divide in E; [|done]. apply Z.gauss in E; [|reflexivity].
    apply Z.divide_pos_le in E; lia. }
  unfold fgenerate1. rewrite (u64_id (RND1_CONSTK * g)) by (unfold RND1_CONSTK, RND1_CONSTP in *; lia).
  rewrite (proj2 (Z.eqb_neq _ _)) by done. split; [done|lia].
Qed.

Lemma nrand_below fuel limit g r g' : 0 <= g -> nrand fuel limit g = Ok (r, g') -> r < limit /\ seeded g'.
Proof.
  revert g. induction fuel as [|fuel IH]; intros g Hg; cbn [nrand]; [done|]. unfold frand1.
  pose proof (generate_seeded g Hg) as Hs. destruct (fgenerate1 g) as [x g1]. cbn [snd] in Hs.
  destruct (Z.leb_spec limit (trunc (fmul (of_ulong limit) (fdiv (of_ulong x) (of_ulong RND1_CONSTP))))).
  - apply IH. unfold seeded in Hs. lia.
  - intros [= <- <-]. done.
Qed.

Lemma trunc_nonneg x : 0 <= trunc x.
Proof.
  destruct x as [| | |[] m e]; cbn [trunc]; try lia. destruct (Z.leb_spec 0 e).
  - apply Z.mul_nonneg_nonneg; [lia|]. apply Z.pow_nonneg. lia.
  - apply Z.div_pos; [lia|]. apply Z.pow_pos_nonneg; lia.
Qed.

(** A range without a number: the loop never ends. *)
Lemma nrand_zero_hangs fuel g : nrand fuel 0 g = Diverge.
Proof.
  revert g. induction fuel as [|fuel IH]; intros g; cbn [nrand]; [done|].
  destruct (frand1 g) as [ratio g1]. rewrite (proj2 (Z.leb_le 0 _)) by apply trunc_nonneg. apply IH.
Qed.

Lemma nrand_is_with fuel limit g : nrand fuel limit g = nrand_with frand1 fuel limit g.
Proof.
  revert g. induction fuel as [|fuel IH]; intros g; cbn [nrand nrand_with]; [done|]. destruct (frand1 g) as [ratio g1]. by rewrite IH.
Qed.

(** Whatever the generator, a number below the limit. *)
Lemma nrand_with_below {S : Type} (frand : S -> double * S) fuel limit g r g' :
  nrand_with frand fuel limit g = Ok (r, g') -> 0 <= r < limit.
Proof.
  revert g. induction fuel as [|fuel IH]; intros g; cbn [nrand_with]; [done|]. destruct (frand g) as [ratio g1].
  destruct (Z.leb_spec limit (trunc (fmul (of_ulong limit) ratio))); [apply IH|]. intros [= <- <-]. split; [apply trunc_nonneg|done].
Qed.

(** The generator can go on: the words are in range and not all are 0. *)
Definition live2 (g : rand_state) : Prop :=
  0 <= g_randint1 g < 2 ^ 32 /\ 0 <= g_randint2 g < 2 ^ 32 /\ (g_randint1 g <> 0 \/ g_randint2 g <> 0).
Definition live3 (g : rand_state) : Prop :=
  0 <= g_randint1 g < 2 ^ 32 /\ 0 <= g_randint2 g < 2 ^ 32 /\ 0 <= g_randint3 g < 2 ^ 32 /\
  (g_randint1 g <> 0 \/ g_randint2 g <> 0 \/ g_randint3 g <> 0).

(** What the comments promise: the words never all become 0, and no product wraps. *)
Lemma generate2_live g : live2 g -> live2 (fgenerate2 g).2 /\
  (fgenerate2 g).1 = (RND2_CONSTK1 * g_randint1 g + RND2_CONSTK2 * g_randint2 g) mod RND2_CONSTP.
Proof.
  intros (H1 & H2 & _). unfold live2, fgenerate2, RND2_CONSTK1, RND2_CONSTK2, RND2_CONSTP. cbn [fst snd g_randint1 g_randint2].
  rewrite u64_id by lia. set (x := (_ + _) mod _). assert (0 <= x < 998917) by (apply Z.mod_pos_bound; lia).
  split; [|done]. destruct (Z.eqb_spec (g_randint1 g) 0), (Z.eqb_spec x 0); cbn [andb]; lia.
Qed.

Lemma generate3_live g : live3 g -> live3 (fgenerate3 g).2 /\
  (fgenerate3 g).1 = (RND3_CONSTK1 * g_randint1 g + RND3_CONSTK2 * g_randint2 g + RND3_CONSTK2 * g_randint3 g) mod RND3_CONSTP.
Proof.
  intros (H1 & H2 & H3 & _). unfold live3, fgenerate3, RND3_CONSTK1, RND3_CONSTK2, RND3_CONSTP. cbn [fst snd g_randint1 g_randint2 g_randint3].
  rewrite u64_id by lia. set (x := (_ + _) mod _). assert (0 <= x < 997783) by (apply Z.mod_pos_bound; lia).
  split; [|done]. destruct (Z.eqb_spec (g_randint2 g) 0), (Z.eqb_spec (g_randint1 g) 0), (Z.eqb_spec x 0); cbn [andb]; lia.
Qed.

(** Every seed starts a live generator. *)
Lemma srand2_live g seed : live2 (srand2 g seed).
Proof.
  pose proof (Z.mod_pos_bound seed (2 ^ 32) ltac:(lia)) as Hs. pose proof (generate_seeded (u32 seed) (proj1 Hs)) as Hg.
  unfold live2, srand2, seeded, RND1_CONSTP, u32 in *. cbn [g_randint1 g_randint2]. lia.
Qed.

Lemma srand3_live g seed : live3 (srand3 g seed).
Proof.
  pose proof (Z.mod_pos_bound seed (2 ^ 32) ltac:(lia)) as Hs. pose proof (generate_seeded (u32 seed) (proj1 Hs)) as Hg.
  unfold srand3. set (g1 := MkRand _ _ _).
  destruct (generate2_live g1) as [(H1 & H2 & H3) _]; [unfold live2, g1, seeded, RND1_CONSTP, u32 in *; cbn [g_randint1 g_randint2]; lia|].
  unfold live3. change (g_randint3 (fgenerate2 g1).2) with (u32 seed). unfold u32. lia.
Qed.

Example rand_first : rand 2 (srand 1) = Ok (1009760727, 470001).
Proof. vm_compute. reflexivity. Qed.
End RandSpec.
