(* ===== verification/Printf.v ===== *)
(** * Formatted output (os/lib/libc/k_printf.c)

    [k_vprintf] as the build configures it: [CONFIG_LIBC_LONG_LONG] and
    [CONFIG_LIBC_FLOATINGPOINT] are set, [CONFIG_LIBC_NUMBERED_ARGS] is not, and
    the target is LP64 ([size_t] is [unsigned long]).  A function returns the
    characters it passes to [kputchar], in order; [PrintfSpec] proves what they
    are, and [Uart] what reaches the line.

    The format and the strings are read from [memory].  The one fuel bounds
    every loop: the outer one, the scan of a directive and the padding loops. *)

From Stdlib Require Import ZArith Lia Bool Ascii.
From stdpp Require Import base numbers list gmap.
From S2P Require Import Prelude Libc Uart Dtoa.
#[local] Open Scope Z_scope.
#[local] Set Warnings "-register-all".

(** The code of a character, as a literal. *)
Notation "'chr' c" :=
  (ltac:(let v := eval vm_compute in (Z.of_N (N_of_ascii c)) in exact v))
  (at level 10, c constr, only parsing).

(** ** Flags *)

Definition FL_ZFILL : Z := 0x0001.
Definition FL_PLUS : Z := 0x0002.
Definition FL_SPACE : Z := 0x0004.
Definition FL_LPAD : Z := 0x0008.
Definition FL_ALT : Z := 0x0010.
Definition FL_ASTERISK : Z := 0x0040.
Definition FL_WIDTH : Z := 0x0080.
Definition FL_PREC : Z := 0x0100.
Definition FL_LONG : Z := 0x0200.
Definition FL_SHORT : Z := 0x0400.
Definition FL_REPD_TYPE : Z := 0x0800.
Definition FL_NEGATIVE : Z := 0x1000.
Definition FL_ALTUPP : Z := 0x2000.
Definition FL_ALTHEX : Z := 0x4000.
Definition FL_FLTUPP : Z := 0x2000.
Definition FL_FLTEXP : Z := 0x4000.
Definition FL_FLTFIX : Z := 0x8000.
Definition XTOA_UPPER : Z := 0x0200.

(** [(flags & m) != 0]; [flags |= m] is [Z.lor] and [flags &= ~m] is [Z.ldiff]. *)
Definition has (flags m : Z) : bool := negb (Z.land flags m =? 0).

(** [(short) x]; [s8] of [Libc] is [(signed char) x]. *)
Definition s16 (x : Z) : Z := let r := x mod 2 ^ 16 in if r <? 2 ^ 15 then r else r - 2 ^ 16.

(** ** Arguments *)

(** What was passed: an integer or pointer (the bits of its register), a double,
    or a [struct va_format]. *)
Inductive varg : Type :=
| VInt (v : Z)
| VDouble (d : double)
| VFormat (fmt : Z) (va : list varg).

Definition va_int (ap : list varg) : outcome (Z * list varg) :=
  match ap with VInt v :: ap => Ok (v, ap) | _ => Fault end.

Definition va_double (ap : list varg) : outcome (double * list varg) :=
  match ap with VDouble d :: ap => Ok (d, ap) | _ => Fault end.

Definition va_format (ap : list varg) : outcome (Z * list varg * list varg) :=
  match ap with VFormat f va :: ap => Ok (f, va, ap) | _ => Fault end.

(** ** Digits *)

(** The loop of [__ultoa_invert]: [i] is [str - buf]. *)
Fixpoint ultoa_loop (fuel : nat) (val base : Z) (upper : bool) (buf : list Z) (i : Z) : outcome (list Z * Z) :=
  match fuel with
  | O => Diverge
  | S fuel =>
      let v := val mod base in
      let val := val / base in
      let v := if v <=? 9 then v + chr "0"%char
               else if upper then v + (chr "A"%char - 10) else v + (chr "a"%char - 10) in
      let! buf := aset buf i (u8 v) in
      if val =? 0 then Ok (buf, i + 1) else ultoa_loop fuel val base upper buf (i + 1)
  end.

(** The digits of [val], least significant first, into [buf], and how many. *)
Definition __ultoa_invert (fuel : nat) (val : Z) (buf : list Z) (base : Z) : outcome (list Z * Z) :=
  let upper := has base XTOA_UPPER in
  let base := if upper then Z.ldiff base XTOA_UPPER else base in
  ultoa_loop fuel val base upper buf 0.

(** [buf] of [k_vprintf]; what it holds before is never read. *)
Definition buf_size : nat := 22.
Definition fresh_buf : list Z := replicate buf_size 0.

(** ** Parsing a directive *)

Record fspec : Type := MkSpec { flags : Z; width : Z; prec : Z; ap : list varg }.

Inductive pstep : Type :=
| Continue (s : fspec)
| Break
| Return.

Definition set_flags (s : fspec) (f : Z) : fspec := MkSpec f (width s) (prec s) (ap s).

(** The [switch] for the flag characters. *)
Definition parse_flag (c f : Z) : option Z :=
  if c =? chr "0"%char then Some (Z.lor f FL_ZFILL)
  else if c =? chr "+"%char then Some (Z.lor (Z.lor f FL_PLUS) FL_SPACE)
  else if c =? chr " "%char then Some (Z.lor f FL_SPACE)
  else if c =? chr "-"%char then Some (Z.lor f FL_LPAD)
  else if c =? chr "#"%char then Some (Z.lor f FL_ALT)
  else None.

(** Width and precision: [None] when [c] is neither a digit, [*] nor [.]. *)
Definition parse_number (c : Z) (s : fspec) : outcome (option pstep) :=
  if (chr "0"%char <=? c) && (c <=? chr "9"%char) then
    let c := c - chr "0"%char in
    if has (flags s) FL_PREC then
      Ok (Some (Continue (MkSpec (flags s) (width s) (s32 (10 * prec s + c)) (ap s))))
    else
      Ok (Some (Continue (MkSpec (Z.lor (flags s) FL_WIDTH) (s32 (10 * width s + c)) (prec s) (ap s))))
  else if c =? chr "*"%char then
    let! (v, ap) := va_int (ap s) in
    if has (flags s) FL_PREC then
      let prec := s32 v in
      let prec := if prec <? 0 then 0 else prec in
      Ok (Some (Continue (MkSpec (flags s) (width s) prec ap)))
    else
      let width := s32 v in
      let f := Z.lor (flags s) FL_WIDTH in
      let '(width, f) := if width <? 0 then (s32 (- width), Z.lor f FL_LPAD) else (width, f) in
      Ok (Some (Continue (MkSpec f width (prec s) ap)))
  else if c =? chr "."%char then
    if has (flags s) FL_PREC then Ok (Some Return)
    else Ok (Some (Continue (set_flags s (Z.lor (flags s) FL_PREC))))
  else Ok None.

(** Length modifiers, and the end of the directive. *)
Definition parse_size (c : Z) (s : fspec) : pstep :=
  let f := flags s in
  let c := if (c =? chr "z"%char) || (c =? chr "t"%char) then chr "l"%char else c in
  if c =? chr "j"%char then
    Continue (set_flags s (Z.ldiff (Z.lor (Z.lor f FL_REPD_TYPE) FL_LONG) FL_SHORT))
  else if c =? chr "l"%char then
    let f := if has f FL_LONG then Z.lor f FL_REPD_TYPE else f in
    Continue (set_flags s (Z.ldiff (Z.lor f FL_LONG) FL_SHORT))
  else if c =? chr "h"%char then
    let f := if has f FL_SHORT then Z.lor f FL_REPD_TYPE else f in
    Continue (set_flags s (Z.ldiff (Z.lor f FL_SHORT) FL_LONG))
  else Break.

(** The body of the loop that reads a directive. *)
Definition parse_char (c : Z) (s : fspec) : outcome pstep :=
  match (if flags s <? FL_ASTERISK then parse_flag c (flags s) else None) with
  | Some f => Ok (Continue (set_flags s f))
  | None =>
      let! r := (if flags s <? FL_LONG then parse_number c s else Ok None) in
      match r with
      | Some st => Ok st
      | None => Ok (parse_size c s)
      end
  end.

(** The loop; [None] is [goto ret].  When the format ends inside the directive
    the loop ends with [c] the terminator. *)
Fixpoint parse_spec (fuel : nat) (m : memory) (fmt c : Z) (s : fspec) : outcome (option (Z * Z * fspec)) :=
  match fuel with
  | O => Diverge
  | S fuel =>
      let! r := parse_char c s in
      match r with
      | Break => Ok (Some (c, fmt, s))
      | Return => Ok None
      | Continue s =>
          let! c := load8 m fmt in
          if c =? 0 then Ok (Some (c, fmt + 1, s)) else parse_spec fuel m (fmt + 1) c s
      end
  end.

(** The characters up to the next directive; [None] is the end of the format. *)
Fixpoint literal (fuel : nat) (m : memory) (fmt : Z) : outcome (list Z * option Z * Z) :=
  match fuel with
  | O => Diverge
  | S fuel =>
      let! c := load8 m fmt in
      let fmt := fmt + 1 in
      if c =? 0 then Ok ([], None, fmt)
      else
        let! (c, fmt, stop) :=
          (if c =? chr "%"%char then
             let! c := load8 m fmt in
             Ok (c, fmt + 1, negb (c =? chr "%"%char))
           else Ok (c, fmt, false)) in
        if stop : bool then Ok ([], Some c, fmt)
        else
          let! (text, r, fmt) := literal fuel m fmt in
          Ok (c :: text, r, fmt)
  end.

(** ** Padding *)

(** [while (n) { kputchar(c); n--; }] *)
Fixpoint put_while (fuel : nat) (c n : Z) : outcome (list Z) :=
  match fuel with
  | O => Diverge
  | S fuel => if n =? 0 then Ok [] else let! r := put_while fuel c (s32 (n - 1)) in Ok (c :: r)
  end.

Definition tail (fuel : nat) (width : Z) : outcome (list Z) := put_while fuel (chr " "%char) width.

(** ** Characters and strings *)

Definition g_nullstring : list Z := [40; 110; 117; 108; 108; 41].

(** [while (size < width) { kputchar(' '); width--; }]: [width] is converted to [size_t]. *)
Fixpoint str_pad (fuel : nat) (size width : Z) : outcome (list Z * Z) :=
  match fuel with
  | O => Diverge
  | S fuel =>
      if size <? u64 width then
        let! (r, w) := str_pad fuel size (s32 (width - 1)) in Ok (chr " "%char :: r, w)
      else Ok ([], width)
  end.

(** [while (size) ...]: the characters, and the width that is left. *)
Fixpoint str_body (text : list Z) (width : Z) : list Z * Z :=
  match text with
  | [] => ([], width)
  | c :: text =>
      let width := if negb (width =? 0) then s32 (width - 1) else width in
      let '(r, w) := str_body text width in (c :: r, w)
  end.

(** From [str_lpad] to the end; [text] is what [pnt] and [size] delimit. *)
Definition str_lpad (fuel : nat) (text : list Z) (f width : Z) : outcome (list Z) :=
  let! (pad, width) :=
    (if negb (has f FL_LPAD) then str_pad fuel (Z.of_nat (length text)) width else Ok ([], width)) in
  let '(body, width) := str_body text width in
  let! t := tail fuel width in
  Ok (pad ++ body ++ t).

(** The [n] bytes at [a]. *)
Fixpoint load_bytes (n : nat) (m : memory) (a : Z) : outcome (list Z) :=
  match n with
  | O => Ok []
  | S n => let! c := load8 m a in let! r := load_bytes n m (a + 1) in Ok (c :: r)
  end.

(** [pnt[0..size)] of a string argument; the precision, when there is one, bounds it. *)
Definition string_text (fuel : nat) (m : memory) (pnt f prec : Z) : outcome (list Z) :=
  let limit := if has f FL_PREC then u64 prec else u64 (-1) in
  if pnt =? 0 then Ok (take (Z.to_nat (Z.min limit 6)) g_nullstring)
  else
    let! size := k_strnlen fuel m pnt limit in
    load_bytes (Z.to_nat size) m pnt.

(** ** Integers *)

(** The argument of [%d] and [%i] by its length modifier. *)
Definition signed_arg (f : Z) (ap : list varg) : outcome (Z * list varg) :=
  let! (v, ap) := va_int ap in
  let x :=
    if has f FL_LONG && has f FL_REPD_TYPE then s64 v
    else if has f FL_LONG then s64 v
    else
      let x := s32 v in
      if has f FL_SHORT then
        if negb (has f FL_REPD_TYPE) then s16 x else s8 x
      else x in
  Ok (x, ap).

(** And of the unsigned ones. *)
Definition unsigned_arg (f : Z) (ap : list varg) : outcome (Z * list varg) :=
  let! (v, ap) := va_int ap in
  let x :=
    if has f FL_LONG && has f FL_REPD_TYPE then u64 v
    else if has f FL_LONG then u64 v
    else
      let x := u32 v in
      if has f FL_SHORT then
        if negb (has f FL_REPD_TYPE) then u16 x else u8 x
      else x in
  Ok (x, ap).

(** No digits for 0 with the precision 0, else those of [x]. *)
Definition int_digits (fuel : nat) (x f prec base : Z) : outcome (list Z * Z) :=
  if has f FL_PREC && (prec =? 0) && (x =? 0) then Ok (fresh_buf, 0)
  else __ultoa_invert fuel (u64 x) fresh_buf base.

(** [%d], up to the digits: the flags, the digits and how many. *)
Definition signed_conv (fuel : nat) (s : fspec) : outcome (Z * list Z * Z * list varg) :=
  let! (x, ap) := signed_arg (flags s) (ap s) in
  let f := Z.ldiff (flags s) (Z.lor FL_NEGATIVE FL_ALT) in
  let '(x, f) := if x <? 0 then (s64 (- x), Z.lor f FL_NEGATIVE) else (x, f) in
  let! (buf, c) := int_digits fuel x f (prec s) 10 in
  Ok (f, buf, u8 c, ap).

(** The [switch] on the unsigned conversions: flags and base. *)
Definition unsigned_base (c f : Z) : option (Z * Z) :=
  if c =? chr "u"%char then Some (Z.ldiff f FL_ALT, 10)
  else if c =? chr "o"%char then Some (f, 8)
  else if (c =? chr "p"%char) || (c =? chr "x"%char) then
    let f := if c =? chr "p"%char then Z.lor f FL_ALT else f in
    Some (if has f FL_ALT then Z.lor f FL_ALTHEX else f, 16)
  else if c =? chr "X"%char then
    Some (if has f FL_ALT then Z.lor f (Z.lor FL_ALTHEX FL_ALTUPP) else f, Z.lor 16 XTOA_UPPER)
  else None.

(** [len] and the flags once the prefix or the sign is counted. *)
Definition count_prefix (c : Z) (buf : list Z) (len f : Z) : outcome (Z * Z) :=
  if has f FL_ALT then
    let! d := aget buf (c - 1) in
    if d =? chr "0"%char then Ok (len, Z.ldiff f (Z.lor FL_ALT (Z.lor FL_ALTHEX FL_ALTUPP)))
    else
      let len := u8 (len + 1) in
      Ok (if has f FL_ALTHEX then u8 (len + 1) else len, f)
  else if has f (Z.lor FL_NEGATIVE (Z.lor FL_PLUS FL_SPACE)) then Ok (u8 (len + 1), f)
  else Ok (len, f).

(** [len] after the digits, the precision and the prefix are counted, and the flags. *)
Definition int_len (c : Z) (buf : list Z) (f prec : Z) : outcome (Z * Z) :=
  let len := c in
  let '(len, f) :=
    if has f FL_PREC then
      let f := Z.ldiff f FL_ZFILL in
      if len <? prec then
        (u8 prec, if has f FL_ALT && negb (has f FL_ALTHEX) then Z.ldiff f FL_ALT else f)
      else (len, f)
    else (len, f) in
  count_prefix c buf len f.

(** [while (len < width) { kputchar(' '); len++; }]: [len] is an [unsigned char]. *)
Fixpoint len_pad (fuel : nat) (len width : Z) : outcome (list Z * Z) :=
  match fuel with
  | O => Diverge
  | S fuel =>
      if len <? width then
        let! (r, l) := len_pad fuel (u8 (len + 1)) width in Ok (chr " "%char :: r, l)
      else Ok ([], len)
  end.

(** The prefix or the sign. *)
Definition int_prefix (f : Z) : list Z :=
  if has f FL_ALT then
    chr "0"%char ::
    (if has f FL_ALTHEX then [if has f FL_ALTUPP then chr "X"%char else chr "x"%char] else [])
  else if has f (Z.lor FL_NEGATIVE (Z.lor FL_PLUS FL_SPACE)) then
    let z := chr " "%char in
    let z := if has f FL_PLUS then chr "+"%char else z in
    let z := if has f FL_NEGATIVE then chr "-"%char else z in
    [z]
  else [].

(** [while (prec > c) { kputchar('0'); prec--; }] *)
Fixpoint zero_pad (fuel : nat) (prec c : Z) : outcome (list Z) :=
  match fuel with
  | O => Diverge
  | S fuel =>
      if c <? prec then let! r := zero_pad fuel (prec - 1) c in Ok (chr "0"%char :: r) else Ok []
  end.

(** [while (c) kputchar(buf[--c]);] *)
Fixpoint put_digits (n : nat) (buf : list Z) : outcome (list Z) :=
  match n with
  | O => Ok []
  | S n => let! d := aget buf (Z.of_nat n) in let! r := put_digits n buf in Ok (d :: r)
  end.

(** From [len = c] to the end. *)
Definition int_layout (fuel : nat) (c : Z) (buf : list Z) (f width prec : Z) : outcome (list Z) :=
  let! (len, f) := int_len c buf f prec in
  let! (pad, len, prec) :=
    (if negb (has f FL_LPAD) then
       let '(prec, len) :=
         if has f FL_ZFILL then
           if len <? width then (s32 (c + (width - len)), u8 width) else (c, len)
         else (prec, len) in
       let! (pad, len) := len_pad fuel len width in
       Ok (pad, len, prec)
     else Ok ([], len, prec)) in
  let width := if len <? width then width - len else 0 in
  let! zeros := zero_pad fuel prec c in
  let! ds := put_digits (Z.to_nat c) buf in
  let! t := tail fuel width in
  Ok (pad ++ int_prefix f ++ zeros ++ ds ++ t).

(** ** Floating point *)

(** The digits wanted, the limit of decimals, the flags and the precision. *)
Definition flt_setup (c f prec : Z) : Z * Z * Z * Z :=
  let prec := if negb (has f FL_PREC) then 6 else prec in
  let f := Z.ldiff f (Z.lor FL_FLTEXP FL_FLTFIX) in
  let '(ndigs, ndecimal, f) :=
    if c =? chr "e"%char then (u8 (prec + 1), 0, Z.lor f FL_FLTEXP)
    else if c =? chr "f"%char then (DTOA_MAX_DIG, u8 prec, Z.lor f FL_FLTFIX)
    else (u8 prec, 0, f) in
  let ndigs := if DTOA_MAX_DIG <? ndigs then DTOA_MAX_DIG else ndigs in
  (ndigs, ndecimal, f, prec).

(** The sign character, or 0. *)
Definition flt_sign (dflags f : Z) : Z :=
  if has dflags DTOA_MINUS && negb (has dflags DTOA_NAN) then chr "-"%char
  else if has f FL_PLUS then chr "+"%char
  else if has f FL_SPACE then chr " "%char
  else 0.

Definition put_sign (sign : Z) : list Z := if negb (sign =? 0) then [sign] else [].

(** Infinities and NaN. *)
Definition flt_special (fuel : nat) (dflags f sign width : Z) : outcome (list Z) :=
  let ndigs := if negb (sign =? 0) then 4 else 3 in
  let! (pad, width) :=
    (if ndigs <? width then
       let width := width - ndigs in
       if negb (has f FL_LPAD) then let! r := put_while fuel (chr " "%char) width in Ok (r, 0)
       else Ok ([], width)
     else Ok ([], 0)) in
  let p := if has dflags DTOA_NAN then [chr "n"%char; chr "a"%char; chr "n"%char]
           else [chr "i"%char; chr "n"%char; chr "f"%char] in
  let p := map (fun ndigs => if has f FL_FLTUPP then u8 (ndigs + (chr "I"%char - chr "i"%char)) else ndigs) p in
  let! t := tail fuel width in
  Ok (pad ++ put_sign sign ++ p ++ t).

(** [while (ndigs > 0 && _dtoa.digits[ndigs - 1] == '0') ndigs--;] *)
Fixpoint strip_zeros (n : nat) (ds : list Z) : outcome Z :=
  match n with
  | O => Ok 0
  | S n' => let! d := aget ds (Z.of_nat n') in if d =? chr "0"%char then strip_zeros n' ds else Ok (Z.of_nat n)
  end.

(** [%g] chooses between the two layouts: digits, flags and precision. *)
Definition flt_general (exp ndigs : Z) (ds : list Z) (f : Z) : outcome (Z * Z * Z) :=
  let prec := ndigs in
  let! ndigs := strip_zeros (Z.to_nat ndigs) ds in
  if (-4 <=? exp) && (exp <? prec) then
    Ok (ndigs, Z.lor f FL_FLTFIX,
        if (exp <? 0) || (exp <? ndigs) then ndigs - (exp + 1) else 0)
  else Ok (ndigs, f, ndigs - 1).

(** The length of the result. *)
Definition flt_len (exp f sign prec : Z) : Z :=
  let n := if has f FL_FLTFIX then (if 0 <? exp then exp + 1 else 1) else 5 in
  let n := if negb (sign =? 0) then n + 1 else n in
  if negb (prec =? 0) then s32 (n + (prec + 1))
  else if has f FL_ALT then n + 1 else n.

(** What goes before the first digit, and the width left for the tail. *)
Definition flt_lead (fuel : nat) (f sign width : Z) : outcome (list Z * Z) :=
  let! (sp, width) :=
    (if negb (has f (Z.lor FL_LPAD FL_ZFILL)) then
       let! r := put_while fuel (chr " "%char) width in Ok (r, 0)
     else Ok ([], width)) in
  let! (zs, width) :=
    (if negb (has f FL_LPAD) then
       let! r := put_while fuel (chr "0"%char) width in Ok (r, 0)
     else Ok ([], width)) in
  Ok (sp ++ put_sign sign ++ zs, width).

(** The digit at exponent [n]: those of the buffer when in range, otherwise 0. *)
Definition flt_digit (exp ndigs : Z) (ds : list Z) (n : Z) : outcome Z :=
  if (0 <=? exp - n) && (exp - n <? ndigs) then aget ds (exp - n) else Ok (chr "0"%char).

(** The loop of the [%f] layout: what it prints, and [n] and [out] when it breaks. *)
Fixpoint fix_loop (fuel : nat) (exp ndigs : Z) (ds : list Z) (f prec n : Z) : outcome (list Z * Z * Z) :=
  match fuel with
  | O => Diverge
  | S fuel =>
      let point := if n =? -1 then [chr "."%char] else [] in
      let! out := flt_digit exp ndigs ds n in
      let n := n - 1 in
      if n <? - prec then
        Ok (point ++ (if has f FL_ALT && (n =? -1) then [chr "."%char] else []), n, out)
      else
        let! (r, n, last) := fix_loop fuel exp ndigs ds f prec n in
        Ok (point ++ out :: r, n, last)
  end.

Definition flt_fix (fuel : nat) (exp dflags ndigs : Z) (ds : list Z) (f prec : Z) : outcome (list Z) :=
  let! (r, n, out) := fix_loop fuel exp ndigs ds f prec (if 0 <? exp then exp else 0) in
  let! d0 := aget ds 0 in
  let out :=
    if (n =? exp) && ((chr "5"%char <? d0) || ((d0 =? chr "5"%char) && negb (has dflags DTOA_CARRY)))
    then chr "1"%char else out in
  Ok (r ++ [out]).

(** [for (pos = 1; pos < 1 + prec; pos++)]: [pos] is a [uint8_t]. *)
Fixpoint exp_loop (fuel : nat) (ndigs : Z) (ds : list Z) (prec pos : Z) : outcome (list Z) :=
  match fuel with
  | O => Diverge
  | S fuel =>
      if pos <? 1 + prec then
        let! d := (if pos <? ndigs then aget ds pos else Ok (chr "0"%char)) in
        let! r := exp_loop fuel ndigs ds prec (u8 (pos + 1)) in
        Ok (d :: r)
      else Ok []
  end.

(** [for (ndigs = '0'; exp >= 10; exp -= 10) ndigs += 1;] *)
Fixpoint tens (fuel : nat) (ndigs exp : Z) : outcome (Z * Z) :=
  match fuel with
  | O => Diverge
  | S fuel => if 10 <=? exp then tens fuel (u8 (ndigs + 1)) (exp - 10) else Ok (ndigs, exp)
  end.

Definition flt_exp (fuel : nat) (exp dflags ndigs : Z) (ds : list Z) (f prec : Z) : outcome (list Z) :=
  let! d0 := aget ds 0 in
  let dflags := if negb (d0 =? chr "1"%char) then Z.ldiff dflags DTOA_CARRY else dflags in
  let! mant :=
    (if 0 <? prec then let! r := exp_loop fuel ndigs ds prec 1 in Ok (chr "."%char :: r)
     else Ok (if has f FL_ALT then [chr "."%char] else [])) in
  let '(exp, sg) :=
    if (exp <? 0) || ((exp =? 0) && has dflags DTOA_CARRY) then (- exp, chr "-"%char)
    else (exp, chr "+"%char) in
  let! (t, exp) := tens fuel (chr "0"%char) exp in
  Ok ((d0 :: mant) ++ [if has f FL_FLTUPP then chr "E"%char else chr "e"%char; sg; t; u8 (chr "0"%char + exp)]).

(** From [flt_oper] to the end of the conversion; [c] is ['e'], ['f'] or ['g']. *)
Definition flt_oper (fuel : nat) (c : Z) (s : fspec) : outcome (list Z * list varg) :=
  let '(ndigs, ndecimal, f, prec) := flt_setup c (flags s) (prec s) in
  let! (value, ap) := va_double (ap s) in
  let! (d, ndigs) := __dtoa_engine value (replicate 16 0) ndigs ndecimal in
  let ndigs := u8 ndigs in
  let sign := flt_sign (Dtoa.flags d) f in
  if has (Dtoa.flags d) (Z.lor DTOA_NAN DTOA_INF) then
    let! r := flt_special fuel (Dtoa.flags d) f sign (width s) in Ok (r, ap)
  else
    let! (ndigs, f, prec) :=
      (if negb (has f (Z.lor FL_FLTEXP FL_FLTFIX)) then flt_general (exp d) ndigs (digits d) f
       else Ok (ndigs, f, prec)) in
    let n := flt_len (exp d) f sign prec in
    let width := if n <? width s then width s - n else 0 in
    let! (lead, width) := flt_lead fuel f sign width in
    let! body :=
      (if has f FL_FLTFIX then flt_fix fuel (exp d) (Dtoa.flags d) ndigs (digits d) f prec
       else flt_exp fuel (exp d) (Dtoa.flags d) ndigs (digits d) f prec) in
    let! t := tail fuel width in
    Ok (lead ++ body ++ t, ap).

(** ** The conversions *)

(** Every conversion but [%pV]: what it prints and the arguments that are left. *)
Definition convert (fuel : nat) (m : memory) (c : Z) (s : fspec) : outcome (list Z * list varg) :=
  if (chr "E"%char <=? c) && (c <=? chr "G"%char) then
    flt_oper fuel (c + (chr "e"%char - chr "E"%char)) (set_flags s (Z.lor (flags s) FL_FLTUPP))
  else if (chr "e"%char <=? c) && (c <=? chr "g"%char) then
    flt_oper fuel c (set_flags s (Z.ldiff (flags s) FL_FLTUPP))
  else if c =? chr "c"%char then
    let! (v, ap) := va_int (ap s) in
    let! r := str_lpad fuel [u8 v] (flags s) (width s) in
    Ok (r, ap)
  else if (c =? chr "s"%char) || (c =? chr "S"%char) then
    let! (pnt, ap) := va_int (ap s) in
    let! text := string_text fuel m (u64 pnt) (flags s) (prec s) in
    let! r := str_lpad fuel text (flags s) (width s) in
    Ok (r, ap)
  else if (c =? chr "d"%char) || (c =? chr "i"%char) then
    let! (f, buf, n, ap) := signed_conv fuel s in
    let! r := int_layout fuel n buf f (width s) (prec s) in
    Ok (r, ap)
  else
    let! (x, ap) := unsigned_arg (flags s) (ap s) in
    match unsigned_base c (Z.ldiff (flags s) (Z.lor FL_PLUS FL_SPACE)) with
    | None => Ok ([chr "%"%char; c], ap)
    | Some (f, base) =>
        let! (buf, n) := int_digits fuel x f (prec s) base in
        let! r := int_layout fuel (u8 n) buf (Z.ldiff f FL_NEGATIVE) (width s) (prec s) in
        Ok (r, ap)
    end.

(** The size of a pointer is that of [unsigned long long]. *)
Definition pointer_flags (f : Z) : Z :=
  Z.lor (Z.ldiff f (Z.lor FL_LONG FL_REPD_TYPE)) (Z.lor FL_LONG FL_REPD_TYPE).

(** The value returned is 0 and nobody reads it. *)
Fixpoint k_vprintf (fuel : nat) (m : memory) (fmt : Z) (ap : list varg) : outcome (list Z) :=
  match fuel with
  | O => Diverge
  | S fuel =>
      let! (text, r, fmt) := literal fuel m fmt in
      match r with
      | None => Ok text
      | Some c =>
          let! p := parse_spec fuel m fmt c (MkSpec 0 0 0 ap) in
          match p with
          | None => Ok text
          | Some (c, fmt, s) =>
              let! (out, fmt, ap) :=
                (if c =? chr "p"%char then
                   let! v := load8 m fmt in
                   if v =? chr "V"%char then
                     let! (vfmt, va, ap) := va_format (Printf.ap s) in
                     let! out := k_vprintf fuel m vfmt va in
                     Ok (out, fmt + 1, ap)
                   else
                     let! (out, ap) := convert fuel m c (set_flags s (pointer_flags (flags s))) in
                     Ok (out, fmt, ap)
                 else
                   let! (out, ap) := convert fuel m c s in
                   Ok (out, fmt, ap)) in
              let! rest := k_vprintf fuel m fmt ap in
              Ok (text ++ out ++ rest)
          end
      end
  end.

(** ** The kernel's output functions *)

Definition print_prefix : list Z := [chr "["%char; chr "K"%char; chr "]"%char; chr " "%char].

Definition _kprintf (fuel : nat) (m : memory) (fmt : Z) (args : list varg) : outcome (list Z) :=
  k_vprintf fuel m fmt args.

Definition kprintf (fuel : nat) (m : memory) (fmt : Z) (args : list varg) : outcome (list Z) :=
  let! r := k_vprintf fuel m fmt args in Ok (print_prefix ++ r).

(** [while ( *s != '\0') { kputchar( *s); s++; }] *)
Fixpoint k_puts (fuel : nat) (m : memory) (s : Z) : outcome (list Z) :=
  match fuel with
  | O => Diverge
  | S fuel =>
      let! c := load8 m s in
      if c =? 0 then Ok [] else let! r := k_puts fuel m (s + 1) in Ok (c :: r)
  end.

Definition kputs (fuel : nat) (m : memory) (s : Z) : outcome (list Z) :=
  let! r := k_puts fuel m s in Ok (print_prefix ++ r ++ [13; 10]).
