(* ===== verification/PrintfSpec.v ===== *)
(** * What formatted output prints (specification of Printf.v)

    A format is the spelling of a list of items: characters, directives and
    nested formats.  [renders] says what text the items stand for, in terms of
    numerals, fields and paddings; [k_vprintf] prints exactly that text.  The
    numerals are characterised by reading them back. *)

From Stdlib Require Import ZArith Lia Bool Btauto Ascii String.
From stdpp Require Import base numbers list gmap.
From S2P Require Import Prelude Libc Uart Dtoa Printf.
#[local] Open Scope Z_scope.
#[local] Set Warnings "-register-all".

(** ** Numerals *)

Fixpoint digits_lsb (fuel : nat) (b x : Z) : list Z :=
  match fuel with
  | O => []
  | S fuel => x mod b :: (if x / b =? 0 then [] else digits_lsb fuel b (x / b))
  end.

Definition digit_char (upper : bool) (d : Z) : Z :=
  if d <=? 9 then d + 48 else if upper then d + 55 else d + 87.

(** The numeral of [x] in base [b], most significant digit first. *)
Definition numeral (upper : bool) (b x : Z) : list Z :=
  rev (map (digit_char upper) (digits_lsb buf_size b x)).

(** Reading a numeral. *)
Definition char_digit (c : Z) : option Z :=
  if (48 <=? c) && (c <=? 57) then Some (c - 48)
  else if (65 <=? c) && (c <=? 70) then Some (c - 55)
  else if (97 <=? c) && (c <=? 102) then Some (c - 87)
  else None.

Fixpoint read_digits (b : Z) (acc : Z) (cs : list Z) : option Z :=
  match cs with
  | [] => Some acc
  | c :: cs =>
      match char_digit c with
      | Some d => if d <? b then read_digits b (b * acc + d) cs else None
      | None => None
      end
  end.

Definition read_numeral (b : Z) (cs : list Z) : option Z :=
  match cs with [] => None | _ => read_digits b 0 cs end.

Definition lsb_val (b : Z) (ds : list Z) : Z := foldr (fun d acc => d + b * acc) 0 ds.

Section Base.
Context (b : Z) (Hb : 2 <= b <= 16).

Lemma digits_bound fuel x : 0 <= x -> Forall (fun d => 0 <= d < b) (digits_lsb fuel b x).
Proof.
  revert x. induction fuel as [|fuel IH]; intros x Hx; simpl; [done|].
  constructor; [apply Z.mod_pos_bound; lia|]. destr_if; [done|]. apply IH, Z.div_pos; lia.
Qed.

Lemma digits_val fuel x : 0 <= x < b ^ Z.of_nat fuel -> lsb_val b (digits_lsb fuel b x) = x.
Proof.
  revert x. induction fuel as [|fuel IH]; intros x Hx; simpl.
  - simpl in Hx. lia.
  - rewrite Nat2Z.inj_succ, Z.pow_succ_r in Hx by lia.
    destr_if; breflect; simpl.
    + rewrite (Z.div_mod x b) at 2 by lia. lia.
    + rewrite IH; [rewrite (Z.div_mod x b) at 3 by lia; lia|].
      split; [apply Z.div_pos; lia|]. apply Z.div_lt_upper_bound; lia.
Qed.

Lemma digits_length fuel k x :
  0 <= x < b ^ Z.of_nat k -> (0 < k)%nat -> (length (digits_lsb fuel b x) <= k)%nat.
Proof.
  revert k x. induction fuel as [|fuel IH]; intros k x Hx Hk; simpl; [lia|].
  destr_if; breflect; simpl; [lia|]. destruct k as [|k]; [lia|].
  rewrite Nat2Z.inj_succ, Z.pow_succ_r in Hx by lia.
  assert (Hd : 0 <= x / b < b ^ Z.of_nat k)
    by (split; [apply Z.div_pos; lia|apply Z.div_lt_upper_bound; lia]).
  assert (0 < k)%nat by (destruct k; [simpl in Hd|]; lia).
  specialize (IH k (x / b)). lia.
Qed.

Lemma digits_fuel k fuel x :
  0 <= x < b ^ Z.of_nat k -> (0 < k)%nat -> (k <= fuel)%nat -> digits_lsb fuel b x = digits_lsb k b x.
Proof.
  revert fuel x. induction k as [|k IH]; intros fuel x Hx Hk Hf; [lia|].
  destruct fuel as [|fuel]; [lia|]. simpl. f_equal. destr_if; breflect; [done|].
  rewrite Nat2Z.inj_succ, Z.pow_succ_r in Hx by lia.
  assert (Hd : 0 <= x / b < b ^ Z.of_nat k)
    by (split; [apply Z.div_pos; lia|apply Z.div_lt_upper_bound; lia]).
  destruct k; [simpl in Hd; lia|]. apply IH; lia.
Qed.

Lemma digits_nonempty fuel x : (0 < fuel)%nat -> (0 < length (digits_lsb fuel b x))%nat.
Proof. destruct fuel; simpl; lia. Qed.

(** The most significant digit is 0 only for the number 0. *)
Lemma digits_last fuel x :
  0 <= x < b ^ Z.of_nat fuel -> (0 < fuel)%nat -> last (digits_lsb fuel b x) = Some 0 -> x = 0.
Proof.
  revert x. induction fuel as [|fuel IH]; intros x Hx Hf; simpl; [done|].
  rewrite Nat2Z.inj_succ, Z.pow_succ_r in Hx by lia.
  destr_if; breflect.
  - simpl. intros H. simplify_eq. rewrite (Z.div_mod x b) by lia. lia.
  - assert (Hd : 0 <= x / b < b ^ Z.of_nat fuel)
      by (split; [apply Z.div_pos; lia|apply Z.div_lt_upper_bound; lia]).
    destruct fuel as [|fuel]; [simpl in Hd; lia|].
    intros H. exfalso. apply E. apply IH; [done|lia|].
    destruct (digits_lsb (S fuel) b (x / b)) eqn:Ed; [|done].
    pose proof (digits_nonempty (S fuel) (x / b)). rewrite Ed in *. simpl in *. lia.
Qed.

Lemma char_digit_char upper d : 0 <= d < b -> char_digit (digit_char upper d) = Some d.
Proof.
  intros Hd. unfold char_digit, digit_char.
  repeat (destr_if; breflect; simplify_eq); try lia; f_equal; try lia;
    repeat match goal with H : (_ && _) = false |- _ => apply andb_false_iff in H as [H|H]; breflect end; lia.
Qed.

Lemma read_digits_app acc xs ys :
  read_digits b acc (xs ++ ys) = read_digits b acc xs ≫= fun a => read_digits b a ys.
Proof.
  revert acc. induction xs as [|c xs IH]; intros acc; simpl; [done|].
  destruct (char_digit c); [|done]. by destr_if.
Qed.

Lemma read_digits_lsb upper ds acc :
  Forall (fun d => 0 <= d < b) ds ->
  read_digits b acc (rev (map (digit_char upper) ds)) = Some (lsb_val b ds + b ^ Z.of_nat (length ds) * acc).
Proof.
  revert acc. induction ds as [|d ds IH]; intros acc Hds; simpl; [f_equal; lia|].
  apply Forall_cons in Hds as [Hd Hds]. rewrite read_digits_app, IH by done. simpl.
  rewrite char_digit_char by done. rewrite (proj2 (Z.ltb_lt d b)) by lia. f_equal.
  rewrite Nat2Z.inj_succ, Z.pow_succ_r by lia. lia.
Qed.

Lemma read_numeral_digits upper fuel x :
  0 <= x < b ^ Z.of_nat fuel -> (0 < fuel)%nat ->
  read_numeral b (rev (map (digit_char upper) (digits_lsb fuel b x))) = Some x.
Proof.
  intros Hx Hf. unfold read_numeral.
  destruct (rev _) eqn:E.
  { apply (f_equal (@List.length Z)) in E. rewrite length_rev, length_map in E.
    pose proof (digits_nonempty fuel x). simpl in E. lia. }
  rewrite <- E, read_digits_lsb by (apply digits_bound; lia). rewrite digits_val by lia. f_equal. lia.
Qed.

Lemma digit_char_byte upper d : 0 <= d < b -> u8 (digit_char upper d) = digit_char upper d.
Proof. intros. apply Z.mod_small. unfold digit_char. repeat destr_if; breflect; lia. Qed.

(** ** [__ultoa_invert] *)

Lemma insert_app_mid {A} (pre rest : list A) (y z : A) :
  <[length pre := z]> (pre ++ y :: rest) = pre ++ z :: rest.
Proof. rewrite <- (Nat.add_0_r (length pre)). by rewrite insert_app_r. Qed.

Lemma ultoa_loop_ok upper fuel x pre ys rest :
  0 <= x -> length ys = length (digits_lsb fuel b x) -> x < b ^ Z.of_nat fuel -> (0 < fuel)%nat ->
  ultoa_loop fuel x b upper (pre ++ ys ++ rest) (Z.of_nat (length pre)) =
  Ok (pre ++ map (digit_char upper) (digits_lsb fuel b x) ++ rest,
      Z.of_nat (length pre + length (digits_lsb fuel b x))).
Proof.
  revert x pre ys. induction fuel as [|fuel IH]; intros x pre ys Hx Hl Hlt Hf; [lia|].
  simpl. destruct ys as [|y ys]; [simpl in Hl; lia|]. simpl in Hl.
  assert (Hdig : (if x mod b <=? 9 then x mod b + 48 else if upper then x mod b + 55 else x mod b + 87) =
                 digit_char upper (x mod b)) by done.
  change (65 - 10) with 55. change (97 - 10) with 87. rewrite Hdig.
  assert (0 <= x mod b < b) by (apply Z.mod_pos_bound; lia).
  rewrite digit_char_byte by done. rewrite aset_ok by (rewrite !length_app; simpl; lia). simpl.
  rewrite Nat2Z.id, insert_app_mid.
  rewrite Nat2Z.inj_succ, Z.pow_succ_r in Hlt by lia.
  destr_if; breflect; simpl in *.
  - destruct ys; [|simpl in Hl; lia]. simpl. do 2 f_equal. lia.
  - assert (Hd : 0 <= x / b < b ^ Z.of_nat fuel)
      by (split; [apply Z.div_pos; lia|apply Z.div_lt_upper_bound; lia]).
    destruct fuel as [|fuel]; [simpl in Hd; lia|].
    replace (Z.of_nat (length pre) + 1) with (Z.of_nat (length (pre ++ [digit_char upper (x mod b)])))
      by (rewrite length_app; simpl; lia).
    change (pre ++ digit_char upper (x mod b) :: ys ++ rest)
      with (pre ++ [digit_char upper (x mod b)] ++ ys ++ rest).
    rewrite (app_assoc pre), (IH (x / b) _ ys) by lia. rewrite <- app_assoc. simpl.
    do 2 f_equal. rewrite length_app. simpl. lia.
Qed.
End Base.

(** The bases of the conversions, with [XTOA_UPPER] for [%X]. *)
Definition real_base (base : Z) : Z := if has base XTOA_UPPER then Z.ldiff base XTOA_UPPER else base.
Definition known_base (base : Z) : Prop := base ∈ [8; 10; 16; Z.lor 16 XTOA_UPPER].

Lemma known_base_range base : known_base base -> 2 <= real_base base <= 16 /\ 2 ^ 64 <= real_base base ^ 22.
Proof. unfold known_base. intros H. set_unfold. destruct_or!; subst; vm_compute; intuition discriminate. Qed.

Lemma ultoa_ok fuel x base buf :
  known_base base -> 0 <= x < 2 ^ 64 -> (buf_size <= fuel)%nat -> length buf = buf_size ->
  let ds := digits_lsb buf_size (real_base base) x in
  (0 < length ds <= buf_size)%nat /\
  __ultoa_invert fuel x buf base =
    Ok (map (digit_char (has base XTOA_UPPER)) ds ++ drop (length ds) buf, Z.of_nat (length ds)).
Proof.
  intros Hk Hx Hf Hl ds. destruct (known_base_range _ Hk) as [Hb Hp].
  change (2 ^ 64) with 18446744073709551616 in *.
  assert (Hlen : (0 < length ds <= buf_size)%nat).
  { split; [apply digits_nonempty; unfold buf_size; lia|].
    apply digits_length; [exact Hb| |unfold buf_size; lia]. change (Z.of_nat buf_size) with 22. lia. }
  split; [exact Hlen|]. unfold __ultoa_invert. fold (real_base base).
  assert (Hd : digits_lsb fuel (real_base base) x = ds).
  { apply digits_fuel; [exact Hb| |unfold buf_size; lia|exact Hf]. change (Z.of_nat buf_size) with 22. lia. }
  clearbody ds.
  pose proof (ultoa_loop_ok (real_base base) Hb (has base XTOA_UPPER) fuel x []
                (take (length ds) buf) (drop (length ds) buf)) as H.
  rewrite app_nil_l, take_drop in H. change (Z.of_nat (length [])) with 0 in H. rewrite H; [by rewrite Hd|lia| | |unfold buf_size in *; lia].
  - rewrite length_take, Hd. lia.
  - eapply Z.lt_le_trans; [|apply (Z.pow_le_mono_r _ 22); unfold buf_size in *; lia]. lia.
Qed.

(** ** Flags *)

Lemma has_lor f g m : has (Z.lor f g) m = has f m || has g m.
Proof.
  unfold has. rewrite Z.land_lor_distr_l, <- negb_andb. f_equal.
  apply eq_true_iff_eq. rewrite andb_true_iff, !Z.eqb_eq. apply Z.lor_eq_0_iff.
Qed.

Lemma has_lor_r f m n : has f (Z.lor m n) = has f m || has f n.
Proof.
  unfold has. rewrite Z.land_lor_distr_r, <- negb_andb. f_equal.
  apply eq_true_iff_eq. rewrite andb_true_iff, !Z.eqb_eq. apply Z.lor_eq_0_iff.
Qed.

Lemma land_ldiff_swap f g m : Z.land (Z.ldiff f g) m = Z.land f (Z.ldiff m g).
Proof. apply Z.bits_inj'. intros i Hi. autorewrite with bits. btauto. Qed.

(** Clearing bits outside [m] keeps the test, clearing all of [m] makes it fail. *)
Lemma has_ldiff_keep f g m : Z.ldiff m g = m -> has (Z.ldiff f g) m = has f m.
Proof. intros H. unfold has. by rewrite land_ldiff_swap, H. Qed.

Lemma has_ldiff_drop f g m : Z.ldiff m g = 0 -> has (Z.ldiff f g) m = false.
Proof. intros H. unfold has. by rewrite land_ldiff_swap, H, Z.land_0_r. Qed.

Create Rewrite HintDb has.
#[local] Hint Rewrite has_lor has_lor_r : has.
#[local] Hint Rewrite has_ldiff_keep has_ldiff_drop using reflexivity : has.

(** Tests between constants are computed. *)
Ltac has_const :=
  repeat match goal with
  | |- context [has ?a ?b] =>
      is_const a; is_const b; let v := eval vm_compute in (has a b) in change (has a b) with v
  end.
Ltac hasrw := autorewrite with has; has_const; rewrite ?orb_false_r, ?orb_true_r, ?orb_false_l, ?orb_true_l.

(** ** Padding loops *)

Definition spaces (n : Z) : list Z := replicate (Z.to_nat n) 32.
Definition zeros (n : Z) : list Z := replicate (Z.to_nat n) 48.

Lemma put_while_ok c n fuel :
  0 <= n < 2 ^ 31 -> (Z.to_nat n < fuel)%nat -> put_while fuel c n = Ok (replicate (Z.to_nat n) c).
Proof.
  revert n. induction fuel as [|fuel IH]; intros n Hn Hf; [lia|]. simpl.
  destruct (Z.eqb_spec n 0) as [->|]; [done|]. rewrite s32_id by lia. rewrite IH by lia. simpl.
  do 2 f_equal. replace (Z.to_nat n) with (S (Z.to_nat (n - 1))) by lia. done.
Qed.

Lemma str_pad_ok size width fuel :
  0 <= width < 2 ^ 31 -> 0 <= size -> (Z.to_nat width < fuel)%nat ->
  str_pad fuel size width = Ok (spaces (width - size), Z.min width size).
Proof.
  intros Hw Hs. revert width Hw. induction fuel as [|fuel IH]; intros width Hw Hf; [lia|]. simpl.
  rewrite u64_id by lia. destruct (Z.ltb_spec size width).
  - rewrite s32_id by lia. rewrite IH by lia. simpl. rewrite !Z.min_r by lia. do 2 f_equal.
    unfold spaces. replace (Z.to_nat (width - size)) with (S (Z.to_nat (width - 1 - size))) by lia. done.
  - unfold spaces. rewrite (Z2Nat.nonpos (width - size)), Z.min_l by lia. done.
Qed.

Lemma str_body_ok text width :
  0 <= width < 2 ^ 31 -> str_body text width = (text, Z.max 0 (width - Z.of_nat (length text))).
Proof.
  revert width. induction text as [|c text IH]; intros width Hw; simpl.
  - f_equal. lia.
  - destruct (Z.eqb_spec width 0); simpl; [|rewrite s32_id by lia];
      rewrite IH by lia; f_equal; lia.
Qed.

Lemma len_pad_ok len width fuel :
  0 <= len -> width <= 255 -> (Z.to_nat (width - len) < fuel)%nat ->
  len_pad fuel len width = Ok (spaces (width - len), Z.max len width).
Proof.
  intros Hl Hw. revert len Hl. induction fuel as [|fuel IH]; intros len Hl Hf; [lia|]. simpl.
  destruct (Z.ltb_spec len width).
  - unfold u8. rewrite Z.mod_small by lia. rewrite IH by lia. simpl. do 2 f_equal; [|lia].
    unfold spaces. replace (width - len) with (Z.succ (width - (len + 1))) by lia.
    by rewrite (Z2Nat.inj_succ (width - _)) by lia.
  - unfold spaces. rewrite Z2Nat.nonpos by lia. simpl. do 2 f_equal. lia.
Qed.

Lemma zero_pad_ok prec c fuel : (Z.to_nat (prec - c) < fuel)%nat -> zero_pad fuel prec c = Ok (zeros (prec - c)).
Proof.
  revert prec. induction fuel as [|fuel IH]; intros prec Hf; [lia|]. simpl.
  destruct (Z.ltb_spec c prec).
  - rewrite IH by lia. simpl. unfold zeros.
    replace (prec - c) with (Z.succ (prec - 1 - c)) by lia. by rewrite (Z2Nat.inj_succ (prec - 1 - c)) by lia.
  - unfold zeros. by rewrite Z2Nat.nonpos by lia.
Qed.

Lemma put_digits_ok buf ds rest : buf = ds ++ rest -> put_digits (length ds) buf = Ok (rev ds).
Proof.
  revert rest. induction ds as [|d ds IH] using rev_ind; intros rest ->; [done|].
  rewrite length_app, Nat.add_comm. simpl.
  rewrite (aget_lookup _ _ d); [|lia|].
  - simpl. rewrite <- app_assoc in *. rewrite (IH (d :: rest)) by done. simpl. by rewrite rev_app_distr.
  - rewrite Nat2Z.id, <- app_assoc, lookup_app_r, Nat.sub_diag by done. done.
Qed.

Lemma put_digits_rev ds rest : put_digits (Z.to_nat (Z.of_nat (length ds))) (rev ds ++ rest) = Ok ds.
Proof.
  rewrite Nat2Z.id, <- (length_rev ds), (put_digits_ok _ (rev ds) rest) by done. by rewrite rev_involutive.
Qed.

(** ** Fields *)

(** [body] in a field of width [w]. *)
Definition pad (left : bool) (w : Z) (body : list Z) : list Z :=
  let sp := spaces (w - Z.of_nat (length body)) in
  if left then body ++ sp else sp ++ body.

#[local] Arguments pad : simpl never.

Lemma length_spaces n : length (spaces n) = Z.to_nat n.
Proof. apply length_replicate. Qed.

Lemma spaces_nonpos n : n <= 0 -> spaces n = [].
Proof. intros. unfold spaces. by rewrite Z2Nat.nonpos by lia. Qed.

Lemma spaces_max n : spaces (Z.max 0 n) = spaces n.
Proof. unfold spaces. f_equal. lia. Qed.

Lemma zeros_nonpos n : n <= 0 -> zeros n = [].
Proof. intros. unfold zeros. by rewrite Z2Nat.nonpos by lia. Qed.

Lemma str_lpad_ok fuel text f w :
  0 <= w < 2 ^ 31 -> (Z.to_nat w < fuel)%nat ->
  str_lpad fuel text f w = Ok (pad (has f FL_LPAD) w text).
Proof.
  intros Hw Hf. unfold str_lpad, pad, tail. set (n := Z.of_nat (length text)).
  destruct (has f FL_LPAD); simpl.
  - rewrite str_body_ok by done. simpl. rewrite put_while_ok by lia. simpl.
    fold n. fold (spaces (Z.max 0 (w - n))). by rewrite spaces_max.
  - rewrite str_pad_ok by lia. simpl. rewrite str_body_ok by lia. fold n.
    replace (Z.max 0 (Z.min w n - n)) with 0 by lia. destruct fuel; [lia|]. simpl.
    by rewrite app_nil_r.
Qed.

(** A number: prefix or sign, zeros up to the precision (or, with [0], to the
    width) and digits, in its field. *)
Definition int_field (left zero : bool) (w : Z) (p : option Z) (pre ds : list Z) : list Z :=
  let zs :=
    match p with
    | Some p => zeros (p - Z.of_nat (length ds))
    | None => if zero && negb left then zeros (w - Z.of_nat (length pre + length ds)) else []
    end in
  pad left w (pre ++ zs ++ ds).

Lemma length_zeros n : length (zeros n) = Z.to_nat n.
Proof. apply length_replicate. Qed.

Lemma pad_left_wide left w body : w <= Z.of_nat (length body) -> pad left w body = body.
Proof. intros H. unfold pad. rewrite spaces_nonpos by lia. destruct left; [apply app_nil_r|done]. Qed.

(** What the flags of an integer conversion say of its field. *)
Definition prec_of (f prec : Z) : option Z := if has f FL_PREC then Some prec else None.

Lemma int_layout_ok fuel buf rest ds f f' w prec len pre :
  let c := Z.of_nat (length ds) in
  buf = rev ds ++ rest ->
  int_len c buf f prec = Ok (len, f') ->
  int_prefix f' = pre -> len = Z.max c prec + Z.of_nat (length pre) -> len <= 255 ->
  has f' FL_LPAD = has f FL_LPAD -> has f' FL_ZFILL = has f FL_ZFILL && negb (has f FL_PREC) ->
  (has f FL_PREC = false -> prec = 0) ->
  0 <= w <= 255 -> 0 <= prec -> (512 <= fuel)%nat ->
  int_layout fuel c buf f w prec = Ok (int_field (has f FL_LPAD) (has f FL_ZFILL) w (prec_of f prec) pre ds).
Proof.
  intros c Hbuf Hlen Hpre Hl Hle Hlp Hzf Hp0 Hw Hp Hf.
  pose proof (put_digits_rev ds rest) as Hds'. rewrite <- Hbuf in Hds'. fold c in Hds'.
  unfold int_layout. rewrite Hlen. simpl. rewrite Hlp, Hpre, Hzf. unfold int_field, prec_of, tail.
  assert (Hc : 0 <= c) by lia. set (l := Z.of_nat (length pre)) in *.
  destruct (has f FL_LPAD) eqn:EL; simpl.
  - rewrite zero_pad_ok, Hds' by lia. simpl. rewrite put_while_ok by (destr_if; lia). simpl.
    replace (if len <? w then w - len else 0) with (Z.max 0 (w - len)) by (destruct (Z.ltb_spec len w); lia).
    fold (spaces (Z.max 0 (w - len))). rewrite spaces_max, andb_false_r.
    replace (match (if has f FL_PREC then Some prec else None) with Some p => zeros (p - Z.of_nat (length ds)) | None => [] end)
      with (zeros (prec - c)) by (destr_if; [done|rewrite Hp0 by done; apply zeros_nonpos; lia]).
    unfold pad. rewrite !length_app, length_zeros. fold l. rewrite <- !app_assoc. do 5 f_equal. lia.
  - rewrite andb_true_r. destruct (has f FL_PREC) eqn:EP; simpl.
    + rewrite andb_false_r, len_pad_ok by lia. simpl. rewrite zero_pad_ok, Hds' by lia. simpl.
      rewrite put_while_ok by (destr_if; breflect; lia). simpl.
      rewrite (proj2 (Z.ltb_ge (Z.max len w) w)) by lia. simpl. rewrite app_nil_r.
      unfold pad. rewrite !length_app, length_zeros. do 3 f_equal. lia.
    + rewrite Hp0 in * by done. rewrite andb_true_r. destruct (has f FL_ZFILL); simpl.
      * destruct (Z.ltb_spec len w) as [Hlt|Hge]; simpl.
        -- rewrite s32_id by lia. unfold u8. rewrite Z.mod_small by lia.
           rewrite len_pad_ok by lia. simpl. rewrite zero_pad_ok, Hds' by lia. simpl.
           rewrite (proj2 (Z.ltb_ge (Z.max w w) w)) by lia. destruct fuel; [lia|]. simpl.
           rewrite app_nil_r, spaces_nonpos by lia. simpl.
           rewrite pad_left_wide by (rewrite !length_app, length_zeros; lia). do 4 f_equal. lia.
        -- rewrite len_pad_ok by lia. simpl. rewrite zero_pad_ok, Hds' by lia. simpl.
           rewrite (proj2 (Z.ltb_ge (Z.max len w) w)) by lia. destruct fuel; [lia|]. simpl.
           rewrite app_nil_r, spaces_nonpos, !zeros_nonpos by lia. simpl.
           by rewrite pad_left_wide by (rewrite !length_app; lia).
      * rewrite len_pad_ok by lia. simpl. rewrite zero_pad_ok, Hds' by lia. simpl.
        rewrite (proj2 (Z.ltb_ge (Z.max len w) w)) by lia. destruct fuel; [lia|]. simpl.
        rewrite app_nil_r, zeros_nonpos by lia. simpl. unfold pad. rewrite !length_app.
        do 3 f_equal. lia.
Qed.

(** The prefix or sign an integer gets, from its flags, its precision, the count
    [c] of its digits and the first of them. *)
Definition layout_prefix (f prec c d : Z) : list Z :=
  if has f FL_ALT then
    if negb (d =? 48) && (has f FL_ALTHEX || (prec <=? c)) then
      48 :: (if has f FL_ALTHEX then [if has f FL_ALTUPP then 88 else 120] else [])
    else []
  else int_prefix f.

Lemma int_prefix_alt f :
  has f FL_ALT = true ->
  int_prefix f = 48 :: (if has f FL_ALTHEX then [if has f FL_ALTUPP then 88 else 120] else []).
Proof. intros H. unfold int_prefix. by rewrite H. Qed.

Lemma int_prefix_none f :
  has f FL_ALT = false -> has f (Z.lor FL_NEGATIVE (Z.lor FL_PLUS FL_SPACE)) = false -> int_prefix f = [].
Proof. intros H1 H2. unfold int_prefix. by rewrite H1, H2. Qed.

Lemma int_prefix_zfill f : int_prefix (Z.ldiff f FL_ZFILL) = int_prefix f.
Proof. unfold int_prefix. hasrw. done. Qed.

Lemma int_prefix_length f :
  has f FL_ALT = false ->
  Z.of_nat (length (int_prefix f)) = if has f (Z.lor FL_NEGATIVE (Z.lor FL_PLUS FL_SPACE)) then 1 else 0.
Proof. intros H. unfold int_prefix. rewrite H. by destr_if. Qed.

(** [int_len] on flags whose precision has been dealt with. *)
Lemma int_len_prefix c buf f len d :
  0 <= len <= 253 ->
  (has f FL_ALT = true -> aget buf (c - 1) = Ok d /\ has f (Z.lor FL_NEGATIVE (Z.lor FL_PLUS FL_SPACE)) = false) ->
  exists f', count_prefix c buf len f = Ok (len + Z.of_nat (length (int_prefix f')), f') /\
    int_prefix f' = (if has f FL_ALT then (if negb (d =? 48) then int_prefix f else []) else int_prefix f) /\
    has f' FL_LPAD = has f FL_LPAD /\ has f' FL_ZFILL = has f FL_ZFILL.
Proof.
  intros Hl Ha. unfold count_prefix. destruct (has f FL_ALT) eqn:EA.
  - destruct Ha as [-> Hs]; [done|]. simpl. destruct (Z.eqb_spec d 48); simpl.
    + set (f' := Z.ldiff f _). exists f'.
      assert (Hp : int_prefix f' = []) by (apply int_prefix_none; unfold f'; hasrw; [done|]; revert Hs; by hasrw).
      rewrite Hp. simpl. split_and!; [do 2 f_equal; lia|done|unfold f'; by hasrw..].
    + exists f. split_and!; [|done..]. rewrite int_prefix_alt by done. unfold u8.
      rewrite (Z.mod_small (len + 1)) by lia.
      destruct (has f FL_ALTHEX); simpl; rewrite ?Z.mod_small by lia; do 2 f_equal; lia.
  - exists f. split_and!; [|done..]. rewrite int_prefix_length by done.
    destr_if; unfold u8; rewrite ?Z.mod_small by lia; do 2 f_equal; lia.
Qed.

Lemma int_len_ok c buf f prec d :
  0 <= c <= 22 -> 0 <= prec <= 253 -> (has f FL_PREC = false -> prec = 0) ->
  (has f FL_ALT = true -> aget buf (c - 1) = Ok d /\ has f (Z.lor FL_NEGATIVE (Z.lor FL_PLUS FL_SPACE)) = false) ->
  exists f', int_len c buf f prec = Ok (Z.max c prec + Z.of_nat (length (layout_prefix f prec c d)), f') /\
    int_prefix f' = layout_prefix f prec c d /\
    has f' FL_LPAD = has f FL_LPAD /\ has f' FL_ZFILL = has f FL_ZFILL && negb (has f FL_PREC).
Proof.
  intros Hc Hp Hp0 Ha. unfold int_len, layout_prefix. destruct (has f FL_PREC) eqn:EP.
  - set (g := Z.ldiff f FL_ZFILL).
    assert (Hg : forall m, Z.ldiff m FL_ZFILL = m -> has g m = has f m) by (intros; by apply has_ldiff_keep).
    assert (Hgz : has g FL_ZFILL = false) by (by apply has_ldiff_drop).
    destruct (Z.ltb_spec c prec) as [Hlt|Hge].
    + replace (u8 prec) with prec by (symmetry; apply Z.mod_small; lia).
      destruct (has g FL_ALT && negb (has g FL_ALTHEX)) eqn:EG.
      * rewrite !Hg in EG by done. breflect. set (h := Z.ldiff g FL_ALT).
        destruct (int_len_prefix c buf h prec d) as (f' & -> & Hpre & Hlp & Hz);
          [lia|unfold h; by hasrw|].
        exists f'. revert Hpre Hlp Hz. unfold h, g. hasrw. intros Hpre -> ->.
        replace (int_prefix f') with (@nil Z).
        { rewrite H, H0. simpl. rewrite (proj2 (Z.leb_gt prec c)), !andb_false_r by lia.
          simpl. split_and!; [do 2 f_equal; lia|done..]. }
        rewrite Hpre. symmetry. apply int_prefix_none; hasrw; [done|].
        destruct Ha as [_ Hs]; [done|]. revert Hs. by hasrw.
      * destruct (int_len_prefix c buf g prec d) as (f' & -> & Hpre & Hlp & Hz);
          [lia|unfold g; hasrw; intros HA; destruct (Ha HA) as [? Hs]; split; [done|]; revert Hs; by hasrw|].
        exists f'. rewrite Hpre, Hlp, Hz, Hgz, andb_false_r. unfold g. hasrw.
        rewrite int_prefix_zfill. rewrite !Hg in EG by done.
        replace (Z.max c prec) with prec by lia. destruct (has f FL_ALT) eqn:EA; [|done].
        simpl in EG. breflect. rewrite EG. simpl. rewrite andb_true_r, (int_prefix_alt f EA), EG. done.
    + destruct (int_len_prefix c buf g c d) as (f' & -> & Hpre & Hlp & Hz);
        [lia|unfold g; hasrw; intros HA; destruct (Ha HA) as [? Hs]; split; [done|]; revert Hs; by hasrw|].
      exists f'. rewrite Hpre, Hlp, Hz, Hgz, andb_false_r. unfold g. hasrw. rewrite int_prefix_zfill.
      replace (Z.max c prec) with c by lia. rewrite (proj2 (Z.leb_le prec c)), orb_true_r, andb_true_r by lia.
      destruct (has f FL_ALT) eqn:EA; [|done]. by rewrite (int_prefix_alt f EA).
  - destruct (int_len_prefix c buf f c d) as (f' & -> & Hpre & Hlp & Hz); [lia|done|].
    exists f'. rewrite Hpre, Hlp, Hz, andb_true_r, Hp0 by done.
    replace (Z.max c 0) with c by lia. rewrite (proj2 (Z.leb_le 0 c)), orb_true_r, andb_true_r by lia.
    destruct (has f FL_ALT) eqn:EA; [|done]. by rewrite (int_prefix_alt f EA).
Qed.

(** ** Directives *)

Inductive size : Type := Snone | Shh | Sh | Sl | Sll | Sj | Sz | St.
Inductive conv : Type := Cd | Ci | Cu | Co | Cx | CX | Cp | Cc | Cs.

#[export] Instance conv_eq_dec : EqDecision conv.
Proof. solve_decision. Defined.

(** A width or a precision: absent, in the format, or an argument. *)
Inductive num : Type := NNone | NLit (n : Z) | NStar.

Record directive : Type := MkDir {
  minus : bool; plus : bool; space : bool; alt : bool; zero : bool;
  wid : num; pre : num; sz : size; cv : conv }.

Inductive item : Type :=
| Char (c : Z)
| Dir (d : directive)
| Nested.

(** *** Spelling *)

Definition chars (s : string) : list Z := map (fun c => Z.of_N (N_of_ascii c)) (list_ascii_of_string s).

Definition flag_chars (d : directive) : list Z :=
  (if minus d then chars "-" else []) ++ (if plus d then chars "+" else []) ++
  (if space d then chars " " else []) ++ (if alt d then chars "#" else []) ++
  (if zero d then chars "0" else []).

Definition num_chars (n : num) : list Z :=
  match n with NNone => [] | NLit n => numeral false 10 n | NStar => chars "*" end.

Definition size_chars (z : size) : list Z :=
  chars (match z with
         | Snone => "" | Shh => "hh" | Sh => "h" | Sl => "l" | Sll => "ll" | Sj => "j" | Sz => "z" | St => "t"
         end).

Definition conv_char (c : conv) : Z :=
  match c with
  | Cd => 100 | Ci => 105 | Cu => 117 | Co => 111 | Cx => 120 | CX => 88 | Cp => 112 | Cc => 99 | Cs => 115
  end.

Definition prec_chars (n : num) : list Z := match n with NNone => [] | p => chars "." ++ num_chars p end.

Definition modifier_chars (d : directive) : list Z :=
  flag_chars d ++ num_chars (wid d) ++ prec_chars (pre d) ++ size_chars (sz d).

Definition dir_chars (d : directive) : list Z := modifier_chars d ++ [conv_char (cv d)].

Definition item_chars (i : item) : list Z :=
  match i with
  | Char c => if c =? 37 then [37; 37] else [c]
  | Dir d => 37 :: dir_chars d
  | Nested => chars "%pV"
  end.

Definition fmt_chars (its : list item) : list Z := flat_map item_chars its.

(** *** Meaning *)

(** The argument of an integer conversion at the width of its type. *)
Definition signed_value (z : size) (v : Z) : Z :=
  match z with Snone => s32 v | Shh => s8 v | Sh => s16 v | _ => s64 v end.

Definition unsigned_value (z : size) (v : Z) : Z :=
  match z with Snone => u32 v | Shh => u8 v | Sh => u16 v | _ => u64 v end.

(** The precision 0 prints no digits for 0. *)
Definition digits_of (upper : bool) (b : Z) (p : option Z) (x : Z) : list Z :=
  if bool_decide (p = Some 0) && (x =? 0) then [] else numeral upper b x.

Definition sign_prefix (d : directive) (x : Z) : list Z :=
  if x <? 0 then chars "-" else if plus d then chars "+" else if space d then chars " " else [].

(** [0x] and [0X] of a number other than 0; an octal number starts with 0. *)
Definition alt_prefix (d : directive) (p : option Z) (x n : Z) : list Z :=
  if x =? 0 then []
  else match cv d with
       | Co => if alt d && (default 0 p <=? n) then chars "0" else []
       | Cx => if alt d then chars "0x" else []
       | CX => if alt d then chars "0X" else []
       | Cp => chars "0x"
       | _ => []
       end.

Definition conv_base (c : conv) : Z := match c with Co => 8 | Cx | CX | Cp => 16 | _ => 10 end.
Definition conv_upper (c : conv) : bool := match c with CX => true | _ => false end.

Definition int_value (d : directive) (v : Z) : Z :=
  match cv d with Cd | Ci => signed_value (sz d) v | Cp => u64 v | _ => unsigned_value (sz d) v end.

(** The text of an integer directive in a field of width [w]. *)
Definition int_text (d : directive) (left : bool) (w : Z) (p : option Z) (v : Z) : list Z :=
  let x := int_value d v in
  let ds := digits_of (conv_upper (cv d)) (conv_base (cv d)) p (Z.abs x) in
  let prefix :=
    match cv d with
    | Cd | Ci => sign_prefix d x
    | _ => alt_prefix d p x (Z.of_nat (length ds))
    end in
  int_field left (zero d) w p prefix ds.

Definition truncated (p : option Z) (str : list Z) : list Z :=
  match p with Some p => take (Z.to_nat p) str | None => str end.

(** The text of a directive for the argument [v].  The length of an integer's
    text is counted in an [unsigned char]; [#] with the precision 0 has no digit
    to look at when the number is 0. *)
Inductive dir_text (m : memory) (d : directive) (left : bool) (w : Z) (p : option Z) (v : Z) : list Z -> Prop :=
| text_int :
    cv d <> Cc -> cv d <> Cs -> w <= 255 -> default 0 p <= 253 ->
    (alt d = true \/ cv d = Cp -> p = Some 0 -> int_value d v = 0 -> cv d ∈ [Cd; Ci; Cu]) ->
    dir_text m d left w p v (int_text d left w p v)
| text_char : cv d = Cc -> dir_text m d left w p v (pad left w [u8 v])
| text_str str :
    cv d = Cs -> u64 v <> 0 -> cstr m (u64 v) str -> Z.of_nat (length str) < 2 ^ 64 ->
    dir_text m d left w p v (pad left w (truncated p str))
| text_null :
    cv d = Cs -> u64 v = 0 -> dir_text m d left w p v (pad left w (truncated p (chars "(null)"))).

(** The value of a width or a precision, and the arguments that are left. *)
Inductive takes : num -> list varg -> option Z -> list varg -> Prop :=
| takes_none ap : takes NNone ap None ap
| takes_lit n ap : 0 <= n < 2 ^ 31 -> takes (NLit n) ap (Some n) ap
| takes_star v ap : - 2 ^ 31 < s32 v -> takes NStar (VInt v :: ap) (Some (s32 v)) ap.

(** A negative width is the flag [-] and a width. *)
Definition left_of (d : directive) (ow : option Z) : bool := minus d || (default 0 ow <? 0).
Definition width_of (ow : option Z) : Z := Z.abs (default 0 ow).

Inductive renders (m : memory) : list item -> list varg -> list Z -> Prop :=
| renders_nil ap : renders m [] ap []
| renders_char c its ap text :
    0 < c < 256 -> renders m its ap text -> renders m (Char c :: its) ap (c :: text)
| renders_dir d its ap ow ap1 op v ap2 body text :
    takes (wid d) ap ow ap1 -> wid d <> NLit 0 -> takes (pre d) ap1 op (VInt v :: ap2) ->
    dir_text m d (left_of d ow) (width_of ow) (Z.max 0 <$> op) v body ->
    (cv d = Cp -> head (fmt_chars its) <> Some 86) ->
    renders m its ap2 text -> renders m (Dir d :: its) ap (body ++ text)
| renders_nested f its' va inner its ap text :
    holds m f (fmt_chars its' ++ [0]) -> renders m its' va inner ->
    renders m its ap text -> renders m (Nested :: its) (VFormat f va :: ap) (inner ++ text).

(** ** Integer conversions *)

Definition size_long (z : size) : bool := match z with Sl | Sll | Sj | Sz | St => true | _ => false end.
Definition size_short (z : size) : bool := match z with Shh | Sh => true | _ => false end.
Definition size_repd (z : size) : bool := match z with Shh | Sll | Sj => true | _ => false end.

(** What the flags of a parsed directive say. *)
Record viewed (f : Z) (d : directive) (left pr : bool) : Prop := {
  v_left : has f FL_LPAD = left;
  v_zero : has f FL_ZFILL = zero d;
  v_plus : has f FL_PLUS = plus d;
  v_space : has f FL_SPACE = plus d || space d;
  v_alt : has f FL_ALT = alt d;
  v_prec : has f FL_PREC = pr;
  v_long : has f FL_LONG = size_long (sz d);
  v_short : has f FL_SHORT = size_short (sz d);
  v_repd : has f FL_REPD_TYPE = size_repd (sz d);
  v_neg : has f FL_NEGATIVE = false;
  v_hex : has f FL_ALTHEX = false;
  v_upp : has f FL_ALTUPP = false }.

Lemma s32_mod k v : 0 <= k <= 32 -> s32 v mod 2 ^ k = v mod 2 ^ k.
Proof.
  intros Hk. assert (H : exists q, s32 v = v + q * 2 ^ (32 - k) * 2 ^ k).
  { unfold s32. pose proof (Z.div_mod v (2 ^ 32)) as Hd.
    assert (Hp : 2 ^ 32 = 2 ^ (32 - k) * 2 ^ k) by (rewrite <- Z.pow_add_r by lia; f_equal; lia).
    destr_if; [exists (- (v / 2 ^ 32))|exists (- (v / 2 ^ 32) - 1)]; rewrite Hp in *; lia. }
  destruct H as [q ->]. apply Z.mod_add. apply Z.pow_nonzero; lia.
Qed.

Lemma u32_mod k v : 0 <= k <= 32 -> u32 v mod 2 ^ k = v mod 2 ^ k.
Proof.
  intros Hk. unfold u32. symmetry. replace (2 ^ 32) with (2 ^ k * 2 ^ (32 - k)).
  - rewrite Z.rem_mul_r by (try apply Z.pow_nonzero; try apply Z.pow_pos_nonneg; lia).
    rewrite (Z.mul_comm (2 ^ k)), Z.mod_add, Z.mod_mod by (apply Z.pow_nonzero; lia). done.
  - rewrite <- Z.pow_add_r by lia. f_equal. lia.
Qed.

Lemma signed_arg_ok f d left pr v ap :
  viewed f d left pr -> signed_arg f (VInt v :: ap) = Ok (signed_value (sz d) v, ap).
Proof.
  intros V. unfold signed_arg. simpl.
  rewrite (v_long _ _ _ _ V), (v_short _ _ _ _ V), (v_repd _ _ _ _ V).
  destruct (sz d); simpl; try done; do 2 f_equal.
  - unfold s8, u8. by rewrite (s32_mod 8).
  - unfold s16. by rewrite (s32_mod 16).
Qed.

Lemma unsigned_arg_ok f d left pr v ap :
  viewed f d left pr -> unsigned_arg f (VInt v :: ap) = Ok (unsigned_value (sz d) v, ap).
Proof.
  intros V. unfold unsigned_arg. simpl.
  rewrite (v_long _ _ _ _ V), (v_short _ _ _ _ V), (v_repd _ _ _ _ V).
  destruct (sz d); simpl; try done; do 2 f_equal.
  - unfold u8. by apply (u32_mod 8).
  - unfold u16. by apply (u32_mod 16).
Qed.

Lemma signed_value_range z v : - 2 ^ 63 <= signed_value z v < 2 ^ 63.
Proof.
  assert (forall k x, 0 < k <= 64 -> 0 <= x mod 2 ^ k < 2 ^ k) by (intros; apply Z.mod_pos_bound, Z.pow_pos_nonneg; lia).
  destruct z; unfold signed_value, s8, s16, s32, s64, u8;
    [pose proof (H 32 v)|pose proof (H 8 v)|pose proof (H 16 v)|(pose proof (H 64 v))..];
    destr_if; breflect; lia.
Qed.

Lemma unsigned_value_range z v : 0 <= unsigned_value z v < 2 ^ 64.
Proof.
  assert (forall k x, 0 < k <= 64 -> 0 <= x mod 2 ^ k < 2 ^ k) by (intros; apply Z.mod_pos_bound, Z.pow_pos_nonneg; lia).
  destruct z; unfold unsigned_value, u8, u16, u32, u64;
    [pose proof (H 32 v)|pose proof (H 8 v)|pose proof (H 16 v)|(pose proof (H 64 v))..]; lia.
Qed.

(** The digits of a number, in the buffer and as a numeral. *)
Lemma int_digits_ok fuel x f prec base p :
  known_base base -> 0 <= x < 2 ^ 64 -> (buf_size <= fuel)%nat ->
  (if has f FL_PREC then Some prec else None) = p ->
  let ds := digits_of (has base XTOA_UPPER) (real_base base) p x in
  exists rest, int_digits fuel x f prec base = Ok (rev ds ++ rest, Z.of_nat (length ds)) /\
    (length ds <= buf_size)%nat /\
    (ds <> [] -> exists d, head ds = Some d /\ (d = 48 <-> x = 0)).
Proof.
  intros Hk Hx Hf Hp. unfold int_digits, digits_of. rewrite (u64_id x) by done.
  replace (has f FL_PREC && (prec =? 0) && (x =? 0)) with (bool_decide (p = Some 0) && (x =? 0)).
  2: { rewrite <- Hp. destruct (has f FL_PREC); simpl; [|done]. f_equal.
       destruct (Z.eqb_spec prec 0); [by apply bool_decide_eq_true; subst|].
       apply bool_decide_eq_false. congruence. }
  destr_if; [exists fresh_buf; split_and!; [done|simpl; lia|done]|]. clear E Hp.
  destruct (ultoa_ok fuel x base fresh_buf Hk Hx Hf) as [Hl Hu]; [apply length_replicate|].
  rewrite Hu. destruct (known_base_range _ Hk) as [Hb Hpw].
  unfold numeral. rewrite rev_involutive, length_rev, length_map.
  eexists. split_and!; [reflexivity|lia|]. intros _.
  assert (Hlast := digits_last (real_base base) Hb buf_size x).
  assert (Hbd := digits_bound (real_base base) Hb buf_size x).
  assert (Hv := digits_val (real_base base) Hb buf_size x).
  destruct (digits_lsb buf_size (real_base base) x) as [|d0 ds0 _] eqn:Ed using rev_ind; [simpl in Hl; lia|].
  rewrite map_app, rev_app_distr. simpl. eexists. split; [done|].
  rewrite last_snoc in Hlast. apply Forall_app in Hbd as [_ Hd]; [|lia]. apply Forall_cons in Hd as [Hd _].
  assert (Hd48 : digit_char (has base XTOA_UPPER) d0 = 48 <-> d0 = 0).
  { unfold digit_char. repeat destr_if; breflect; lia. }
  rewrite Hd48. split; [intros ->; apply Hlast; [|unfold buf_size; lia|done]|].
  - change (Z.of_nat buf_size) with 22. lia.
  - intros ->. unfold buf_size in Ed. simpl in Ed. destruct ds0 as [|a [|]]; simplify_eq/=. by rewrite Zmod_0_l.
Qed.

(** From the digits to the field. *)
Lemma int_field_ok fuel buf rest ds f w prec p pre d :
  buf = rev ds ++ rest -> (length ds <= buf_size)%nat -> (512 <= fuel)%nat ->
  (if has f FL_PREC then Some prec else None) = p -> (has f FL_PREC = false -> prec = 0) ->
  0 <= w <= 255 -> 0 <= prec <= 253 ->
  (has f FL_ALT = true -> head ds = Some d /\ has f (Z.lor FL_NEGATIVE (Z.lor FL_PLUS FL_SPACE)) = false) ->
  layout_prefix f prec (Z.of_nat (length ds)) d = pre ->
  int_layout fuel (u8 (Z.of_nat (length ds))) buf f w prec =
    Ok (int_field (has f FL_LPAD) (has f FL_ZFILL) w p pre ds).
Proof.
  intros Hbuf Hlen Hf Hp Hp0 Hw Hpr Ha Hpre. unfold buf_size in Hlen.
  replace (u8 (Z.of_nat (length ds))) with (Z.of_nat (length ds)) by (symmetry; apply Z.mod_small; lia).
  destruct (int_len_ok (Z.of_nat (length ds)) buf f prec d) as (f' & Hl & Hip & Hlp & Hz); [lia|lia|done| |].
  { intros HA. destruct (Ha HA) as [Hh Hs]. split; [|done]. destruct ds as [|d0 ds]; [done|].
    simpl in Hh. simplify_eq. simpl rev. rewrite <- app_assoc. simpl length.
    apply aget_lookup; [lia|]. replace (Z.to_nat _) with (length (rev ds)) by (rewrite length_rev; lia).
    by rewrite lookup_app_r, Nat.sub_diag by done. }
  rewrite <- Hp. rewrite Hpre in *.
  assert (Hpl : (length pre <= 2)%nat) by (rewrite <- Hpre; unfold layout_prefix, int_prefix; repeat destr_if; simpl; lia).
  eapply (int_layout_ok fuel buf rest ds f f' w prec _ pre); try done; lia.
Qed.

Lemma int_prefix_sign f d left pr x :
  viewed f d left pr ->
  let g := Z.ldiff f (Z.lor FL_NEGATIVE FL_ALT) in
  int_prefix (if x <? 0 then Z.lor g FL_NEGATIVE else g) = sign_prefix d x.
Proof.
  intros V g. unfold int_prefix, sign_prefix, g.
  destruct (x <? 0); hasrw; rewrite ?(v_plus _ _ _ _ V), ?(v_space _ _ _ _ V); [done|].
  destruct (plus d), (space d); done.
Qed.

(** The flags with the sign of [x]. *)
Definition sign_flags (f x : Z) : Z :=
  let g := Z.ldiff f (Z.lor FL_NEGATIVE FL_ALT) in if x <? 0 then Z.lor g FL_NEGATIVE else g.

Lemma sign_flags_has f x k :
  Z.ldiff k (Z.lor FL_NEGATIVE FL_ALT) = k -> has FL_NEGATIVE k = false -> has (sign_flags f x) k = has f k.
Proof.
  intros Hk Hn. unfold sign_flags. destr_if; rewrite ?has_lor, has_ldiff_keep by done; [|done].
  by rewrite Hn, orb_false_r.
Qed.

Lemma sign_flags_alt f x : has (sign_flags f x) FL_ALT = false.
Proof. unfold sign_flags. destr_if; by hasrw. Qed.

Lemma convert_signed_eq fuel m d f left pr w prec v ap :
  viewed f d left pr -> cv d ∈ [Cd; Ci] ->
  let x := signed_value (sz d) v in
  convert fuel m (conv_char (cv d)) (MkSpec f w prec (VInt v :: ap)) =
    (let! (buf, n) := int_digits fuel (Z.abs x) (sign_flags f x) prec 10 in
     let! r := int_layout fuel (u8 n) buf (sign_flags f x) w prec in Ok (r, ap)).
Proof.
  intros V Hc x. pose proof (signed_value_range (sz d) v) as Hx. fold x in Hx.
  assert (Hs : convert fuel m (conv_char (cv d)) (MkSpec f w prec (VInt v :: ap)) =
    (let! (f, buf, n, ap) := signed_conv fuel (MkSpec f w prec (VInt v :: ap)) in
     let! r := int_layout fuel n buf f w prec in Ok (r, ap))) by (set_unfold; destruct_or!; by rewrite Hc).
  rewrite Hs. unfold signed_conv. simpl flags. simpl Printf.ap. rewrite (signed_arg_ok f d left pr) by done. simpl.
  fold x. unfold sign_flags. destruct (Z.ltb_spec x 0).
  - replace (int_digits fuel (s64 (- x))) with (int_digits fuel (Z.abs x));
      [by rewrite !obind_assoc; apply obind_ext; intros []|].
    unfold int_digits. destruct (decide (x = - 2 ^ 63)) as [->|]; [done|].
    rewrite s64_id, Z.abs_neq by lia. done.
  - rewrite Z.abs_eq by lia. by rewrite !obind_assoc; apply obind_ext; intros [].
Qed.

Lemma convert_signed fuel m d f left pr w prec p v ap :
  viewed f d left pr -> cv d ∈ [Cd; Ci] -> (512 <= fuel)%nat ->
  (if pr then Some prec else None) = p -> (pr = false -> prec = 0) -> 0 <= w <= 255 -> 0 <= prec <= 253 ->
  convert fuel m (conv_char (cv d)) (MkSpec f w prec (VInt v :: ap)) = Ok (int_text d left w p v, ap).
Proof.
  intros V Hc Hf Hp Hp0 Hw Hpr. pose proof (signed_value_range (sz d) v) as Hx.
  rewrite (convert_signed_eq fuel m d f left pr) by done. set (x := signed_value (sz d) v) in *.
  destruct (int_digits_ok fuel (Z.abs x) (sign_flags f x) prec 10 p) as (rest & -> & Hlen & _);
    [by apply (bool_decide_unpack _)|lia|unfold buf_size; lia|by rewrite sign_flags_has, (v_prec _ _ _ _ V)|]. simpl.
  rewrite (int_field_ok fuel _ rest _ (sign_flags f x) w prec p (sign_prefix d x) 0); try done.
  - simpl. rewrite !sign_flags_has, (v_left _ _ _ _ V), (v_zero _ _ _ _ V) by done. unfold int_text, int_value.
    set_unfold. by destruct_or!; rewrite Hc.
  - by rewrite sign_flags_has, (v_prec _ _ _ _ V).
  - by rewrite sign_flags_has, (v_prec _ _ _ _ V).
  - by rewrite sign_flags_alt.
  - unfold layout_prefix. rewrite sign_flags_alt. by apply (int_prefix_sign f d left pr).
Qed.

(** [len] counts up to 255 and starts again: a wider field is never filled. *)
Lemma len_pad_wraps fuel len width : 256 <= width -> 0 <= len < 256 -> len_pad fuel len width = Diverge.
Proof.
  intros Hw. revert len. induction fuel as [|fuel IH]; intros len Hl; simpl; [done|].
  rewrite (proj2 (Z.ltb_lt len width)) by lia. rewrite IH; [done|]. apply Z.mod_pos_bound. lia.
Qed.

Lemma convert_wide fuel m d f pr w v ap :
  viewed f d false pr -> cv d ∈ [Cd; Ci] -> 256 <= w -> pr = false -> (buf_size <= fuel)%nat ->
  convert fuel m (conv_char (cv d)) (MkSpec f w 0 (VInt v :: ap)) = Diverge.
Proof.
  intros V Hc Hw Hpr Hf. pose proof (signed_value_range (sz d) v) as Hx.
  rewrite (convert_signed_eq fuel m d f false pr) by done. set (x := signed_value (sz d) v) in *.
  destruct (int_digits_ok fuel (Z.abs x) (sign_flags f x) 0 10 None) as (rest & -> & Hlen & _);
    [by apply (bool_decide_unpack _)|lia|done|by rewrite sign_flags_has, (v_prec _ _ _ _ V), Hpr|]. simpl.
  set (ds := digits_of _ _ _ _) in *. unfold buf_size in Hlen.
  replace (u8 (Z.of_nat (length ds))) with (Z.of_nat (length ds)) by (symmetry; apply Z.mod_small; lia).
  unfold int_layout.
  destruct (int_len_ok (Z.of_nat (length ds)) (rev ds ++ rest) (sign_flags f x) 0 0) as (f' & -> & Hip & Hlp & Hz);
    [lia|lia|done|by rewrite sign_flags_alt|]. simpl.
  rewrite Hlp, sign_flags_has, (v_left _ _ _ _ V) by done. simpl.
  assert (Hpl : (length (layout_prefix (sign_flags f x) 0 (Z.of_nat (length ds)) 0) <= 2)%nat)
    by (unfold layout_prefix, int_prefix; repeat destr_if; simpl; lia).
  set (len := Z.max _ 0 + _) in *. assert (Hl : 0 <= len < 256) by lia.
  destruct (if has f' FL_ZFILL then _ else _) as [p1 l1] eqn:El.
  rewrite len_pad_wraps; [done|done|].
  destruct (has f' FL_ZFILL); [destruct (len <? w)|]; simplify_eq; try lia. apply Z.mod_pos_bound. lia.
Qed.

(** The flags and the base of the unsigned conversions. *)
Definition alt_on (d : directive) : bool := match cv d with Cu => false | Cp => true | _ => alt d end.
Definition conv_flags (d : directive) (f : Z) : Z := match cv d with Cp => pointer_flags f | _ => f end.

Lemma unsigned_base_ok f d left pr :
  viewed f d left pr -> cv d ∈ [Cu; Co; Cx; CX; Cp] ->
  exists g base,
    unsigned_base (conv_char (cv d)) (Z.ldiff (conv_flags d f) (Z.lor FL_PLUS FL_SPACE)) = Some (g, base) /\
    known_base base /\ has base XTOA_UPPER = conv_upper (cv d) /\ real_base base = conv_base (cv d) /\
    has g FL_LPAD = left /\ has g FL_ZFILL = zero d /\ has g FL_PREC = pr /\
    has g FL_PLUS = false /\ has g FL_SPACE = false /\ has g FL_ALT = alt_on d /\
    (alt_on d = true -> has g FL_ALTHEX = bool_decide (cv d <> Co)) /\
    (alt_on d = true -> has g FL_ALTUPP = conv_upper (cv d)).
Proof.
  intros V Hc. destruct V. unfold conv_flags, alt_on, pointer_flags.
  set_unfold. destruct_or!; rewrite Hc in *; unfold unsigned_base; simpl; hasrw;
    try (destruct (has f FL_ALT) eqn:EA);
    (eexists _, _; split; [reflexivity|];
     split; [by apply (bool_decide_unpack _)|]; split; [done|]; split; [done|]; hasrw;
     split_and!; try done; intros; try congruence).
Qed.

Lemma unsigned_value_ok f d left pr v ap :
  viewed f d left pr -> cv d ∈ [Cu; Co; Cx; CX; Cp] ->
  unsigned_arg (conv_flags d f) (VInt v :: ap) = Ok (int_value d v, ap) /\ 0 <= int_value d v < 2 ^ 64.
Proof.
  intros V Hc. pose proof (unsigned_value_range (sz d) v). pose proof (u64_bound v).
  unfold conv_flags, int_value. set_unfold.
  destruct_or!; rewrite Hc; split; try done; try (by eapply unsigned_arg_ok).
  unfold unsigned_arg, pointer_flags. simpl. by hasrw.
Qed.

Lemma alt_prefix_ok g d prec p x n c :
  has g FL_PLUS = false -> has g FL_SPACE = false -> has g FL_ALT = alt_on d ->
  (alt_on d = true -> has g FL_ALTHEX = bool_decide (cv d <> Co)) ->
  (alt_on d = true -> has g FL_ALTUPP = conv_upper (cv d)) ->
  cv d ∈ [Cu; Co; Cx; CX; Cp] -> default 0 p = prec ->
  (alt_on d = true -> c = 48 <-> x = 0) ->
  layout_prefix (Z.ldiff g FL_NEGATIVE) prec n c = alt_prefix d p x n.
Proof.
  intros Hpl Hsp Ha Hh Hu Hc Hp Hd. unfold layout_prefix, alt_prefix, alt_on in *. subst prec. hasrw. rewrite Ha.
  assert (Hnone : has g FL_ALT = false -> int_prefix (Z.ldiff g FL_NEGATIVE) = []).
  { intros E. apply int_prefix_none; hasrw; [done|]. by rewrite Hpl, Hsp. }
  set_unfold. destruct_or!; rewrite Hc in *; simpl in *;
    try (destruct (alt d)); rewrite ?Hnone by done; try (by destr_if);
    rewrite Hh by done; simpl; rewrite ?Hu by done; destruct (Z.eqb_spec c 48), (Z.eqb_spec x 0); simpl; try tauto; by destr_if.
Qed.

Lemma convert_unsigned fuel m d f left pr w prec p v ap :
  viewed f d left pr -> cv d ∈ [Cu; Co; Cx; CX; Cp] -> (512 <= fuel)%nat ->
  (if pr then Some prec else None) = p -> (pr = false -> prec = 0) -> 0 <= w <= 255 -> 0 <= prec <= 253 ->
  (alt_on d = true -> p = Some 0 -> int_value d v <> 0) ->
  convert fuel m (conv_char (cv d)) (MkSpec (conv_flags d f) w prec (VInt v :: ap)) =
    Ok (int_text d left w p v, ap).
Proof.
  intros V Hc Hf Hp Hp0 Hw Hpr Hz.
  destruct (unsigned_value_ok f d left pr v ap V Hc) as [Harg Hx].
  destruct (unsigned_base_ok f d left pr V Hc)
    as (g & base & Hbase & Hk & Hup & Hrb & Hlp & Hzf & Hprec & Hpl & Hsp & Ha & Hh & Hu).
  assert (Hconv : convert fuel m (conv_char (cv d)) (MkSpec (conv_flags d f) w prec (VInt v :: ap)) =
    (let! (buf, n) := int_digits fuel (int_value d v) g prec base in
     let! r := int_layout fuel (u8 n) buf (Z.ldiff g FL_NEGATIVE) w prec in Ok (r, ap))).
  { transitivity (let! (x, ap) := unsigned_arg (conv_flags d f) (VInt v :: ap) in
      match unsigned_base (conv_char (cv d)) (Z.ldiff (conv_flags d f) (Z.lor FL_PLUS FL_SPACE)) with
      | None => Ok ([37; conv_char (cv d)], ap)
      | Some (f, base) =>
          let! (buf, n) := int_digits fuel x f prec base in
          let! r := int_layout fuel (u8 n) buf (Z.ldiff f FL_NEGATIVE) w prec in Ok (r, ap)
      end).
    - clear - Hc. set_unfold. by destruct_or!; rewrite Hc.
    - by rewrite Harg, Hbase. }
  rewrite Hconv. clear Hconv Harg Hbase. set (x := int_value d v) in *.
  destruct (int_digits_ok fuel x g prec base p) as (rest & -> & Hlen & Hhd);
    [done|done|unfold buf_size; lia|by rewrite Hprec|]. simpl.
  rewrite Hup, Hrb in *. set (ds := digits_of (conv_upper (cv d)) (conv_base (cv d)) p x) in *.
  assert (Hdig : alt_on d = true -> ds <> []).
  { intros HA HE. unfold ds, digits_of in HE. destr_if.
    - breflect. apply bool_decide_eq_true in H. by apply Hz.
    - apply (f_equal (@List.length Z)) in HE. unfold numeral in HE. rewrite length_rev, length_map in HE.
      pose proof (digits_nonempty (conv_base (cv d)) buf_size x ltac:(unfold buf_size; lia)).
      change (length []) with 0%nat in HE. lia. }
  rewrite (int_field_ok fuel _ rest ds _ w prec p (alt_prefix d p x (Z.of_nat (length ds))) (default 0 (head ds)));
    try done; hasrw.
  - simpl. rewrite Hlp, Hzf. unfold int_text. fold x. rewrite Z.abs_eq by lia. fold ds.
    clear - Hc. set_unfold. by destruct_or!; rewrite Hc.
  - by rewrite Hprec.
  - by rewrite Hprec.
  - rewrite Ha. intros HA. destruct (Hhd (Hdig HA)) as (c & -> & _). split; [done|]. by rewrite Hpl, Hsp.
  - eapply alt_prefix_ok; try done; [destruct pr; subst; [done|by rewrite Hp0]|].
    intros HA. by destruct (Hhd (Hdig HA)) as (c & -> & ?).
Qed.

(** ** Characters and strings *)

Lemma cstr_cons m a c str : cstr m a (c :: str) <-> 0 < c < 256 /\ m !! a = Some c /\ cstr m (a + 1) str.
Proof. unfold cstr. simpl. rewrite holds_cons, Forall_cons. tauto. Qed.

Lemma strnlen_ok m s str : forall a limit fuel,
  cstr m a str -> 0 <= limit -> (length str < fuel)%nat ->
  strnlen_loop fuel m s a limit = Ok (a - s + Z.min limit (Z.of_nat (length str))).
Proof.
  induction str as [|c str IH]; intros a limit [|fuel] Hc Hl Hf; try (simpl in Hf; lia); simpl.
  - destruct Hc as [_ Hh]. apply holds_cons in Hh as [Ha _].
    destruct (Z.eqb_spec limit 0); [f_equal; lia|]. rewrite (load8_ok _ _ _ Ha). simpl. f_equal. lia.
  - apply cstr_cons in Hc as (Hb & Ha & Hc). destruct (Z.eqb_spec limit 0); [f_equal; lia|].
    rewrite (load8_ok _ _ _ Ha). simpl. rewrite (proj2 (Z.eqb_neq c 0)) by lia.
    rewrite IH; [f_equal; lia|done|lia|simpl in Hf; lia].
Qed.

Lemma load_bytes_ok m str : forall a n, cstr m a str -> (n <= length str)%nat -> load_bytes n m a = Ok (take n str).
Proof.
  induction str as [|c str IH]; intros a [|n] Hc Hn; simpl in *; try done; [lia|].
  apply cstr_cons in Hc as (_ & Ha & Hc). rewrite (load8_ok _ _ _ Ha). simpl. by rewrite IH by (done || lia).
Qed.

Lemma string_text_ok fuel m v f prec p str :
  (if has f FL_PREC then Some prec else None) = p -> 0 <= prec < 2 ^ 31 ->
  (v = 0 /\ str = chars "(null)" \/ v <> 0 /\ cstr m v str /\ Z.of_nat (length str) < 2 ^ 64) ->
  (length str < fuel)%nat -> string_text fuel m v f prec = Ok (truncated p str).
Proof.
  intros <- Hp Hs Hf. unfold string_text.
  assert (Hlim : forall n, 0 <= n < 2 ^ 64 ->
    take (Z.to_nat (Z.min (if has f FL_PREC then u64 prec else u64 (-1)) n)) str =
    take (Z.to_nat n) (truncated (if has f FL_PREC then Some prec else None) str)).
  { intros n Hn. destruct (has f FL_PREC); simpl.
    - rewrite u64_id by lia. rewrite take_take. f_equal. lia.
    - change (u64 (-1)) with (2 ^ 64 - 1). f_equal. lia. }
  destruct Hs as [[-> ->]|(Hv & Hc & Hl)].
  - simpl. change g_nullstring with (chars "(null)"). rewrite Hlim by lia. f_equal.
    rewrite take_ge; [done|]. destruct (has f FL_PREC); simpl; [rewrite length_take|]; simpl; lia.
  - rewrite (proj2 (Z.eqb_neq v 0)) by done. unfold k_strnlen.
    rewrite (strnlen_ok m v str) by (try done; destr_if; apply u64_bound). simpl.
    rewrite Z.sub_diag, (load_bytes_ok m str) by (try done; lia). rewrite Z.add_0_l, Hlim by lia. f_equal.
    apply take_ge. destruct (has f FL_PREC); simpl; [rewrite length_take|]; lia.
Qed.

(** Every directive, once parsed. *)
Lemma convert_ok m d f left pr w prec p v ap body :
  viewed f d left pr -> (if pr then Some prec else None) = p -> (pr = false -> prec = 0) ->
  0 <= w < 2 ^ 31 -> 0 <= prec < 2 ^ 31 -> dir_text m d left w p v body ->
  exists n, forall fuel, (n <= fuel)%nat ->
    convert fuel m (conv_char (cv d)) (MkSpec (conv_flags d f) w prec (VInt v :: ap)) = Ok (body, ap).
Proof.
  intros V Hp Hp0 Hw Hpr Ht. destruct Ht as [Hc1 Hc2 Hw2 Hp2 Hz|Hc|str Hc Hv Hs Hl|Hc Hv].
  - exists 512%nat. intros fuel Hf.
    assert (prec <= 253) by (subst p; destruct pr; [done|rewrite Hp0 by done; lia]).
    destruct (decide (cv d ∈ [Cd; Ci])) as [Hd|Hd].
    + replace (conv_flags d f) with f by (unfold conv_flags; clear - Hd; set_unfold; by destruct_or!; rewrite Hd).
      apply (convert_signed fuel m d f left pr); try done; lia.
    + apply (convert_unsigned fuel m d f left pr); try done; try lia.
      * clear - Hc1 Hc2 Hd. set_unfold. destruct (cv d); tauto.
      * intros HA HP HV. unfold alt_on in HA.
        assert (Hin : cv d ∈ [Cd; Ci; Cu]) by (apply Hz; [clear - HA; destruct (cv d); naive_solver|done..]).
        revert HA Hin Hd. clear. destruct (cv d); intros HA Hin Hd; try done;
          first [by apply Hd, (bool_decide_unpack _)|by apply (bool_decide_pack _) in Hin].
  - exists (S (Z.to_nat w)). intros fuel Hf. unfold conv_flags. rewrite Hc. simpl. unfold convert. simpl.
    rewrite str_lpad_ok by (done || lia). simpl. by rewrite (v_left _ _ _ _ V).
  - exists (S (Z.to_nat w) + S (length str))%nat. intros fuel Hf. unfold conv_flags. rewrite Hc. unfold convert. simpl.
    rewrite (string_text_ok fuel m _ f prec p str) by (try lia; auto; by rewrite (v_prec _ _ _ _ V)). simpl.
    rewrite str_lpad_ok by (done || lia). simpl. by rewrite (v_left _ _ _ _ V).
  - exists (S (Z.to_nat w) + 7)%nat. intros fuel Hf. unfold conv_flags. rewrite Hc. unfold convert. simpl.
    rewrite (string_text_ok fuel m _ f prec p (chars "(null)")) by (simpl; try lia; auto; by rewrite (v_prec _ _ _ _ V)).
    simpl. rewrite str_lpad_ok by (done || lia). simpl. by rewrite (v_left _ _ _ _ V).
Qed.

(** ** Parsing *)

(** The directive continues through the characters [cs]. *)
Fixpoint continues (cs : list Z) (s : fspec) : option fspec :=
  match cs with
  | [] => Some s
  | c :: cs => match parse_char c s with Ok (Continue s) => continues cs s | _ => None end
  end.

Lemma continues_app xs ys s : continues (xs ++ ys) s = continues xs s ≫= continues ys.
Proof.
  revert s. induction xs as [|c xs IH]; intros s; simpl; [done|].
  destruct (parse_char c s) as [[]| | |]; simpl; auto.
Qed.

(** The loop entered at the address of its next character. *)
Definition parse_at (fuel : nat) (m : memory) (a : Z) (s : fspec) : outcome (option (Z * Z * fspec)) :=
  let! c := load8 m a in
  if c =? 0 then Ok (Some (c, a + 1, s)) else parse_spec fuel m (a + 1) c s.

Lemma parse_continues m cs : forall fuel a s s',
  holds m a cs -> Forall (fun c => 0 < c) cs -> continues cs s = Some s' ->
  parse_at (length cs + fuel) m a s = parse_at fuel m (a + Z.of_nat (length cs)) s'.
Proof.
  induction cs as [|c cs IH]; intros fuel a s s' Hh Hpos Hc; simpl in Hc; simplify_eq/=.
  - by rewrite Z.add_0_r.
  - apply holds_cons in Hh as [Ha Hh]. apply Forall_cons in Hpos as [Hp Hpos].
    unfold parse_at at 1. rewrite (load8_ok _ _ _ Ha). simpl.
    rewrite (proj2 (Z.eqb_neq c 0)) by lia.
    destruct (parse_char c s) as [[s1| |]| | |]; try done. simpl.
    change (parse_at (length cs + fuel) m (a + 1) s1 = parse_at fuel m (a + Z.of_nat (S (length cs))) s').
    rewrite (IH fuel _ _ s') by done. f_equal. lia.
Qed.

(** The flags of a directive that has been parsed so far. *)
Definition on (b : bool) (m : Z) : Z := if b then m else 0.

Definition mkf (l z p s a wd pr : bool) (sz : size) : Z :=
  Z.lor (on z FL_ZFILL) (Z.lor (on p FL_PLUS) (Z.lor (on (p || s) FL_SPACE) (Z.lor (on l FL_LPAD)
    (Z.lor (on a FL_ALT) (Z.lor (on wd FL_WIDTH) (Z.lor (on pr FL_PREC) (Z.lor (on (size_long sz) FL_LONG)
      (Z.lor (on (size_short sz) FL_SHORT) (on (size_repd sz) FL_REPD_TYPE))))))))).

Section Flags.
Context (l z p s a : bool).

Lemma mkf_phase wd pr : (mkf l z p s a wd pr Snone <? FL_ASTERISK) = negb (wd || pr).
Proof. destruct l, z, p, s, a, wd, pr; reflexivity. Qed.
Lemma mkf_number wd pr : (mkf l z p s a wd pr Snone <? FL_LONG) = true.
Proof. destruct l, z, p, s, a, wd, pr; reflexivity. Qed.
Lemma mkf_width wd pr : Z.lor (mkf l z p s a wd pr Snone) FL_WIDTH = mkf l z p s a true pr Snone.
Proof. destruct l, z, p, s, a, wd, pr; reflexivity. Qed.
Lemma mkf_prec wd pr : Z.lor (mkf l z p s a wd pr Snone) FL_PREC = mkf l z p s a wd true Snone.
Proof. destruct l, z, p, s, a, wd, pr; reflexivity. Qed.
Lemma mkf_lpad wd pr : Z.lor (mkf l z p s a wd pr Snone) FL_LPAD = mkf true z p s a wd pr Snone.
Proof. destruct l, z, p, s, a, wd, pr; reflexivity. Qed.
Lemma mkf_has_prec wd pr sz : has (mkf l z p s a wd pr sz) FL_PREC = pr.
Proof. destruct l, z, p, s, a, wd, pr, sz; reflexivity. Qed.

Lemma continues_size wd pr sz w q ap :
  continues (size_chars sz) (MkSpec (mkf l z p s a wd pr Snone) w q ap) = Some (MkSpec (mkf l z p s a wd pr sz) w q ap).
Proof. destruct l, z, p, s, a, wd, pr, sz; reflexivity. Qed.

(** One digit of a width. *)
Lemma width_digit c wd w ap :
  48 <= c <= 57 -> (wd = false -> c <> 48) ->
  parse_char c (MkSpec (mkf l z p s a wd false Snone) w 0 ap) =
    Ok (Continue (MkSpec (mkf l z p s a true false Snone) (s32 (10 * w + (c - 48))) 0 ap)).
Proof.
  intros Hc Hz. unfold parse_char. simpl flags. rewrite mkf_phase, mkf_number.
  replace (if negb (wd || false) then parse_flag c (mkf l z p s a wd false Snone) else None) with (@None Z).
  - unfold parse_number. rewrite (proj2 (Z.leb_le 48 c)), (proj2 (Z.leb_le c 57)) by lia. simpl.
    by rewrite mkf_has_prec, mkf_width.
  - destruct wd; [done|]. simpl. unfold parse_flag.
    repeat rewrite (proj2 (Z.eqb_neq _ _)) by (specialize (Hz eq_refl); lia). done.
Qed.

Lemma prec_digit c wd w q ap :
  48 <= c <= 57 ->
  parse_char c (MkSpec (mkf l z p s a wd true Snone) w q ap) =
    Ok (Continue (MkSpec (mkf l z p s a wd true Snone) w (s32 (10 * q + (c - 48))) ap)).
Proof.
  intros Hc. unfold parse_char. simpl flags. rewrite mkf_phase, mkf_number, orb_true_r. simpl negb. cbv iota.
  unfold parse_number. rewrite (proj2 (Z.leb_le 48 c)), (proj2 (Z.leb_le c 57)) by lia. simpl.
  by rewrite mkf_has_prec.
Qed.
End Flags.

(** *** Numbers in a format *)

Lemma read_digits_cons acc c cs n :
  read_digits 10 acc (c :: cs) = Some n ->
  exists d, char_digit c = Some d /\ d < 10 /\ read_digits 10 (10 * acc + d) cs = Some n.
Proof. simpl. destruct (char_digit c) as [d|]; [|done]. destr_if; [|done]. intros H. breflect. eauto. Qed.

Lemma char_digit_dec c d : char_digit c = Some d -> d < 10 -> 48 <= c <= 57 /\ d = c - 48.
Proof. unfold char_digit. repeat destr_if; intros; simplify_eq; breflect; lia. Qed.

Lemma read_digits_ge cs : forall acc n, 0 <= acc -> read_digits 10 acc cs = Some n -> acc <= n.
Proof.
  induction cs as [|c cs IH]; intros acc n Ha H; [simpl in H; simplify_eq; lia|].
  apply read_digits_cons in H as (d & Hd & Hlt & H).
  apply char_digit_dec in Hd as [Hc ->]; [|done]. apply IH in H; lia.
Qed.

Lemma continues_width l z p s a ap n cs : forall wd w,
  read_digits 10 w cs = Some n -> 0 <= w -> n < 2 ^ 31 -> (wd = false -> head cs <> Some 48) ->
  continues cs (MkSpec (mkf l z p s a wd false Snone) w 0 ap) =
    Some (MkSpec (mkf l z p s a (wd || bool_decide (cs <> [])) false Snone) n 0 ap).
Proof.
  induction cs as [|c cs IH]; intros wd w H Hw Hn Hh.
  - simpl in *. simplify_eq. by rewrite orb_false_r.
  - apply read_digits_cons in H as (d & Hd & Hlt & H). apply char_digit_dec in Hd as [Hc ->]; [|done].
    simpl. rewrite width_digit; [|done|intros ->; specialize (Hh eq_refl); simpl in Hh; congruence].
    pose proof H as Hge. apply read_digits_ge in Hge; [|lia]. rewrite s32_id by lia.
    rewrite IH by (done || lia). by rewrite orb_true_r.
Qed.

Lemma continues_prec l z p s a wd w ap n cs : forall q,
  read_digits 10 q cs = Some n -> 0 <= q -> n < 2 ^ 31 ->
  continues cs (MkSpec (mkf l z p s a wd true Snone) w q ap) = Some (MkSpec (mkf l z p s a wd true Snone) w n ap).
Proof.
  induction cs as [|c cs IH]; intros q H Hq Hn.
  - simpl in *. by simplify_eq.
  - apply read_digits_cons in H as (d & Hd & Hlt & H). apply char_digit_dec in Hd as [Hc ->]; [|done].
    simpl. rewrite prec_digit by done.
    pose proof H as Hge. apply read_digits_ge in Hge; [|lia]. rewrite s32_id by lia. by apply IH; [|lia|].
Qed.

(** The characters of a directive are neither [%] nor the terminator. *)
Definition plain (c : Z) : Prop := 0 < c /\ c <> 37.

Lemma numeral_reads n : 0 <= n < 2 ^ 31 ->
  read_digits 10 0 (numeral false 10 n) = Some n /\ numeral false 10 n <> [] /\
  (n <> 0 -> head (numeral false 10 n) <> Some 48) /\ Forall plain (numeral false 10 n).
Proof.
  intros Hn. assert (Hb : 2 <= 10 <= 16) by lia.
  assert (H22 : n < 10 ^ Z.of_nat buf_size) by (change (10 ^ Z.of_nat buf_size) with 10000000000000000000000; lia).
  pose proof (read_numeral_digits 10 Hb false buf_size n ltac:(lia) ltac:(unfold buf_size; lia)) as Hr.
  pose proof (digits_bound 10 Hb buf_size n ltac:(lia)) as Hbd.
  pose proof (digits_last 10 Hb buf_size n ltac:(lia) ltac:(unfold buf_size; lia)) as Hl.
  unfold numeral. unfold read_numeral in Hr.
  destruct (digits_lsb buf_size 10 n) as [|d ds _] using rev_ind; [done|].
  rewrite map_app, rev_app_distr in *. simpl in *. rewrite last_snoc in Hl.
  apply Forall_app in Hbd as [Hds Hd]. apply Forall_cons in Hd as [Hd _].
  split_and!; [done|done| |].
  - intros Hz [= Hh]. apply Hz, Hl. f_equal. unfold digit_char in Hh. destr_if; breflect; lia.
  - assert (Hpos : forall x, 0 <= x < 10 -> plain (digit_char false x)) by (intros; unfold plain, digit_char; destr_if; lia).
    constructor; [auto|]. apply Forall_rev, Forall_fmap. eapply Forall_impl; [done|]. intros; simpl; auto.
Qed.

Lemma continues_flags d ap :
  continues (flag_chars d) (MkSpec 0 0 0 ap) =
    Some (MkSpec (mkf (minus d) (zero d) (plus d) (space d) (alt d) false false Snone) 0 0 ap).
Proof. unfold flag_chars. destruct (minus d), (zero d), (plus d), (space d), (alt d); reflexivity. Qed.

Definition given (o : option Z) : bool := match o with Some _ => true | None => false end.

Lemma continues_wid l z p s a n ap ow ap1 :
  takes n ap ow ap1 -> n <> NLit 0 ->
  continues (num_chars n) (MkSpec (mkf l z p s a false false Snone) 0 0 ap) =
    Some (MkSpec (mkf (l || (default 0 ow <? 0)) z p s a (given ow) false Snone) (width_of ow) 0 ap1).
Proof.
  intros Ht Hn. destruct Ht as [ap|n ap Hr|v ap Hv]; unfold width_of; simpl.
  - by rewrite orb_false_r.
  - destruct (numeral_reads n Hr) as (Hrd & Hne & Hh & _).
    rewrite (continues_width l z p s a ap n _ false 0); [|done|lia|lia|intros _; apply Hh; congruence].
    simpl. rewrite (bool_decide_eq_true_2 _ Hne), (proj2 (Z.ltb_ge n 0)), orb_false_r, Z.abs_eq by lia. done.
  - unfold parse_char. simpl flags. rewrite mkf_phase, mkf_number. simpl. unfold parse_number. simpl.
    rewrite mkf_has_prec. simpl. rewrite mkf_width.
    assert (Hs : s32 v < 2 ^ 31) by (unfold s32; pose proof (Z.mod_pos_bound v (2 ^ 32)); destr_if; breflect; lia).
    destruct (Z.ltb_spec (s32 v) 0); simpl.
    + by rewrite mkf_lpad, orb_true_r, s32_id, Z.abs_neq by lia.
    + by rewrite orb_false_r, Z.abs_eq by lia.
Qed.

Lemma continues_pre l z p s a wd w n ap op ap1 :
  takes n ap op ap1 ->
  continues (prec_chars n) (MkSpec (mkf l z p s a wd false Snone) w 0 ap) =
    Some (MkSpec (mkf l z p s a wd (given op) Snone) w (default 0 (Z.max 0 <$> op)) ap1).
Proof.
  assert (Hdot : forall ap, parse_char 46 (MkSpec (mkf l z p s a wd false Snone) w 0 ap) =
    Ok (Continue (MkSpec (mkf l z p s a wd true Snone) w 0 ap))).
  { intros ap'. unfold parse_char. simpl flags. rewrite mkf_phase, mkf_number.
    destruct (negb (wd || false)); simpl; unfold parse_number; simpl; rewrite mkf_has_prec; simpl;
      by unfold set_flags; simpl; rewrite mkf_prec. }
  intros Ht. destruct Ht as [ap|n ap Hr|v ap Hv]; [done| |].
  - unfold prec_chars. rewrite continues_app. simpl. rewrite Hdot. simpl.
    destruct (numeral_reads n Hr) as (Hrd & _). rewrite (continues_prec l z p s a wd w ap n _ 0) by (done || lia).
    rewrite Z.max_r by lia. done.
  - simpl. rewrite Hdot. unfold parse_char. simpl flags. rewrite mkf_phase, mkf_number, orb_true_r. simpl.
    unfold parse_number. simpl. rewrite mkf_has_prec. simpl. do 2 f_equal. destruct (Z.ltb_spec (s32 v) 0); lia.
Qed.

(** The state after a directive has been read. *)
Definition parsed (d : directive) (ow op : option Z) (ap : list varg) : fspec :=
  MkSpec (mkf (left_of d ow) (zero d) (plus d) (space d) (alt d) (given ow) (given op) (sz d))
    (width_of ow) (default 0 (Z.max 0 <$> op)) ap.

Lemma continues_dir d ap ow ap1 op ap2 :
  takes (wid d) ap ow ap1 -> wid d <> NLit 0 -> takes (pre d) ap1 op ap2 ->
  continues (modifier_chars d) (MkSpec 0 0 0 ap) = Some (parsed d ow op ap2).
Proof.
  intros Hw Hn Hp. unfold modifier_chars.
  rewrite continues_app, continues_flags. simpl.
  rewrite continues_app, (continues_wid _ _ _ _ _ _ _ _ _ Hw Hn). simpl.
  rewrite continues_app, (continues_pre _ _ _ _ _ _ _ _ _ _ _ Hp). simpl.
  apply continues_size.
Qed.

Lemma parsed_viewed d ow op ap : viewed (flags (parsed d ow op ap)) d (left_of d ow) (given op).
Proof.
  unfold parsed. simpl flags. unfold mkf.
  destruct (left_of d ow) eqn:?, (zero d) eqn:?, (plus d) eqn:?, (space d) eqn:?, (alt d) eqn:?, (given ow), (given op);
    destruct (sz d) eqn:Es; constructor; rewrite ?Heqb, ?Heqb0, ?Heqb1, ?Heqb2, ?Heqb3, ?Es; reflexivity.
Qed.

Lemma parse_conv c s : parse_char (conv_char c) s = Ok Break.
Proof.
  unfold parse_char. destruct c; destruct (flags s <? FL_ASTERISK); simpl; destruct (flags s <? FL_LONG); reflexivity.
Qed.

(** ** Formats *)

Lemma holds_app m a xs ys : holds m a (xs ++ ys) <-> holds m a xs /\ holds m (a + Z.of_nat (length xs)) ys.
Proof.
  revert a. induction xs as [|x xs IH]; intros a.
  - rewrite Z.add_0_r. split; [intros H; split; [by intros ? ?|done]|by intros [_ H]].
  - simpl. rewrite !holds_cons, IH. replace (a + 1 + Z.of_nat (length xs)) with (a + Z.of_nat (S (length xs))) by lia. tauto.
Qed.

Lemma num_chars_plain n ap o ap1 : takes n ap o ap1 -> Forall plain (num_chars n).
Proof.
  intros Ht. destruct Ht; simpl; [constructor|by apply numeral_reads|by repeat constructor].
Qed.

Lemma modifier_plain d ap ow ap1 op ap2 :
  takes (wid d) ap ow ap1 -> takes (pre d) ap1 op ap2 -> Forall plain (modifier_chars d).
Proof.
  intros Hw Hp. apply num_chars_plain in Hw, Hp. unfold modifier_chars, prec_chars, flag_chars, size_chars.
  repeat apply Forall_app_2; try done; try (by destr_if; repeat constructor).
  - destruct (pre d); [constructor|by constructor..].
  - by destruct (sz d); repeat constructor.
Qed.

Lemma parse_dir m a d rest ap ow ap1 op ap2 fuel :
  holds m a (dir_chars d ++ rest) ->
  takes (wid d) ap ow ap1 -> wid d <> NLit 0 -> takes (pre d) ap1 op ap2 ->
  (length (dir_chars d) < fuel)%nat ->
  parse_at fuel m a (MkSpec 0 0 0 ap) =
    Ok (Some (conv_char (cv d), a + Z.of_nat (length (dir_chars d)), parsed d ow op ap2)).
Proof.
  intros Hh Hw Hn Hp Hf. unfold dir_chars in *. rewrite <- app_assoc in Hh. apply holds_app in Hh as [Hm Hc].
  rewrite length_app in *. simpl in *. apply holds_cons in Hc as [Hc _].
  replace fuel with (length (modifier_chars d) + S (pred (fuel - length (modifier_chars d))))%nat by lia.
  rewrite (parse_continues m (modifier_chars d) _ a _ (parsed d ow op ap2));
    [|done|eapply Forall_impl; [by eapply modifier_plain|by intros ? []]|by eapply continues_dir].
  unfold parse_at. rewrite (load8_ok _ _ _ Hc). simpl.
  rewrite (proj2 (Z.eqb_neq (conv_char (cv d)) 0)) by (destruct (cv d); done).
  rewrite parse_conv. simpl. do 4 f_equal. lia.
Qed.

Lemma dir_head d ap ow ap1 op ap2 :
  takes (wid d) ap ow ap1 -> takes (pre d) ap1 op ap2 -> exists c cs, dir_chars d = c :: cs /\ plain c.
Proof.
  intros Hw Hp. pose proof (modifier_plain _ _ _ _ _ _ Hw Hp) as Hm. unfold dir_chars.
  destruct (modifier_chars d) as [|c cs].
  - eexists _, _. split; [done|]. by destruct (cv d).
  - apply Forall_cons in Hm as [Hc _]. eexists _, _. split; [done|done].
Qed.

Lemma literal_mono m f : forall a r, literal f m a = Ok r -> literal (S f) m a = Ok r.
Proof.
  induction f as [|f IH]; intros a r H; [done|]. remember (S f) as f1. simpl. subst f1. simpl in H.
  destruct (load8 m a) as [c| | |]; try done. simpl in *. destruct (c =? 0); [done|].
  destruct (if c =? 37 then _ else _) as [[[c1 a1] stop]| | |]; try done. simpl in *.
  destruct stop; [done|]. destruct (literal f m a1) as [[[t o] a2]| | |] eqn:E; try done.
  by rewrite (IH _ _ E).
Qed.

(** One more character in front of the next directive. *)
Lemma vprintf_literal m f a a' c t o b ap text :
  literal f m a' = Ok (t, o, b) -> literal f m a = Ok (c :: t, o, b) ->
  k_vprintf (S f) m a' ap = Ok text -> k_vprintf (S f) m a ap = Ok (c :: text).
Proof.
  simpl. intros -> -> H. simpl in *. destruct o as [d|]; [|congruence].
  destruct (parse_spec f m b d _) as [[[[c1 b1] s]|]| | |]; simpl in *; try congruence.
  match goal with |- context [obind ?x _] => destruct x as [[[out b2] ap2]| | |] end; simpl in *; try done.
  destruct (k_vprintf f m b2 ap2); simpl in *; congruence.
Qed.

Lemma vprintf_char m f a a' c ap text :
  (forall k, literal (S k) m a = (let! (t, o, b) := literal k m a' in Ok (c :: t, o, b))) ->
  k_vprintf (S f) m a' ap = Ok text -> k_vprintf (S (S f)) m a' ap = Ok text ->
  k_vprintf (S (S f)) m a ap = Ok (c :: text).
Proof.
  intros Hl H1 H2. simpl in H1.
  destruct (literal f m a') as [[[t o] b]| | |] eqn:E; try done.
  apply (vprintf_literal m (S f) a a' c t o b); [by apply literal_mono|by rewrite Hl, E|done].
Qed.

(** A directive at the head of the format. *)
Lemma vprintf_dir m f a d rest ap ow ap1 op v ap2 :
  holds m a (37 :: dir_chars d ++ rest) ->
  takes (wid d) ap ow ap1 -> wid d <> NLit 0 -> takes (pre d) ap1 op (VInt v :: ap2) ->
  (cv d = Cp -> exists c cs, rest = c :: cs /\ c <> 86) ->
  (length (dir_chars d) < f)%nat ->
  k_vprintf (S f) m a ap =
    (let! (out, ap') := convert f m (conv_char (cv d))
       (MkSpec (conv_flags d (flags (parsed d ow op (VInt v :: ap2)))) (width_of ow)
         (default 0 (Z.max 0 <$> op)) (VInt v :: ap2)) in
     let! rest := k_vprintf f m (a + 1 + Z.of_nat (length (dir_chars d))) ap' in
     Ok (out ++ rest)).
Proof.
  intros Hh Hw Hn Hp Hcp Hf. apply holds_cons in Hh as [Ha Hh].
  pose proof (parse_dir m (a + 1) d rest ap ow ap1 op _ f Hh Hw Hn Hp Hf) as Hparse.
  destruct (dir_head _ _ _ _ _ _ Hw Hp) as (c & cs & Hd & Hc0 & Hc37).
  pose proof Hh as Hh'. rewrite Hd in Hh'. simpl in Hh'. apply holds_cons in Hh' as [Ha1 _].
  apply holds_app in Hh as [_ Hrs].
  unfold parse_at in Hparse. rewrite (load8_ok _ _ _ Ha1) in Hparse. simpl in Hparse.
  rewrite (proj2 (Z.eqb_neq c 0)) in Hparse by lia.
  assert (Hlit : literal f m a = Ok ([], Some c, a + 1 + 1)).
  { destruct f; [lia|]. simpl. rewrite (load8_ok _ _ _ Ha). simpl. rewrite (load8_ok _ _ _ Ha1). simpl.
    by rewrite (proj2 (Z.eqb_neq c 37)) by lia. }
  simpl. rewrite Hlit. simpl. rewrite Hparse. simpl.
  unfold conv_flags. destruct (Z.eqb_spec (conv_char (cv d)) 112) as [E|E].
  - assert (Hcv : cv d = Cp) by (by destruct (cv d)). rewrite Hcv in *.
    destruct (Hcp eq_refl) as (c1 & cs1 & -> & Hne). apply holds_cons in Hrs as [Hr _].
    rewrite (load8_ok _ _ _ Hr). simpl. rewrite (proj2 (Z.eqb_neq c1 86)) by done.
    rewrite obind_assoc. apply obind_ext. intros [out ap']. done.
  - assert (Hcv : cv d <> Cp) by (by destruct (cv d)).
    replace (match cv d with Cp => _ | _ => _ end) with (flags (parsed d ow op (VInt v :: ap2))) by (by destruct (cv d)).
    rewrite obind_assoc. apply obind_ext. intros [out ap']. done.
Qed.

Lemma vprintf_nested m f a rest vf va ap inner text :
  holds m a (chars "%pV" ++ rest) -> (1 < f)%nat ->
  k_vprintf f m vf va = Ok inner -> k_vprintf f m (a + 3) ap = Ok text ->
  k_vprintf (S f) m a (VFormat vf va :: ap) = Ok (inner ++ text).
Proof.
  intros Hh Hf Hi Ht. simpl in Hh. apply holds_cons in Hh as [H0 Hh]. apply holds_cons in Hh as [H1 Hh].
  apply holds_cons in Hh as [H2 _].
  assert (Hlit : literal f m a = Ok ([], Some 112, a + 1 + 1)).
  { destruct f; [lia|]. simpl. rewrite (load8_ok _ _ _ H0). simpl. by rewrite (load8_ok _ _ _ H1). }
  assert (Hp : parse_spec f m (a + 1 + 1) 112 (MkSpec 0 0 0 (VFormat vf va :: ap)) =
    Ok (Some (112, a + 1 + 1, MkSpec 0 0 0 (VFormat vf va :: ap)))) by (destruct f; [lia|done]).
  simpl. rewrite Hlit. simpl. rewrite Hp. simpl. rewrite (load8_ok _ _ _ H2). simpl. rewrite Hi. simpl.
  replace (a + 1 + 1 + 1) with (a + 3) by lia. by rewrite Ht.
Qed.

Lemma dir_widths d ap ow ap1 op ap2 :
  takes (wid d) ap ow ap1 -> takes (pre d) ap1 op ap2 ->
  0 <= width_of ow < 2 ^ 31 /\ 0 <= default 0 (Z.max 0 <$> op) < 2 ^ 31.
Proof.
  assert (Hs : forall v, s32 v < 2 ^ 31)
    by (intros v; unfold s32; pose proof (Z.mod_pos_bound v (2 ^ 32)); destr_if; breflect; lia).
  intros Hw Hp. unfold width_of. split.
  - destruct Hw as [|n|v ap' Hv]; simpl; [lia|lia|specialize (Hs v); lia].
  - destruct Hp as [|n|v ap' Hv]; simpl; [lia|lia|specialize (Hs v); lia].
Qed.

Lemma literal_char m a c k :
  (c =? 37) = false -> 0 < c -> m !! a = Some c ->
  literal (S k) m a = (let! (t, o, b) := literal k m (a + 1) in Ok (c :: t, o, b)).
Proof.
  intros H37 Hc Ha. simpl. rewrite (load8_ok _ _ _ Ha). simpl.
  rewrite (proj2 (Z.eqb_neq c 0)) by lia. by rewrite H37.
Qed.

Lemma literal_percent m a k :
  m !! a = Some 37 -> m !! (a + 1) = Some 37 ->
  literal (S k) m a = (let! (t, o, b) := literal k m (a + 2) in Ok (37 :: t, o, b)).
Proof.
  intros Ha Hb. simpl. rewrite (load8_ok _ _ _ Ha). simpl. rewrite (load8_ok _ _ _ Hb). simpl.
  by replace (a + 1 + 1) with (a + 2) by lia.
Qed.

Lemma vprintf_renders m its ap text :
  renders m its ap text -> forall a, holds m a (fmt_chars its ++ [0]) ->
  exists n, forall fuel, (n <= fuel)%nat -> k_vprintf fuel m a ap = Ok text.
Proof.
  induction 1 as [ap|c its ap text Hc Hr IH|d its ap ow ap1 op v ap2 body text Hw Hn Hp Ht Hcp Hr IH
                 |f its' va inner its ap text Hf Hr' IH' Hr IH]; intros a Hh.
  - exists 2%nat. intros [|[|fuel]] Hfuel; try lia. apply holds_cons in Hh as [Ha _].
    simpl. by rewrite (load8_ok _ _ _ Ha).
  - assert (Hstep : exists a', holds m a' (fmt_chars its ++ [0]) /\
      forall k, literal (S k) m a = (let! (t, o, b) := literal k m a' in Ok (c :: t, o, b))).
    { simpl in Hh. destruct (c =? 37) eqn:E; simpl in Hh; apply holds_cons in Hh as [Ha Hh].
      - apply Z.eqb_eq in E as ->. apply holds_cons in Hh as [Hb Hh]. exists (a + 2).
        split; [by replace (a + 2) with (a + 1 + 1) by lia|]. intros. by apply literal_percent.
      - exists (a + 1). split; [done|]. intros. apply literal_char; [done|lia|done]. }
    destruct Hstep as (a' & Hh' & Hlit). destruct (IH _ Hh') as [n Hk].
    exists (S (S n)). intros [|[|fuel]] Hfuel; try lia. apply (vprintf_char m fuel a a'); [done|apply Hk; lia..].
  - simpl in Hh. rewrite <- app_assoc in Hh.
    pose proof Hh as Hrest. apply holds_cons in Hrest as [_ Hrest]. apply holds_app in Hrest as [_ Hrest].
    destruct (IH _ Hrest) as [n1 Hk]. destruct (dir_widths _ _ _ _ _ _ Hw Hp) as [Hwd Hpr].
    destruct (convert_ok m d (flags (parsed d ow op (VInt v :: ap2))) (left_of d ow) (given op) (width_of ow)
      (default 0 (Z.max 0 <$> op)) (Z.max 0 <$> op) v ap2 body) as [n2 Hconv];
      [apply parsed_viewed|by destruct op|by destruct op|done|done|done|].
    exists (S (n1 + n2 + S (length (dir_chars d)))). intros [|fuel] Hfuel; [lia|].
    rewrite (vprintf_dir m fuel a d (fmt_chars its ++ [0]) ap ow ap1 op v ap2); try done; [| |lia].
    { rewrite Hconv by lia. simpl. by rewrite Hk by lia. }
    intros E. specialize (Hcp E). destruct (fmt_chars its) as [|c cs]; simpl in *; eexists _, _; (split; [done|]); [done|congruence].
  - change (fmt_chars (Nested :: its)) with (chars "%pV" ++ fmt_chars its) in Hh. rewrite <- app_assoc in Hh.
    pose proof Hh as Hrest. apply holds_app in Hrest as [_ Hrest].
    destruct (IH _ Hrest) as [n1 Hk]. destruct (IH' _ Hf) as [n2 Hk'].
    exists (S (n1 + n2 + 2)). intros [|fuel] Hfuel; [lia|].
    eapply vprintf_nested; [done|lia|apply Hk'; lia|apply Hk; lia].
Qed.

Lemma puts_ok m str : forall a fuel, cstr m a str -> (length str < fuel)%nat -> k_puts fuel m a = Ok str.
Proof.
  induction str as [|c str IH]; intros a [|fuel] Hc Hf; simpl in Hf; try lia; simpl.
  - destruct Hc as [_ Hh]. apply holds_cons in Hh as [Ha _]. by rewrite (load8_ok _ _ _ Ha).
  - apply cstr_cons in Hc as (Hb & Ha & Hc). rewrite (load8_ok _ _ _ Ha). simpl.
    rewrite (proj2 (Z.eqb_neq c 0)) by lia. by rewrite IH by (done || lia).
Qed.
