(* ===== verification/Ulltoa.v ===== *)
(** * The second digit routine (os/lib/libc/k_printf.c, [ulltoa_invert])

    [ulltoa_invert] divides by ten with shifts and additions.  The quotient is
    exact below 3029068810365266440 and wrong there, so up to that value the
    routine writes what [__ultoa_invert] writes. *)

From Stdlib Require Import ZArith Lia Bool Ascii String.
From stdpp Require Import base numbers list.
From S2P Require Import Prelude Bitmap Uart Dtoa Printf PrintfSpec.
#[local] Open Scope Z_scope.

(** ** The routine *)

(** Base 8: [s] never moves. *)
Fixpoint oct_loop (fuel : nat) (val : Z) (buf : list Z) (s : Z) : outcome (list Z * Z) :=
  match fuel with
  | O => Diverge
  | S fuel =>
      let! buf := aset buf s (u8 (chr "0"%char + Z.land val 0x7)) in
      let val := Z.shiftr val 3 in
      if negb (val =? 0) then oct_loop fuel val buf s else Ok (buf, s)
  end.

(** Base 16; [XTOA_UPPER] is not 0, so the letters are capitals. *)
Fixpoint hex_loop (fuel : nat) (val : Z) (buf : list Z) (s : Z) : outcome (list Z * Z) :=
  match fuel with
  | O => Diverge
  | S fuel =>
      let digit := u8 (chr "0"%char + Z.land val 0xf) in
      let digit := if chr "0"%char + 9 <? digit then u8 (digit + (chr "A"%char - chr "0"%char - 10)) else digit in
      let! buf := aset buf s digit in
      let val := Z.shiftr val 4 in
      if negb (val =? 0) then hex_loop fuel val buf (s + 1) else Ok (buf, s + 1)
  end.

(** [xval += xval >> k] *)
Definition add_shift (k xval : Z) : Z := u64 (xval + Z.shiftr xval k).

(** The quotient of the decimal loop. *)
Definition tenth (xval : Z) : Z :=
  let xval := Z.land xval (not64 1) in
  let xval := u64 (xval + 2) in
  let xval := add_shift 1 xval in
  let xval := add_shift 4 xval in
  let xval := add_shift 8 xval in
  let xval := add_shift 16 xval in
  let xval := add_shift 32 xval in
  Z.shiftr xval 4.

Fixpoint dec_loop (fuel : nat) (xval : Z) (buf : list Z) (s : Z) : outcome (list Z * Z) :=
  match fuel with
  | O => Diverge
  | S fuel =>
      let saved := u8 xval in
      let xval := tenth xval in
      let! buf := aset buf s (u8 (chr "0"%char + saved - 10 * u8 xval)) in
      if negb (xval =? 0) then dec_loop fuel xval buf (s + 1) else Ok (buf, s + 1)
  end.

(** The buffer and [s - buf] on return. *)
Definition ulltoa_invert (fuel : nat) (val : Z) (buf : list Z) (base : Z) : outcome (list Z * Z) :=
  if base =? 8 then oct_loop fuel val buf 0
  else if base =? 16 then hex_loop fuel val buf 0
  else dec_loop fuel val buf 0.

(** ** Division by ten *)

(** The first value whose tenth is wrong. *)
Definition tenth_limit : Z := 3029068810365266440.

(** One stage without the wrap-around. *)
Definition stage (k x : Z) : Z := x + x / 2 ^ k.

Lemma stage_mono k x y : 0 <= k -> x <= y -> stage k x <= stage k y.
Proof. intros Hk H. unfold stage. pose proof (Z.div_le_mono x y (2 ^ k) ltac:(apply pow2_pos; lia) H). lia. Qed.

Lemma stage_carry k a c : 0 <= k -> stage k (2 ^ k * a + c) = (2 ^ k + 1) * a + stage k c.
Proof.
  intros Hk. unfold stage. pose proof (pow2_pos k Hk). rewrite Z.mul_comm, Z.div_add_l by lia. ring.
Qed.

Definition tenth5 (a : Z) : Z := stage 32 (stage 16 (stage 8 (stage 4 (stage 1 a)))).

Lemma tenth5_mono x y : x <= y -> tenth5 x <= tenth5 y.
Proof. intros H. unfold tenth5. repeat (apply stage_mono; [lia|]). done. Qed.

Lemma tenth5_upper q : 0 <= q -> tenth5 (10 * q + 10) < 16 * q + 16.
Proof.
  intros Hq. unfold tenth5, stage. change (2 ^ 1) with 2. change (2 ^ 4) with 16. change (2 ^ 8) with 256.
  change (2 ^ 16) with 65536. change (2 ^ 32) with 4294967296. Z.to_euclidean_division_equations. lia.
Qed.

(** The low twelve bits, through the first three stages. *)
Definition low (w : Z) : Z := stage 8 (stage 4 (15 * w + 3)).

Lemma low_bound w : 0 <= w < 4096 -> 16 * w + 1 <= low w <= 16 * w + 3 /\ (low w = 16 * w + 1 -> 1076 <= w).
Proof.
  intros Hw.
  assert (H : forallb (fun n => let w := Z.of_nat n in (16 * w + 1 <=? low w) && (low w <=? 16 * w + 3) &&
    (negb (low w =? 16 * w + 1) || (1076 <=? w))) (seq 0 4096) = true) by (vm_compute; reflexivity).
  rewrite forallb_forall in H. specialize (H (Z.to_nat w)). rewrite Z2Nat.id in H by lia.
  specialize (H ltac:(apply in_seq; lia)). rewrite !andb_true_iff, orb_true_iff, negb_true_iff in H.
  destruct H as [[H1 H2] H3]. apply Z.leb_le in H1, H2. split; [lia|]. intros E.
  destruct H3 as [H3|H3]; [apply Z.eqb_neq in H3; lia|by apply Z.leb_le in H3].
Qed.

Lemma tenth5_split w s : tenth5 (10 * (w + 4096 * s) + 2) = stage 32 (stage 16 (65535 * s + low w)).
Proof.
  unfold tenth5, low. do 2 f_equal.
  replace (10 * (w + 4096 * s) + 2) with (2 ^ 1 * (5 * (w + 4096 * s) + 1) + 0) by lia. rewrite stage_carry by lia.
  change (stage 1 0) with 0. replace ((2 ^ 1 + 1) * (5 * (w + 4096 * s) + 1) + 0) with (2 ^ 4 * (3840 * s) + (15 * w + 3)) by lia.
  rewrite stage_carry by lia.
  replace ((2 ^ 4 + 1) * (3840 * s)) with (2 ^ 8 * (255 * s)) by lia. rewrite stage_carry by lia. f_equal; lia.
Qed.

(** The last two stages lose at most one each. *)
Lemma last_stages z r d : 0 <= z < 65536 -> 0 <= r < 2 ^ 32 -> 0 <= d < 2 ^ 32 ->
  exists f1 f2, stage 32 (stage 16 (65535 * (z + 65536 * r) + d)) = 2 ^ 32 * r + (65536 * z + d + f1) + f2 /\
    -1 <= f1 /\ -1 <= f2 /\ (f1 < 0 -> d < z) /\ (f2 < 0 -> 65536 * z + d + f1 < r).
Proof.
  intros Hz Hr Hd. set (f1 := (d - z) / 65536). set (b := 65536 * z + d + f1). set (f2 := (b - r) / 2 ^ 32).
  exists f1, f2.
  assert (E1 : stage 16 (65535 * (z + 65536 * r) + d) = 2 ^ 32 * r + (b - r)).
  { unfold stage, b, f1. change (2 ^ 16) with 65536. change (2 ^ 32) with 4294967296.
    replace (65535 * (z + 65536 * r) + d) with ((z + 65535 * r) * 65536 + (d - z)) by lia.
    rewrite Z.div_add_l by lia. lia. }
  rewrite E1. rewrite stage_carry by lia. unfold stage. fold f2.
  assert (-1 <= f1) by (apply Z.div_le_lower_bound; lia).
  assert (-1 <= f2) by (apply Z.div_le_lower_bound; unfold b; lia).
  split_and!; [unfold b; lia|done|done| |].
  - intros Hf. destruct (Z.lt_ge_cases d z); [done|]. pose proof (Z.div_pos (d - z) 65536 ltac:(lia) ltac:(lia)). unfold f1 in Hf. lia.
  - intros Hf. fold b. destruct (Z.lt_ge_cases b r); [done|].
    pose proof (Z.div_pos (b - r) (2 ^ 32) ltac:(lia) ltac:(lia)). unfold f2 in Hf. lia.
Qed.

Lemma tenth5_lower q : 0 <= 10 * q < tenth_limit -> 16 * q <= tenth5 (10 * q + 2).
Proof.
  unfold tenth_limit. intros Hq.
  set (w := q mod 4096). set (s := q / 4096). set (z := s mod 65536). set (r := s / 65536).
  pose proof (Z.div_mod q 4096 ltac:(lia)) as Eq. pose proof (Z.div_mod s 65536 ltac:(lia)) as Es.
  pose proof (Z.mod_pos_bound q 4096 ltac:(lia)) as Bw. pose proof (Z.mod_pos_bound s 65536 ltac:(lia)) as Bz.
  fold w s in Eq. fold z r in Es. fold w in Bw. fold z in Bz.
  assert (0 <= r) by (apply Z.div_pos; [apply Z.div_pos; lia|lia]).
  destruct (low_bound w Bw) as [Hl Hl1].
  replace q with (w + 4096 * s) at 2 by lia. rewrite tenth5_split.
  replace s with (z + 65536 * r) by lia.
  destruct (last_stages z r (low w) Bz ltac:(lia) ltac:(lia)) as (f1 & f2 & -> & ? & ? & H1 & H2).
  change (2 ^ 32) with 4294967296. lia.
Qed.

Lemma tenth_plain x : 0 <= x < tenth_limit -> tenth x = tenth5 (2 * (x / 2) + 2) / 16.
Proof.
  unfold tenth_limit. intros Hx. unfold tenth.
  replace (Z.land x (not64 1)) with (2 * (x / 2)).
  2:{ replace (Z.land x (not64 1)) with (Z.ldiff x (Z.ones 1)).
      - rewrite Z.ldiff_ones_r, Z.shiftl_mul_pow2, Z.shiftr_div_pow2 by lia. change (2 ^ 1) with 2. lia.
      - apply Z.bits_inj'. intros i Hi. rewrite Z.ldiff_spec, Z.land_spec.
        destruct (Z.lt_ge_cases i 64); [by rewrite testbit_not64 by lia|]. by rewrite (testbit_high 64 x i) by lia. }
  pose proof (Z.mul_div_le x 2 ltac:(lia)) as Ha. pose proof (Z.div_pos x 2 ltac:(lia) ltac:(lia)) as H0.
  set (a := 2 * (x / 2) + 2). assert (Ba : 2 <= a <= x + 2) by (unfold a; lia).
  rewrite (u64_id a) by lia. clearbody a.
  assert (Hs : forall k y B, 0 <= k -> 1 <= y <= B -> B + B / 2 ^ k < 2 ^ 64 -> add_shift k y = stage k y /\ 1 <= stage k y <= B + B / 2 ^ k).
  { intros k y B Hk Hy HB. unfold add_shift, stage. rewrite Z.shiftr_div_pow2 by lia. pose proof (pow2_pos k Hk).
    pose proof (Z.div_pos y (2 ^ k) ltac:(lia) ltac:(lia)). pose proof (Z.div_le_mono y B (2 ^ k) ltac:(lia) ltac:(lia)).
    rewrite u64_id by lia. lia. }
  rewrite Z.shiftr_div_pow2 by lia. change (2 ^ 4) with 16. f_equal. unfold tenth5.
  destruct (Hs 1 a 3029068810365266442 ltac:(lia) ltac:(lia) ltac:(vm_compute; reflexivity)) as [-> B1].

  destruct (Hs 4 _ _ ltac:(lia) B1 ltac:(vm_compute; reflexivity)) as [-> B2].
  destruct (Hs 8 _ _ ltac:(lia) B2 ltac:(vm_compute; reflexivity)) as [-> B3].
  destruct (Hs 16 _ _ ltac:(lia) B3 ltac:(vm_compute; reflexivity)) as [-> B4].
  destruct (Hs 32 _ _ ltac:(lia) B4 ltac:(vm_compute; reflexivity)) as [-> _]. done.
Qed.

Lemma tenth_exact x : 0 <= x < tenth_limit -> tenth x = x / 10.
Proof.
  intros Hx. rewrite tenth_plain by done. unfold tenth_limit in *.
  set (q := x / 10). pose proof (Z.div_mod x 10 ltac:(lia)) as E. pose proof (Z.mod_pos_bound x 10 ltac:(lia)) as B.
  fold q in E. assert (0 <= q) by (apply Z.div_pos; lia).
  pose proof (Z.div_mod x 2 ltac:(lia)). pose proof (Z.mod_pos_bound x 2 ltac:(lia)).
  pose proof (tenth5_lower q ltac:(unfold tenth_limit; lia)).
  pose proof (tenth5_mono (10 * q + 2) (2 * (x / 2) + 2) ltac:(lia)).
  pose proof (tenth5_mono (2 * (x / 2) + 2) (10 * q + 10) ltac:(lia)).
  pose proof (tenth5_upper q ltac:(lia)).
  symmetry. apply (Z.div_unique _ _ _ (tenth5 (2 * (x / 2) + 2) - 16 * q)); lia.
Qed.

(** ** The same digits *)

Lemma dec_loop_ok fuel x buf s : 0 <= x < tenth_limit -> dec_loop fuel x buf s = ultoa_loop fuel x 10 false buf s.
Proof.
  revert x buf s. induction fuel as [|fuel IH]; intros x buf s Hx; cbn [dec_loop ultoa_loop]; [done|].
  rewrite tenth_exact by done. pose proof (Z.mod_pos_bound x 10 ltac:(lia)) as B.
  pose proof (Z.div_mod x 10 ltac:(lia)) as E. pose proof (Z.div_pos x 10 ltac:(lia) ltac:(lia)).
  rewrite (proj2 (Z.leb_le (x mod 10) 9)) by lia.
  replace (u8 (chr "0"%char + u8 x - 10 * u8 (x / 10))) with (u8 (x mod 10 + chr "0"%char)).
  2:{ unfold u8. rewrite E at 2. rewrite <- (Zminus_mod_idemp_r (_ + _)), Z.mul_mod_idemp_r, Zminus_mod_idemp_r by lia.
      rewrite <- Zminus_mod_idemp_l, Z.add_mod_idemp_r, Zminus_mod_idemp_l by lia. f_equal. lia. }
  destruct (aset buf s _) as [b'| | |]; cbn [obind]; [|done..].
  destruct (x / 10 =? 0); cbn [negb]; [done|]. apply IH. unfold tenth_limit in *. lia.
Qed.

Lemma hex_loop_ok fuel x buf s : 0 <= x -> hex_loop fuel x buf s = ultoa_loop fuel x 16 true buf s.
Proof.
  revert x buf s. induction fuel as [|fuel IH]; intros x buf s Hx; cbn [hex_loop ultoa_loop]; [done|].
  change 15 with (Z.ones 4). rewrite Z.land_ones, Z.shiftr_div_pow2 by lia. change (2 ^ 4) with 16.
  pose proof (Z.mod_pos_bound x 16 ltac:(lia)) as B. pose proof (Z.div_pos x 16 ltac:(lia) ltac:(lia)).
  change (chr "0"%char) with 48. change (chr "A"%char) with 65.
  assert (Eu : u8 (48 + x mod 16) = 48 + x mod 16) by (apply Z.mod_small; lia). rewrite Eu.
  replace (if 48 + 9 <? 48 + x mod 16 then u8 (48 + x mod 16 + (65 - 48 - 10)) else 48 + x mod 16)
    with (u8 (if x mod 16 <=? 9 then x mod 16 + 48 else x mod 16 + (65 - 10))).
  2:{ clear -B. generalize dependent (x mod 16). intros v B.
      destruct (Z.leb_spec v 9), (Z.ltb_spec (48 + 9) (48 + v)); try lia; unfold u8; rewrite ?Z.mod_small; lia. }
  destruct (aset buf s _) as [b'| | |]; cbn [obind]; [|done..].
  destruct (x / 16 =? 0); cbn [negb]; [done|]. by apply IH.
Qed.

(** ** Theorems *)

Module UlltoaSpec.

(** The shift-and-add routine is equivalent to the division: [ulltoa_invert] writes
    the same bytes and returns the same end as [__ultoa_invert], in base 16 for every
    value and in base 10 for every value below [tenth_limit]. *)
Theorem ulltoa_equivalent fuel val buf base :
  base = 16 /\ 0 <= val < 2 ^ 64 \/ base = 10 /\ 0 <= val < tenth_limit ->
  ulltoa_invert fuel val buf base = __ultoa_invert fuel val buf (if base =? 16 then Z.lor 16 XTOA_UPPER else 10).
Proof.
  intros [[-> Hv]|[-> Hv]]; unfold ulltoa_invert, __ultoa_invert; cbn -[hex_loop dec_loop ultoa_loop];
    [apply hex_loop_ok; lia|by apply dec_loop_ok].
Qed.

Lemma ulltoa_equivalent_witness :
  ulltoa_invert 22 9007199254740993 (replicate 22 0) 10 = __ultoa_invert 22 9007199254740993 (replicate 22 0) 10.
Proof.
  apply (ulltoa_equivalent 22 9007199254740993 (replicate 22 0) 10). right. unfold tenth_limit. lia.
Defined.

(** The limit is the exact one: there the quotient is one too small and the last
    digit is the character after [9]. *)
Example tenth_limit_wrong :
  tenth tenth_limit = tenth_limit / 10 - 1 /\
  (let! (b, _) := ulltoa_invert 22 tenth_limit (replicate 22 0) 10 in aget b 0) = Ok 58.
Proof. split; vm_compute; reflexivity. Qed.

(** Base 8 keeps one digit, the leading one, and returns its start as the end. *)
Theorem octal_one_digit fuel val d buf : 0 <= val < 2 ^ 64 -> (22 <= fuel)%nat ->
  exists c, ulltoa_invert fuel val (d :: buf) 8 = Ok (c :: buf, 0) /\ 48 <= c <= 55 /\ (val <> 0 -> c <> 48).
Proof.
  intros Hv Hf. unfold ulltoa_invert. cbn [Z.eqb Pos.eqb].
  assert (H : forall n fuel val d, 0 <= val < 8 ^ Z.of_nat n -> (0 < n <= fuel)%nat ->
    exists c, oct_loop fuel val (d :: buf) 0 = Ok (c :: buf, 0) /\ 48 <= c <= 55 /\ (val <> 0 -> c <> 48)).
  { clear. induction n as [|n IH]; intros [|fuel] val d Hv Hn; try lia. cbn [oct_loop].
    rewrite aset_ok by (cbn [length]; lia). cbn [obind]. change (Z.to_nat 0) with 0%nat. cbn [insert list_insert].
    change 7 with (Z.ones 3). rewrite Z.land_ones, Z.shiftr_div_pow2 by lia. change (2 ^ 3) with 8.
    pose proof (Z.mod_pos_bound val 8 ltac:(lia)) as B. pose proof (Z.div_mod val 8 ltac:(lia)) as E.
    pose proof (Z.div_pos val 8 ltac:(lia) ltac:(lia)) as P.
    destruct (Z.eqb_spec (val / 8) 0) as [E0|E0]; cbn [negb].
    - eexists. split; [reflexivity|]. change (chr "0"%char) with 48. unfold u8. rewrite (Z.mod_small (48 + _)) by lia. lia.
    - destruct n as [|n].
      + change (8 ^ Z.of_nat 1) with 8 in Hv. lia.
      + destruct (IH fuel (val / 8) (u8 (chr "0"%char + val mod 8))) as (c & Hc & Hb & Hz); [|lia|].
        * rewrite Nat2Z.inj_succ, Z.pow_succ_r in Hv by lia. lia.
        * exists c. split; [done|]. split; [done|]. intros _. by apply Hz. }
  apply (H 22%nat); [|lia]. change (8 ^ Z.of_nat 22) with (2 ^ 66). lia.
Qed.

End UlltoaSpec.
