(* ===== verification/Ftoa.v ===== *)
(** * Decimal digits of a float (os/lib/libc/k_printf.c, [ftoa_engine])

    [ftoa_engine] scales the fraction of a 32-bit float with a table of powers,
    takes decimal digits off by repeated subtraction and rounds the last one.
    The digits are those of the scaled value, correctly rounded, for every normal
    number; for the smallest subnormals it never returns. *)

From Stdlib Require Import ZArith Lia Bool Ascii String.
From stdpp Require Import base numbers list.
From S2P Require Import Prelude Libc Uart Dtoa Printf.
#[local] Open Scope Z_scope.

(** ** The routine *)

Definition FTOA_MINUS : Z := 1.
Definition FTOA_ZERO : Z := 2.
Definition FTOA_INF : Z := 4.
Definition FTOA_NAN : Z := 8.
Definition FTOA_CARRY : Z := 16.

Definition exponentTable : list Z :=
  [-36; -33; -31; -29; -26; -24; -21; -19;
   -17; -14; -12; -9; -7; -4; -2; 0;
   3; 5; 8; 10; 12; 15; 17; 20;
   22; 24; 27; 29; 32; 34; 36; 39].

Definition factorTable : list Z :=
  [2295887404; 587747175; 1504632769; 3851859889; 986076132; 2524354897; 646234854; 1654361225;
   4235164736; 1084202172; 2775557562; 710542736; 1818989404; 465661287; 1192092896; 3051757813;
   781250000; 2000000000; 512000000; 1310720000; 3355443200; 858993459; 2199023256; 562949953;
   1441151881; 3689348815; 944473297; 2417851639; 618970020; 1584563250; 4056481921; 1038459372].

(** The byte [i] of the float, least significant first. *)
Definition valbits (x i : Z) : Z := u8 (Z.shiftr x (8 * i)).

Definition fexp (x : Z) : Z :=
  let exp := u8 (Z.shiftl (valbits x 3) 1) in
  if has (valbits x 2) (Z.shiftl 1 7) then u8 (exp + 1) else exp.

(** [for (i = 0; i <= precision; i++) buf[i + 1] = '0';], [n] rounds left. *)
Fixpoint zero_digits (n : nat) (i : Z) (buf : list Z) : outcome (list Z) :=
  match n with
  | O => Ok buf
  | S n => let! buf := aset buf (i + 1) (chr "0"%char) in zero_digits n (i + 1) buf
  end.

(** [while ((prod -= decimal) >= 0) digit++;] *)
Fixpoint sub_loop (fuel : nat) (prod decimal digit : Z) : outcome (Z * Z) :=
  match fuel with
  | O => Diverge
  | S fuel =>
      let prod := prod - decimal in
      if 0 <=? prod then sub_loop fuel prod decimal (u8 (digit + 1)) else Ok (prod, digit)
  end.

(** How many digits to write, once the first one is found. *)
Definition digits_wanted (precision maxDecimals exp10 : Z) : Z :=
  if negb (maxDecimals =? 0) then
    let beforeDP := s8 (exp10 + 1) in
    let beforeDP := if beforeDP <? 1 then 1 else beforeDP in
    let maxDecimals := u8 (maxDecimals + beforeDP - 1) in
    if maxDecimals <? precision then maxDecimals else precision
  else u8 (precision + 1).

Record fst_ : Type := MkF { f_prod : Z; f_decimal : Z; f_exp10 : Z; f_precision : Z }.

(** The inner [while(1)]: the next digit; before the first one zeros are skipped. *)
Fixpoint next_digit (fuel : nat) (hadNonzeroDigit : bool) (maxDecimals : Z) (s : fst_) : outcome (Z * fst_) :=
  match fuel with
  | O => Diverge
  | S fuel' =>
      let! (prod, digit) := sub_loop fuel (f_prod s) (f_decimal s) (chr "0"%char) in
      let prod := prod + f_decimal s in
      let decimal := Z.quot (f_decimal s) 10 in
      if hadNonzeroDigit then Ok (digit, MkF prod decimal (f_exp10 s) (f_precision s))
      else if digit =? chr "0"%char then
        next_digit fuel' hadNonzeroDigit maxDecimals (MkF prod decimal (s8 (f_exp10 s - 1)) (f_precision s))
      else Ok (digit, MkF prod decimal (f_exp10 s) (digits_wanted (f_precision s) maxDecimals (f_exp10 s)))
  end.

(** [for (h = outputIdx; h > 0; h--) buf[h] = '9';] *)
Fixpoint nines (n : nat) (buf : list Z) : outcome (list Z) :=
  match n with
  | O => Ok buf
  | S n' => let! buf := aset buf (Z.of_nat n) (chr "9"%char) in nines n' buf
  end.

(** The [do ... while (outputIdx < precision)]; the last result says whether the
    loop was left by the jump to the rounding. *)
Fixpoint digit_loop (fuel : nat) (had : bool) (maxDecimals : Z) (s : fst_) (outputIdx : Z) (buf : list Z)
  : outcome (fst_ * Z * list Z * bool) :=
  match fuel with
  | O => Diverge
  | S fuel' =>
      let! (digit, s) := next_digit fuel had maxDecimals s in
      let outputIdx := u8 (outputIdx + 1) in
      if digit <? chr "0"%char + 10 then
        let! buf := aset buf outputIdx digit in
        if outputIdx <? f_precision s then digit_loop fuel' true maxDecimals s outputIdx buf
        else Ok (s, outputIdx, buf, false)
      else
        let! buf := nines (Z.to_nat outputIdx) buf in
        Ok (s, outputIdx, buf, true)
  end.

(** [roundup]: the carry runs towards the first digit. *)
Fixpoint roundup (outputIdx : nat) (buf : list Z) (exp10 flags : Z) : outcome (list Z * Z * Z) :=
  match outputIdx with
  | O => Ok (buf, exp10, flags)
  | S n =>
      let i := Z.of_nat outputIdx in
      let! c := aget buf i in
      let c := u8 (c + 1) in
      let! buf := aset buf i c in
      if c =? chr "0"%char + 10 then
        if i =? 1 then
          let! buf := aset buf i (chr "1"%char) in Ok (buf, s8 (exp10 + 1), Z.lor flags FTOA_CARRY)
        else
          let! buf := aset buf i (chr "0"%char) in roundup n buf exp10 flags
      else Ok (buf, exp10, flags)
  end.

Definition scaled (exp frac : Z) : outcome Z :=
  let! f := aget factorTable (Z.shiftr exp 3) in Ok (Z.shiftr (frac * f) (15 - Z.land exp 7)).

(** [x] is the representation of the float [val]; the result is the buffer and [exp10]. *)
Definition ftoa_engine (fuel : nat) (x : Z) (buf : list Z) (precision maxDecimals : Z) : outcome (list Z * Z) :=
  let frac := Z.land x 0x007fffff in
  let precision := if 7 <? precision then 7 else precision in
  let flags := if has (valbits x 3) (Z.shiftl 1 7) then FTOA_MINUS else 0 in
  let exp := fexp x in
  if (exp =? 0) && (frac =? 0) then
    let! buf := aset buf 0 (Z.lor flags FTOA_ZERO) in
    let! buf := zero_digits (S (Z.to_nat precision)) 0 buf in
    Ok (buf, 0)
  else
    let flags :=
      if exp =? 0xff then if frac =? 0 then Z.lor flags FTOA_INF else Z.lor flags FTOA_NAN else flags in
    let frac := if negb (exp =? 0) then Z.lor frac (Z.shiftl 1 23) else frac in
    let! exp10 := aget exponentTable (Z.shiftr exp 3) in
    let! prod := scaled exp frac in
    let! (s, outputIdx, buf, bail) :=
      digit_loop fuel false maxDecimals (MkF prod 100000000000000 exp10 precision) 0 buf in
    let decimal := f_decimal s * 10 in
    let! (buf, exp10, flags) :=
      (if bail || (0 <=? f_prod s - Z.shiftr decimal 1) then roundup (Z.to_nat outputIdx) buf (f_exp10 s) flags
       else Ok (buf, f_exp10 s, flags)) in
    let! buf := aset buf 0 flags in
    Ok (buf, exp10).

(** What the digits of a result stand for. *)
Definition dig (c : Z) : Z := c - 48.
Definition num (ds : list Z) : Z := fold_left (fun acc c => 10 * acc + dig c) ds 0.
Definition is_digit (c : Z) : Prop := 48 <= c <= 57.

Lemma s8_id x : -128 <= x < 128 -> s8 x = x.
Proof.
  intros H. unfold s8, u8. change (2 ^ 8) with 256. destruct (Z.lt_ge_cases x 0).
  - replace (x mod 256) with (x + 256) by (apply (Z.mod_unique _ _ (-1)); lia).
    rewrite (proj2 (Z.ltb_ge (x + 256) 128)) by lia. lia.
  - rewrite Z.mod_small by lia. by rewrite (proj2 (Z.ltb_lt x 128)) by lia.
Qed.

Lemma u8_small x : 0 <= x < 256 -> u8 x = x.
Proof. apply Z.mod_small. Qed.

Lemma pow10_pos n : 0 <= n -> 0 < 10 ^ n.
Proof. intros. apply Z.pow_pos_nonneg; lia. Qed.

Lemma num_app ds c : num (ds ++ [c]) = 10 * num ds + dig c.
Proof. unfold num. by rewrite fold_left_app. Qed.

Lemma num_join ds ds' : num (ds ++ ds') = num ds * 10 ^ Z.of_nat (length ds') + num ds'.
Proof.
  induction ds' as [|c ds' IH] using rev_ind; [rewrite app_nil_r; unfold num at 3; simpl; lia|].
  rewrite app_assoc, !num_app, IH, length_app. cbn [length].
  rewrite Nat2Z.inj_add, Z.pow_add_r by lia. change (10 ^ Z.of_nat 1) with 10. ring.
Qed.

Lemma num_bound ds : Forall is_digit ds -> 0 <= num ds < 10 ^ Z.of_nat (length ds).
Proof.
  induction ds as [|c ds IH] using rev_ind; [done|]. intros [H1 H2]%Forall_app. specialize (IH H1).
  inversion_clear H2. rewrite num_app, length_app, Nat2Z.inj_add, Z.pow_add_r by lia.
  cbn [length]. change (10 ^ Z.of_nat 1) with 10. unfold is_digit, dig in *. lia.
Qed.

(** Reading and writing right after [ds]. *)
Lemma put_after (b0 : Z) ds c c' rest :
  aset (b0 :: ds ++ c :: rest) (Z.of_nat (length ds) + 1) c' = Ok (b0 :: (ds ++ [c']) ++ rest).
Proof.
  rewrite aset_ok by (cbn [length]; rewrite length_app; cbn [length]; lia). f_equal.
  replace (Z.to_nat (Z.of_nat (length ds) + 1)) with (length (b0 :: ds) + 0)%nat by (cbn [length]; lia).
  change (b0 :: ds ++ c :: rest) with ((b0 :: ds) ++ c :: rest). rewrite insert_app_r. cbn. by rewrite <- app_assoc.
Qed.

Lemma get_after (b0 : Z) ds c rest : aget (b0 :: ds ++ c :: rest) (Z.of_nat (length ds) + 1) = Ok c.
Proof.
  apply aget_lookup; [lia|]. replace (Z.to_nat (Z.of_nat (length ds) + 1)) with (length (b0 :: ds)) by (cbn [length]; lia).
  by apply (list_lookup_middle (b0 :: ds)).
Qed.

(** ** One digit *)

Lemma sub_loop_ok fuel prod decimal digit : 0 < decimal -> 0 <= prod < 10 * decimal ->
  0 <= digit -> digit + prod / decimal < 256 -> (Z.to_nat (prod / decimal) < fuel)%nat ->
  sub_loop fuel prod decimal digit = Ok (prod mod decimal - decimal, digit + prod / decimal).
Proof.
  intros Hd. revert prod digit. induction fuel as [|fuel IH]; intros prod digit Hp Hg Hb Hf; [lia|]. cbn [sub_loop].
  destruct (Z.leb_spec 0 (prod - decimal)) as [Hle|Hlt].
  - assert (E : (prod - decimal) / decimal = prod / decimal - 1).
    { replace (prod - decimal) with (prod + (-1) * decimal) by lia. rewrite Z.div_add by lia. lia. }
    assert (Em : (prod - decimal) mod decimal = prod mod decimal).
    { replace (prod - decimal) with (prod + (-1) * decimal) by lia. by rewrite Z.mod_add by lia. }
    assert (1 <= prod / decimal) by (apply Z.div_le_lower_bound; lia).
    rewrite u8_small by lia. rewrite IH by (rewrite ?E; lia). rewrite E, Em. do 2 f_equal; lia.
  - rewrite Z.div_small, Z.mod_small by lia. do 2 f_equal; lia.
Qed.

Lemma quot10 k : 0 < k -> Z.quot (10 ^ k) 10 = 10 ^ (k - 1).
Proof.
  intros Hk. pose proof (pow10_pos (k - 1) ltac:(lia)). rewrite Z.quot_div_nonneg by (try apply pow10_pos; lia).
  replace k with (k - 1 + 1) at 1 by lia. rewrite Z.pow_add_r by lia. apply Z.div_mul. lia.
Qed.

(** The quotient by [a * b] and what is left of it by [b]. *)
Lemma split_div x a b : 0 < a -> 0 < b -> x / (a * b) * a + x mod (a * b) / b = x / b.
Proof.
  intros Ha Hb. rewrite (Z.div_mod x (a * b)) at 3 by lia.
  replace (a * b * (x / (a * b)) + x mod (a * b)) with (x / (a * b) * a * b + x mod (a * b)) by ring.
  by rewrite Z.div_add_l by lia.
Qed.

Section Digits.
Context (maxDecimals : Z).

Lemma next_digit_ok fuel prod k e p : 0 < k -> 0 <= prod < 10 * 10 ^ k -> (10 < fuel)%nat ->
  next_digit fuel true maxDecimals (MkF prod (10 ^ k) e p) =
  Ok (48 + prod / 10 ^ k, MkF (prod mod 10 ^ k) (10 ^ (k - 1)) e p) /\ is_digit (48 + prod / 10 ^ k).
Proof.
  intros Hk Hp Hf. pose proof (pow10_pos k ltac:(lia)) as Hpos.
  assert (0 <= prod / 10 ^ k < 10) by (split; [apply Z.div_pos; lia|apply Z.div_lt_upper_bound; lia]).
  split; [|unfold is_digit; lia]. destruct fuel as [|fuel]; [lia|]. cbn [next_digit f_prod f_decimal f_exp10 f_precision].
  change (chr "0"%char) with 48. rewrite sub_loop_ok by lia. cbn [obind]. rewrite quot10 by done. do 3 f_equal. lia.
Qed.

(** The zeros before the first digit: from [10^k] down to the power [l] of the number. *)
Lemma first_digit_ok j fuel prod l e p : 0 < l -> 10 ^ l <= prod < 10 * 10 ^ l -> (10 + j < fuel)%nat ->
  -128 <= e - Z.of_nat j -> e < 128 ->
  let e' := e - Z.of_nat j in
  next_digit fuel false maxDecimals (MkF prod (10 ^ (l + Z.of_nat j)) e p) =
  Ok (48 + prod / 10 ^ l, MkF (prod mod 10 ^ l) (10 ^ (l - 1)) e' (digits_wanted p maxDecimals e')).
Proof.
  intros Hl Hp. revert fuel e. induction j as [|j IH]; intros fuel e Hf He1 He2; pose proof (pow10_pos l ltac:(lia)) as Hpos;
    (destruct fuel as [|fuel]; [lia|]); cbn [next_digit f_prod f_decimal f_exp10 f_precision]; change (chr "0"%char) with 48.
  - rewrite Z.add_0_r, Z.sub_0_r.
    assert (1 <= prod / 10 ^ l < 10) by (split; [apply Z.div_le_lower_bound; lia|apply Z.div_lt_upper_bound; lia]).
    rewrite sub_loop_ok by lia. cbn [obind]. rewrite (proj2 (Z.eqb_neq (48 + _) 48)) by lia.
    rewrite quot10 by done. do 3 f_equal. lia.
  - assert (Hbig : prod < 10 ^ (l + Z.of_nat (S j))).
    { apply (Z.lt_le_trans _ (10 ^ (l + 1))); [rewrite Z.pow_add_r by lia; lia|apply Z.pow_le_mono_r; lia]. }
    rewrite sub_loop_ok; rewrite ?Z.div_small by lia; try lia. cbn [obind].
    change (48 + 0 =? 48) with true. cbn match. rewrite quot10, Z.mod_small by lia. rewrite s8_id by lia.
    replace (l + Z.of_nat (S j) - 1) with (l + Z.of_nat j) by lia.
    replace (prod - 10 ^ (l + Z.of_nat (S j)) + 10 ^ (l + Z.of_nat (S j))) with prod by lia.
    rewrite IH by lia. do 3 f_equal; [lia|f_equal; lia].
Qed.

(** The digits after the first: [n] of them, from the power [k] on. *)
Lemma digit_loop_ok n fuel prod k e p b0 ds rest : (0 < n)%nat -> Z.of_nat n <= k -> 0 <= prod < 10 * 10 ^ k ->
  p = Z.of_nat (length ds + n) -> p < 256 -> (n <= length rest)%nat -> (10 + n < fuel)%nat ->
  let u := k - Z.of_nat n + 1 in
  exists ds', length ds' = n /\ Forall is_digit ds' /\ num ds' = prod / 10 ^ u /\
  digit_loop fuel true maxDecimals (MkF prod (10 ^ k) e p) (Z.of_nat (length ds)) (b0 :: ds ++ rest) =
  Ok (MkF (prod mod 10 ^ u) (10 ^ (u - 1)) e p, p, b0 :: (ds ++ ds') ++ drop n rest, false).
Proof.
  revert fuel prod k ds rest. induction n as [|n IH]; intros fuel prod k ds rest Hn Hk Hp Hpr Hp256 Hr Hf u; [lia|].
  destruct fuel as [|fuel]; [lia|]. destruct rest as [|r0 rest]; [cbn in Hr; lia|]. cbn [length] in Hr. cbn [digit_loop].
  destruct (next_digit_ok (S fuel) prod k e p ltac:(lia) Hp ltac:(lia)) as [-> Hd]. cbn [obind f_precision].
  pose proof (pow10_pos k ltac:(lia)) as Hpos.
  change (chr "0"%char + 10) with 58. rewrite (proj2 (Z.ltb_lt _ 58)) by (unfold is_digit in Hd; lia).
  rewrite u8_small by lia. rewrite put_after. cbn [obind].
  destruct n as [|n].
  - rewrite (proj2 (Z.ltb_ge _ p)) by lia. exists [48 + prod / 10 ^ k].
    split_and!; [done|by constructor|unfold num, dig; cbn; unfold u; replace (k - Z.of_nat 1 + 1) with k by lia; lia|].
    unfold u. replace (k - Z.of_nat 1 + 1) with k by lia.
    replace (Z.of_nat (length ds) + 1) with p by lia. done.
  - rewrite (proj2 (Z.ltb_lt _ p)) by lia.
    replace (Z.of_nat (length ds) + 1) with (Z.of_nat (length (ds ++ [48 + prod / 10 ^ k]))) by (rewrite length_app; cbn; lia).
    assert (E10 : 10 ^ k = 10 * 10 ^ (k - 1)) by (rewrite <- Z.pow_succ_r by lia; f_equal; lia).
    destruct (IH fuel (prod mod 10 ^ k) (k - 1) (ds ++ [48 + prod / 10 ^ k]) rest) as (ds' & Hl & Hds & Hnum & Heq);
      [lia|lia|rewrite <- E10; by apply Z.mod_pos_bound|rewrite length_app; cbn; lia|done|lia|lia|].
    replace (k - 1 - Z.of_nat (S n) + 1) with u in * by lia. rewrite Heq.
    exists ((48 + prod / 10 ^ k) :: ds'). cbn [length drop]. split_and!; [lia|by constructor| |].
    + change ((48 + prod / 10 ^ k) :: ds') with ([48 + prod / 10 ^ k] ++ ds'). rewrite num_join, Hnum, Hl.
      unfold num, dig. cbn [fold_left]. replace (10 * 0 + (48 + prod / 10 ^ k - 48)) with (prod / 10 ^ k) by lia.
      assert (Ek : 10 ^ k = 10 ^ Z.of_nat (S n) * 10 ^ u) by (rewrite <- Z.pow_add_r by (unfold u; lia); f_equal; unfold u; lia).
      rewrite Ek. apply split_div; apply pow10_pos; unfold u; lia.
    + rewrite <- !app_assoc. cbn [app]. do 5 f_equal. unfold u.
      rewrite Z.mod_mod_divide; [done|]. exists (10 ^ Z.of_nat (S n)). rewrite <- Z.pow_add_r by lia. f_equal. lia.
Qed.

Lemma digits_wanted_range p e : 0 <= p <= 7 -> 0 <= digits_wanted p maxDecimals e <= 8.
Proof.
  intros Hp. unfold digits_wanted. destruct (maxDecimals =? 0); cbn [negb]; [rewrite u8_small by lia; lia|].
  match goal with |- context [u8 ?y <? p] => set (m := u8 y); assert (0 <= m) by (apply Z.mod_pos_bound; lia) end.
  destruct (Z.ltb_spec m p); lia.
Qed.

(** All the digits: [n] of them, the first not 0, are the number cut at the power [u]. *)
Lemma all_digits_ok fuel prod l e p b0 rest : 9 <= l <= 14 -> 10 ^ l <= prod < 10 * 10 ^ l -> (30 < fuel)%nat ->
  -100 <= e < 100 -> 0 <= p <= 7 -> (8 <= length rest)%nat ->
  let e' := e - (14 - l) in let w := digits_wanted p maxDecimals e' in
  let n := Z.to_nat (Z.max 1 w) in let u := l - Z.of_nat n + 1 in
  exists c ds, length (c :: ds) = n /\ Forall is_digit (c :: ds) /\ c <> 48 /\ num (c :: ds) = prod / 10 ^ u /\
  digit_loop fuel false maxDecimals (MkF prod (10 ^ 14) e p) 0 (b0 :: rest) =
  Ok (MkF (prod mod 10 ^ u) (10 ^ (u - 1)) e' w, Z.of_nat n, b0 :: (c :: ds) ++ drop n rest, false).
Proof.
  intros Hl Hp Hf He Hpr Hr e' w n u. pose proof (digits_wanted_range p e' Hpr) as Hw. fold w in Hw.
  destruct fuel as [|fuel]; [lia|]. destruct rest as [|r0 rest]; [cbn in Hr; lia|]. cbn [length] in Hr.
  cbn [digit_loop]. pose proof (pow10_pos l ltac:(lia)) as Hpos.
  pose proof (first_digit_ok (Z.to_nat (14 - l)) (S fuel) prod l e p ltac:(lia) Hp ltac:(lia) ltac:(lia) ltac:(lia)) as Hn.
  replace (l + Z.of_nat (Z.to_nat (14 - l))) with 14 in Hn by lia.
  replace (e - Z.of_nat (Z.to_nat (14 - l))) with e' in Hn by (unfold e'; lia). cbn zeta in Hn. fold w in Hn.
  rewrite Hn. cbn [obind f_precision].
  set (c := 48 + prod / 10 ^ l).
  assert (Hc : 49 <= c <= 57).
  { assert (1 <= prod / 10 ^ l < 10) by (split; [apply Z.div_le_lower_bound; lia|apply Z.div_lt_upper_bound; lia]). unfold c. lia. }
  change (chr "0"%char + 10) with 58. rewrite (proj2 (Z.ltb_lt c 58)) by lia.
  change (u8 (0 + 1)) with 1. pose proof (put_after b0 [] r0 c rest) as Hput.
  change (Z.of_nat (length (@nil Z)) + 1) with 1 in Hput. cbn [app] in Hput. rewrite Hput. cbn [obind].
  destruct (Z.ltb_spec 1 w) as [H1|H1].
  - assert (E10 : 10 ^ l = 10 * 10 ^ (l - 1)) by (rewrite <- Z.pow_succ_r by lia; f_equal; lia).
    destruct (digit_loop_ok (Z.to_nat (w - 1)) fuel (prod mod 10 ^ l) (l - 1) e' w b0 [c] rest)
      as (ds & Hlen & Hds & Hnum & Heq);
      [lia|lia|rewrite <- E10; by apply Z.mod_pos_bound|cbn; lia|lia|lia|lia|].
    replace (l - 1 - Z.of_nat (Z.to_nat (w - 1)) + 1) with u in * by (unfold u, n; lia).
    change (Z.of_nat (length [c])) with 1 in Heq. cbn [app] in Heq. rewrite Heq. exists c, ds.
    assert (Hsn : n = S (Z.to_nat (w - 1))) by (unfold n; lia).
    split_and!; [cbn [length]; lia|constructor; [unfold is_digit; lia|done]|lia| |].
    + change (c :: ds) with ([c] ++ ds). rewrite num_join, Hnum, Hlen. unfold num, dig, c. cbn [fold_left].
      replace (10 * 0 + (48 + prod / 10 ^ l - 48)) with (prod / 10 ^ l) by lia.
      assert (10 ^ l = 10 ^ Z.of_nat (Z.to_nat (w - 1)) * 10 ^ u) as ->
        by (rewrite <- Z.pow_add_r by (unfold u, n; lia); f_equal; unfold u, n; lia).
      apply split_div; apply pow10_pos; unfold u, n; lia.
    + rewrite Hsn. cbn [drop]. replace (Z.of_nat (S (Z.to_nat (w - 1)))) with w by lia. do 3 f_equal.
      rewrite Z.mod_mod_divide; [done|]. exists (10 ^ Z.of_nat (Z.to_nat (w - 1))).
      rewrite <- Z.pow_add_r by (unfold u, n; lia). f_equal. unfold u, n. lia.
  - assert (Hn1 : n = 1%nat) by (unfold n; lia). exists c, [].
    assert (u = l) as -> by (unfold u; lia). rewrite Hn1.
    split_and!; [done|constructor; [unfold is_digit; lia|constructor]|lia|unfold num, dig, c; cbn; lia|done].
Qed.
End Digits.

(** ** Rounding *)

Lemma roundup_ok b0 c ds rest e fl : Forall is_digit (c :: ds) -> c <> 48 -> -128 <= e < 127 ->
  exists c' ds', length ds' = length ds /\ Forall is_digit (c' :: ds') /\ c' <> 48 /\
  ((num (c' :: ds') = num (c :: ds) + 1 /\
    roundup (S (length ds)) (b0 :: (c :: ds) ++ rest) e fl = Ok (b0 :: (c' :: ds') ++ rest, e, fl)) \/
   (10 * num (c' :: ds') = num (c :: ds) + 1 /\
    roundup (S (length ds)) (b0 :: (c :: ds) ++ rest) e fl = Ok (b0 :: (c' :: ds') ++ rest, e + 1, Z.lor fl FTOA_CARRY))).
Proof.
  intros Hd Hc He. revert rest. induction ds as [|d ds IH] using rev_ind; intros rest; cbn [roundup].
  - inversion_clear Hd as [|? ? Hc9 _]. unfold is_digit in Hc9. change (Z.of_nat 1) with (Z.of_nat (length (@nil Z)) + 1).
    change ((c :: []) ++ rest) with ([] ++ c :: rest).
    rewrite get_after. cbn [obind]. rewrite put_after. cbn [obind app length]. change (chr "0"%char + 10) with 58.
    rewrite u8_small by lia. destruct (Z.eqb_spec (c + 1) 58) as [E|E].
    + change (Z.of_nat 1 =? 1) with true. cbn match.
      pose proof (put_after b0 [] (c + 1) 49 rest) as Hput. cbn [app length] in Hput.
      change (Z.of_nat 0 + 1) with (Z.of_nat 1) in Hput. change (chr "1"%char) with 49. rewrite Hput. cbn [obind].
      rewrite s8_id by lia. exists 49, []. split_and!; [done|repeat constructor; unfold is_digit; lia|done|right].
      unfold num, dig. cbn. split; [lia|done].
    + exists (c + 1), []. split_and!; [done|repeat constructor; unfold is_digit; lia|lia|left].
      unfold num, dig. cbn. split; [lia|done].
  - assert (Hd' : Forall is_digit ((c :: ds) ++ [d])) by done. apply Forall_app in Hd' as [Hcd Hdd]. inversion_clear Hdd as [|? ? Hd9 _].
    unfold is_digit in Hd9. specialize (IH Hcd).
    change (c :: ds ++ [d]) with ((c :: ds) ++ [d]). rewrite <- (app_assoc (c :: ds)). cbn [app].
    assert (Elen : Z.of_nat (S (length (ds ++ [d]))) = Z.of_nat (length (c :: ds)) + 1) by (rewrite length_app; cbn; lia).
    rewrite Elen. change (b0 :: c :: ds ++ d :: rest) with (b0 :: (c :: ds) ++ d :: rest).
    rewrite get_after. cbn [obind]. rewrite put_after. cbn [obind]. change (chr "0"%char + 10) with 58.
    rewrite u8_small by lia. destruct (Z.eqb_spec (d + 1) 58) as [E|E].
    + rewrite (proj2 (Z.eqb_neq (Z.of_nat (length (c :: ds)) + 1) 1)) by (cbn [length]; lia). change (chr "0"%char) with 48.
      rewrite <- (app_assoc (c :: ds)). cbn [app]. change (c :: ds ++ d + 1 :: rest) with ((c :: ds) ++ (d + 1) :: rest).
      rewrite put_after. cbn [obind]. destruct (IH (48 :: rest)) as (c' & ds' & Hlen & Hds & Hc' & Hcase).
      replace (length (ds ++ [d])) with (S (length ds)) by (rewrite length_app; cbn; lia).
      rewrite <- (app_assoc (c :: ds)). cbn [app] in Hcase |- *.
      exists c', (ds' ++ [48]). split; [rewrite !length_app; cbn; lia|].
      split; [change (c' :: ds' ++ [48]) with ((c' :: ds') ++ [48]); apply Forall_app; split; [done|repeat constructor; unfold is_digit; lia]|].
      split; [done|].
      change (c' :: ds' ++ [48]) with ((c' :: ds') ++ [48]). change (c :: ds ++ [d]) with ((c :: ds) ++ [d]).
      rewrite !num_app. unfold dig. cbn [app]. rewrite <- !app_assoc. cbn [app].
      destruct Hcase as [[Hn ->]|[Hn ->]]; [left|right]; (split; [lia|done]).
    + exists c, (ds ++ [d + 1]). split; [rewrite !length_app; done|].
      split; [change (c :: ds ++ [d + 1]) with ((c :: ds) ++ [d + 1]); apply Forall_app; split; [done|repeat constructor; unfold is_digit; lia]|].
      split; [done|]. left. change (c :: ds ++ [d + 1]) with ((c :: ds) ++ [d + 1]). change (c :: ds ++ [d]) with ((c :: ds) ++ [d]).
      rewrite !num_app. unfold dig. split; [lia|]. cbn [app]. done.
Qed.

(** ** The scaled value *)

(** The power of two of the entry [i] times its factor is the power of ten it stands
    for, within one part in [2^29]. *)
Definition table_ok (i : nat) : bool :=
  match exponentTable !! i, factorTable !! i with
  | Some e, Some f =>
      let s := 135 - 8 * Z.of_nat i in
      let a := f * 2 ^ Z.max 0 s * 10 ^ Z.max 0 (e - 14) in
      let b := 10 ^ Z.max 0 (14 - e) * 2 ^ Z.max 0 (- s) in
      2 ^ 29 * Z.abs (a - b) <=? b
  | _, _ => false
  end.

Lemma tables_accurate : forallb table_ok (seq 0 32) = true.
Proof. vm_compute. reflexivity. Qed.

Definition scaled_in_range (n : nat) : bool :=
  match factorTable !! (n / 8)%nat with
  | Some f =>
      let sh := 15 - Z.land (Z.of_nat n) 7 in
      (10 ^ 11 <=? Z.shiftr (2 ^ 23 * f) sh) && (Z.shiftr ((2 ^ 24 - 1) * f) sh <? 10 ^ 15) && (0 <=? f)
  | None => false
  end.

Lemma scaled_ok exp frac : 1 <= exp < 256 -> 2 ^ 23 <= frac < 2 ^ 24 ->
  exists prod, scaled exp frac = Ok prod /\ 10 ^ 11 <= prod < 10 ^ 15.
Proof.
  intros He Hf. unfold scaled.
  assert (H : forallb scaled_in_range (seq 1 255) = true) by (vm_compute; reflexivity).
  rewrite forallb_forall in H. specialize (H (Z.to_nat exp) ltac:(apply in_seq; lia)). unfold scaled_in_range in H.
  rewrite Z2Nat.id in H by lia. rewrite Z.shiftr_div_pow2 by lia. change (2 ^ 3) with 8.
  destruct (factorTable !! (Z.to_nat exp / 8)%nat) as [f|] eqn:E; [|done].
  rewrite (aget_lookup _ _ f) by (first [apply Z.div_pos; lia|rewrite Z2Nat.inj_div by lia; exact E]). cbn [obind].
  eexists. split; [reflexivity|]. rewrite !andb_true_iff, !Z.leb_le, Z.ltb_lt in H. destruct H as [[H1 H2] H3].
  assert (Hsh : 0 <= 15 - Z.land exp 7).
  { change 7 with (Z.ones 3). rewrite Z.land_ones by lia. pose proof (Z.mod_pos_bound exp (2 ^ 3) ltac:(lia)). lia. }
  rewrite !Z.shiftr_div_pow2 in * by lia. pose proof (pow2_pos _ Hsh).
  pose proof (Z.div_le_mono (2 ^ 23 * f) (frac * f) _ ltac:(eassumption) ltac:(nia)).
  pose proof (Z.div_le_mono (frac * f) ((2 ^ 24 - 1) * f) _ ltac:(eassumption) ltac:(nia)). lia.
Qed.

Lemma power_of prod : 10 ^ 11 <= prod < 10 ^ 15 -> exists l, 11 <= l <= 14 /\ 10 ^ l <= prod < 10 * 10 ^ l.
Proof.
  intros Hp. change (10 ^ 11) with 100000000000 in Hp. change (10 ^ 15) with 1000000000000000 in Hp.
  destruct (Z.lt_ge_cases prod 1000000000000); [exists 11; change (10 ^ 11) with 100000000000; lia|].
  destruct (Z.lt_ge_cases prod 10000000000000); [exists 12; change (10 ^ 12) with 1000000000000; lia|].
  destruct (Z.lt_ge_cases prod 100000000000000); [exists 13; change (10 ^ 13) with 10000000000000; lia|].
  exists 14. change (10 ^ 14) with 100000000000000. lia.
Qed.

Lemma fexp_byte x : 0 <= fexp x < 256.
Proof. unfold fexp. destr_if; apply Z.mod_pos_bound; lia. Qed.

Lemma full_frac x : 2 ^ 23 <= Z.lor (Z.land x 0x007fffff) (Z.shiftl 1 23) < 2 ^ 24.
Proof.
  change 8388607 with (Z.ones 23). rewrite Z.land_ones by lia. pose proof (Z.mod_pos_bound x (2 ^ 23) ltac:(lia)) as B.
  set (a := x mod 2 ^ 23) in *.
  assert (Z.lor a (Z.shiftl 1 23) = a + 2 ^ 23) as ->; [|lia].
  pose proof (Z.add_lor_land a (Z.shiftl 1 23)) as E. change (Z.shiftl 1 23) with (2 ^ 23) in *.
  assert (Z.land a (2 ^ 23) = 0); [|lia]. apply land_eq_0. intros i Hi Ht.
  rewrite Z.pow2_bits_eqb in Ht by lia. apply Z.eqb_eq in Ht as <-. apply (testbit_high 23 a); lia.
Qed.

(** Cutting at [10^u] and rounding half up is within half a unit. *)
Lemma round_half prod u : 0 < u -> let t := 10 ^ u in
  0 <= prod mod t < t /\ prod = t * (prod / t) + prod mod t /\ Z.shiftr t 1 = t / 2 /\ t = 2 * (t / 2).
Proof.
  intros Hu t. assert (Ht : 0 < t) by (apply pow10_pos; lia).
  split; [apply Z.mod_pos_bound; lia|]. split; [apply Z.div_mod; lia|]. split.
  - by rewrite Z.shiftr_div_pow2 by lia.
  - assert (E : t = 2 * (5 * 10 ^ (u - 1))) by (unfold t; replace u with (1 + (u - 1)) at 1 by lia; rewrite Z.pow_add_r by lia; lia).
    rewrite E, (Z.mul_comm 2 (5 * _)), Z.div_mul by lia. lia.
Qed.

Lemma up_close t h q m prod : t = 2 * h -> m < t -> prod = t * q + m -> h <= m -> 2 * Z.abs ((q + 1) * t - prod) <= t.
Proof. intros. replace ((q + 1) * t - prod) with (t - m) by (subst prod; ring). lia. Qed.

Lemma down_close t h q m prod : t = 2 * h -> 0 <= m -> prod = t * q + m -> m < h -> 2 * Z.abs (q * t - prod) <= t.
Proof. intros. replace (q * t - prod) with (- m) by (subst prod; ring). lia. Qed.

(** ** Theorems *)

Module FtoaSpec.

(** The digits are correctly rounded.  For every float with a nonzero exponent, and
    every precision and limit of decimals, [ftoa_engine] returns; it has written the
    flags and between 1 and 8 decimal digits, the first not 0, and touched nothing
    after them; and the digits, taken with the exponent it returns, are within half
    a unit of the last one of the scaled value. *)
Theorem ftoa_rounds fuel x buf precision maxDecimals :
  fexp x <> 0 -> 0 <= precision -> (9 <= length buf)%nat -> (30 < fuel)%nat ->
  let frac := Z.lor (Z.land x 0x007fffff) (Z.shiftl 1 23) in
  exists tbl prod flags c ds e,
    aget exponentTable (Z.shiftr (fexp x) 3) = Ok tbl /\ scaled (fexp x) frac = Ok prod /\
    ftoa_engine fuel x buf precision maxDecimals = Ok (flags :: (c :: ds) ++ drop (2 + length ds) buf, e) /\
    (length ds <= 7)%nat /\ Forall is_digit (c :: ds) /\ c <> 48 /\
    let u := 14 + (e - tbl) - Z.of_nat (length ds) in
    0 <= u /\ 2 * Z.abs (num (c :: ds) * 10 ^ u - prod) <= 10 ^ u.
Proof.
  intros Hx Hp Hb Hf frac. pose proof (fexp_byte x) as He. pose proof (full_frac x) as Hfr. fold frac in Hfr.
  destruct (scaled_ok (fexp x) frac ltac:(lia) Hfr) as (prod & Hprod & Hrange).
  destruct (power_of prod Hrange) as (l & Hl & Hpl).
  assert (Htbl : exists tbl, aget exponentTable (Z.shiftr (fexp x) 3) = Ok tbl /\ -36 <= tbl <= 39).
  { destruct (aget_is_ok exponentTable (Z.shiftr (fexp x) 3)) as (tbl & Ht & Hl').
    - rewrite Z.shiftr_div_pow2 by lia. split; [apply Z.div_pos; lia|]. apply Z.div_lt_upper_bound; [lia|cbn; lia].
    - exists tbl. split; [done|]. apply list_elem_of_lookup_2, list_elem_of_In in Hl'.
      assert (Hall : forallb (fun t => (-36 <=? t) && (t <=? 39)) exponentTable = true) by reflexivity.
      rewrite forallb_forall in Hall. specialize (Hall _ Hl'). breflect. lia. }
  destruct Htbl as (tbl & Ht & Htr). exists tbl, prod.
  destruct buf as [|b0 buf]; [cbn in Hb; lia|]. cbn [length] in Hb.
  set (p := if 7 <? precision then 7 else precision).
  assert (Hpr : 0 <= p <= 7) by (unfold p; destruct (Z.ltb_spec 7 precision); lia).
  destruct (all_digits_ok maxDecimals fuel prod l tbl p b0 buf ltac:(lia) Hpl Hf ltac:(lia) Hpr ltac:(lia))
    as (c & ds & Hlen & Hds & Hc & Hnum & Hloop).
  set (w := digits_wanted p maxDecimals (tbl - (14 - l))) in *. set (n := Z.to_nat (Z.max 1 w)) in *.
  set (u := l - Z.of_nat n + 1) in *.
  pose proof (digits_wanted_range maxDecimals p (tbl - (14 - l)) Hpr) as Hw. fold w in Hw.
  assert (Hn : (1 <= n <= 8)%nat) by (unfold n; lia). cbn [length] in Hlen.
  destruct (round_half prod u ltac:(unfold u; lia)) as (Bm & Em & Es & Eh). set (t := 10 ^ u) in *.
  assert (Et : 10 ^ (u - 1) * 10 = t) by (unfold t; rewrite Z.mul_comm, <- Z.pow_succ_r by (unfold u; lia); f_equal; lia).
  unfold ftoa_engine. rewrite (proj2 (Z.eqb_neq (fexp x) 0)) by done. cbn [andb negb]. fold p frac.
  rewrite Ht. cbn [obind]. rewrite Hprod. cbn [obind]. change 100000000000000 with (10 ^ 14). rewrite Hloop.
  cbn [obind f_decimal f_prod f_exp10 orb]. rewrite Et, Es.
  match goal with |- context [roundup _ _ _ ?f] => set (fl := f) end.
  assert (Hset : forall y (ds2 : list Z), aset (b0 :: ds2) 0 y = Ok (y :: ds2)) by (intros; by rewrite aset_ok by (cbn [length]; lia)).
  assert (Hdrop : drop n buf = drop (1 + length ds) buf) by (f_equal; lia).
  destruct (Z.leb_spec 0 (prod mod t - t / 2)) as [Hup|Hdn].
  - replace (Z.to_nat (Z.of_nat n)) with (S (length ds)) by lia.
    destruct (roundup_ok b0 c ds (drop n buf) (tbl - (14 - l)) fl Hds Hc ltac:(lia)) as (c' & ds' & Hl2 & Hds2 & Hc2 & Hcase).
    destruct Hcase as [[Hn2 ->]|[Hn2 ->]]; cbn [obind].
    + eexists fl, c', ds', _. split; [done|]. split; [done|]. cbn [app]. rewrite Hset. cbn [obind drop Nat.add].
      split; [rewrite Hdrop, Hl2; reflexivity|]. split; [lia|]. split; [done|]. split; [done|].
      cbn zeta. replace (14 + (tbl - (14 - l) - tbl) - Z.of_nat (length ds')) with u by (unfold u; lia). fold t.
      split; [unfold u; lia|]. rewrite Hn2, Hnum. apply (up_close _ (t / 2) _ (prod mod t)); lia.
    + eexists _, c', ds', _. split; [done|]. split; [done|]. cbn [app]. rewrite Hset. cbn [obind drop Nat.add].
      split; [rewrite Hdrop, Hl2; reflexivity|]. split; [lia|]. split; [done|]. split; [done|].
      cbn zeta. replace (14 + (tbl - (14 - l) + 1 - tbl) - Z.of_nat (length ds')) with (u + 1) by (unfold u; lia).
      split; [unfold u; lia|]. rewrite Z.pow_add_r by (unfold u; lia). fold t. change (10 ^ 1) with 10.
      replace (num (c' :: ds') * (t * 10)) with ((10 * num (c' :: ds')) * t) by ring. rewrite Hn2, Hnum.
      pose proof (up_close t (t / 2) (prod / t) (prod mod t) prod Eh ltac:(lia) Em ltac:(lia)). lia.
  - cbn [obind]. eexists _, c, ds, _. split; [done|]. split; [done|]. cbn [app]. rewrite Hset. cbn [obind drop Nat.add].
    split; [rewrite Hdrop; reflexivity|]. split; [lia|]. split; [done|]. split; [done|].
    cbn zeta. replace (14 + (tbl - (14 - l) - tbl) - Z.of_nat (length ds)) with u by (unfold u; lia). fold t.
    split; [unfold u; lia|]. rewrite Hnum. apply (down_close _ (t / 2) _ (prod mod t)); lia.
Qed.

(** 0.99999994 to four digits: the carry makes it 1.000. *)
Lemma ftoa_rounds_witness :
  exists ds e, ftoa_engine 40 0x3f7fffff (replicate 9 0) 3 0 = Ok (ds, e) /\ take 5 ds = [16; 49; 48; 48; 48] /\ e = 0 /\
    exists prod, scaled (fexp 0x3f7fffff) 0xffffff = Ok prod /\ 2 * Z.abs (1000 * 10 ^ 11 - prod) <= 10 ^ 11.
Proof.
  destruct (ftoa_rounds 40 0x3f7fffff (replicate 9 0) 3 0) as (tbl & prod & fl & c & ds & e & Ht & Hs & Heq & H);
    [vm_compute; discriminate|lia|cbn; lia|lia|].
  vm_compute in Ht, Heq. injection Ht as <-. injection Heq as <- <- Hds <-. 
  vm_compute in Hs. eexists _, _. split; [vm_compute; reflexivity|]. split; [reflexivity|]. split; [reflexivity|].
  exists prod. split; [exact Hs|]. injection Hs as <-. vm_compute. discriminate.
Defined.

(** Once the power of ten is used up, taking a digit off never ends. *)
Lemma sub_zero_hangs fuel prod digit : 0 <= prod -> sub_loop fuel prod 0 digit = Diverge.
Proof.
  intros Hp. revert digit. induction fuel as [|fuel IH]; intros digit; [done|]. cbn [sub_loop].
  rewrite Z.sub_0_r, (proj2 (Z.leb_le 0 prod)) by lia. apply IH.
Qed.

(** That happens for the smallest subnormal: after five digits [decimal] is 0. *)
Example subnormal_hangs : ftoa_engine 3000 1 (replicate 9 0) 7 0 = Diverge.
Proof. vm_compute. reflexivity. Qed.

End FtoaSpec.
