(* ===== verification/Output.v ===== *)
(** * Kernel output: the properties of formatted output and of the serial port

    What [kprintf] puts on the line ([kprintf_prints]), the numerals it writes,
    the bounds of the floating-point digits, and the formats that do not end or
    print something else than digits. *)

From Stdlib Require Import ZArith Lia Bool Ascii String SpecFloat.
From stdpp Require Import base numbers list gmap.
From S2P Require Import Prelude Libc Uart Dtoa Printf PrintfSpec.
#[local] Open Scope Z_scope.

(** ** No access outside the digits of a double *)

Lemma byte_u8 v : is_byte (u8 v).
Proof. apply Z.mod_pos_bound. lia. Qed.

Lemma flt_setup_range c f prec :
  0 <= (flt_setup c f prec).1.1.1 <= DTOA_MAX_DIG /\ 0 <= (flt_setup c f prec).1.1.2.
Proof.
  unfold flt_setup. set (p := if negb (has f FL_PREC) then 6 else prec). clearbody p.
  pose proof (byte_u8 p) as H1. pose proof (byte_u8 (p + 1)) as H2. unfold is_byte in *.
  destruct (c =? 101); [|destruct (c =? 102)]; change DTOA_MAX_DIG with 15; cbn [fst snd];
    destr_if; breflect; cbn [fst snd]; lia.
Qed.

(** [safe P r]: [r] does not fault, and what it returns satisfies [P]. *)
Definition safe {A} (P : A -> Prop) (r : outcome A) : Prop :=
  match r with Ok a => P a | Fault => False | _ => True end.

Lemma safe_bind {A B} (P : A -> Prop) (Q : B -> Prop) (r : outcome A) (k : A -> outcome B) :
  safe P r -> (forall a, P a -> safe Q (k a)) -> safe Q (let! a := r in k a).
Proof. intros Hr Hk. destruct r; try done. by apply Hk. Qed.

Lemma safe_aget (ds : list Z) i : length ds = 16%nat -> 0 <= i < 16 -> safe (fun _ => True) (aget ds i).
Proof. intros Hl Hi. destruct (aget_is_ok ds i) as (x & -> & _); [lia|done]. Qed.

Lemma safe_put_while fuel c n : safe (fun _ => True) (put_while fuel c n).
Proof.
  revert n. induction fuel as [|fuel IH]; intros n; simpl; [done|]. destr_if; [done|].
  eapply safe_bind; [apply IH|done].
Qed.

Lemma safe_special fuel dflags f sign w : safe (fun _ => True) (flt_special fuel dflags f sign w).
Proof.
  unfold flt_special. eapply (safe_bind (fun _ => True)).
  - destr_if; [|done]. destr_if; [|done]. eapply safe_bind; [apply safe_put_while|done].
  - intros [pad w1] _. eapply safe_bind; [apply safe_put_while|done].
Qed.

Lemma safe_strip ds n : length ds = 16%nat -> (n <= 16)%nat -> safe (fun k => 0 <= k <= Z.of_nat n) (strip_zeros n ds).
Proof.
  intros Hl. induction n as [|n IH]; intros Hn; cbn [strip_zeros]; [simpl; lia|].
  eapply safe_bind; [apply safe_aget; [done|lia]|]. intros d _. destr_if; [|simpl; lia].
  specialize (IH ltac:(lia)). destruct (strip_zeros n ds); simpl in *; [lia|done..].
Qed.

Lemma safe_general exp nd ds f :
  length ds = 16%nat -> 0 <= nd <= 16 -> safe (fun r => 0 <= r.1.1 <= 16) (flt_general exp nd ds f).
Proof.
  intros Hl Hn. unfold flt_general.
  eapply safe_bind; [apply (safe_strip ds (Z.to_nat nd)); [done|lia]|]. intros k Hk. simpl in Hk.
  destr_if; cbn [safe fst]; lia.
Qed.

Lemma safe_lead fuel f sign w : safe (fun _ => True) (flt_lead fuel f sign w).
Proof.
  unfold flt_lead. eapply (safe_bind (fun _ => True)).
  - destr_if; [|done]. eapply safe_bind; [apply safe_put_while|done].
  - intros [sp w1] _. eapply (safe_bind (fun _ => True)); [|by intros [zs w2]].
    destr_if; [|done]. eapply safe_bind; [apply safe_put_while|done].
Qed.

Lemma safe_fix fuel exp dflags nd ds f prec :
  length ds = 16%nat -> 0 <= nd <= 16 -> safe (fun _ => True) (flt_fix fuel exp dflags nd ds f prec).
Proof.
  intros Hl Hn. unfold flt_fix. eapply (safe_bind (fun _ => True)).
  - generalize (if 0 <? exp then exp else 0). induction fuel as [|fuel IH]; intros n; cbn [fix_loop]; [done|].
    eapply (safe_bind (fun _ => True)).
    + unfold flt_digit. destr_if; [|done]. breflect. apply safe_aget; [done|lia].
    + intros out _. destr_if; [done|]. eapply safe_bind; [apply IH|]. by intros [[r n1] last] _.
  - intros [[r n] out] _. eapply safe_bind; [apply safe_aget; [done|lia]|]. done.
Qed.

Lemma safe_exp fuel exp dflags nd ds f prec :
  length ds = 16%nat -> 0 <= nd <= 16 -> safe (fun _ => True) (flt_exp fuel exp dflags nd ds f prec).
Proof.
  intros Hl Hn. unfold flt_exp. eapply safe_bind; [apply safe_aget; [done|lia]|]. intros d0 _.
  eapply (safe_bind (fun _ => True)).
  - destr_if; [|done]. eapply (safe_bind (fun _ => True)); [|done].
    assert (Hpos : 0 <= 1) by lia. revert Hpos. generalize 1.
    induction fuel as [|fuel IH]; intros pos Hpos; cbn [exp_loop]; [done|]. destr_if; [|done].
    eapply (safe_bind (fun _ => True)).
    + destr_if; [|done]. breflect. apply safe_aget; [done|lia].
    + intros d _. eapply safe_bind; [apply IH; apply Z.mod_pos_bound; lia|done].
  - intros mant _. destruct (if (exp <? 0) || _ then _ else _) as [e sg].
    eapply (safe_bind (fun _ => True)); [|by intros [t e1]].
    generalize 48. revert e. clear. induction fuel as [|fuel IH]; intros e t; cbn [tens]; [done|]. by destr_if.
Qed.

Lemma flt_oper_safe fuel c f w p v ap :
  safe (fun r => r.2 = ap) (flt_oper fuel c (MkSpec f w p (VDouble v :: ap))).
Proof.
  unfold flt_oper. cbn [flags prec width Printf.ap]. pose proof (flt_setup_range c f p) as Hr.
  destruct (flt_setup c f p) as [[[nd ndec] f1] p1]. cbn [fst snd va_double obind] in *.
  destruct (dtoa_engine_ok v (replicate 16 0) nd ndec) as (d & n & -> & Hl & _ & Hn & _);
    [apply length_replicate|apply Forall_replicate; lia|apply Hr..|]. cbn [obind].
  assert (Hn8 : 0 <= u8 n <= 16).
  { unfold u8. change DTOA_MAX_DIG with 15 in Hr. rewrite Z.mod_small; lia. }
  destr_if; [eapply safe_bind; [apply safe_special|]; done|].
  eapply (safe_bind (fun r => 0 <= r.1.1 <= 16)); [destr_if; [by apply safe_general|done]|].
  intros [[nd1 f2] p2] Hnd1. cbn [fst] in Hnd1.
  eapply safe_bind; [apply safe_lead|]. intros [lead w1] _.
  eapply (safe_bind (fun _ => True)); [destr_if; [by apply safe_fix|by apply safe_exp]|]. intros body _.
  eapply safe_bind; [apply safe_put_while|]. done.
Qed.

(** ** The conversions of floating point end *)

(** [total P r]: [r] returns, and what it returns satisfies [P]. *)
Definition total {A} (P : A -> Prop) (r : outcome A) : Prop := match r with Ok a => P a | _ => False end.

Lemma total_bind {A B} (P : A -> Prop) (Q : B -> Prop) (r : outcome A) (k : A -> outcome B) :
  total P r -> (forall a, P a -> total Q (k a)) -> total Q (let! a := r in k a).
Proof. intros Hr Hk. destruct r; try done. by apply Hk. Qed.

Lemma total_aget (ds : list Z) i : length ds = 16%nat -> 0 <= i < 16 -> total (fun _ => True) (aget ds i).
Proof. intros Hl Hi. destruct (aget_is_ok ds i) as (x & -> & _); [lia|done]. Qed.

Lemma total_put_while fuel c n : 0 <= n < 2 ^ 31 -> (Z.to_nat n < fuel)%nat -> total (fun _ => True) (put_while fuel c n).
Proof.
  revert n. induction fuel as [|fuel IH]; intros n Hn Hf; [lia|]. cbn [put_while].
  destruct (Z.eqb_spec n 0); [done|]. rewrite s32_id by lia. eapply total_bind; [apply IH; lia|done].
Qed.

Section Ends.
Context (fuel : nat) (w : Z).
Hypothesis Hw : 0 <= w < 2 ^ 31.
Hypothesis Hfuel : (Z.to_nat w + 1000 <= fuel)%nat.

Lemma total_pad c n : 0 <= n <= w -> total (fun _ => True) (put_while fuel c n).
Proof. intros Hn. apply total_put_while; lia. Qed.

Lemma total_special dflags f sign : total (fun _ => True) (flt_special fuel dflags f sign w).
Proof.
  unfold flt_special. set (nd := if negb (sign =? 0) then 4 else 3).
  assert (0 <= nd) by (unfold nd; destr_if; lia). clearbody nd.
  eapply (total_bind (fun r => 0 <= r.2 <= w)).
  - destruct (Z.ltb_spec nd w); [|cbn [total snd]; lia]. destr_if; [|cbn [total snd]; lia].
    eapply total_bind; [apply total_pad; lia|]. intros r _. cbn [total snd]. lia.
  - intros [pad w1] H1. eapply total_bind; [by apply total_pad|done].
Qed.

Lemma total_strip ds n : length ds = 16%nat -> (n <= 16)%nat -> total (fun k => 0 <= k <= Z.of_nat n) (strip_zeros n ds).
Proof.
  intros Hl. induction n as [|n IH]; intros Hn; cbn [strip_zeros]; [cbn; lia|].
  eapply total_bind; [apply total_aget; [done|lia]|]. intros d _. destr_if; [|cbn; lia].
  specialize (IH ltac:(lia)). destruct (strip_zeros n ds); cbn in *; [lia|done..].
Qed.

Lemma total_general exp nd ds f : length ds = 16%nat -> 0 <= nd <= 16 ->
  total (fun r => 0 <= r.1.1 <= 16 /\ -1 <= r.2 <= 20) (flt_general exp nd ds f).
Proof.
  intros Hl Hn. unfold flt_general.
  eapply total_bind; [apply (total_strip ds (Z.to_nat nd)); [done|lia]|]. intros k Hk. cbn in Hk.
  destruct (Z.leb_spec (-4) exp); cbn [andb]; [|cbn; lia]. destruct (Z.ltb_spec exp nd); [|cbn; lia].
  cbn [total fst snd]. destruct (Z.ltb_spec exp 0), (Z.ltb_spec exp k); cbn [orb]; lia.
Qed.

Lemma total_lead f sign n : 0 <= n <= w -> total (fun r => 0 <= r.2 <= w) (flt_lead fuel f sign n).
Proof.
  intros Hn. unfold flt_lead. eapply (total_bind (fun r => 0 <= r.2 <= w)).
  - destr_if; [|done]. eapply total_bind; [by apply total_pad|]. intros r _. cbn. lia.
  - intros [sp w1] H1. eapply (total_bind (fun r => 0 <= r.2 <= w)); [|by intros [zs w2]].
    destr_if; [|done]. eapply total_bind; [by apply total_pad|]. intros r _. cbn. lia.
Qed.

Lemma total_fix exp dflags nd ds f prec : length ds = 16%nat -> 0 <= nd <= 16 -> exp <= 527 -> prec < 255 ->
  total (fun _ => True) (flt_fix fuel exp dflags nd ds f prec).
Proof.
  intros Hl Hn He Hp. unfold flt_fix. eapply (total_bind (fun _ => True)).
  - set (n := if 0 <? exp then exp else 0). assert (Hn0 : n <= 527) by (unfold n; destr_if; lia). clearbody n.
    assert (Hm : (Z.to_nat (n + prec) < fuel)%nat) by lia. clear Hfuel Hn0. revert n Hm.
    induction fuel as [|k IH]; intros n Hm; [lia|]. cbn [fix_loop].
    eapply (total_bind (fun _ => True)).
    + unfold flt_digit. destr_if; [|done]. breflect. apply total_aget; [done|lia].
    + intros out _. destruct (Z.ltb_spec (n - 1) (- prec)); [done|]. eapply total_bind; [apply IH; lia|]. by intros [[r n1] last] _.
  - intros [[r n] out] _. eapply total_bind; [apply total_aget; [done|lia]|]. done.
Qed.

Lemma total_exp_loop k nd ds prec pos : length ds = 16%nat -> nd <= 16 -> prec < 255 -> 1 <= pos <= prec + 1 ->
  (Z.to_nat (prec + 1 - pos) < k)%nat -> total (fun _ => True) (exp_loop k nd ds prec pos).
Proof.
  intros Hl Hn Hp. revert pos. induction k as [|k IH]; intros pos Hpos Hm; [lia|]. cbn [exp_loop].
  destruct (Z.ltb_spec pos (1 + prec)); [|done]. eapply (total_bind (fun _ => True)).
  - destruct (Z.ltb_spec pos nd); [|done]. apply total_aget; [done|lia].
  - intros d _. unfold u8. rewrite Z.mod_small by lia. eapply total_bind; [apply IH; lia|done].
Qed.

Lemma total_exp exp dflags nd ds f prec : length ds = 16%nat -> 0 <= nd <= 16 -> Z.abs exp <= 527 -> prec < 255 ->
  total (fun _ => True) (flt_exp fuel exp dflags nd ds f prec).
Proof.
  intros Hl Hn He Hp. unfold flt_exp. eapply total_bind; [apply total_aget; [done|lia]|]. intros d0 _.
  eapply (total_bind (fun _ => True)).
  - destruct (Z.ltb_spec 0 prec); [|done]. eapply (total_bind (fun _ => True)); [|done].
    apply total_exp_loop; done || lia.
  - intros mant _.
    set (q := if (exp <? 0) || _ then _ else _). assert (Hq : q.1 <= 527) by (unfold q; destr_if; cbn [fst]; lia).
    destruct q as [e sg]. cbn [fst] in Hq. eapply (total_bind (fun _ => True)); [|by intros [t e1]].
    assert (Hm : (Z.to_nat e < 10 * fuel)%nat) by lia. clear - Hm. generalize (chr "0"%char) as t. revert e Hm.
    induction fuel as [|k IH]; intros e Hm t; [lia|]. cbn [tens]. destruct (Z.leb_spec 10 e); [|done]. apply IH. lia.
Qed.

Lemma flt_oper_total c f p v ap : 0 <= p < 255 ->
  total (fun r => r.2 = ap) (flt_oper fuel c (MkSpec f w p (VDouble v :: ap))).
Proof.
  intros Hp. unfold flt_oper. cbn [flags prec width Printf.ap]. pose proof (flt_setup_range c f p) as Hr.
  assert (Hp1 : 0 <= (flt_setup c f p).2 < 255).
  { unfold flt_setup. destruct (negb (has f FL_PREC)); destruct (c =? chr "e"%char); [| |destruct (c =? chr "f"%char)..];
      repeat destr_if; cbn [snd]; lia. }
  destruct (flt_setup c f p) as [[[nd ndec] f1] p1]. cbn [fst snd va_double obind] in *.
  destruct (dtoa_engine_ok v (replicate 16 0) nd ndec) as (d & n & -> & Hl & _ & Hn & _ & He);
    [apply length_replicate|apply Forall_replicate; lia|apply Hr..|]. cbn [obind].
  assert (Hn8 : 0 <= u8 n <= 16).
  { unfold u8. change DTOA_MAX_DIG with 15 in Hr. rewrite Z.mod_small; lia. }
  destr_if; [eapply total_bind; [apply total_special|]; done|].
  eapply (total_bind (fun r => 0 <= r.1.1 <= 16 /\ -1 <= r.2 < 255)).
  { destr_if; [|cbn; lia]. pose proof (total_general (exp d) (u8 n) (digits d) f1 Hl Hn8) as Hg.
    destruct (flt_general _ _ _ _); cbn in *; [lia|done..]. }
  intros [[nd1 f2] p2] [Hnd1 Hp2]. cbn [fst snd] in Hnd1, Hp2.
  set (sign := flt_sign (Dtoa.flags d) f1).
  assert (Hlen : 0 <= flt_len (exp d) f2 sign p2).
  { unfold flt_len. set (n0 := if has f2 FL_FLTFIX then _ else 5). assert (1 <= n0 <= 528) by (unfold n0; repeat destr_if; breflect; lia).
    clearbody n0. assert (1 <= (if negb (sign =? 0) then n0 + 1 else n0) <= 529) by (destr_if; lia).
    destr_if; [rewrite s32_id by lia; lia|]. destr_if; lia. }
  eapply total_bind; [apply total_lead; destruct (Z.ltb_spec (flt_len (exp d) f2 sign p2) w); lia|]. intros [lead w1] Hw1. cbn [snd] in Hw1.
  eapply (total_bind (fun _ => True)); [destr_if; [apply total_fix|apply total_exp]; done || lia|]. intros body _.
  eapply total_bind; [by apply total_pad|]. done.
Qed.
End Ends.

(** ** Theorems *)

Module OutputSpec.

(** *** A concrete format *)

(** The bytes of [l] from address [a] on. *)
Definition bytes_at (a : Z) (l : list Z) : memory := list_to_map (imap (fun i c => (a + Z.of_nat i, c)) l).

Definition lit (s : string) : list item := map Char (chars s).

(** ["irq %-4u at %#010lx: %s\n"] *)
Definition sample_items : list item :=
  lit "irq " ++ [Dir (MkDir true false false false false (NLit 4) NNone Snone Cu)] ++
  lit " at " ++ [Dir (MkDir false false false true true (NLit 10) NNone Sl Cx)] ++
  lit ": " ++ [Dir (MkDir false false false false false NNone NNone Snone Cs); Char 10].

Definition sample_memory : memory := bytes_at 4096 (fmt_chars sample_items ++ [0]) ∪ bytes_at 8192 (chars "timer" ++ [0]).
Definition sample_args : list varg := [VInt 27; VInt 0x8000; VInt 8192].
Definition sample_text : list Z := chars "irq 27   at 0x00008000: timer" ++ [10].

Example sample_spelling : fmt_chars sample_items = chars "irq %-4u at %#010lx: %s" ++ [10].
Proof. vm_compute. reflexivity. Qed.

Ltac holds_bytes :=
  repeat (apply holds_cons; split; [vm_compute; reflexivity|]); let i := fresh in intros i ? ?; done.

Lemma sample_format : holds sample_memory 4096 (fmt_chars sample_items ++ [0]).
Proof.
  let l := eval vm_compute in (fmt_chars sample_items ++ [0]) in change (fmt_chars sample_items ++ [0]) with l.
  holds_bytes.
Qed.

Lemma sample_string : cstr sample_memory 8192 (chars "timer").
Proof.
  split; [repeat constructor|].
  let l := eval vm_compute in (chars "timer" ++ [0]) in change (chars "timer" ++ [0]) with l. holds_bytes.
Qed.

Lemma renders_lit m s its ap text :
  forallb (fun c => (0 <? c) && (c <? 256)) (chars s) = true ->
  renders m its ap text -> renders m (lit s ++ its) ap (chars s ++ text).
Proof.
  unfold lit. induction (chars s) as [|c cs IH]; simpl; intros Hf H; [done|].
  apply andb_true_iff in Hf as [Hc Hf]. breflect. constructor; [lia|]. by apply IH.
Qed.

Lemma sample_renders : renders sample_memory sample_items sample_args sample_text.
Proof.
  unfold sample_items, sample_args, sample_text. change (chars "irq 27   at 0x00008000: timer" ++ [10])
    with (chars "irq " ++ (chars "27  " ++ (chars " at " ++ (chars "0x00008000" ++ (chars ": " ++ (chars "timer" ++ [10])))))).
  apply renders_lit; [done|].
  eapply (renders_dir _ _ _ _ (Some 4) _ None); [constructor; lia|done|constructor| |done|].
  { change (chars "27  ") with (int_text (MkDir true false false false false (NLit 4) NNone Snone Cu) true 4 None 27).
    apply text_int; simpl; try done; try lia; intros [] ?; done. }
  apply renders_lit; [done|].
  eapply (renders_dir _ _ _ _ (Some 10) _ None); [constructor; lia|done|constructor| |done|].
  { change (chars "0x00008000") with (int_text (MkDir false false false true true (NLit 10) NNone Sl Cx) false 10 None 0x8000).
    apply text_int; simpl; try done; try lia; intros [] ?; done. }
  apply renders_lit; [done|].
  eapply (renders_dir _ _ _ _ None _ None); [constructor|done|constructor| |done|].
  { change (chars "timer") with (pad false 0 (truncated None (chars "timer"))).
    apply (text_str _ _ _ _ _ _ (chars "timer")); [done|done|apply sample_string|done]. }
  apply renders_char; [lia|constructor].
Qed.

(** *** The refinement *)

(** C7: [kprintf] implements its format.  When the format in memory spells a list
    of items whose meaning for the arguments is [text] (characters, integers in
    every base and size, strings, widths, precisions, flags and nested formats),
    then it returns, having printed the prefix and exactly [text]; and on a
    transmitter that drains, those characters reach the line in order, each
    newline preceded by a carriage return and each character written only when the
    device had room. *)
Theorem kprintf_prints fr m fmt its ap text d k :
  holds m fmt (fmt_chars its ++ [0]) -> renders m its ap text ->
  drains fr k -> respects_fifo fr (base d) (trace d) ->
  (exists n, forall fuel, (n <= fuel)%nat -> kprintf fuel m fmt ap = Ok (print_prefix ++ text)) /\
  exists d', put_all fr k (print_prefix ++ text) d = Ok d' /\
    sent d' = sent d ++ chars "[K] " ++ flat_map crlf text /\ respects_fifo fr (base d) (trace d').
Proof.
  intros Hh Hr Hd Hf. split.
  - destruct (vprintf_renders _ _ _ _ Hr _ Hh) as [n Hn]. exists n. intros fuel Hfuel.
    unfold kprintf. by rewrite Hn.
  - destruct (put_all_spec fr k (print_prefix ++ text) d Hd Hf) as (d' & Hp & _ & Hs & Hr').
    exists d'. rewrite Hs, flat_map_app. done.
Qed.

Lemma kprintf_prints_witness :
  (exists n, forall fuel, (n <= fuel)%nat ->
     kprintf fuel sample_memory 4096 sample_args = Ok (print_prefix ++ sample_text)) /\
  exists d', put_all (fun n => if Nat.even n then 32 else 0) 2 (print_prefix ++ sample_text) (MkUart 0x9000000 []) = Ok d' /\
    sent d' = chars "[K] " ++ flat_map crlf sample_text /\
    respects_fifo (fun n => if Nat.even n then 32 else 0) 0x9000000 (trace d').
Proof.
  apply (kprintf_prints (fun n => if Nat.even n then 32 else 0) sample_memory 4096 sample_items sample_args sample_text
           (MkUart 0x9000000 []) 2).
  - apply sample_format.
  - apply sample_renders.
  - intros t. destruct (Nat.even t) eqn:E.
    + exists 1%nat. split; [lia|]. rewrite Nat.add_1_r, Nat.even_succ, <- Nat.negb_even, E. reflexivity.
    + exists 0%nat. split; [lia|]. rewrite Nat.add_0_r, E. reflexivity.
  - exact I.
Defined.

(** *** Numerals *)

(** C20: [__ultoa_invert] writes a numeral that reads back as the number.  For the
    bases of the conversions and every 64-bit value it writes between 1 and 22
    bytes (the size of the buffer), which read from the last to the first are the
    numeral of the value in that base, without a leading zero unless the value is 0;
    the rest of the buffer is untouched. *)
Theorem ultoa_roundtrip fuel x base buf :
  known_base base -> 0 <= x < 2 ^ 64 -> (buf_size <= fuel)%nat -> length buf = buf_size ->
  exists buf' n, __ultoa_invert fuel x buf base = Ok (buf', Z.of_nat n) /\ (1 <= n <= buf_size)%nat /\
    read_numeral (real_base base) (rev (take n buf')) = Some x /\
    (x <> 0 -> head (rev (take n buf')) <> Some 48) /\ drop n buf' = drop n buf.
Proof.
  intros Hk Hx Hf Hl. destruct (ultoa_ok fuel x base buf Hk Hx Hf Hl) as [Hlen Hu].
  destruct (known_base_range _ Hk) as [Hb Hpw].
  assert (Hx22 : 0 <= x < real_base base ^ Z.of_nat buf_size) by (change (Z.of_nat buf_size) with 22; lia).
  assert (Hbs : (0 < buf_size)%nat) by (unfold buf_size; lia).
  pose proof (read_numeral_digits (real_base base) Hb (has base XTOA_UPPER) buf_size x Hx22 Hbs) as Hr.
  pose proof (digits_last (real_base base) Hb buf_size x Hx22 Hbs) as Hlast.
  pose proof (digits_bound (real_base base) Hb buf_size x ltac:(lia)) as Hbd.
  eexists _, _. split; [exact Hu|]. split; [lia|].
  rewrite take_app_length' by (by rewrite length_map). split; [done|].
  rewrite drop_app_length' by (by rewrite length_map). split; [|done].
  intros Hx0. destruct (digits_lsb buf_size (real_base base) x) as [|d ds _] eqn:Ed using rev_ind; [done|].
  rewrite map_app, rev_app_distr. cbn. rewrite last_snoc in Hlast. intros [= Hh].
  apply Forall_app in Hbd as [_ Hd]. apply Forall_cons in Hd as [Hd _].
  apply Hx0, Hlast. f_equal. unfold digit_char in Hh. repeat destr_if; breflect; lia.
Qed.

Lemma ultoa_roundtrip_witness :
  exists buf' n, __ultoa_invert 22 (2 ^ 64 - 1) (replicate 22 7) 8 = Ok (buf', Z.of_nat n) /\ (1 <= n <= 22)%nat /\
    read_numeral 8 (rev (take n buf')) = Some (2 ^ 64 - 1) /\
    (2 ^ 64 - 1 <> 0 -> head (rev (take n buf')) <> Some 48) /\ drop n buf' = drop n (replicate 22 7).
Proof.
  apply (ultoa_roundtrip 22 (2 ^ 64 - 1) 8 (replicate 22 7)); [|lia|apply Nat.le_refl|reflexivity].
  apply (bool_decide_unpack _). reflexivity.
Defined.

(** *** Bounds *)

(** C39: the floating-point conversions stay inside their digits and end.  For every
    double (0, infinities, NaN and subnormals included), every flags, width and
    precision, [flt_oper] never reads or writes outside the 16 digits or the tables of
    powers of ten; and for a precision below 255 it returns, having taken exactly one
    argument. *)
Theorem flt_oper_in_bounds fuel c f w p v ap :
  flt_oper fuel c (MkSpec f w p (VDouble v :: ap)) <> Fault /\
  (0 <= w < 2 ^ 31 -> 0 <= p < 255 -> (Z.to_nat w + 1000 <= fuel)%nat ->
   exists out, flt_oper fuel c (MkSpec f w p (VDouble v :: ap)) = Ok (out, ap)).
Proof.
  split.
  - pose proof (flt_oper_safe fuel c f w p v ap) as H. by intros E; rewrite E in H.
  - intros Hw Hp Hf. pose proof (flt_oper_total fuel w Hw Hf c f p v ap Hp) as H.
    destruct (flt_oper fuel c _) as [[out ap']| | |]; try done. cbn in H. subst ap'. by exists out.
Qed.

(** [%8.3f] of the smallest subnormal: the second part applies. *)
Lemma flt_oper_in_bounds_witness :
  exists out, flt_oper 1100 (chr "f"%char) (MkSpec (Z.lor FL_WIDTH FL_PREC) 8 3 [VDouble (const10 494 (-326))]) = Ok (out, []).
Proof. apply (flt_oper_in_bounds 1100 _ _ 8 3 _ []); lia. Defined.

(** *** Formats that go wrong *)

(** a width above 255 never ends.  The length of the text of an integer is kept
    in an [unsigned char], so padding on the left to 256 columns or more is an endless
    loop, whatever the number. *)
Theorem wide_integer_hangs m fmt d rest w v ap :
  wid d = NLit w -> 256 <= w < 2 ^ 31 -> minus d = false -> pre d = NNone -> cv d ∈ [Cd; Ci] ->
  holds m fmt (37 :: dir_chars d ++ rest) ->
  exists n, forall fuel, (n <= fuel)%nat -> kprintf fuel m fmt (VInt v :: ap) = Diverge.
Proof.
  intros Hw Hr Hmi Hp Hc Hh. exists (23 + length (dir_chars d))%nat. intros [|fuel] Hf; [lia|]. unfold kprintf.
  rewrite (vprintf_dir m fuel fmt d rest (VInt v :: ap) (Some w) (VInt v :: ap) None v ap); try done;
    [|rewrite Hw; constructor; lia|intros [= ->]%(eq_trans (eq_sym Hw)); lia|rewrite Hp; constructor
     |intros E; rewrite E in Hc; by apply (bool_decide_pack _) in Hc|lia].
  pose proof (parsed_viewed d (Some w) None (VInt v :: ap)) as V.
  replace (left_of d (Some w)) with false in V by (unfold left_of; rewrite Hmi; symmetry; apply Z.ltb_ge; simpl; lia).
  replace (conv_flags d (flags (parsed d (Some w) None (VInt v :: ap))))
    with (flags (parsed d (Some w) None (VInt v :: ap)))
    by (unfold conv_flags; clear - Hc; set_unfold; by destruct_or!; rewrite Hc).
  unfold width_of. simpl default. rewrite Z.abs_eq by lia.
  rewrite (convert_wide fuel m d _ false); [done|done|done|lia|done|unfold buf_size; lia].
Qed.

(** ["%300d"] *)
Definition wide : directive := MkDir false false false false false (NLit 300) NNone Snone Cd.

Lemma wide_integer_hangs_witness :
  exists n, forall fuel, (n <= fuel)%nat ->
    kprintf fuel (bytes_at 4096 (chars "%300d" ++ [0])) 4096 [VInt 7] = Diverge.
Proof.
  apply (wide_integer_hangs _ 4096 wide [0] 300 7 []); try reflexivity; try lia.
  - apply (bool_decide_unpack _). reflexivity.
  - let l := eval vm_compute in (37 :: dir_chars wide ++ [0]) in change (37 :: dir_chars wide ++ [0]) with l. holds_bytes.
Defined.

(** A format that ends inside a directive: the terminator is taken for the
    conversion, and the scan goes on behind it. *)
Lemma trailing_percent_reads_past m fmt v ap fuel :
  m !! fmt = Some 37 -> m !! (fmt + 1) = Some 0 -> m !! (fmt + 2) = None -> (3 <= fuel)%nat ->
  kprintf fuel m fmt (VInt v :: ap) = Fault.
Proof.
  intros H0 H1 H2 Hf. destruct fuel as [|[|[|fuel]]]; try lia. unfold kprintf. cbn [k_vprintf literal].
  rewrite (load8_ok _ _ _ H0). cbn. rewrite (load8_ok _ _ _ H1). cbn.
  replace (fmt + 1 + 1) with (fmt + 2) by lia. unfold load8. by rewrite H2.
Qed.

(** The text of one directive, for the examples. *)
Definition shows (fmt : string) (ap : list varg) : outcome (list Z) :=
  k_vprintf 600 (bytes_at 4096 (chars fmt ++ [0])) 4096 ap.

(** [#] with the precision 0 looks at the digit before the buffer. *)
Example alt_zero_precision : shows "%#.0x" [VInt 0] = Fault.
Proof. vm_compute. reflexivity. Qed.

(** The tens of the exponent are one character: ten of them give the one after [9]. *)
Example three_digit_exponent : shows "%.1e" [VDouble (const10 15 99)] = Ok (chars "1.5e+:0").
Proof. vm_compute. reflexivity. Qed.

(** The digits of [%e] are counted in a [uint8_t]: from the precision 255 on the loop never ends. *)
Lemma exp_precision_hangs fuel nd ds prec pos :
  length ds = 16%nat -> nd <= 16 -> 255 <= prec -> 0 <= pos < 256 -> exp_loop fuel nd ds prec pos = Diverge.
Proof.
  intros Hl Hn Hp. revert pos. induction fuel as [|fuel IH]; intros pos Hpos; cbn [exp_loop]; [done|].
  rewrite (proj2 (Z.ltb_lt pos (1 + prec))) by lia.
  rewrite IH by (apply Z.mod_pos_bound; lia).
  destruct (Z.ltb_spec pos nd); [|done]. destruct (aget_is_ok ds pos) as (x & -> & _); [lia|done].
Qed.

(** The precision 0 means no limit of decimals, so [%.0f] does not round. *)
Example zero_decimals_truncate :
  shows "%.0f" [VDouble (const10 27 (-1))] = Ok (chars "2") /\ shows "%.0f" [VDouble (const10 7 (-1))] = Ok (chars "1").
Proof. split; vm_compute; reflexivity. Qed.

(** The point of [%#.0f] comes before the last digit. *)
Example alt_point_misplaced : shows "%#.0f" [VDouble (const10 5 0)] = Ok (chars ".5").
Proof. vm_compute. reflexivity. Qed.

(** [%.0g] asks for no digit and prints the terminator of the digits. *)
Example zero_general_prints_nul : shows "%.0g" [VDouble (const10 4 0)] = Ok (0 :: chars "e+00").
Proof. vm_compute. reflexivity. Qed.

(** Two precisions end the output. *)
Example second_point_returns : shows "a%1.2.3db" [VInt 0] = Ok (chars "a").
Proof. vm_compute. reflexivity. Qed.

(** What [kputs] puts on the line ends in two carriage returns and a newline. *)
Lemma kputs_line m s str fuel :
  cstr m s str -> (length str < fuel)%nat ->
  exists out, kputs fuel m s = Ok out /\ flat_map crlf out = chars "[K] " ++ flat_map crlf str ++ [13; 13; 10].
Proof.
  intros Hs Hf. unfold kputs. rewrite (puts_ok m str) by done. eexists. split; [reflexivity|].
  rewrite !flat_map_app. done.
Qed.

End OutputSpec.
