(* ===== verification/Report.v ===== *)
(** * Reports: the page-table dump and the memory map (os/arch/arm64/pagetable.c,
    [dump_pgtable_verbose]; os/core/init/init.c, [dump_image_info])

    The two routines that print kernel state with [_kprintf] and [kprintf].  The
    dump of a page table is compared with a text defined by list comprehension
    over the used descriptors. *)

From Stdlib Require Import ZArith Lia Bool Ascii String.
From Stdlib Require Import SpecFloat.
From stdpp Require Import base numbers list gmap.
From S2P Require Import Prelude Libc Board PageTable Uart Dtoa Printf PrintfSpec Output.
#[local] Open Scope Z_scope.
#[local] Set Warnings "-register-all".

(** ** Formats *)

(** A string literal of the source; ['] stands for the double quote. *)
Definition json (s : string) : list Z := map (fun c => if c =? 39 then 34 else c) (chars s).

(** A literal after [k] spaces, with a newline. *)
Definition line (k : nat) (s : string) : list Z := replicate k 32 ++ json s ++ [10].

(** [_kprintf] of a format in the read-only data. *)
Definition rodata : Z := 4096.
Definition say (fuel : nat) (fmt : list Z) (args : list varg) : outcome (list Z) :=
  _kprintf fuel (OutputSpec.bytes_at rodata (fmt ++ [0])) rodata args.

(** ** The dump of a page table *)

Section Dump.
Context (m : wmem) (is_idmap : bool) (fuel : nat).

(** The table that a descriptor points to. *)
Definition next_table (v : Z) : Z :=
  let p := Z.land v PTE_ADDR_MASK in if is_idmap then p else pbase_to_vbase p.

(** The four lines that open the record of an entry. *)
Definition say_entry (k : nat) (idx addr value : Z) : outcome (list Z) :=
  let! t1 := say fuel (line k "{") [] in
  let! t2 := say fuel (line (k + 4) "'idx': '%ld',") [VInt idx] in
  let! t3 := say fuel (line (k + 4) "'addr': '%p',") [VInt addr] in
  let! t4 := say fuel (line (k + 4) "'value': '0x%lx',") [VInt value] in
  Ok (t1 ++ t2 ++ t3 ++ t4).

(** [if (flag) { flag = 0; _kprintf(...); }] *)
Definition say_once (flag : bool) (fmt : list Z) : outcome (list Z) := if flag then say fuel fmt [] else Ok [].

(** The loop over [n] more entries of a last-level table, from [pte] on. *)
Fixpoint dump_pte (n : nat) (l pte : Z) (pte_flag : bool) : outcome (list Z) :=
  match n with
  | O => Ok []
  | S n =>
      let! v := ldw m pte in
      if negb (v =? 0) then
        let! h := say_once pte_flag (line 27 "'pte': [") in
        let! e := say_entry 31 l pte v in
        let! c := say fuel (line 31 "},") [] in
        let! r := dump_pte n (l + 1) (pte + 8) false in
        Ok (h ++ e ++ c ++ r)
      else dump_pte n (l + 1) (pte + 8) pte_flag
  end.

(** What is below an entry of the second level. *)
Definition dump_below (v : Z) : outcome (list Z) :=
  if Z.land v PTE_TYPE_PAGE =? PTE_TYPE_PAGE then
    let! p := dump_pte 512 0 (next_table v) true in
    let! c := say fuel (line 27 "],") [] in
    Ok (p ++ c)
  else Ok [].

Fixpoint dump_pmd (n : nat) (k pmd : Z) (pmd_flag : bool) : outcome (list Z * bool) :=
  match n with
  | O => Ok ([], pmd_flag)
  | S n =>
      let! v := ldw m pmd in
      if negb (v =? 0) then
        let! h := say_once pmd_flag (line 19 "'pmd': [") in
        let! e := say_entry 23 k pmd v in
        let! b := dump_below v in
        let! c := say fuel (line 23 "},") [] in
        let! (r, pmd_flag) := dump_pmd n (k + 1) (pmd + 8) false in
        Ok (h ++ e ++ b ++ c ++ r, pmd_flag)
      else dump_pmd n (k + 1) (pmd + 8) pmd_flag
  end.

(** With three levels nothing sets [pmd_flag] again. *)
Fixpoint dump_pgd (n : nat) (i pgd : Z) (pgd_flag pmd_flag : bool) : outcome (list Z) :=
  match n with
  | O => Ok []
  | S n =>
      let! v := ldw m pgd in
      if negb (v =? 0) then
        let! h := say_once pgd_flag (line 3 "'pgd': [") in
        let! e := say_entry 7 i pgd v in
        let! (b, pmd_flag) := dump_pmd 512 0 (next_table v) pmd_flag in
        let! c1 := say fuel (line 11 "],") [] in
        let! c2 := say fuel (line 7 "},") [] in
        let! r := dump_pgd n (i + 1) (pgd + 8) false pmd_flag in
        Ok (h ++ e ++ b ++ c1 ++ c2 ++ r)
      else dump_pgd n (i + 1) (pgd + 8) pgd_flag pmd_flag
  end.

Definition dump_pgtable_verbose (pgdp : Z) : outcome (list Z) :=
  let! t1 := say fuel (line 0 "{") [] in
  let! t2 := dump_pgd 512 0 pgdp true true in
  let! t3 := say fuel (line 4 "],") [] in
  let! t4 := say fuel (line 0 "}") [] in
  Ok (t1 ++ t2 ++ t3 ++ t4).
End Dump.

(** ** The memory map *)

(** [float]: the 32-bit format, and the promotion of an argument. *)
Definition float_of (n : Z) : spec_float := binary_normalize 24 128 n 0 false.
Definition fdivf : spec_float -> spec_float -> spec_float := SFdiv 24 128.
Definition promote (x : spec_float) : double :=
  match x with S754_finite s mant e => binary_normalize 53 1024 (cond_Zopp s (Zpos mant)) e s | _ => x end.

(** The unit and the number to print, when the length has one.  The limits with
    [UL] compare as [unsigned long]; [/] truncates. *)
Definition image_unit (length : Z) : option (Z * spec_float) :=
  let KB := float_of 1024 in
  let G := 1024 * 1024 * 1024 in
  if (0 <=? length) && (length <? 1024) then Some (chr " "%char, float_of length)
  else if (1024 <=? length) && (length <? 1024 * 1024) then Some (chr "K"%char, fdivf (float_of length) KB)
  else if (1024 * 1024 <=? length) && (u64 length <? G) then
    Some (chr "M"%char, fdivf (float_of (Z.quot length 1024)) KB)
  else if (G <=? u64 length) && (u64 length <? 1024 * G) then
    Some (chr "G"%char, fdivf (float_of (Z.quot (Z.quot length 1024) 1024)) KB)
  else None.

(** [m] holds the two formats and [name]; [type0] and [size0] are what the
    variables hold when nothing was assigned. *)
Definition dump_image_info (fuel : nat) (m : memory) (fmt_bad fmt : Z) (type0 : Z) (size0 : spec_float)
    (start end_ name : Z) : outcome (list Z) :=
  let length := s64 (end_ - start) in
  let! (t, (type, size)) :=
    (match image_unit length with
     | Some ts => Ok ([], ts)
     | None => let! t := kprintf fuel m fmt_bad [] in Ok (t, (type0, size0))
     end) in
  let! r := kprintf fuel m fmt [VInt start; VInt end_; VDouble (promote size); VInt type; VInt name] in
  Ok (t ++ r).

(** ** Printing a format of one piece *)

(** [ev r t]: with enough fuel [r] returns [t]. *)
Definition ev {A} (r : nat -> outcome A) (t : A) : Prop := exists n, forall fuel, (n <= fuel)%nat -> r fuel = Ok t.

Lemma ev_ret {A} (t : A) : ev (fun _ => Ok t) t.
Proof. by exists O. Qed.

Lemma ev_bind {A B} (r : nat -> outcome A) (k : A -> nat -> outcome B) t u :
  ev r t -> ev (k t) u -> ev (fun fuel => let! x := r fuel in k x fuel) u.
Proof. intros [n Hn] [n' Hn']. exists (n + n')%nat. intros fuel Hf. rewrite Hn by lia. cbn [obind]. apply Hn'. lia. Qed.

Lemma bytes_at_holds a l : holds (OutputSpec.bytes_at a l) a l.
Proof.
  intros i b Hb. unfold OutputSpec.bytes_at. apply elem_of_list_to_map_1'.
  - intros y [j Hj]%list_elem_of_lookup. rewrite list_lookup_imap in Hj.
    destruct (l !! j) as [c|] eqn:E; cbn in Hj; [|done]. injection Hj as Hj <-.
    replace j with i in E by lia. congruence.
  - apply list_elem_of_lookup. exists i. by rewrite list_lookup_imap, Hb.
Qed.

Definition plain (cs : list Z) : bool := forallb (fun c => (0 <? c) && (c <? 256) && negb (c =? 37)) cs.

Lemma plain_app xs ys : plain (xs ++ ys) = plain xs && plain ys.
Proof. apply forallb_app. Qed.

Lemma plain_spaces k : plain (replicate k 32) = true.
Proof. by induction k. Qed.

Lemma plain_items m cs its ap text : plain cs = true -> renders m its ap text ->
  renders m (map Char cs ++ its) ap (cs ++ text) /\ fmt_chars (map Char cs ++ its) = cs ++ fmt_chars its.
Proof.
  unfold plain, fmt_chars. induction cs as [|c cs IH]; cbn [forallb map app flat_map]; intros Hp Hr; [done|].
  apply andb_true_iff in Hp as [Hc Hp]. rewrite !andb_true_iff, !Z.ltb_lt, negb_true_iff in Hc.
  destruct Hc as [Hc Hn]. destruct (IH Hp Hr) as [H1 H2]. split; [by constructor|].
  cbn [item_chars]. rewrite Hn, H2. done.
Qed.

Lemma say_renders its ap text fmt : renders (OutputSpec.bytes_at rodata (fmt ++ [0])) its ap text -> fmt_chars its = fmt ->
  ev (fun fuel => say fuel fmt ap) text.
Proof.
  intros Hr Hf. apply (vprintf_renders _ its ap text Hr rodata). rewrite Hf. apply bytes_at_holds.
Qed.

Lemma say_plain cs : plain cs = true -> ev (fun fuel => say fuel cs []) cs.
Proof.
  intros Hp. destruct (plain_items (OutputSpec.bytes_at rodata (cs ++ [0])) cs [] [] [] Hp) as [H1 H2]; [constructor|].
  rewrite !app_nil_r in *. by apply (say_renders (map Char cs)).
Qed.

(** The three conversions of the dump. *)
Definition dir_ld : directive := MkDir false false false false false NNone NNone Sl Cd.
Definition dir_p : directive := MkDir false false false false false NNone NNone Snone Cp.
Definition dir_lx : directive := MkDir false false false false false NNone NNone Sl Cx.
Definition shown (d : directive) (v : Z) : list Z := int_text d false 0 None v.

Lemma say_dir before d after fmt v : plain before = true -> plain after = true -> d ∈ [dir_ld; dir_p; dir_lx] ->
  head after <> Some 86 -> fmt = before ++ 37 :: dir_chars d ++ after ->
  ev (fun fuel => say fuel fmt [VInt v]) (before ++ shown d v ++ after).
Proof.
  intros Hp Hq Hd Hh ->. set (fmt := before ++ 37 :: dir_chars d ++ after).
  destruct (plain_items (OutputSpec.bytes_at rodata (fmt ++ [0])) after [] [] [] Hq) as [Q1 Q2]; [constructor|].
  rewrite !app_nil_r in *.
  assert (R : renders (OutputSpec.bytes_at rodata (fmt ++ [0])) (Dir d :: map Char after) [VInt v] (shown d v ++ after)).
  { assert (wid d = NNone /\ pre d = NNone /\ minus d = false /\ cv d <> Cc /\ cv d <> Cs) as (Hw & Hpr & Hm & Hc & Hs)
      by (set_unfold; destruct_or!; subst d; done).
    eapply (renders_dir _ _ _ _ None _ None); [rewrite Hw; constructor|by rewrite Hw|rewrite Hpr; constructor| | |exact Q1].
    - unfold left_of, width_of. rewrite Hm. apply text_int; cbn; done || lia.
    - intros _. by rewrite Q2. }
  destruct (plain_items _ before _ _ _ Hp R) as [P1 P2].
  apply (say_renders _ _ _ _ P1). rewrite P2. unfold fmt, fmt_chars in *. cbn [flat_map item_chars app]. rewrite Q2.
  by rewrite app_comm_cons, app_assoc.
Qed.

(** ** The text of a dump *)

Definition field (k : nat) (name : string) (d : directive) (v : Z) : list Z :=
  (replicate k 32 ++ json name) ++ shown d v ++ json "'," ++ [10].

Definition entry_text (k : nat) (e : Z * Z * Z) : list Z :=
  line k "{" ++ field (k + 4) "'idx': '" dir_ld e.1.1 ++ field (k + 4) "'addr': '" dir_p e.1.2 ++
  field (k + 4) "'value': '0x" dir_lx e.2.

(** The header of a list is printed with its first entry. *)
Definition header {A} (flag : bool) (es : list A) (h : list Z) : list Z :=
  match es with [] => [] | _ => if flag then h else [] end.

Section Text.
Context (m : wmem) (is_idmap : bool).

(** The index, address and value of the descriptors in use among [n] from [a] on. *)
Fixpoint used_from (n : nat) (i a : Z) : list (Z * Z * Z) :=
  match n with
  | O => []
  | S n =>
      let v := default 0 (m !! a) in
      (if negb (v =? 0) then [(i, a, v)] else []) ++ used_from n (i + 1) (a + 8)
  end.
Definition used (table : Z) : list (Z * Z * Z) := used_from 512 0 table.
Definition children (e : Z * Z * Z) : list (Z * Z * Z) := used (next_table is_idmap e.2).
Definition is_table (e : Z * Z * Z) : bool := Z.land e.2 PTE_TYPE_PAGE =? PTE_TYPE_PAGE.

Definition pte_text (flag : bool) (es : list (Z * Z * Z)) : list Z :=
  header flag es (line 27 "'pte': [") ++ flat_map (fun e => entry_text 31 e ++ line 31 "},") es.
Definition below_text (e : Z * Z * Z) : list Z :=
  if is_table e then pte_text true (children e) ++ line 27 "]," else [].
Definition pmd_text (flag : bool) (es : list (Z * Z * Z)) : list Z :=
  header flag es (line 19 "'pmd': [") ++ flat_map (fun e => entry_text 23 e ++ below_text e ++ line 23 "},") es.

(** The second header comes with the first descriptor of all second-level tables. *)
Fixpoint pgd_body (flag : bool) (es : list (Z * Z * Z)) : list Z :=
  match es with
  | [] => []
  | e :: es =>
      entry_text 7 e ++ pmd_text flag (children e) ++ line 11 "]," ++ line 7 "}," ++
      pgd_body (flag && bool_decide (children e = [])) es
  end.

Definition dump_text (root : Z) : list Z :=
  line 0 "{" ++ (header true (used root) (line 3 "'pgd': [") ++ pgd_body true (used root)) ++ line 4 "]," ++ line 0 "}".

(** Every table the dump follows can be read. *)
Definition readable (t : Z) : Prop := mapped_page m t.
Definition dumpable (root : Z) : Prop :=
  readable root /\
  forall e, In e (used root) -> readable (next_table is_idmap e.2) /\
    forall e', In e' (children e) -> is_table e' = true -> readable (next_table is_idmap e'.2).

(** *** The loops *)

Lemma say_line k s : plain (json s) = true -> ev (fun fuel => say fuel (line k s) []) (line k s).
Proof.
  intros Hp. apply say_plain. unfold line. rewrite !plain_app, plain_spaces, Hp. done.
Qed.

Lemma say_field k name d spec v : plain (json name) = true -> d ∈ [dir_ld; dir_p; dir_lx] ->
  json spec = json name ++ 37 :: dir_chars d ++ json "'," ->
  ev (fun fuel => say fuel (line k spec) [VInt v]) (field k name d v).
Proof.
  intros Hp Hd Hs. apply say_dir; [|done|done|done|].
  - by rewrite plain_app, plain_spaces, Hp.
  - unfold line. rewrite Hs, <- !app_assoc. cbn [app]. by rewrite <- app_assoc.
Qed.

Lemma entry_ok k i a v : ev (fun fuel => say_entry fuel k i a v) (entry_text k (i, a, v)).
Proof.
  unfold say_entry, entry_text.
  eapply ev_bind; [by apply say_line|].
  eapply ev_bind; [apply (say_field _ "'idx': '" dir_ld); [done|set_solver|done]|].
  eapply ev_bind; [apply (say_field _ "'addr': '" dir_p); [done|set_solver|done]|].
  eapply ev_bind; [apply (say_field _ "'value': '0x" dir_lx); [done|set_solver|done]|].
  apply ev_ret.
Qed.

Lemma once_ok flag k s : plain (json s) = true ->
  ev (fun fuel => say_once fuel flag (line k s)) (if flag then line k s else []).
Proof. intros Hp. destruct flag; [by apply say_line|apply ev_ret]. Qed.

(** [n] descriptors from [a] on can be read. *)
Definition reads_from (n : nat) (a : Z) : Prop := forall j, 0 <= j < Z.of_nat n -> is_Some (m !! (a + 8 * j)).

Lemma reads_from_S n a : reads_from (S n) a -> exists v, m !! a = Some v /\ reads_from n (a + 8).
Proof.
  intros H. destruct (H 0 ltac:(lia)) as [v Hv]. exists v. split; [by replace (a + 8 * 0) with a in Hv by lia|].
  intros j Hj. replace (a + 8 + 8 * j) with (a + 8 * (j + 1)) by lia. apply H. lia.
Qed.

Lemma readable_from t : readable t -> reads_from 512 t.
Proof. intros H j Hj. apply H. lia. Qed.

Lemma pte_ok n l a flag : reads_from n a -> ev (fun fuel => dump_pte m fuel n l a flag) (pte_text flag (used_from n l a)).
Proof.
  revert l a flag. induction n as [|n IH]; intros l a flag Hr; [apply ev_ret|].
  destruct (reads_from_S n a Hr) as (v & Hv & Hr'). cbn [dump_pte used_from]. unfold ldw. rewrite Hv. change (default 0 (Some v)) with v. cbn [obind].
  destruct (negb (v =? 0)); [|apply (IH (l + 1) (a + 8) flag Hr')].
  unfold pte_text. cbn [app header flat_map]. eapply ev_bind; [by apply once_ok|]. eapply ev_bind; [apply entry_ok|].
  eapply ev_bind; [by apply say_line|]. eapply ev_bind; [apply (IH (l + 1) (a + 8) false Hr')|].
  assert (E : pte_text false (used_from n (l + 1) (a + 8)) = flat_map (fun e => entry_text 31 e ++ line 31 "},") (used_from n (l + 1) (a + 8)))
    by (unfold pte_text, header; by destruct (used_from n (l + 1) (a + 8))).
  rewrite E, <- !app_assoc. apply ev_ret.
Qed.

Lemma below_ok e : (is_table e = true -> readable (next_table is_idmap e.2)) ->
  ev (fun fuel => dump_below m is_idmap fuel e.2) (below_text e).
Proof.
  intros Hr. unfold dump_below, below_text. fold (is_table e). destruct (is_table e); [|apply ev_ret].
  eapply ev_bind; [by apply pte_ok, readable_from, Hr|]. eapply ev_bind; [by apply say_line|]. apply ev_ret.
Qed.

Lemma pmd_ok n k a flag : reads_from n a ->
  (forall e, In e (used_from n k a) -> is_table e = true -> readable (next_table is_idmap e.2)) ->
  ev (fun fuel => dump_pmd m is_idmap fuel n k a flag)
     (pmd_text flag (used_from n k a), flag && bool_decide (used_from n k a = [])).
Proof.
  revert k a flag. induction n as [|n IH]; intros k a flag Hr Hb; [cbn; rewrite andb_true_r; apply ev_ret|].
  destruct (reads_from_S n a Hr) as (v & Hv & Hr'). cbn [dump_pmd used_from] in *. unfold ldw. rewrite Hv in *. change (default 0 (Some v)) with v in *. cbn [obind] in *.
  destruct (negb (v =? 0)); [|apply (IH (k + 1) (a + 8) flag Hr' Hb)].
  unfold pmd_text. cbn [app header flat_map]. rewrite bool_decide_eq_false_2, andb_false_r by done.
  eapply ev_bind; [by apply once_ok|]. eapply ev_bind; [apply entry_ok|].
  eapply ev_bind; [apply (below_ok (k, a, v)), Hb; by left|]. eapply ev_bind; [by apply say_line|].
  eapply ev_bind; [apply (IH (k + 1) (a + 8) false Hr'); intros e He; apply Hb; by right|]. cbn [andb].
  assert (E : pmd_text false (used_from n (k + 1) (a + 8)) =
    flat_map (fun e => entry_text 23 e ++ below_text e ++ line 23 "},") (used_from n (k + 1) (a + 8)))
    by (unfold pmd_text, header; by destruct (used_from n (k + 1) (a + 8))).
  rewrite E, <- !app_assoc. apply ev_ret.
Qed.

Lemma pgd_ok n i a flag pflag : reads_from n a ->
  (forall e, In e (used_from n i a) -> readable (next_table is_idmap e.2) /\
     forall e', In e' (children e) -> is_table e' = true -> readable (next_table is_idmap e'.2)) ->
  ev (fun fuel => dump_pgd m is_idmap fuel n i a flag pflag)
     (header flag (used_from n i a) (line 3 "'pgd': [") ++ pgd_body pflag (used_from n i a)).
Proof.
  revert i a flag pflag. induction n as [|n IH]; intros i a flag pflag Hr Hb; [apply ev_ret|].
  destruct (reads_from_S n a Hr) as (v & Hv & Hr'). cbn [dump_pgd used_from] in *. unfold ldw. rewrite Hv in *. change (default 0 (Some v)) with v in *. cbn [obind] in *.
  destruct (negb (v =? 0)); [|apply (IH (i + 1) (a + 8) flag pflag Hr' Hb)].
  destruct (Hb (i, a, v)) as [Ht Hts]; [by left|]. cbn [app header pgd_body].
  eapply ev_bind; [by apply once_ok|]. eapply ev_bind; [apply entry_ok|].
  eapply ev_bind; [apply pmd_ok; [by apply readable_from|exact Hts]|]. fold (used (next_table is_idmap v)).
  eapply ev_bind; [by apply say_line|]. eapply ev_bind; [by apply say_line|].
  eapply ev_bind; [apply (IH (i + 1) (a + 8) false _ Hr'); intros e He; apply Hb; by right|].
  unfold header at 1. assert (E : (match used_from n (i + 1) (a + 8) with [] => [] | _ :: _ => [] end : list Z) = [])
    by (by destruct (used_from n (i + 1) (a + 8))).
  rewrite E. cbn [app]. apply ev_ret.
Qed.
End Text.

(** ** Brackets *)

(** Opening less closing square brackets. *)
Definition bracket (c : Z) : Z := if c =? 91 then 1 else if c =? 93 then -1 else 0.
Fixpoint balance (t : list Z) : Z := match t with [] => 0 | c :: t => bracket c + balance t end.

Lemma balance_app t u : balance (t ++ u) = balance t + balance u.
Proof. induction t as [|c t IH]; cbn [app balance]; [done|]. rewrite IH. lia. Qed.

Lemma balance_none t : Forall (fun c => c <> 91 /\ c <> 93) t -> balance t = 0.
Proof.
  induction 1 as [|c t [H1 H2] _ IH]; cbn [balance]; [done|]. unfold bracket.
  by rewrite (proj2 (Z.eqb_neq c 91)), (proj2 (Z.eqb_neq c 93)), IH.
Qed.

Lemma balance_line k s : balance (line k s) = balance (json s).
Proof.
  unfold line. rewrite !balance_app, (balance_none (replicate k 32)); [cbn; lia|]. by apply Forall_replicate.
Qed.

Lemma balance_numeral b x : 2 <= b <= 16 -> 0 <= x -> balance (numeral false b x) = 0.
Proof.
  intros Hb Hx. apply balance_none. unfold numeral. apply Forall_rev, Forall_fmap.
  eapply Forall_impl; [apply (digits_bound b Hb); lia|]. intros d Hd. cbn in *. unfold digit_char. repeat destr_if; breflect; lia.
Qed.

Lemma balance_shown d v : d ∈ [dir_ld; dir_p; dir_lx] -> balance (shown d v) = 0.
Proof.
  intros Hd.
  assert (zero d = false /\ 2 <= conv_base (cv d) <= 16 /\ conv_upper (cv d) = false) as (Hz & Hb & Hu)
    by (set_unfold; destruct_or!; subst d; cbn; split_and!; done || lia).
  unfold shown, int_text, int_field, pad. rewrite Hz, Hu. cbn [andb app].
  change (digits_of false (conv_base (cv d)) None (Z.abs (int_value d v))) with (numeral false (conv_base (cv d)) (Z.abs (int_value d v))).
  rewrite !balance_app, (balance_numeral _ _ Hb (Z.abs_nonneg _)).
  match goal with |- _ + (balance ?p + 0) = 0 => assert (balance p = 0) as -> end.
  - set_unfold. destruct_or!; subst d; cbn [cv dir_ld dir_p dir_lx]; unfold sign_prefix, alt_prefix; cbn [cv plus space alt];
      repeat destr_if; done.
  - rewrite balance_none; [lia|]. unfold spaces. by apply Forall_replicate.
Qed.

Lemma balance_field k name d v : balance (json name) = 0 -> d ∈ [dir_ld; dir_p; dir_lx] -> balance (field k name d v) = 0.
Proof.
  intros Hn Hd. unfold field. rewrite !balance_app, Hn, balance_shown by done.
  rewrite (balance_none (replicate k 32)) by (by apply Forall_replicate). done.
Qed.

Lemma balance_entry k e : balance (entry_text k e) = 0.
Proof.
  unfold entry_text. rewrite !balance_app, balance_line, !balance_field by (done || set_solver). done.
Qed.

Section Balance.
Context (m : wmem) (is_idmap : bool).

Lemma balance_pte es : balance (pte_text true es) = if bool_decide (es = []) then 0 else 1.
Proof.
  unfold pte_text. rewrite balance_app.
  assert (balance (flat_map (fun e => entry_text 31 e ++ line 31 "},") es) = 0) as ->.
  { induction es as [|e es IH]; cbn [flat_map]; [done|]. by rewrite !balance_app, balance_entry, balance_line, IH. }
  unfold header. destruct es; [done|]. rewrite balance_line. done.
Qed.

Lemma balance_below e : balance (below_text m is_idmap e) <= 0.
Proof.
  unfold below_text. destruct (is_table e); [|done]. rewrite balance_app, balance_pte, balance_line.
  change (balance (json "],")) with (-1). destr_if; lia.
Qed.

Lemma balance_pmd flag es :
  balance (pmd_text m is_idmap flag es) <= if flag && negb (bool_decide (es = [])) then 1 else 0.
Proof.
  unfold pmd_text. rewrite balance_app.
  assert (balance (flat_map (fun e => entry_text 23 e ++ below_text m is_idmap e ++ line 23 "},") es) <= 0).
  { induction es as [|e es IH]; cbn [flat_map]; [done|]. rewrite !balance_app, balance_entry, balance_line.
    change (balance (json "},")) with 0. pose proof (balance_below e). lia. }
  unfold header. destruct es as [|e es]; [cbn in *; destruct flag; cbn; lia|].
  rewrite bool_decide_eq_false_2 by done. destruct flag; cbn [andb negb]; [rewrite balance_line|cbn [balance]; lia].
  change (balance (json "'pmd': [")) with 1. lia.
Qed.

Lemma balance_pgd flag es : balance (pgd_body m is_idmap flag es) <= (if flag then 1 else 0) - Z.of_nat (length es).
Proof.
  revert flag. induction es as [|e es IH]; intros flag; cbn [pgd_body length]; [destruct flag; cbn; lia|].
  rewrite !balance_app, balance_entry, !balance_line. change (balance (json "],")) with (-1). change (balance (json "},")) with 0.
  pose proof (balance_pmd flag (children m is_idmap e)) as H.
  specialize (IH (flag && bool_decide (children m is_idmap e = []))).
  destruct flag, (bool_decide (children m is_idmap e = [])); cbn [andb negb] in *; lia.
Qed.
End Balance.

(** ** Theorems *)

Module ReportSpec.

(** The dump prints the used descriptors, each once, in the order of the walk.  For a
    tree of tables that can be read, [dump_pgtable_verbose] returns, and what it has
    printed is the text of [dump_text]: for every nonzero descriptor of the root and
    of the tables below, its index, address and value. *)
Theorem dump_prints m is_idmap root : dumpable m is_idmap root ->
  exists n, forall fuel, (n <= fuel)%nat -> dump_pgtable_verbose m is_idmap fuel root = Ok (dump_text m is_idmap root).
Proof.
  intros [Hr Hc]. change (ev (fun fuel => dump_pgtable_verbose m is_idmap fuel root) (dump_text m is_idmap root)).
  unfold dump_pgtable_verbose, dump_text. eapply ev_bind; [by apply say_line|].
  eapply ev_bind; [apply pgd_ok; [by apply readable_from|exact Hc]|].
  eapply ev_bind; [by apply say_line|]. eapply ev_bind; [by apply say_line|]. apply ev_ret.
Qed.

(** The output is meant to be JSON, but as soon as two descriptors of the root are in
    use it closes more brackets than it opens. *)
Theorem dump_unbalanced m is_idmap root : (2 <= length (used m root))%nat -> balance (dump_text m is_idmap root) < 0.
Proof.
  intros Hl. unfold dump_text. rewrite !balance_app, !balance_line.
  change (balance (json "{")) with 0. change (balance (json "}")) with 0. change (balance (json "],")) with (-1).
  pose proof (balance_pgd m is_idmap true (used m root)). unfold header.
  destruct (used m root) as [|e es]; [cbn in Hl; lia|]. rewrite balance_line. change (balance (json "'pgd': [")) with 1. lia.
Qed.

(** One megabyte and a half from 0x40000000, as the memory map shows it. *)
Example image_report :
  let m := OutputSpec.bytes_at 4096 (chars "physic address [0x%016x, 0x%016x] | %.3f%cB | %s" ++ [10; 0]) ∪
           OutputSpec.bytes_at 8192 (chars "Boot" ++ [0]) in
  dump_image_info 200 m 0 4096 0 (float_of 0) 0x40000000 0x40180000 8192 =
  Ok (chars "[K] physic address [0x0000000040000000, 0x0000000040180000] | 1.500MB | Boot" ++ [10]).
Proof. vm_compute. reflexivity. Qed.

(** An address above 4 GiB is printed without its upper half: [%x] takes an [unsigned int]. *)
Example image_address_truncated :
  let m := OutputSpec.bytes_at 4096 (chars "physic address [0x%016x, 0x%016x] | %.3f%cB | %s" ++ [10; 0]) ∪
           OutputSpec.bytes_at 8192 (chars "Free RAM" ++ [0]) in
  dump_image_info 200 m 0 4096 0 (float_of 0) 0x140000000 0x140000200 8192 =
  Ok (chars "[K] physic address [0x0000000040000000, 0x0000000040000200] | 512.000 B | Free RAM" ++ [10]).
Proof. vm_compute. reflexivity. Qed.

(** A region that ends before it starts has no unit; the report prints what the variables held. *)
Example image_unit_missing : image_unit (-1) = None /\ image_unit (2 ^ 40) = None.
Proof. split; reflexivity. Qed.

End ReportSpec.
